(* ===== verification/_CoqProject ===== *)
-Q . S2P
Prelude.v
Interfaces.v
Instances.v
TimeBuckets.v
Sql.v
SqlCheck.v
Migrations.v
MigrationFaults.v
MigrationRestart.v
Models.v
Effects.v
Occ.v
Transition.v
Amounts.v
Texts.v
Orders.v
BlindSig.v
Admin.v
Disputes.v
Chat.v
Writers.v
Auth.v
RateLimit.v
Gateway.v
Routes.v
Listings.v
Blobs.v
Serde.v
ListingContent.v
Worker.v
ClientFlow.v
TimeLock.v
ListingExpiry.v
Rpc.v
XmrClient.v
BtcClient.v
Noise.v
Escrow.v
KeyStorage.v
AppConfig.v
Tor.v
NodeClients.v
Startup.v
NodeReads.v
Poller.v
PollSpec.v
NotificationScanner.v
DummyWorker.v
CoinSwap.v
Interleave.v
Jobs.v
Subscribe.v
System.v
