(* ===== verification/Prelude.v ===== *)
(** * A verification library for the marketplace server, worker and WASM client

    The program is a marketplace whose API server stores only encrypted blobs
    (src/main.rs, src/gateway/, src/services/), a worker process that holds the
    key to some of them and runs periodic jobs (src/bin/worker.rs, src/worker/,
    src/background/), and a WASM module for the browser (wasm/src/).  Both
    processes share one SQLite database and talk to a Monero and a Bitcoin node
    through a pool of Tor circuits.

    ** How the program is modelled

    Pure code is a Rocq function.  A Rust [Result] is a sum, [Option] an
    [option], a panic [None] (pure code) or [Panic] (programs).  Integers are [Z]
    with their width written out: wrapping casts, saturating operations, and
    plain operators that panic or wrap according to the build profile
    ([BuildProfile]).  Bytes are Standard Library bytes, strings are their UTF-8
    bytes, [f64] is the Standard Library's [spec_float].

    Code with effects is a [prog] (Effects.v): a tree of effects, each of them
    one awaited SQL statement, one locked access to a process-wide cache, one
    clock or random reading, one request to a node.  [run] executes a program
    sequentially against a [World] (tables, caches, files) and an [Env] (what
    clock, generators, nodes and database faults answer, freely chosen at every
    effect); [pool_step] interleaves any number of programs effect by effect.

    Two parts have a state of their own.  Migrations run on a database with a
    schema (Sql.v): a [host] says which call fails, what other processes do
    between two calls, and where a crash stops the run.  The start of a process
    ([start], Startup.v) is a program over a [Machine] (files and variables,
    AppConfig.v) and that database; the state it returns is what the jobs
    (Jobs.v) and the handlers run with.

    Third-party crates are type classes (Interfaces.v, Serde.v, Texts.v, and next
    to their use in Escrow.v, KeyStorage.v, ListingContent.v, AppConfig.v, Tor.v,
    Noise.v, DummyWorker.v, BtcClient.v and Migrations.v).  A [...Laws] class
    states the documented behaviour a theorem relies on, and has a concrete
    instance wherever a witness evaluates the model on concrete data.

    ** The files

    - Prelude.v: bytes, machine integers, tactics, lemmas on lists.
    - Interfaces.v, Instances.v: the crates and instances of them.
    - TimeBuckets.v: crypto/zk.rs (floor_timestamp_6h), crypto/hmac_auth.rs
      (hour buckets), crypto/differential_privacy.rs (the integer part);
      Noise.v: the Laplace sampling of the same file in binary64.
    - Sql.v: the statements that manage the schema, with a type system for
      databases; SqlCheck.v: a static check of scripts of them, proved sound.
    - Migrations.v: db/mod.rs, the eighteen migrations as data and the runner;
      MigrationFaults.v: runs with failing calls, crashes and races;
      MigrationRestart.v: the start after one that stopped.
    - Models.v: db/models.rs, the rows, the order data, the state machine.
    - Effects.v: error.rs, the effects and both semantics, SQL on the tables.
    - Occ.v: optimistic concurrency control of order rows.
    - Transition.v: crypto/transition_sig.rs and wasm/src/transition.rs.
    - Amounts.v: the amount parsers of background/payment_poller.rs.
    - Texts.v: the string functions of the Standard Library the source calls.
    - Orders.v, Disputes.v, Chat.v, Listings.v, Admin.v: the handlers of
      services/; Writers.v: the five handlers that write an order, together.
    - BlindSig.v: crypto/blind_sig.rs.
    - Auth.v: gateway/stateless_auth.rs, gateway/auth_common.rs,
      services/auth.rs, crypto/hash.rs, crypto/hmac_auth.rs.
    - RateLimit.v: gateway/ratelimit.rs; Gateway.v: the other middlewares of
      gateway/ and their order in gateway/mod.rs; Routes.v: its route table.
    - Blobs.v: crypto/oblivious.rs, EncryptedBlob of crypto/zk.rs, messages of
      crypto/client.rs, domain keys, and the blobs of wasm/src/.
    - KeyStorage.v: the key types of crypto/zk.rs, owner keys and master seed of
      crypto/escrow.rs, crypto/wallet.rs.
    - Serde.v: JSON of the encrypted structures; ListingContent.v: listing
      content, key pairs and search tokens of crypto/client.rs, crypto/zk.rs and
      wasm/src/keygen.rs.
    - Worker.v: what the jobs share (worker key, write back of a row, sweeps).
    - TimeLock.v, ListingExpiry.v, Poller.v, NotificationScanner.v,
      DummyWorker.v: the five jobs of background/; NodeReads.v: what their
      requests to the nodes leave alone; PollSpec.v: what a poll of the Monero
      orders means, and that it does so.
    - Rpc.v, XmrClient.v, BtcClient.v: services/payments/xmr.rs, btc.rs,
      btc_client.rs; CoinSwap.v: services/payments/coinswap.rs.
    - Escrow.v: crypto/stealth.rs, order keys of crypto/escrow.rs,
      services/escrow/btc.rs, services/payments/stealth_escrow.rs.
    - AppConfig.v: config.rs; Tor.v: tor/mod.rs and gateway/socks_pool.rs;
      NodeClients.v: the node clients the worker holds.
    - Startup.v: main.rs, bin/worker.rs, gateway/state.rs and the construction of
      the state in gateway/mod.rs, crypto/worker_pubkey.rs, services/public.rs.
    - Interleave.v: rely-guarantee reasoning for programs that share the orders;
      Jobs.v: the loops of worker/mod.rs, interleaved.
    - Subscribe.v: services/payments/subscribe.rs and the two processes with
      their channels.
    - ClientFlow.v: what a client computes and the handlers that receive it;
      System.v: both processes over one database.

    ** What the theorems show

    - Orders and their writers: an update is signed, replaces exactly one version
      and loses no other (Occ, Writers, Orders); what is created is read back;
      failures leave the tables alone; a nonce is used once; every lifecycle
      ends (Models).
      What the browser signs is stored and handed out again, whoever signs
      (ClientFlow).
    - From a key pair to a request behind the gateway (ClientFlow): an honest
      client is let through.
    - The running system (System): requests and jobs interleaved in any way only
      take an order through legal updates, each from the row just before it.
    - Disputes and administration: effects and authorisation of each handler; a
      token blinded, signed and unblinded is accepted (ClientFlow), and what the
      open endpoint allows.
    - Access: soundness and completeness of request authentication, the exact
      reach of the replay cache, single use of challenges, the burst bound of
      the rate limiter, that nothing passes the stack of middlewares
      unauthenticated, and which routes are exempt from it.
    - Listings: search pages partition the hits in order; round trips of the
      rows and of the encrypted content.
    - Encryption: what the browser encrypts the worker decrypts, with the key the
      worker published when it started; the signatures of the browser are those
      the server checks, and bind every field.
    - Jobs: the time-lock and expiry sweeps refine their specification ([due],
      [past_expiry]) and under faults only make legal transitions; the poller
      funds an order only for a payment its node reported, and a whole poll
      carries out the verdict on every waiting Monero order; a notification is
      read back as it was written; the five jobs together, in any interleaving,
      take every order through legal single-version updates (Jobs).
    - Settlement: the transaction spends every output, splits the sum exactly,
      and is signed input by input with the key the escrow address pays; a coin
      swap is a chain of such transactions.
    - Node clients: exactly which reorganisations are noticed; the slots of the
      pool keep distinct and fixed proxy credentials through any number of
      health rounds and rotations.
    - Schema: migrations finish, from any version and whatever rows the tables
      hold, with the tables the program reads; under any fault they keep the
      database well formed and every order; which interrupted runs the next
      start completes, and which database no start completes.
    - Startup: both processes start on a working machine; one that runs has a
      checked configuration and only the keys it may hold; what is saved is
      loaded.

    ** Bounds and fuel

    Programs are finite trees and loops recurse on lists, so [run] needs no fuel.
    A loop of the worker recurses on its list of ticks, a pool of programs takes
    any number of steps.  [strip_all] (Amounts.v), [split_ws] (Texts.v) and
    [dec_digits] (Amounts.v) recurse on a number: the length of the text, of
    which each step removes a byte, and twenty digits, which every [u64] has at
    most.  Versions of rows are unbounded integers in the SQL
    statements, as SQLite would need 2^63 updates of one row to differ.

    ** What is not modelled

    Log lines, pauses and the random lengths of intervals; percent-decoding and
    body extraction of the web framework, its listener and its static files; the
    start of the tor process and the wait for its host name (an answer of the
    environment); the unused trait Validatable; the case mapping of letters
    beyond ASCII; the frontend, the contract and the scripts, which are not
    Rust. *)
From Stdlib Require Export ZArith Lia.
From Stdlib Require Import Strings.Byte.
From Stdlib Require Export Strings.Ascii Strings.String.
From stdpp Require Export base gmap strings list fin_maps sorting.
#[global] Open Scope string_scope.
#[global] Open Scope list_scope.
#[global] Open Scope Z_scope.

(** ** Scope, notations and hint databases of the development *)

Declare Scope mkt_scope.
Delimit Scope mkt_scope with mkt.
#[global] Open Scope mkt_scope.

Create HintDb mkt.

(** ** Bytes

    A Rust [u8] is the Standard Library's [byte]; [Vec<u8>] and [&[u8]] are
    lists of bytes.  A Rust [String]/[&str] is a [string] whose characters are
    the bytes of its UTF-8 encoding, so that [len()] is [String.length]. *)

Abbreviation byte := Byte.byte.
Abbreviation bytes := (list Byte.byte).
Abbreviation length := List.length.

#[global] Instance byte_eq_dec : EqDecision byte.
Proof. intros a b. exact (Byte.byte_eq_dec a b). Defined.

#[global] Program Instance byte_countable : Countable byte :=
  inj_countable Byte.to_N Byte.of_N _.
Next Obligation. intros b. apply Byte.of_to_N. Qed.

Definition byte_val (b : byte) : Z := Z.of_N (Byte.to_N b).

Definition byte_of_Z (z : Z) : byte :=
  match Byte.of_N (Z.to_N (z mod 256)) with Some b => b | None => Byte.x00 end.

(** [s.as_bytes()] and [b"..."]. *)
Definition as_bytes (s : string) : bytes := String.list_byte_of_string s.
Definition of_utf8 (b : bytes) : string := String.string_of_list_byte b.

(** [u64::to_le_bytes]: the eight bytes of a 64-bit word, low byte first. *)
Fixpoint le_bytes (n : nat) (z : Z) : bytes :=
  match n with
  | O => []
  | S n' => byte_of_Z z :: le_bytes n' (z / 256)
  end.

Fixpoint le_val (l : bytes) : Z :=
  match l with
  | [] => 0
  | b :: t => byte_val b + 256 * le_val t
  end.

(** ** Machine integers *)

Definition i64_min : Z := - 2 ^ 63.
Definition i64_max : Z := 2 ^ 63 - 1.
Definition u64_max : Z := 2 ^ 64 - 1.

Definition in_i64 (z : Z) : Prop := i64_min <= z <= i64_max.
Definition in_u64 (z : Z) : Prop := 0 <= z <= u64_max.

#[global] Instance in_i64_dec z : Decision (in_i64 z).
Proof. unfold in_i64. apply _. Defined.
#[global] Instance in_u64_dec z : Decision (in_u64 z).
Proof. unfold in_u64. apply _. Defined.

(** Two's complement wrap-around and the [as i64] / [as u64] casts. *)
Definition u64_wrap (z : Z) : Z := z mod 2 ^ 64.
Definition i64_wrap (z : Z) : Z := (z + 2 ^ 63) mod 2 ^ 64 - 2 ^ 63.

(** [saturating_add], [saturating_mul], [saturating_sub]. *)
Definition i64_sat (z : Z) : Z := Z.max i64_min (Z.min i64_max z).
Definition u64_sat (z : Z) : Z := Z.max 0 (Z.min u64_max z).
Definition i64_sat_add (a b : Z) : Z := i64_sat (a + b).
Definition i64_sat_mul (a b : Z) : Z := i64_sat (a * b).
Definition u64_sat_add (a b : Z) : Z := u64_sat (a + b).
Definition u64_sat_mul (a b : Z) : Z := u64_sat (a * b).
Definition u64_sat_sub (a b : Z) : Z := u64_sat (a - b).

(** The plain operators [+], [-], [*] of Rust.  [BuildProfile] is the build
    profile's [overflow-checks]: with the checks (the dev profile) an
    out-of-range result panics ([None]); without them (the release profile)
    it wraps. *)
Class BuildProfile := overflow_checks : bool.

Section arith.

Context `{BuildProfile}.
Definition i64_op (z : Z) : option Z :=
  if decide (in_i64 z) then Some z
  else if overflow_checks then None else Some (i64_wrap z).
Definition u64_op (z : Z) : option Z :=
  if decide (in_u64 z) then Some z
  else if overflow_checks then None else Some (u64_wrap z).
End arith.

Definition release : BuildProfile := false.
Definition dev : BuildProfile := true.

(** ** Tactics *)

(** Splits every [match] and [if] of the goal or of a hypothesis. *)
Ltac split_matches :=
  repeat (case_match; simplify_eq/=; try done).

(** Inverts hypotheses [H : f x = ok ...] built from nested matches. *)
Ltac inv_ok H :=
  repeat (first [ discriminate H | progress simplify_eq/=
                | case_match; simplify_eq/= ]).

(** Unfolds the width constants before [lia]. *)
Ltac zwidth :=
  unfold in_i64, in_u64, i64_sat, u64_sat, i64_min, i64_max, u64_max in *.
Ltac zlia := zwidth; lia.

(** ** Lemmas on bytes and words *)

Lemma byte_val_range b : 0 <= byte_val b < 256.
Proof.
  unfold byte_val. pose proof (Byte.to_N_bounded b). lia.
Qed.

Lemma byte_val_of_Z z : byte_val (byte_of_Z z) = z mod 256.
Proof.
  unfold byte_val, byte_of_Z.
  pose proof (Z.mod_pos_bound z 256 ltac:(lia)).
  destruct (Byte.of_N (Z.to_N (z mod 256))) as [b|] eqn:E.
  - apply Byte.to_of_N in E. rewrite E. lia.
  - apply Byte.of_N_None_iff in E. lia.
Qed.

Lemma le_bytes_length n z : length (le_bytes n z) = n.
Proof. revert z. induction n; intros; simpl; [done|]. by rewrite IHn. Qed.

Lemma le_val_bytes n z : le_val (le_bytes n z) = z mod 256 ^ Z.of_nat n.
Proof.
  revert z. induction n as [|n IH]; intros z.
  - simpl. by rewrite Z.mod_1_r.
  - cbn [le_bytes le_val]. rewrite byte_val_of_Z, IH.
    rewrite Nat2Z.inj_succ, Z.pow_succ_r by lia.
    rewrite (Z.rem_mul_r z 256) by lia. lia.
Qed.

(** The little-endian image of a [u64] determines it. *)
Lemma le_bytes_inj a b : in_u64 a -> in_u64 b -> le_bytes 8 a = le_bytes 8 b -> a = b.
Proof.
  intros Ha Hb E. apply (f_equal le_val) in E. rewrite !le_val_bytes in E.
  change (256 ^ Z.of_nat 8) with (2 ^ 64) in E.
  rewrite !Z.mod_small in E by zlia. done.
Qed.

Lemma string_of_as_bytes s : of_utf8 (as_bytes s) = s.
Proof. apply String.string_of_list_byte_of_string. Qed.

Lemma as_bytes_inj s t : as_bytes s = as_bytes t -> s = t.
Proof.
  intros E. rewrite <-(string_of_as_bytes s), <-(string_of_as_bytes t). by rewrite E.
Qed.

Lemma as_bytes_app s t : as_bytes (s +:+ t) = as_bytes s ++ as_bytes t.
Proof.
  unfold as_bytes. induction s as [|c s IH]; [done|].
  exact (f_equal (cons (Ascii.byte_of_ascii c)) IH).
Qed.

Lemma as_bytes_length s : length (as_bytes s) = String.length s.
Proof. unfold as_bytes. induction s as [|c s IH]; [done|]. exact (f_equal S IH). Qed.

(** ** Lemmas on the integer operations *)

Lemma i64_wrap_id z : in_i64 z -> i64_wrap z = z.
Proof. intros H. unfold i64_wrap. rewrite Z.mod_small by zlia. lia. Qed.

Lemma i64_wrap_range z : in_i64 (i64_wrap z).
Proof. unfold i64_wrap. pose proof (Z.mod_pos_bound (z + 2^63) (2^64)). zlia. Qed.

Lemma u64_wrap_id z : in_u64 z -> u64_wrap z = z.
Proof. intros H. unfold u64_wrap. rewrite Z.mod_small by zlia. done. Qed.

(** [as i64] is injective on [u64]. *)
Lemma i64_wrap_inj a b : in_u64 a -> in_u64 b -> i64_wrap a = i64_wrap b -> a = b.
Proof.
  unfold i64_wrap. intros Ha Hb E.
  assert ((a + 2^63) mod 2^64 = (b + 2^63) mod 2^64) as E' by lia.
  zwidth. Z.div_mod_to_equations. lia.
Qed.

Lemma i64_op_in `{BuildProfile} z : in_i64 z -> i64_op z = Some z.
Proof. intros Hz. unfold i64_op. by rewrite decide_True. Qed.

Lemma u64_op_in `{BuildProfile} z : in_u64 z -> u64_op z = Some z.
Proof. intros Hz. unfold u64_op. by rewrite decide_True. Qed.

Lemma i64_sat_id z : in_i64 z -> i64_sat z = z.
Proof. zlia. Qed.

Lemma i64_sat_range z : in_i64 (i64_sat z).
Proof. zlia. Qed.

Lemma u64_sat_range z : in_u64 (u64_sat z).
Proof. zlia. Qed.

Lemma u64_sat_id z : in_u64 z -> u64_sat z = z.
Proof. zlia. Qed.

Lemma i64_sat_mono a b : a <= b -> i64_sat a <= i64_sat b.
Proof. zlia. Qed.

#[export] Hint Resolve i64_wrap_range i64_sat_range u64_sat_range byte_val_range : mkt.
#[export] Hint Rewrite le_bytes_length as_bytes_length as_bytes_app : mkt.

(** ** Lemmas on lists *)

Lemma app_inj_length {A} (a b c d : list A) :
  length a = length c -> a ++ b = c ++ d -> a = c /\ b = d.
Proof. intros HL E. by apply app_inj_1. Qed.

Lemma nth_error_filter_sub {A} (P : A -> bool) (l : list A) x :
  In x (List.filter P l) -> In x l /\ P x = true.
Proof. apply filter_In. Qed.

(** Fields joined by a separator are recovered from either end. *)
Lemma sep_inj {A} (c : A) l1 r1 l2 r2 :
  c ∉ l1 -> c ∉ l2 -> l1 ++ c :: r1 = l2 ++ c :: r2 -> l1 = l2 /\ r1 = r2.
Proof.
  revert l2. induction l1 as [|x l1 IH]; intros [|y l2] H1 H2 E; cbn in E; injection E.
  - by intros ->.
  - intros _ ->. set_solver.
  - intros _ ->. set_solver.
  - intros E' ->. apply not_elem_of_cons in H1 as [_ H1]. apply not_elem_of_cons in H2 as [_ H2].
    by destruct (IH l2 H1 H2 E') as [-> ->].
Qed.

Lemma sep_inj_last {A} (c : A) l1 r1 l2 r2 :
  c ∉ r1 -> c ∉ r2 -> l1 ++ c :: r1 = l2 ++ c :: r2 -> l1 = l2 /\ r1 = r2.
Proof.
  intros H1 H2 E. apply (f_equal (@rev A)) in E. rewrite !rev_app_distr in E. cbn in E.
  rewrite <-!app_assoc in E. cbn in E.
  apply sep_inj in E as [E1 E2]; [|by rewrite list_elem_of_In, <-in_rev, <-list_elem_of_In..].
  by split; apply rev_inj.
Qed.

(** ** The order of byte strings *)

(** Byte by byte, a proper prefix being smaller: how SQLite compares blobs, and
    Rust byte arrays and serialized keys. *)
Fixpoint blob_leb (a b : bytes) : bool :=
  match a, b with
  | [], _ => true
  | _ :: _, [] => false
  | x :: a', y :: b' =>
      if byte_val x =? byte_val y then blob_leb a' b' else byte_val x <? byte_val y
  end.

Lemma blob_leb_refl a : blob_leb a a = true.
Proof. induction a as [|x a IH]; [done|]. cbn. by rewrite Z.eqb_refl. Qed.

Lemma blob_leb_total a b : blob_leb a b = true \/ blob_leb b a = true.
Proof.
  revert b. induction a as [|x a IH]; intros [|y b]; [by left|by left|by right|]. cbn.
  rewrite (Z.eqb_sym (byte_val y)). destruct (Z.eqb_spec (byte_val x) (byte_val y)); [apply IH|].
  destruct (Z.ltb_spec (byte_val x) (byte_val y)); [by left|right]. apply Z.ltb_lt. lia.
Qed.

Lemma blob_leb_trans a b c : blob_leb a b = true -> blob_leb b c = true -> blob_leb a c = true.
Proof.
  revert b c. induction a as [|x a IH]; intros [|y b] [|z c]; try done. cbn.
  destruct (Z.eqb_spec (byte_val x) (byte_val y)) as [->|];
    destruct (Z.eqb_spec (byte_val y) (byte_val z)) as [E|].
  - apply IH.
  - done.
  - rewrite <-E. destruct (Z.eqb_spec (byte_val x) (byte_val y)); [done|]. done.
  - intros H1%Z.ltb_lt H2%Z.ltb_lt. destruct (Z.eqb_spec (byte_val x) (byte_val z)); [lia|].
    apply Z.ltb_lt. lia.
Qed.
