(* ===== verification/Interfaces.v ===== *)
(** The third-party code the marketplace calls, as type classes.

    Nothing of these crates is under src/, so each is a parameter of the
    definitions that use it: [hex], [base64], the hashes ([sha2], [blake3],
    [hmac]), [ed25519_dalek], [chacha20poly1305], [x25519_dalek] + [hkdf],
    [ciborium] and [serde_json].  A [...Laws] class states the documented
    behaviour a theorem relies on; Instances.v gives concrete instances for
    the witnesses. *)
From S2P Require Import Prelude.

(** ** hex and base64 *)

(** A decoder returns the error text on the left. *)
Class Hex := {
  hex_encode : bytes -> string;
  hex_decode : string -> string + bytes
}.

Class HexLaws (H : Hex) := {
  (** [decode(encode(b)) == Ok(b)] *)
  hex_roundtrip : forall b, hex_decode (hex_encode b) = inr b;
  (** [encode] writes two digits per byte *)
  hex_encode_length : forall b, String.length (hex_encode b) = (2 * length b)%nat;
  (** [decode] reads two digits per byte *)
  hex_decode_length : forall s b, hex_decode s = inr b -> String.length s = (2 * length b)%nat;
  (** no digit is a [':'] *)
  hex_decode_no_colon : forall s b,
    hex_decode s = inr b -> Forall (fun c => c <> ":"%char) (String.list_ascii_of_string s)
}.

Class Base64 := {
  b64_encode : bytes -> string;
  b64_decode : string -> string + bytes
}.

Class Base64Laws (B : Base64) := {
  b64_roundtrip : forall b, b64_decode (b64_encode b) = inr b
}.

(** ** Hashes and MACs *)

Class Hashing := {
  sha256 : bytes -> bytes;
  blake3 : bytes -> bytes;
  (** [None] is [InvalidLength] of [new_from_slice] *)
  hmac_sha256 : bytes -> bytes -> option bytes
}.

Class HashingLaws (H : Hashing) := {
  sha256_length : forall m, length (sha256 m) = 32%nat;
  hmac_length : forall k m t, hmac_sha256 k m = Some t -> length t = 32%nat;
  (** HMAC accepts a key of any length *)
  hmac_total : forall k m, is_Some (hmac_sha256 k m)
}.

(** ** Ed25519 *)

Class Ed25519 := {
  vk : Type;
  vk_from_bytes : bytes -> option vk;
  sig_from_slice : bytes -> option bytes;
  ed_verify : vk -> bytes -> bytes -> bool;
  (** the signing key is its 32-byte seed *)
  ed_public : bytes -> bytes;
  ed_sign : bytes -> bytes -> bytes
}.

Class Ed25519Laws (E : Ed25519) := {
  ed_public_length : forall sk, length (ed_public sk) = 32%nat;
  ed_sign_length : forall sk m, length (ed_sign sk m) = 64%nat;
  sig_from_slice_64 : forall s, length s = 64%nat -> sig_from_slice s = Some s;
  ed_sign_verify : forall sk, exists k,
    vk_from_bytes (ed_public sk) = Some k /\ forall m, ed_verify k m (ed_sign sk m) = true
}.

(** ** ChaCha20-Poly1305 and X25519 + HKDF *)

Class Aead := {
  aead_encrypt : bytes -> bytes -> bytes -> option bytes;
  aead_decrypt : bytes -> bytes -> bytes -> option bytes
}.

Class AeadLaws (A : Aead) := {
  aead_roundtrip : forall k n p c,
    aead_encrypt k n p = Some c -> aead_decrypt k n c = Some p;
  (** a 16-byte tag follows the ciphertext *)
  aead_length : forall k n p c,
    aead_encrypt k n p = Some c -> length c = (length p + 16)%nat
}.

Class X25519 := {
  x_public : bytes -> bytes;
  x_dh : bytes -> bytes -> bytes;
  (** HKDF-SHA256 expand of the shared secret with an info label, 32 bytes *)
  hkdf32 : bytes -> bytes -> option bytes
}.

Class X25519Laws (X : X25519) := {
  x_public_length : forall sk, length (x_public sk) = 32%nat;
  x_dh_comm : forall a b, x_dh a (x_public b) = x_dh b (x_public a)
}.

(** ** CBOR: [ciborium::value::Value] restricted to what the source builds *)

Inductive CborValue :=
| CInteger (z : Z)
| CBytes (b : bytes)
| CMap (m : list (CborValue * CborValue)).

Class Cbor := { cbor_into_writer : CborValue -> string + bytes }.

(** Every integer of the value comes from an [i64]. *)
Fixpoint cbor_ok (v : CborValue) : Prop :=
  match v with
  | CInteger z => in_i64 z
  | CBytes _ => True
  | CMap m =>
      (fix go m := match m with
                   | [] => True
                   | (k, x) :: t => cbor_ok k /\ cbor_ok x /\ go t
                   end) m
  end.

Class CborLaws (C : Cbor) := {
  (** writing to a [Vec] does not fail *)
  cbor_total : forall v, cbor_ok v -> exists b, cbor_into_writer v = inr b;
  (** bytes decode to one value *)
  cbor_inj : forall v w b, cbor_ok v -> cbor_ok w ->
    cbor_into_writer v = inr b -> cbor_into_writer w = inr b -> v = w
}.

(** ** Big integers and RSA keys: [num_bigint_dig], [num_integer], [rsa]

    [BigUint] and [BigInt] values are integers; their operators are those of
    [Z]. *)
Class BigInts := {
  from_bytes_be : bytes -> Z;
  to_bytes_be : Z -> bytes;
  modpow : Z -> Z -> Z -> Z;
  (** the [gcd] and [x] of [extended_gcd(a, m)] *)
  extended_gcd : Z -> Z -> Z * Z
}.

Class BigIntsLaws (B : BigInts) := {
  from_bytes_be_nil : from_bytes_be [] = 0;
  from_bytes_be_cons : forall b t,
    from_bytes_be (b :: t) = byte_val b * 256 ^ Z.of_nat (length t) + from_bytes_be t;
  from_to_bytes_be : forall z, 0 <= z -> from_bytes_be (to_bytes_be z) = z;
  (** zero is written as one byte *)
  to_bytes_be_length : forall z, 0 <= z < 256 ^ 512 -> (1 <= length (to_bytes_be z) <= 512)%nat;
  modpow_spec : forall b e n, 0 <= e -> 0 < n -> modpow b e n = b ^ e mod n;
  extended_gcd_spec : forall a m g x, extended_gcd a m = (g, x) ->
    g = Z.gcd a m /\ exists y, a * x + m * y = g
}.

(** The parts [n()], [e()], [d()] of the crate's keys. *)
Record RsaPublicKey := mk_rsa_public { rsa_n : Z; rsa_e : Z }.
Record RsaPrivateKey := mk_rsa_private { rsa_public : RsaPublicKey; rsa_d : Z }.

(** PKCS#1 DER. *)
Class Pkcs1 := {
  from_pkcs1_der : bytes -> string + RsaPrivateKey;
  private_to_pkcs1_der : RsaPrivateKey -> string + bytes;
  public_to_pkcs1_der : RsaPublicKey -> string + bytes
}.

Class Pkcs1Laws (P : Pkcs1) := {
  pkcs1_roundtrip : forall k b, private_to_pkcs1_der k = inr b -> from_pkcs1_der b = inr k
}.

(** [uuid::Uuid::to_string], from the sixteen bytes. *)
Class UuidText := { uuid_to_string : bytes -> string }.

(** [http::HeaderValue::to_str]: the text of a header value of visible ASCII. *)
Class HeaderText := { to_str : bytes -> option string }.

Class HeaderTextLaws (T : HeaderText) := {
  to_str_as_bytes : forall v s, to_str v = Some s -> as_bytes s = v
}.
