(* ===== verification/Instances.v ===== *)
(** Concrete instances of the classes of Interfaces.v, with their laws.

    They exist so that the witnesses can evaluate the definitions: the hex
    codec is the real one, the cryptographic instances are small executable
    functions with the algebra the laws ask for and no secrecy at all. *)
From Stdlib Require Import Strings.Byte.
From S2P Require Import Prelude Interfaces.

(** ** hex *)

Definition hex_digit (n : Z) : ascii := Ascii.ascii_of_N (Z.to_N (if n <? 10 then 48 + n else 87 + n)).

Definition hex_value (c : ascii) : option Z :=
  let n := Z.of_N (N_of_ascii c) in
  if (48 <=? n) && (n <=? 57) then Some (n - 48)
  else if (97 <=? n) && (n <=? 102) then Some (n - 87)
  else if (65 <=? n) && (n <=? 70) then Some (n - 55)
  else None.

Fixpoint hex_enc (b : bytes) : string :=
  match b with
  | [] => EmptyString
  | x :: t => String (hex_digit (byte_val x / 16)) (String (hex_digit (byte_val x mod 16)) (hex_enc t))
  end.

Fixpoint hex_dec (s : string) : option bytes :=
  match s with
  | EmptyString => Some []
  | String _ EmptyString => None
  | String c (String d t) =>
      match hex_value c, hex_value d, hex_dec t with
      | Some x, Some y, Some r => Some (byte_of_Z (16 * x + y) :: r)
      | _, _, _ => None
      end
  end.

#[export] Instance hex_inst : Hex := {|
  hex_encode := hex_enc;
  hex_decode s := match hex_dec s with Some b => inr b | None => inl "invalid hex" end |}.

Lemma hex_digit_byte x :
  hex_value (hex_digit (byte_val x / 16)) = Some (byte_val x / 16) /\
  hex_value (hex_digit (byte_val x mod 16)) = Some (byte_val x mod 16) /\
  byte_of_Z (16 * (byte_val x / 16) + byte_val x mod 16) = x.
Proof. destruct x; vm_compute; done. Qed.

Lemma hex_dec_enc b : hex_dec (hex_enc b) = Some b.
Proof.
  induction b as [|x b IH]; [done|]. cbn [hex_enc hex_dec].
  destruct (hex_digit_byte x) as (-> & -> & Hx). by rewrite IH, Hx.
Qed.

Lemma string_pair_ind (P : string -> Prop) :
  P EmptyString -> (forall c, P (String c EmptyString)) ->
  (forall c d s, P s -> P (String c (String d s))) -> forall s, P s.
Proof.
  intros H0 H1 H2. fix IH 1. intros [|c [|d s]]; [done|apply H1|]. apply H2, IH.
Qed.

Lemma hex_value_colon : hex_value ":" = None.
Proof. done. Qed.

#[export] Instance hex_inst_laws : HexLaws hex_inst.
Proof.
  split.
  - intros b. cbn. by rewrite hex_dec_enc.
  - intros b. cbn. induction b as [|x b IH]; [done|]. cbn. rewrite IH. lia.
  - intros s b H. cbn in H. destruct (hex_dec s) as [b'|] eqn:E; simplify_eq/=.
    revert b E. induction s as [|c|c d s IH] using string_pair_ind; intros b E; cbn in E; simplify_eq; [done|].
    repeat case_match; simplify_eq. cbn. rewrite (IH _ eq_refl). lia.
  - intros s b H. cbn in H. destruct (hex_dec s) as [b'|] eqn:E; simplify_eq/=. clear -E.
    revert b E. induction s as [|c|c d s IH] using string_pair_ind; intros b E; cbn in E; simplify_eq; [constructor|].
    destruct (hex_value c) eqn:Ec; [|done]. destruct (hex_value d) eqn:Ed; [|done].
    destruct (hex_dec s) eqn:Es; [|done].
    constructor; [intros ->; by rewrite hex_value_colon in Ec|].
    constructor; [intros ->; by rewrite hex_value_colon in Ed|]. by eapply IH.
Qed.

(** ** base64: any reversible text encoding; hex again *)

#[export] Instance b64_inst : Base64 := {|
  b64_encode := hex_enc;
  b64_decode s := match hex_dec s with Some b => inr b | None => inl "invalid base64" end |}.

#[export] Instance b64_inst_laws : Base64Laws b64_inst.
Proof. split. intros b. cbn. by rewrite hex_dec_enc. Qed.

(** ** Fixed-size digests *)

Definition pad_to (n : nat) (b : bytes) : bytes := take n (b ++ replicate n x00).

Lemma pad_to_length n b : length (pad_to n b) = n.
Proof. unfold pad_to. rewrite length_take, length_app, length_replicate. lia. Qed.

Lemma pad_to_idem n b : pad_to n (pad_to n b) = pad_to n b.
Proof.
  unfold pad_to at 1. rewrite take_app_le by (rewrite pad_to_length; lia).
  apply take_ge. by rewrite pad_to_length.
Qed.

#[export] Instance hashing_inst : Hashing := {|
  sha256 m := pad_to 32 m;
  blake3 m := pad_to 32 m;
  hmac_sha256 k m := Some (pad_to 32 (m ++ k)) |}.

#[export] Instance hashing_inst_laws : HashingLaws hashing_inst.
Proof.
  split.
  - intros m. apply pad_to_length.
  - intros k m t [= <-]. apply pad_to_length.
  - intros k m. by eexists.
Qed.

(** ** Signatures: the tag is the key and the message's first bytes *)

#[export] Instance ed_inst : Ed25519 := {|
  vk := bytes;
  vk_from_bytes b := if decide (length b = 32%nat) then Some b else None;
  sig_from_slice s := if decide (length s = 64%nat) then Some s else None;
  ed_verify k m s := bool_decide (s = pad_to 64 (k ++ m));
  ed_public sk := pad_to 32 sk;
  ed_sign sk m := pad_to 64 (pad_to 32 sk ++ m) |}.

#[export] Instance ed_inst_laws : Ed25519Laws ed_inst.
Proof.
  split.
  - intros sk. apply pad_to_length.
  - intros sk m. apply pad_to_length.
  - intros s H. cbn. by rewrite decide_True.
  - intros sk. exists (pad_to 32 sk). cbn. rewrite decide_True by apply pad_to_length.
    split; [done|]. intros m. by apply bool_decide_eq_true.
Qed.

(** ** Authenticated encryption: the plaintext and a 16-byte tag *)

#[export] Instance aead_inst : Aead := {|
  aead_encrypt k n p := Some (p ++ pad_to 16 (n ++ k));
  aead_decrypt k n c :=
    if decide (drop (length c - 16) c = pad_to 16 (n ++ k))
    then Some (take (length c - 16) c) else None |}.

#[export] Instance aead_inst_laws : AeadLaws aead_inst.
Proof.
  split.
  - intros k n p c [= <-]. cbn. rewrite length_app, pad_to_length.
    replace (length p + 16 - 16)%nat with (length p) by lia.
    rewrite drop_app_length, decide_True by done. by rewrite take_app_length.
  - intros k n p c [= <-]. rewrite length_app, pad_to_length. done.
Qed.

(** ** Key agreement: a commutative pointwise sum *)

Fixpoint byte_sum (a b : bytes) : bytes :=
  match a, b with
  | x :: a', y :: b' => byte_of_Z (byte_val x + byte_val y) :: byte_sum a' b'
  | _, _ => []
  end.

Lemma byte_sum_comm a b : byte_sum a b = byte_sum b a.
Proof.
  revert b. induction a as [|x a IH]; intros [|y b]; try done.
  cbn. by rewrite IH, (Z.add_comm (byte_val x)).
Qed.

#[export] Instance x_inst : X25519 := {|
  x_public sk := pad_to 32 sk;
  x_dh sk pk := byte_sum (pad_to 32 sk) (pad_to 32 pk);
  hkdf32 secret info := Some (pad_to 32 (secret ++ info)) |}.

#[export] Instance x_inst_laws : X25519Laws x_inst.
Proof.
  split.
  - intros sk. apply pad_to_length.
  - intros a b. cbn -[pad_to byte_sum]. rewrite !pad_to_idem. apply byte_sum_comm.
Qed.

(** ** CBOR: an injective serialisation through the countable encoding *)

#[export] Instance cbor_eq_dec : EqDecision CborValue.
Proof.
  unfold EqDecision, Decision. fix IH 1.
  intros [z|b|m] [z'|b'|m']; try (right; discriminate).
  - destruct (decide (z = z')); [left; congruence|right; congruence].
  - destruct (decide (b = b')); [left; congruence|right; congruence].
  - assert ({m = m'} + {m <> m'}) as [->|]; [|by left|right; congruence].
    revert m'. induction m as [|[k v] m IHm]; intros [|[k' v'] m']; try (by left + by right).
    destruct (IH k k') as [->|]; [|right; congruence].
    destruct (IH v v') as [->|]; [|right; congruence].
    destruct (IHm m') as [->|]; [by left|right; congruence].
Defined.

Fixpoint cbor_tree (v : CborValue) : gen_tree (Z + bytes) :=
  match v with
  | CInteger z => GenLeaf (inl z)
  | CBytes b => GenLeaf (inr b)
  | CMap m => GenNode 0 (flat_map (fun kv => [cbor_tree (fst kv); cbor_tree (snd kv)]) m)
  end.

Fixpoint tree_cbor (t : gen_tree (Z + bytes)) : CborValue :=
  match t with
  | GenLeaf (inl z) => CInteger z
  | GenLeaf (inr b) => CBytes b
  | GenNode _ l =>
      CMap ((fix go l := match l with
                         | k :: v :: r => (tree_cbor k, tree_cbor v) :: go r
                         | _ => []
                         end) l)
  end.

Lemma tree_cbor_tree v : tree_cbor (cbor_tree v) = v.
Proof.
  revert v. fix IH 1. intros [z|b|m]; [done|done|].
  cbn. f_equal. induction m as [|[k v] m IHm]; [done|].
  cbn. rewrite (IH k), (IH v). f_equal. exact IHm.
Qed.

Fixpoint pos_bits (p : positive) : bytes :=
  match p with xH => [] | xO q => x00 :: pos_bits q | xI q => x01 :: pos_bits q end.

Lemma pos_bits_inj p q : pos_bits p = pos_bits q -> p = q.
Proof.
  revert q. induction p as [p IH|p IH|]; intros [q|q|] E; cbn in E;
    try discriminate; try done; injection E as E; by rewrite (IH q E).
Qed.

#[export] Instance cbor_inst : Cbor := {|
  cbor_into_writer v := inr (pos_bits (encode (cbor_tree v))) |}.

#[export] Instance cbor_inst_laws : CborLaws cbor_inst.
Proof.
  split.
  - intros v _. by eexists.
  - intros v w b _ _ [= <-] [= E]. apply pos_bits_inj in E. apply (inj encode) in E.
    rewrite <-(tree_cbor_tree v), <-(tree_cbor_tree w). by rewrite E.
Qed.

(** ** Big integers *)

Fixpoint be_val (b : bytes) : Z :=
  match b with
  | [] => 0
  | x :: t => byte_val x * 256 ^ Z.of_nat (length t) + be_val t
  end.

Fixpoint be_bytes (n : nat) (z : Z) : bytes :=
  match n with
  | O => []
  | S n' => be_bytes n' (z / 256) ++ [byte_of_Z z]
  end.

(** The number of base-256 digits of a positive integer. *)
Definition be_len (z : Z) : nat := S (Z.to_nat (Z.log2 z / 8)).

Lemma be_bytes_length n z : length (be_bytes n z) = n.
Proof. revert z. induction n as [|n IH]; intros z; [done|]. cbn. rewrite length_app, IH. cbn. lia. Qed.

Lemma be_val_snoc l b : be_val (l ++ [b]) = be_val l * 256 + byte_val b.
Proof.
  induction l as [|x l IH]; cbn [be_val app]; [cbn; lia|].
  rewrite IH, length_app. cbn [length].
  rewrite Nat2Z.inj_add, Z.pow_add_r by lia. change (256 ^ Z.of_nat 1) with 256. ring.
Qed.

Lemma be_val_bytes n z : 0 <= z < 256 ^ Z.of_nat n -> be_val (be_bytes n z) = z.
Proof.
  revert z. induction n as [|n IH]; intros z H.
  - cbn in *. lia.
  - cbn [be_bytes]. rewrite be_val_snoc, byte_val_of_Z.
    rewrite Nat2Z.inj_succ, Z.pow_succ_r in H by lia.
    rewrite IH; [|split; [apply Z.div_pos; lia|apply Z.div_lt_upper_bound; lia]].
    pose proof (Z.div_mod z 256 ltac:(lia)). lia.
Qed.

Lemma be_len_bound z : 0 <= z -> z < 256 ^ Z.of_nat (be_len z).
Proof.
  intros H. unfold be_len. rewrite Nat2Z.inj_succ.
  pose proof (Z.log2_nonneg z). pose proof (Z.div_pos (Z.log2 z) 8 ltac:(lia) ltac:(lia)).
  rewrite Z2Nat.id by lia. change 256 with (2 ^ 8). rewrite <-Z.pow_mul_r by lia.
  destruct (Z.eq_dec z 0) as [->|Hz]; [apply Z.pow_pos_nonneg; lia|].
  pose proof (Z.log2_spec z ltac:(lia)) as [_ Hl].
  eapply Z.lt_le_trans; [exact Hl|]. apply Z.pow_le_mono_r; [lia|].
  pose proof (Z.div_mod (Z.log2 z) 8 ltac:(lia)). pose proof (Z.mod_pos_bound (Z.log2 z) 8). lia.
Qed.

#[export] Instance big_inst : BigInts := {|
  from_bytes_be := be_val;
  to_bytes_be z := be_bytes (be_len z) z;
  modpow b e n := b ^ e mod n;
  extended_gcd a m := let '(u, _, g) := Z.extgcd a m in (g, u) |}.

#[export] Instance big_inst_laws : BigIntsLaws big_inst.
Proof.
  split; cbn [from_bytes_be to_bytes_be modpow extended_gcd big_inst]; try done.
  - intros z H. apply be_val_bytes. split; [done|]. by apply be_len_bound.
  - intros z [H Hz]. rewrite be_bytes_length. unfold be_len. split; [lia|].
    destruct (Z.eq_dec z 0) as [->|Hne]; [change (Z.log2 0 / 8) with 0; lia|].
    assert (Z.log2 z < 4096).
    { apply Z.log2_lt_pow2; [lia|]. change 256 with (2 ^ 8) in Hz.
      rewrite <-Z.pow_mul_r in Hz by lia. done. }
    assert (Z.log2 z / 8 < 512) by (apply Z.div_lt_upper_bound; lia).
    pose proof (Z.div_pos (Z.log2 z) 8 (Z.log2_nonneg z) ltac:(lia)). lia.
  - intros a m g x H. destruct (Z.extgcd a m) as [[u v] g'] eqn:E. simplify_eq.
    destruct (Z.extgcd_correct a m E) as [Hu Hg]. split; [by rewrite <-Hg|].
    exists v. rewrite <-Hu. ring.
Qed.

(** Keys are serialised through the countable encoding. *)
Definition key_triple (k : RsaPrivateKey) : Z * Z * Z :=
  (rsa_n (rsa_public k), rsa_e (rsa_public k), rsa_d k).

#[export] Instance pkcs1_inst : Pkcs1 := {|
  from_pkcs1_der b :=
    match decode (Z.to_pos (be_val b)) with
    | Some (n, e, d) => inr (mk_rsa_private (mk_rsa_public n e) d)
    | None => inl "invalid der"
    end;
  private_to_pkcs1_der k :=
    let z := Zpos (encode (key_triple k)) in inr (be_bytes (be_len z) z);
  public_to_pkcs1_der k := inr (be_bytes (be_len (rsa_n k)) (rsa_n k)) |}.

#[export] Instance pkcs1_inst_laws : Pkcs1Laws pkcs1_inst.
Proof.
  split. intros k b E. set (z := Zpos (encode (key_triple k))).
  change (@inr string bytes (be_bytes (be_len z) z) = inr b) in E. apply (inj inr) in E. subst b.
  change (match decode (Z.to_pos (be_val (be_bytes (be_len z) z))) with
          | Some (n, e, d) => inr (mk_rsa_private (mk_rsa_public n e) d)
          | None => inl "invalid der"
          end = inr k).
  rewrite be_val_bytes by (split; [lia|apply be_len_bound; lia]).
  change (Z.to_pos z) with (encode (key_triple k)). rewrite decode_encode. by destruct k as [[] ?].
Qed.

#[export] Instance uuid_inst : UuidText := {| uuid_to_string := hex_enc |}.

#[export] Instance header_inst : HeaderText := {|
  to_str v := if forallb (fun b => (byte_val b =? 9) || ((32 <=? byte_val b) && (byte_val b <? 127))) v
              then Some (of_utf8 v) else None |}.

#[export] Instance header_inst_laws : HeaderTextLaws header_inst.
Proof.
  split. intros v s. unfold to_str, header_inst. destruct (forallb _ _); [|done].
  intros [= <-]. unfold as_bytes, of_utf8. apply String.list_byte_of_string_of_list_byte.
Qed.
