(* ===== verification/TimeBuckets.v ===== *)
(** Timestamp buckets: [floor_timestamp_6h] (crypto/zk.rs), the hour buckets
    of crypto/hmac_auth.rs and the integer part of
    crypto/differential_privacy.rs.  Rust's [/] on [i64] truncates towards
    zero: it is [Z.quot], not [Z.div]. *)
From S2P Require Import Prelude.

Definition floor_timestamp_6h (ts : Z) : Z := Z.quot ts 21600 * 21600.

Definition compute_hour_bucket (timestamp : Z) : Z :=
  if decide (timestamp < 0) then 0 else u64_wrap (Z.quot timestamp 3600).

Definition floor_to_bucket (timestamp bucket_size : Z) : Z :=
  Z.quot timestamp bucket_size * bucket_size.

(** [noisy_timestamp] after the Laplace sample has been drawn and rounded to
    the [i64] offset [noise] (the [f64] sampling itself is not modelled). *)
Definition noisy_timestamp (timestamp noise : Z) : Z := i64_sat_add timestamp noise.

Definition noisy_bucket (timestamp noise : Z) : Z :=
  floor_to_bucket (noisy_timestamp timestamp noise) 21600.

(** ** The 6-hour floor *)

Lemma floor_6h_div ts : 0 <= ts -> floor_timestamp_6h ts = ts / 21600 * 21600.
Proof. intros H. unfold floor_timestamp_6h. by rewrite Z.quot_div_nonneg by lia. Qed.

Lemma floor_6h_bounds ts :
  0 <= ts -> floor_timestamp_6h ts <= ts < floor_timestamp_6h ts + 21600.
Proof.
  intros H. rewrite floor_6h_div by done.
  pose proof (Z.div_mod ts 21600 ltac:(lia)). pose proof (Z.mod_pos_bound ts 21600). lia.
Qed.

Lemma floor_6h_neg ts : ts <= 0 -> ts <= floor_timestamp_6h ts < ts + 21600.
Proof.
  intros H. unfold floor_timestamp_6h.
  pose proof (Z.quot_rem ts 21600 ltac:(lia)).
  pose proof (Z.rem_nonpos ts 21600 ltac:(lia) H). pose proof (Z.rem_bound_abs ts 21600). lia.
Qed.

Lemma floor_6h_mono a b : a <= b -> floor_timestamp_6h a <= floor_timestamp_6h b.
Proof.
  intros H. unfold floor_timestamp_6h.
  pose proof (Z.quot_le_mono a b 21600 ltac:(lia) H). lia.
Qed.

Lemma floor_6h_idem ts :
  floor_timestamp_6h (floor_timestamp_6h ts) = floor_timestamp_6h ts.
Proof. unfold floor_timestamp_6h. by rewrite Z.quot_mul by lia. Qed.

Lemma floor_6h_range ts : in_i64 ts -> in_i64 (floor_timestamp_6h ts).
Proof.
  intros H. destruct (Z.le_ge_cases 0 ts) as [H0|H0].
  - pose proof (floor_6h_bounds ts H0).
    pose proof (Z.quot_pos ts 21600 H0 ltac:(lia)). unfold floor_timestamp_6h in *. zlia.
  - pose proof (floor_6h_neg ts H0). zwidth.
    assert (floor_timestamp_6h ts <= floor_timestamp_6h 0) by (by apply floor_6h_mono).
    change (floor_timestamp_6h 0) with 0 in *. lia.
Qed.

Lemma floor_6h_nonneg ts : 0 <= ts -> 0 <= floor_timestamp_6h ts.
Proof. intros H. rewrite floor_6h_div by done. pose proof (Z.div_pos ts 21600). lia. Qed.

#[export] Hint Resolve floor_6h_range floor_6h_nonneg floor_6h_mono : mkt.

(** [floor_timestamp_6h] maps a non-negative timestamp to the start of its
    6-hour window, it is idempotent, and two timestamps have the same image
    exactly when they lie in the same window: the stored value tells no more
    than the window. *)
Theorem floor_6h_window a b :
  0 <= a -> 0 <= b ->
  (floor_timestamp_6h a mod 21600 = 0 /\
   floor_timestamp_6h a <= a < floor_timestamp_6h a + 21600 /\
   floor_timestamp_6h (floor_timestamp_6h a) = floor_timestamp_6h a) /\
  (floor_timestamp_6h a = floor_timestamp_6h b <-> a / 21600 = b / 21600).
Proof.
  intros Ha Hb. split; [split|].
  - rewrite floor_6h_div by done. by rewrite Z.mod_mul.
  - split; [by apply floor_6h_bounds | apply floor_6h_idem].
  - rewrite !floor_6h_div by done. lia.
Qed.

Lemma floor_6h_window_witness :
  floor_timestamp_6h 1747000000 = 1746986400 /\
  (floor_timestamp_6h 1747000000 = floor_timestamp_6h 1747000001 <->
   1747000000 / 21600 = 1747000001 / 21600).
Proof.
  split; [reflexivity|]. apply (floor_6h_window 1747000000 1747000001); lia.
Defined.

(** The bucket functions agree with [floor_timestamp_6h], so a noisy bucket is
    always a multiple of six hours and a valid [i64], whatever the noise. *)
Lemma noisy_bucket_multiple ts noise :
  noisy_bucket ts noise = floor_timestamp_6h (i64_sat_add ts noise) /\
  (21600 | noisy_bucket ts noise) /\ in_i64 (noisy_bucket ts noise).
Proof.
  split; [done|]. split.
  - exists (Z.quot (noisy_timestamp ts noise) 21600). done.
  - apply (floor_6h_range (i64_sat_add ts noise)). apply i64_sat_range.
Qed.

(** Before 1970 the "floor" rounds up: the truncating division moves a negative
    timestamp into the bucket of zero. *)
Example floor_6h_negative : floor_timestamp_6h (-1) = 0 /\ floor_timestamp_6h (-21600) = -21600.
Proof. done. Qed.

Lemma hour_bucket_range ts : in_i64 ts -> in_u64 (compute_hour_bucket ts).
Proof.
  intros H. unfold compute_hour_bucket. case_decide; [zlia|].
  unfold u64_wrap. pose proof (Z.mod_pos_bound (Z.quot ts 3600) (2^64)). zlia.
Qed.
