(* ===== verification/Sql.v ===== *)
(** The SQL the program's schema is managed with: the statements of
    src/db/mod.rs on a database that is a schema (tables with their columns in
    declaration order, indexes) and the rows of each table.

    SQLite compiles a statement against the schema before it touches a row:
    [prepare] is the first half (unknown tables and columns, names that exist
    already) and gives the schema after the statement, [perform] the second
    half (rows, NOT NULL, PRIMARY KEY and UNIQUE).  [exec] is both; a statement
    that fails changes nothing.

    [wf] is the typing of a database and [exec_wf] its preservation by every
    statement.  [check_stmt] is an abstract interpretation of a statement that
    knows only the schema, which tables are certainly empty and the highest
    recorded version; [check_stmt_sound] is the progress half: a statement it
    accepts runs on every database the abstract state describes. *)
From S2P Require Import Prelude.

(** ** Values, columns and rows *)

Inductive value :=
| VNull
| VInt (z : Z)
| VText (s : string)
| VBlob (b : bytes).

#[global] Instance value_eq_dec : EqDecision value.
Proof. solve_decision. Defined.

Inductive sql_type := INTEGER | TEXT | BLOB.

#[global] Instance sql_type_eq_dec : EqDecision sql_type.
Proof. solve_decision. Defined.

Record column := mk_column {
  c_name : string; c_type : sql_type; c_not_null : bool; c_default : value; c_unique : bool }.

#[global] Instance column_eq_dec : EqDecision column.
Proof. solve_decision. Defined.

Definition col (name : string) (ty : sql_type) : column := mk_column name ty false VNull false.
Definition not_null (c : column) : column :=
  mk_column (c_name c) (c_type c) true (c_default c) (c_unique c).
Definition with_default (v : value) (c : column) : column :=
  mk_column (c_name c) (c_type c) (c_not_null c) v (c_unique c).
Definition unique (c : column) : column :=
  mk_column (c_name c) (c_type c) (c_not_null c) (c_default c) true.

(** SQLite lets a PRIMARY KEY column other than an INTEGER one hold NULLs, so the
    constraint is the same as UNIQUE. *)
Abbreviation primary_key := unique (only parsing).

Abbreviation row := (gmap string value) (only parsing).
Definition cell (r : row) (c : string) : value := default VNull (r !! c).

Definition names (cols : list column) : list string := c_name <$> cols.

(** ** Statements *)

Inductive expr := ECol (c : string) | ELit (v : value).

Inductive stmt :=
| CreateTable (t : string) (cols : list column)       (** CREATE TABLE IF NOT EXISTS *)
| CreateIndex (i t : string) (cs : list string)       (** CREATE INDEX IF NOT EXISTS *)
| DropTableIfExists (t : string)
| DropTable (t : string)
| DropIndex (i : string)                              (** DROP INDEX IF EXISTS *)
| AddColumn (t : string) (c : column)
| RenameTable (t t' : string)
| InsertSelect (t : string) (into : list (string * expr)) (src : string)
| InsertRow (t : string) (vals : list (string * value)).

Inductive db_error :=
| NoSuchTable (t : string)
| NoSuchColumn (c : string)
| AlreadyExists (n : string)
| DuplicateColumn (c : string)
| CannotAddColumn (c : string)
| ConstraintFailed (t : string)
| UnexpectedNull
| Unavailable.

#[global] Instance db_error_eq_dec : EqDecision db_error.
Proof. solve_decision. Defined.

Record schema := mk_schema {
  s_tables : gmap string (list column); s_indexes : gmap string (string * list string) }.

#[global] Instance schema_eq_dec : EqDecision schema.
Proof. solve_decision. Defined.

Record db := mk_db { d_schema : schema; d_data : gmap string (list row) }.

Definition empty_db : db := mk_db (mk_schema ∅ ∅) ∅.

Abbreviation tables d := (s_tables (d_schema d)).

Definition rows_of (d : db) (t : string) : list row := default [] (d_data d !! t).

(** ** Preparation against the schema *)

Definition has_column (cols : list column) (c : string) : bool :=
  bool_decide (c ∈ names cols).

Definition first_missing (cols : list column) (cs : list string) : option string :=
  List.find (fun c => negb (has_column cols c)) cs.

Definition expr_columns (into : list (string * expr)) : list string :=
  omap (fun p => match p.2 with ECol c => Some c | ELit _ => None end) into.

Definition with_table (s : schema) (t : string) (k : list column -> db_error + schema)
    : db_error + schema :=
  match s_tables s !! t with Some cols => k cols | None => inl (NoSuchTable t) end.

Definition columns_ok (cols : list column) (cs : list string) (k : db_error + schema)
    : db_error + schema :=
  match first_missing cols cs with Some c => inl (NoSuchColumn c) | None => k end.

Definition drop_table (s : schema) (t : string) : schema :=
  mk_schema (delete t (s_tables s)) (filter (fun p => p.2.1 <> t) (s_indexes s)).

Definition add_column (s : schema) (t : string) (cols : list column) (c : column) : schema :=
  mk_schema (<[t := cols ++ [c]]> (s_tables s)) (s_indexes s).

Definition rename_table (s : schema) (t t' : string) (cols : list column) : schema :=
  mk_schema (<[t' := cols]> (delete t (s_tables s)))
    ((fun p => (if bool_decide (p.1 = t) then t' else p.1, p.2)) <$> s_indexes s).

Definition is_some {A} (o : option A) : bool := match o with Some _ => true | None => false end.

Definition prepare (st : stmt) (s : schema) : db_error + schema :=
  match st with
  | CreateTable t cols =>
      if is_some (s_tables s !! t) then inr s
      else if is_some (s_indexes s !! t) then inl (AlreadyExists t)
      else if negb (bool_decide (NoDup (names cols))) then inl (DuplicateColumn t)
      else inr (mk_schema (<[t := cols]> (s_tables s)) (s_indexes s))
  | CreateIndex i t cs =>
      with_table s t (fun cols =>
        if is_some (s_tables s !! i) then inl (AlreadyExists i)
        else if is_some (s_indexes s !! i) then inr s
        else columns_ok cols cs (inr (mk_schema (s_tables s) (<[i := (t, cs)]> (s_indexes s)))))
  | DropTableIfExists t => inr (drop_table s t)
  | DropTable t => with_table s t (fun _ => inr (drop_table s t))
  | DropIndex i => inr (mk_schema (s_tables s) (delete i (s_indexes s)))
  | AddColumn t c =>
      with_table s t (fun cols =>
        if has_column cols (c_name c) then inl (DuplicateColumn (c_name c))
        else if c_unique c || (c_not_null c && bool_decide (c_default c = VNull))
        then inl (CannotAddColumn (c_name c))
        else inr (add_column s t cols c))
  | RenameTable t t' =>
      with_table s t (fun cols =>
        if is_some (s_tables s !! t') || is_some (s_indexes s !! t')
        then inl (AlreadyExists t') else inr (rename_table s t t' cols))
  | InsertSelect t into src =>
      with_table s t (fun cols => with_table s src (fun src_cols =>
        columns_ok cols into.*1 (columns_ok src_cols (expr_columns into) (inr s))))
  | InsertRow t vals =>
      with_table s t (fun cols => columns_ok cols vals.*1 (inr s))
  end.

(** ** Rows *)

(** The row an INSERT makes: listed columns get their value, the others their
    default. *)
Definition fill (cols : list column) (vals : gmap string value) : row :=
  list_to_map ((fun c => (c_name c, default (c_default c) (vals !! c_name c))) <$> cols).

Definition eval (r : row) (e : expr) : value :=
  match e with ECol c => cell r c | ELit v => v end.

Definition select (into : list (string * expr)) (r : row) : gmap string value :=
  list_to_map ((fun p => (p.1, eval r p.2)) <$> into).

(** The constraints on one column: NOT NULL, and uniqueness among the rows that
    are in the table (NULLs never collide). *)
Definition column_accepts (rows : list row) (r : row) (c : column) : bool :=
  let v := cell r (c_name c) in
  (negb (c_not_null c) || bool_decide (v <> VNull)) &&
  (negb (c_unique c) || bool_decide (v = VNull)
   || bool_decide (v ∉ (fun r' => cell r' (c_name c)) <$> rows)).

Definition insert_row (t : string) (cols : list column) (rows : list row) (r : row)
    : db_error + list row :=
  if forallb (column_accepts rows r) cols then inr (rows ++ [r]) else inl (ConstraintFailed t).

Fixpoint insert_rows (t : string) (cols : list column) (rows new : list row)
    : db_error + list row :=
  match new with
  | [] => inr rows
  | r :: new' =>
      match insert_row t cols rows r with
      | inl e => inl e
      | inr rows' => insert_rows t cols rows' new'
      end
  end.

Definition set_rows (d : db) (t : string) (r : db_error + list row)
    : db_error + gmap string (list row) :=
  match r with inl e => inl e | inr rows => inr (<[t := rows]> (d_data d)) end.

Definition perform (st : stmt) (d : db) : db_error + gmap string (list row) :=
  match st with
  | CreateTable t _ =>
      inr (if is_some (tables d !! t) then d_data d else <[t := []]> (d_data d))
  | DropTableIfExists t | DropTable t => inr (delete t (d_data d))
  | AddColumn t c =>
      inr (<[t := (fun r => <[c_name c := c_default c]> r) <$> rows_of d t]> (d_data d))
  | RenameTable t t' => inr (<[t' := rows_of d t]> (delete t (d_data d)))
  | InsertSelect t into src =>
      let cols := default [] (tables d !! t) in
      set_rows d t (insert_rows t cols (rows_of d t)
                      ((fun r => fill cols (select into r)) <$> rows_of d src))
  | InsertRow t vals =>
      let cols := default [] (tables d !! t) in
      set_rows d t (insert_row t cols (rows_of d t) (fill cols (list_to_map vals)))
  | CreateIndex _ _ _ | DropIndex _ => inr (d_data d)
  end.

Definition exec (st : stmt) (d : db) : db_error + db :=
  match prepare st (d_schema d) with
  | inl e => inl e
  | inr s' =>
      match perform st d with
      | inl e => inl e
      | inr data => inr (mk_db s' data)
      end
  end.

(** ** Well-formed databases *)

Definition nonnull (rows : list row) (n : string) : list value :=
  filter (fun v => v <> VNull) ((fun r => cell r n) <$> rows).

Record column_ok (rows : list row) (c : column) : Prop := {
  ok_not_null : c_not_null c = true -> forall r, r ∈ rows -> cell r (c_name c) <> VNull;
  ok_unique : c_unique c = true -> NoDup (nonnull rows (c_name c)) }.

(** Every row has the columns of its table, and the constraints hold. *)
Record table_ok (cols : list column) (rows : list row) : Prop := {
  ok_names : NoDup (names cols);
  ok_dom : forall r, r ∈ rows -> dom r =@{gset string} list_to_set (names cols);
  ok_columns : forall c, c ∈ cols -> column_ok rows c }.

Record wf (d : db) : Prop := {
  wf_dom : dom (tables d) =@{gset string} dom (d_data d);
  wf_tables : forall t cols, tables d !! t = Some cols -> table_ok cols (rows_of d t) }.

Lemma rows_of_Some d t rows : d_data d !! t = Some rows -> rows_of d t = rows.
Proof. unfold rows_of. by intros ->. Qed.

Lemma rows_of_insert s s' data t rows t' :
  rows_of (mk_db s (<[t := rows]> data)) t'
  = if decide (t = t') then rows else rows_of (mk_db s' data) t'.
Proof. unfold rows_of. cbn. case_decide; simplify_map_eq; done. Qed.

Lemma rows_of_delete s s' data t t' :
  rows_of (mk_db s (delete t data)) t'
  = if decide (t = t') then [] else rows_of (mk_db s' data) t'.
Proof. unfold rows_of. cbn. case_decide; simplify_map_eq; done. Qed.

Lemma table_ok_nil cols : NoDup (names cols) -> table_ok cols [].
Proof.
  intros H. split; [done | set_solver |]. intros c _. split; [set_solver|].
  intros _. constructor.
Qed.

Lemma wf_empty : wf empty_db.
Proof. split; [set_solver|]. intros t cols H. cbn in H. by rewrite lookup_empty in H. Qed.

Lemma wf_data d t cols : wf d -> tables d !! t = Some cols ->
  d_data d !! t = Some (rows_of d t).
Proof.
  intros [Hd _] H. assert (Ht : t ∈ dom (d_data d)) by (rewrite <- Hd; by apply elem_of_dom_2 in H).
  apply elem_of_dom in Ht as [rows Hr]. by rewrite Hr, (rows_of_Some _ _ _ Hr).
Qed.

Lemma has_column_spec cols c : has_column cols c = true <-> c ∈ names cols.
Proof. apply bool_decide_eq_true. Qed.

Lemma nonnull_app rows rows' n : nonnull (rows ++ rows') n = nonnull rows n ++ nonnull rows' n.
Proof. unfold nonnull. by rewrite fmap_app, filter_app. Qed.

Lemma nonnull_one r n :
  nonnull [r] n = if decide (cell r n = VNull) then [] else [cell r n].
Proof.
  unfold nonnull. cbn [fmap list_fmap]. rewrite filter_cons, filter_nil. repeat case_decide; tauto.
Qed.

Lemma elem_of_nonnull rows n v :
  v ∈ nonnull rows n <-> v <> VNull /\ v ∈ (fun r => cell r n) <$> rows.
Proof. unfold nonnull. by rewrite list_elem_of_filter. Qed.

(** What the constraint test decides. *)
Lemma column_accepts_spec rows r c :
  column_accepts rows r c = true <->
  (c_not_null c = true -> cell r (c_name c) <> VNull) /\
  (c_unique c = true -> cell r (c_name c) <> VNull ->
   cell r (c_name c) ∉ (fun r' => cell r' (c_name c)) <$> rows).
Proof.
  unfold column_accepts.
  rewrite andb_true_iff, !orb_true_iff, !negb_true_iff, !bool_decide_eq_true.
  destruct (c_not_null c), (c_unique c), (decide (cell r (c_name c) = VNull)); intuition congruence.
Qed.

Lemma column_ok_snoc rows r c :
  column_ok (rows ++ [r]) c <-> column_ok rows c /\ column_accepts rows r c = true.
Proof.
  rewrite column_accepts_spec. split.
  - intros [Hn Hu]. split_and!; [split| |].
    + intros H r' Hr. apply Hn; [done | set_solver].
    + intros H. specialize (Hu H). rewrite nonnull_app in Hu. by apply NoDup_app in Hu as (? & _ & _).
    + intros H. apply Hn; [done | set_solver].
    + intros H Hv Hin. specialize (Hu H). rewrite nonnull_app, nonnull_one in Hu.
      rewrite decide_False in Hu by done. apply NoDup_app in Hu as (_ & Hd & _).
      apply (Hd (cell r (c_name c))); [by apply elem_of_nonnull | set_solver].
  - intros ([Hn Hu] & Hn' & Hu'). split.
    + intros H r' [Hr | ->%list_elem_of_singleton]%elem_of_app; auto.
    + intros H. rewrite nonnull_app, nonnull_one. case_decide; [rewrite app_nil_r; auto|].
      apply NoDup_app. split_and!; [auto | | apply NoDup_singleton].
      intros v [_ Hv]%elem_of_nonnull ->%list_elem_of_singleton. by apply (Hu' H).
Qed.

Lemma insert_row_spec t cols rows r rows' :
  table_ok cols rows -> dom r =@{gset string} list_to_set (names cols) ->
  insert_row t cols rows r = inr rows' <-> rows' = rows ++ [r] /\ table_ok cols (rows ++ [r]).
Proof.
  intros [Hnd Hdom Hc] Hr. unfold insert_row.
  assert (Ht : table_ok cols (rows ++ [r]) <-> forallb (column_accepts rows r) cols = true).
  { rewrite forallb_forall. split.
    - intros [_ _ Hc'] c Hin%list_elem_of_In. by apply column_ok_snoc, Hc'.
    - intros H. split; [done | set_solver |]. intros c Hin. apply column_ok_snoc.
      split; [auto | by apply H, list_elem_of_In]. }
  destruct (forallb _ _) eqn:E; naive_solver.
Qed.

Lemma insert_rows_spec t cols new : forall rows rows',
  table_ok cols rows -> (forall r, r ∈ new -> dom r =@{gset string} list_to_set (names cols)) ->
  insert_rows t cols rows new = inr rows' <-> rows' = rows ++ new /\ table_ok cols (rows ++ new).
Proof.
  induction new as [|r new IH]; intros rows rows' Hok Hdom; cbn.
  - rewrite app_nil_r. naive_solver.
  - pose proof (insert_row_spec t cols rows r) as Hr.
    destruct (insert_row t cols rows r) as [e|rows1].
    + split; [done|]. intros [-> Hall].
      assert (Hpre : table_ok cols (rows ++ [r])).
      { destruct Hall as [H1 H2 H3]. split; [done | set_solver |]. intros c Hc. specialize (H3 c Hc).
        destruct H3 as [Hn Hu]. split; [intros; apply Hn; set_solver|]. intros Hq. specialize (Hu Hq).
        rewrite cons_middle, app_assoc, nonnull_app in Hu. by apply NoDup_app in Hu as (? & _ & _). }
      destruct (Hr (rows ++ [r]) Hok) as [_ Hr']; [set_solver|]. by specialize (Hr' (conj eq_refl Hpre)).
    + destruct (Hr rows1 Hok) as [[-> Hok1] _]; [set_solver | done |].
      rewrite (IH _ _ Hok1), <- app_assoc by set_solver. done.
Qed.

Lemma cell_insert (r : row) n v n' :
  cell (<[n := v]> r) n' = if decide (n = n') then v else cell r n'.
Proof. unfold cell. case_decide; simplify_map_eq; done. Qed.

Lemma fill_dom cols vals : dom (fill cols vals) =@{gset string} list_to_set (names cols).
Proof. unfold fill, names. by rewrite dom_list_to_map_L, <- list_fmap_compose. Qed.

Lemma cell_fill cols vals c :
  NoDup (names cols) -> c ∈ cols ->
  cell (fill cols vals) (c_name c) = default (c_default c) (vals !! c_name c).
Proof.
  intros Hnd Hc. unfold cell, fill.
  rewrite (elem_of_list_to_map_1 _ _ (default (c_default c) (vals !! c_name c))); [done | |].
  - by rewrite <- list_fmap_compose.
  - by apply (list_elem_of_fmap_2 (fun c => (c_name c, default (c_default c) (vals !! c_name c)))).
Qed.

Lemma wf_set_table d idx t cols rows :
  wf d -> table_ok cols rows ->
  wf (mk_db (mk_schema (<[t := cols]> (tables d)) idx) (<[t := rows]> (d_data d))).
Proof.
  intros [Hd Ht] Hok. split; cbn.
  - by rewrite !dom_insert_L, Hd.
  - intros t' cols' Hl. apply lookup_insert_Some in Hl as [(<- & <-) | (Hne & Hl)]; unfold rows_of; cbn; simplify_map_eq; auto.
    by apply Ht.
Qed.

Lemma wf_set_rows d t cols rows :
  wf d -> tables d !! t = Some cols -> table_ok cols rows ->
  wf (mk_db (d_schema d) (<[t := rows]> (d_data d))).
Proof.
  intros Hd Ht Hok. pose proof (wf_set_table d (s_indexes (d_schema d)) t cols rows Hd Hok) as H.
  rewrite insert_id in H by done. destruct d as [[ts ixs] data]. exact H.
Qed.

Lemma wf_delete d idx t :
  wf d -> wf (mk_db (mk_schema (delete t (tables d)) idx) (delete t (d_data d))).
Proof.
  intros [Hd Ht]. split; cbn.
  - by rewrite !dom_delete_L, Hd.
  - intros t' cols' Hl. apply lookup_delete_Some in Hl as (Hne & Hl); unfold rows_of; cbn; simplify_map_eq; auto. by apply Ht.
Qed.

Lemma wf_indexes d idx : wf d -> wf (mk_db (mk_schema (tables d) idx) (d_data d)).
Proof. intros [Hd Ht]. by split. Qed.

Lemma table_ok_add_column cols rows c :
  table_ok cols rows -> c_name c ∉ names cols -> c_unique c = false ->
  (c_not_null c = true -> c_default c <> VNull) ->
  table_ok (cols ++ [c]) ((fun r => <[c_name c := c_default c]> r) <$> rows).
Proof.
  intros [Hnd Hdom Hc] Hnew Hu Hnn.
  assert (Hcell : forall c', c' ∈ cols -> forall r, cell (<[c_name c := c_default c]> r) (c_name c') = cell r (c_name c')).
  { intros c' Hc' r. rewrite cell_insert, decide_False; [done|]. intros E. apply Hnew. rewrite E.
    by apply list_elem_of_fmap_2. }
  split.
  - unfold names. rewrite fmap_app. apply NoDup_app. split_and!; [done | | apply NoDup_singleton].
    intros n Hn ->%list_elem_of_singleton. done.
  - intros r (r' & -> & Hr)%list_elem_of_fmap. rewrite dom_insert_L, (Hdom r' Hr).
    unfold names. rewrite fmap_app, list_to_set_app_L. cbn. set_solver.
  - intros c' [Hc' | ->%list_elem_of_singleton]%elem_of_app.
    + specialize (Hc c' Hc') as [Hn Hq]. split.
      * intros H r (r' & -> & Hr)%list_elem_of_fmap. rewrite Hcell by done. auto.
      * intros H. specialize (Hq H). unfold nonnull in *. rewrite <- list_fmap_compose.
        erewrite list_fmap_ext; [exact Hq|]. intros i r _. cbn. by rewrite Hcell.
    + split; [|congruence]. intros H r (r' & -> & Hr)%list_elem_of_fmap.
      rewrite cell_insert, decide_True by done. auto.
Qed.

(** Compiles and unfolds one statement in a hypothesis [exec st d = inr d']. *)
Ltac exec_inv H :=
  unfold exec in H; destruct (prepare _ _) as [?|?s'] eqn:?Hprep in H; [discriminate H|];
  destruct (perform _ _) as [?|?data'] eqn:?Hperf in H; [discriminate H|]; injection H as <-;
  cbn [prepare perform] in *; unfold with_table, columns_ok, set_rows in *;
  repeat (case_match; simplify_eq/=); simplify_eq/=.

(** Every statement preserves well-formedness. *)
Lemma exec_preserves st d d' : wf d -> exec st d = inr d' -> wf d'.
Proof.
  intros Hwf H. destruct st; exec_inv H.
  all: try (by destruct d as [[??]?]).
  all: try (by apply wf_indexes). all: try (by apply wf_delete).
  - apply (wf_set_table d); [done|]. apply table_ok_nil.
    by apply (bool_decide_eq_true_1 (NoDup (names cols))), negb_false_iff.
  - apply wf_set_table; [done|]. apply orb_false_iff in H1 as [Hu Hn].
    apply table_ok_add_column; [by apply Hwf | | done |].
    + intros ?%has_column_spec. congruence.
    + intros Hnn. rewrite Hnn in Hn. by apply bool_decide_eq_false in Hn.
  - pose proof (wf_delete d (s_indexes (d_schema d)) t Hwf) as Hd.
    apply (wf_set_table _ ((fun p => (if bool_decide (p.1 = t) then t' else p.1, p.2)) <$> s_indexes (d_schema d))
             t' l (rows_of d t) Hd). by apply Hwf.
  - eapply wf_set_rows; [done | eassumption |].
    match goal with H : insert_rows _ _ _ _ = _ |- _ => apply insert_rows_spec in H as [-> ?] end;
      [done | by apply Hwf |].
    intros r (r' & -> & _)%list_elem_of_fmap. apply fill_dom.
  - eapply wf_set_rows; [done | eassumption |].
    match goal with H : insert_row _ _ _ _ = _ |- _ => apply insert_row_spec in H as [-> ?] end;
      [done | by apply Hwf | apply fill_dom].
Qed.
