(* ===== verification/SqlCheck.v ===== *)
(** A static check of migration scripts, proved sound.

    [abs] is what the check knows of a database: its schema, the tables known to
    be empty (those a script has just created; any other may hold rows or not)
    and the highest recorded version; [describes] is its meaning.
    [check_stmt] computes the abstract state after a statement, or rejects it;
    a statement it accepts succeeds on every database so described and leads
    to one the result describes ([check_stmt_sound]: progress, on top of the
    preservation of well-formedness in Sql.v). *)
From S2P Require Import Prelude Sql.

(** ** Recorded versions *)

Definition version_table : string := "schema_migrations".

Definition recorded (rows : list row) : list Z :=
  omap (fun r => match cell r "version" with VInt z => Some z | _ => None end) rows.

(** [MAX(version)]: NULL ([None]) on an empty table. *)
Definition max_version (l : list Z) : option Z :=
  foldr (fun z o => Some (match o with None => z | Some m => Z.max z m end)) None l.

Lemma max_version_cons z l :
  max_version (z :: l) = Some (from_option (Z.max z) z (max_version l)).
Proof. unfold max_version. cbn [foldr]. by destruct (foldr _ _ _). Qed.

Lemma max_version_le l m : max_version l = Some m -> forall z, z ∈ l -> z <= m.
Proof.
  revert m. induction l as [|z l IH]; [set_solver|]. intros m Hm z' Hz.
  rewrite max_version_cons in Hm. destruct (max_version l) as [m'|] eqn:E; injection Hm as <-;
    cbn [from_option]; apply elem_of_cons in Hz as [-> | Hz]; try lia.
  - specialize (IH _ eq_refl _ Hz). lia.
  - destruct l; [set_solver | by rewrite max_version_cons in E].
Qed.

Lemma max_version_snoc l n :
  (forall z, z ∈ l -> z < n) -> max_version (l ++ [n]) = Some n.
Proof.
  induction l as [|z l IH]; [done|]. intros H. cbn [app].
  rewrite max_version_cons, IH by set_solver. cbn [from_option].
  assert (z < n) by set_solver. f_equal. lia.
Qed.

Lemma recorded_snoc rows r n :
  cell r "version" = VInt n -> recorded (rows ++ [r]) = recorded rows ++ [n].
Proof. intros H. unfold recorded. rewrite omap_app. cbn. by rewrite H. Qed.

Lemma recorded_in rows n :
  VInt n ∈ (fun r => cell r "version") <$> rows -> n ∈ recorded rows.
Proof.
  intros (r & Hv & Hr)%list_elem_of_fmap. apply list_elem_of_omap. exists r. by rewrite <- Hv.
Qed.

(** ** Abstract states *)

(** Nothing is said of a table outside [a_empty]. *)
Record abs := mk_abs { a_schema : schema; a_empty : gset string; a_top : Z }.

Record describes (d : db) (a : abs) : Prop := {
  desc_schema : d_schema d = a_schema a;
  desc_wf : wf d;
  desc_empty : forall t, t ∈ a_empty a -> rows_of d t = [];
  desc_top : 0 <= a_top a;
  desc_version : max_version (recorded (rows_of d version_table))
                 = if a_top a =? 0 then None else Some (a_top a) }.

(** The versions recorded so far are at most the known one. *)
Lemma recorded_top d a n :
  describes d a -> n ∈ recorded (rows_of d version_table) -> n <= a_top a.
Proof.
  intros [_ _ _ H0 Hv] Hn. destruct (a_top a =? 0).
  - destruct (recorded _); [set_solver | discriminate].
  - by eapply max_version_le.
Qed.

(** ** The check *)

Definition source_of (into : list (string * expr)) (c : column) : option expr :=
  (list_to_map into : gmap string expr) !! c_name c.

Definition column_with (cols : list column) (f : column -> bool) (n : string) : bool :=
  existsb (fun c => bool_decide (c_name c = n) && f c) cols.

Definition fits_not_null (src : list column) (into : list (string * expr)) (c : column) : bool :=
  negb (c_not_null c) ||
  match source_of into c with
  | None => bool_decide (c_default c <> VNull)
  | Some (ELit v) => bool_decide (v <> VNull)
  | Some (ECol s) => column_with src c_not_null s
  end.

Definition fits_unique (src : list column) (into : list (string * expr)) (c : column) : bool :=
  negb (c_unique c) ||
  match source_of into c with
  | None => bool_decide (c_default c = VNull)
  | Some (ELit v) => bool_decide (v = VNull)
  | Some (ECol s) => column_with src c_unique s
  end.

Definition check_insert (cols : list column) (vals : list (string * value)) (top : Z) : option Z :=
  let r := fill cols (list_to_map vals) in
  match cell r "version" with
  | VInt n =>
      if (top <? n) &&
         forallb (fun c => (negb (c_not_null c) || bool_decide (cell r (c_name c) <> VNull)) &&
                           (negb (c_unique c) || bool_decide (c_name c = "version"))) cols
      then Some n else None
  | _ => None
  end.

Definition check_data (st : stmt) (a : abs) : option (gset string * Z) :=
  let s := s_tables (a_schema a) in
  let keep := (a_empty a, a_top a) in
  match st with
  | CreateTable t _ =>
      Some (if is_some (s !! t) then keep else ({[t]} ∪ a_empty a, a_top a))
  | CreateIndex _ _ _ | DropIndex _ => Some keep
  | DropTableIfExists t | DropTable t =>
      if bool_decide (t = version_table) then None else Some (a_empty a ∖ {[t]}, a_top a)
  | AddColumn t _ => if bool_decide (t = version_table) then None else Some keep
  | RenameTable t t' =>
      if bool_decide (t = version_table) || bool_decide (t' = version_table) then None
      else Some (a_empty a ∖ {[t; t']}, a_top a)
  | InsertSelect t into src =>
      match s !! t, s !! src with
      | Some cols, Some src_cols =>
          if negb (bool_decide (t = version_table)) && bool_decide (t ∈ a_empty a)
             && forallb (fun c => fits_not_null src_cols into c && fits_unique src_cols into c) cols
          then Some (a_empty a ∖ {[t]}, a_top a) else None
      | _, _ => None
      end
  | InsertRow t vals =>
      match s !! t with
      | Some cols =>
          if bool_decide (t = version_table)
          then (fun n => (a_empty a ∖ {[t]}, n)) <$> check_insert cols vals (a_top a)
          else None
      | None => None
      end
  end.

Definition check_stmt (st : stmt) (a : abs) : option abs :=
  match prepare st (a_schema a), check_data st a with
  | inr s', Some (e, top) => Some (mk_abs s' e top)
  | _, _ => None
  end.

(** ** Soundness *)

Lemma column_with_spec cols f n :
  column_with cols f n = true <-> exists c, c ∈ cols /\ c_name c = n /\ f c = true.
Proof.
  unfold column_with. rewrite existsb_exists. setoid_rewrite <- list_elem_of_In.
  setoid_rewrite andb_true_iff. by setoid_rewrite bool_decide_eq_true.
Qed.

Lemma select_source into r c :
  select into r !! c_name c = eval r <$> source_of into c.
Proof.
  unfold select, source_of.
  rewrite <- lookup_fmap, <- list_to_map_fmap. f_equal.
Qed.

Lemma cell_selected cols into r c :
  NoDup (names cols) -> c ∈ cols ->
  cell (fill cols (select into r)) (c_name c)
  = match source_of into c with Some e => eval r e | None => c_default c end.
Proof. intros Hnd Hc. rewrite cell_fill, select_source by done. by destruct (source_of into c). Qed.

Lemma nonnull_const (rows : list row) :
  filter (fun v => v <> VNull) ((fun _ => VNull) <$> rows) = [].
Proof.
  induction rows as [|r rows IH]; [done|]. cbn [fmap list_fmap].
  by rewrite filter_cons, decide_False by tauto.
Qed.

(** The rows an accepted INSERT ... SELECT makes satisfy the constraints of its
    target. *)
Lemma selected_table_ok cols src_cols into rows :
  NoDup (names cols) -> table_ok src_cols rows ->
  forallb (fun c => fits_not_null src_cols into c && fits_unique src_cols into c) cols = true ->
  table_ok cols ((fun r => fill cols (select into r)) <$> rows).
Proof.
  intros Hnd [_ _ Hsrc] Hfit. rewrite forallb_forall in Hfit.
  setoid_rewrite <- list_elem_of_In in Hfit.
  split; [done | intros r (r' & -> & _)%list_elem_of_fmap; apply fill_dom |].
  intros c Hc. specialize (Hfit c Hc) as [Hn Hu]%andb_true_iff.
  unfold fits_not_null, fits_unique in *. split; intros Hq; rewrite Hq in *; cbn [negb orb] in *.
  - intros r (r' & -> & Hr)%list_elem_of_fmap. rewrite cell_selected by done.
    destruct (source_of into c) as [[s|v]|]; cbn [eval].
    + apply column_with_spec in Hn as (c' & Hin & <- & Hnn). by apply (Hsrc c' Hin).
    + by apply bool_decide_eq_true in Hn.
    + by apply bool_decide_eq_true in Hn.
  - unfold nonnull. rewrite <- list_fmap_compose. unfold compose.
    rewrite (list_fmap_ext _ _ rows (fun _ r _ => cell_selected cols into r c Hnd Hc)).
    destruct (source_of into c) as [[s|v]|]; cbn [eval].
    + apply column_with_spec in Hu as (c' & Hin & <- & Huu). by apply (Hsrc c' Hin).
    + apply bool_decide_eq_true in Hu as ->. rewrite nonnull_const. constructor.
    + apply bool_decide_eq_true in Hu as ->. rewrite nonnull_const. constructor.
Qed.

(** An accepted row for the version table. *)
Lemma check_insert_ok d a cols vals n :
  describes d a -> tables d !! version_table = Some cols ->
  check_insert cols vals (a_top a) = Some n ->
  let r := fill cols (list_to_map vals) in
  insert_row version_table cols (rows_of d version_table) r = inr (rows_of d version_table ++ [r])
  /\ cell r "version" = VInt n /\ a_top a < n.
Proof.
  intros Hd Ht Hc r. unfold check_insert in Hc. fold r in Hc.
  destruct (cell r "version") as [|n'| |] eqn:Hv; try discriminate.
  destruct (_ && _) eqn:E; simplify_eq. apply andb_true_iff in E as [Htop%Z.ltb_lt Hall].
  split; [|done]. unfold insert_row. replace (forallb _ _) with true; [done|].
  symmetry. rewrite forallb_forall in *. intros c Hin. specialize (Hall c Hin).
  apply andb_true_iff in Hall as [Hn Hu]. apply column_accepts_spec. split.
  - intros Hq. rewrite Hq in Hn. by apply bool_decide_eq_true in Hn.
  - intros Hq _ Hcell. rewrite Hq in Hu. apply bool_decide_eq_true in Hu. rewrite Hu, Hv in Hcell.
    apply recorded_in, (recorded_top d a) in Hcell; [lia | done].
Qed.

Lemma wf_no_data d t : wf d -> tables d !! t = None -> d_data d !! t = None.
Proof. intros [Hd _]. rewrite <- !not_elem_of_dom. by rewrite Hd. Qed.

(** An accepted INSERT ... SELECT copies every row of its source. *)
Lemma insert_select_runs d a t into src cols src_cols :
  describes d a -> tables d !! t = Some cols -> tables d !! src = Some src_cols -> t ∈ a_empty a ->
  forallb (fun c => fits_not_null src_cols into c && fits_unique src_cols into c) cols = true ->
  insert_rows t cols (rows_of d t) ((fun r => fill cols (select into r)) <$> rows_of d src)
  = inr ((fun r => fill cols (select into r)) <$> rows_of d src).
Proof.
  intros [_ Hwf He _ _] Ht Hs Hin Hfit. pose proof (wf_tables _ Hwf _ _ Ht) as Hok.
  rewrite He in * by done. apply insert_rows_spec; [done | |].
  - intros r (r' & -> & _)%list_elem_of_fmap. apply fill_dom.
  - split; [done|]. eapply selected_table_ok; [apply Hok | by apply (wf_tables _ Hwf) | done].
Qed.

(** A statement the check accepts succeeds on every database the state before
    describes, and the state after describes the result. *)
Lemma check_stmt_sound st a a' d :
  describes d a -> check_stmt st a = Some a' -> exists d', exec st d = inr d' /\ describes d' a'.
Proof.
  intros Hd Hc. unfold check_stmt in Hc.
  destruct (prepare st (a_schema a)) as [|s'] eqn:Hp; [discriminate|].
  destruct (check_data st a) as [[e top]|] eqn:Hcd; [|discriminate]. injection Hc as <-.
  assert (Hex : forall data, perform st d = inr data ->
            (forall t, t ∈ e -> default [] (data !! t) = []) ->
            0 <= top ->
            max_version (recorded (default [] (data !! version_table)))
              = (if top =? 0 then None else Some top) ->
            exists d', exec st d = inr d' /\ describes d' (mk_abs s' e top)).
  { intros data Hperf He H0 Hv. exists (mk_db s' data).
    assert (Hrun : exec st d = inr (mk_db s' data)).
    { unfold exec. by rewrite (desc_schema _ _ Hd), Hp, Hperf. }
    split; [done|]. split; try done. by eapply exec_preserves, Hrun; apply Hd. }
  pose proof Hd as [Hsch Hwf He H0 Hv]. unfold rows_of in He, Hv.
  destruct st as [t cols|i t cs|t|t|i|t c|t t'|t into src|t vals]; cbn [perform check_data prepare] in *;
    rewrite ?Hsch in Hex; unfold with_table, columns_ok in Hp.
  - destruct (is_some (s_tables (a_schema a) !! t)) eqn:Ht; simplify_eq; eapply Hex; try done.
    + intros t' Ht'. destruct (decide (t = t')); simplify_map_eq; [done|]. apply He. set_solver.
    + destruct (decide (t = version_table)) as [->|]; simplify_map_eq; [|done].
      rewrite (wf_no_data d) in Hv; [done.. |]. rewrite Hsch.
      by destruct (s_tables _ !! _).
  - simplify_eq. by eapply Hex.
  - case_bool_decide; simplify_eq. eapply Hex; [done | | done | by simplify_map_eq].
    intros t' Ht'. destruct (decide (t = t')); simplify_map_eq; [done|]. apply He. set_solver.
  - case_bool_decide; simplify_eq. eapply Hex; [done | | done | by simplify_map_eq].
    intros t' Ht'. destruct (decide (t = t')); simplify_map_eq; [done|]. apply He. set_solver.
  - simplify_eq. by eapply Hex.
  - case_bool_decide; simplify_eq. eapply Hex; [done | | done | by simplify_map_eq].
    intros t' Ht'. destruct (decide (t = t')) as [->|]; simplify_map_eq; [|by apply He].
    unfold rows_of. by rewrite He.
  - repeat case_bool_decide; simplify_eq/=. eapply Hex; [done | | done | by simplify_map_eq].
    intros t'' Ht''. rewrite !lookup_insert_ne, lookup_delete_ne by set_solver. apply He. set_solver.
  - destruct (s_tables (a_schema a) !! t) as [cols|] eqn:Ht; [|done].
    destruct (s_tables (a_schema a) !! src) as [src_cols|] eqn:Hs; [|done].
    destruct (_ && _) eqn:E; simplify_eq. apply andb_true_iff in E as [E Hfit].
    apply andb_true_iff in E as [Hnv Hin]. apply negb_true_iff, bool_decide_eq_false in Hnv.
    apply bool_decide_eq_true in Hin. rewrite <- Hsch in Ht, Hs.
    pose proof (insert_select_runs d a t into src cols src_cols Hd Ht Hs Hin Hfit) as Hrows.
    cbn [default from_option id] in Hex. rewrite Hrows in Hex.
    eapply Hex; [done | | done | by simplify_map_eq].
    intros t' Ht'. rewrite lookup_insert_ne by set_solver. apply He. set_solver.
  - destruct (s_tables (a_schema a) !! t) as [cols|] eqn:Ht; [|done].
    case_bool_decide; simplify_eq. destruct (check_insert cols vals (a_top a)) as [n|] eqn:Hci; [|done].
    simplify_eq/=. pose proof (check_insert_ok d a cols vals top Hd) as Hok. rewrite Hsch in Hok.
    destruct (Hok Ht Hci) as (Hrow & Hcell & Hn).
    cbn [default from_option id] in Hex. rewrite Hrow in Hex. eapply Hex; [done | | lia |].
    + intros t' Ht'. rewrite lookup_insert_ne by set_solver. apply He. set_solver.
    + simplify_map_eq. rewrite (recorded_snoc _ _ _ Hcell), max_version_snoc.
      * by rewrite (proj2 (Z.eqb_neq _ _)) by lia.
      * intros z Hz. pose proof (recorded_top d a z Hd Hz). lia.
Qed.
