(* ===== verification/Migrations.v ===== *)
(** Schema migrations: src/db/mod.rs.

    A migration is a list of steps: a statement whose error the code passes on
    with [?] ([Execute]), or a column added when [column_exists] does not see it
    ([Ensure]; a soft one only warns about an ALTER that fails).  Every statement
    commits on its own.  A [host] is what happens around the run: which database
    calls fail, what other processes do to the database between two calls, and
    the clock. *)
From S2P Require Import Prelude TimeBuckets Sql SqlCheck.

(** ** The host *)

Record host := mk_host {
  fault : nat -> bool; other : nat -> db -> db; now_utc : nat -> Z }.

(** The database and the number of calls made so far. *)
Abbreviation state := (db * nat)%type.

Definition call {A} (h : host) (f : db -> db_error + A * db) (s : state) : (db_error + A) * state :=
  let '(d, n) := s in
  let d := other h n d in
  if fault h n then (inl Unavailable, (d, S n))
  else match f d with
       | inl e => (inl e, (d, S n))
       | inr (a, d') => (inr a, (d', S n))
       end.

Definition execute (h : host) (st : stmt) : state -> (db_error + unit) * state :=
  call h (fun d => match exec st d with inl e => inl e | inr d' => inr (tt, d') end).

(** [PRAGMA table_info]: no rows for an unknown table; an error is a warning and
    [false]. *)
Definition column_exists (h : host) (t c : string) (s : state) : bool * state :=
  let '(r, s') :=
    call h (fun d => inr (names (default [] (tables d !! t)), d)) s in
  (match r with inl _ => false | inr cs => bool_decide (c ∈ cs) end, s').

(** How sqlx reads the NULL of [MAX(version)] on an empty table into an [i64]. *)
Class Sqlx := null_as_i64 : db_error + Z.

Definition sql_max_version (d : db) : db_error + option Z * db :=
  match tables d !! version_table with
  | None => inl (NoSuchTable version_table)
  | Some _ => inr (max_version (recorded (rows_of d version_table)), d)
  end.

Section sqlx.

Context `{Sqlx}.
Definition get_schema_version (h : host) (s : state) : (db_error + Z) * state :=
  match call h sql_max_version s with
  | (inl e, s') => (inl e, s')
  | (inr (Some z), s') => (inr z, s')
  | (inr None, s') => (null_as_i64, s')
  end.
End sqlx.

(** ** Steps *)

Inductive step :=
| Execute (st : stmt)
| Ensure (hard : bool) (t : string) (c : column).

Definition run_step (h : host) (p : step) (s : state) : (db_error + unit) * state :=
  match p with
  | Execute st => execute h st s
  | Ensure hard t c =>
      let '(found, s) := column_exists h t (c_name c) s in
      if found then (inr tt, s)
      else let '(r, s) := execute h (AddColumn t c) s in
           (if hard then r else inr tt, s)
  end.

Fixpoint run_steps (h : host) (l : list step) (s : state) : (db_error + unit) * state :=
  match l with
  | [] => (inr tt, s)
  | p :: l' =>
      match run_step h p s with
      | (inl e, s') => (inl e, s')
      | (inr _, s') => run_steps h l' s'
      end
  end.

(** [INSERT INTO schema_migrations (version, applied_at, description)] *)
Definition record_migration (version : Z) (now : Z) (description : string) : step :=
  Execute (InsertRow version_table
    [("version", VInt version); ("applied_at", VInt now); ("description", VText description)]).

Definition create_schema_migrations : stmt :=
  CreateTable version_table [
    primary_key (col "version" INTEGER);
    not_null (col "applied_at" INTEGER);
    col "description" TEXT].

Definition index (i t c : string) : step := Execute (CreateIndex i t [c]).

(** ** The migrations *)

Definition run_migration_v1 (now : Z) : list step := [
  Execute (CreateTable "users" [
    primary_key (col "pubkey_hash" BLOB);
    not_null (col "encrypted_meta" BLOB);
    not_null (col "created_at" INTEGER);
    not_null (col "last_active" INTEGER);
    with_default (VText "active") (col "status" TEXT)]);
  Execute (CreateTable "listings" [
    primary_key (col "id" BLOB);
    not_null (col "seller_pubkey_hash" BLOB);
    col "seller_pubkey" TEXT;
    not_null (col "encrypted_data" BLOB);
    col "encrypted_search" BLOB;
    with_default (VText "XMR") (not_null (col "currency" TEXT));
    not_null (col "price_amount" TEXT);
    with_default (VText "active") (not_null (col "status" TEXT));
    not_null (col "created_at" INTEGER);
    col "expires_at" INTEGER;
    not_null (col "updated_at" INTEGER)]);
  Execute (CreateTable "orders" [
    primary_key (col "id" BLOB);
    not_null (col "listing_id" BLOB);
    not_null (col "buyer_pubkey_hash" BLOB);
    not_null (col "seller_pubkey_hash" BLOB);
    col "buyer_pubkey" TEXT;
    col "seller_pubkey" TEXT;
    with_default (VText "pending") (not_null (col "state" TEXT));
    not_null (col "currency" TEXT);
    col "escrow_address" TEXT;
    col "escrow_amount" TEXT;
    with_default (VInt 604800) (not_null (col "time_lock_seconds" INTEGER));
    not_null (col "created_at" INTEGER);
    col "funded_at" INTEGER;
    col "shipped_at" INTEGER;
    col "confirmed_at" INTEGER;
    col "released_at" INTEGER;
    col "refunded_at" INTEGER;
    col "disputed_at" INTEGER;
    col "expires_at" INTEGER;
    col "encrypted_blob" BLOB]);
  Execute (CreateTable "chat_messages" [
    primary_key (col "id" BLOB);
    not_null (col "order_id" BLOB);
    not_null (col "sender_pubkey_hash" BLOB);
    not_null (col "encrypted_body" BLOB);
    not_null (col "created_at" INTEGER);
    not_null (col "expires_at" INTEGER)]);
  index "idx_listings_seller" "listings" "seller_pubkey_hash";
  index "idx_listings_status" "listings" "status";
  index "idx_orders_buyer" "orders" "buyer_pubkey_hash";
  index "idx_orders_seller" "orders" "seller_pubkey_hash";
  index "idx_orders_state" "orders" "state";
  index "idx_chat_order" "chat_messages" "order_id";
  record_migration 1 now "Initial schema with users, listings, orders, chat_messages"].

Definition run_migration_v2 (now : Z) : list step := [
  Execute (CreateTable "audit_logs" [
    primary_key (col "id" TEXT);
    not_null (col "event_type" TEXT);
    col "pubkey_hash" TEXT;
    col "resource_id" TEXT;
    col "resource_type" TEXT;
    col "details" TEXT;
    not_null (col "timestamp" INTEGER);
    not_null (col "severity" TEXT);
    col "ip_hash" TEXT;
    col "user_agent" TEXT]);
  Execute (CreateTable "payment_audits" [
    primary_key (col "id" TEXT);
    not_null (col "order_id" TEXT);
    not_null (col "tx_hash" TEXT);
    not_null (col "address" TEXT);
    not_null (col "amount" INTEGER);
    col "credited_height" INTEGER;
    not_null (col "credited_at" INTEGER);
    with_default (VInt 0) (col "verified" INTEGER);
    col "rollback_at" INTEGER;
    not_null (col "created_at" INTEGER)]);
  index "idx_orders_escrow" "orders" "escrow_address";
  index "idx_listings_search" "listings" "encrypted_search";
  index "idx_audit_timestamp" "audit_logs" "timestamp";
  index "idx_audit_event" "audit_logs" "event_type";
  index "idx_payment_audit_tx" "payment_audits" "tx_hash";
  index "idx_payment_audit_order" "payment_audits" "order_id";
  index "idx_listings_expires" "listings" "expires_at";
  record_migration 2 now "Added audit_logs, payment_audits tables and additional indexes"].

Definition run_migration_v3 (now : Z) : list step := [
  Execute (CreateTable "disputes" [
    primary_key (col "id" TEXT);
    unique (not_null (col "order_id" TEXT));
    not_null (col "opened_by" TEXT);
    not_null (col "reason" TEXT);
    col "resolution" TEXT;
    col "resolved_by" TEXT;
    col "resolved_at" INTEGER;
    not_null (col "created_at" INTEGER)]);
  Execute (CreateTable "dispute_evidence" [
    primary_key (col "id" TEXT);
    not_null (col "dispute_id" TEXT);
    not_null (col "submitted_by" TEXT);
    not_null (col "encrypted_content" BLOB);
    not_null (col "content_type" TEXT);
    not_null (col "created_at" INTEGER)]);
  index "idx_disputes_order" "disputes" "order_id";
  index "idx_dispute_evidence_dispute" "dispute_evidence" "dispute_id";
  Ensure false "orders" (col "disputed_at" INTEGER);
  Ensure false "orders" (col "dispute_id" TEXT);
  record_migration 3 now
    "Added disputes, dispute_evidence tables, dispute_id and disputed_at on orders"].

Definition run_migration_v4 (now : Z) : list step := [
  Ensure false "orders" (col "owner_pubkey" TEXT);
  Ensure false "orders" (col "fee_percent" INTEGER);
  Ensure false "orders" (col "fee_address" TEXT);
  Ensure false "orders" (col "multi_sig_key" BLOB);
  Ensure false "orders" (col "multi_sig_redeem_script" TEXT);
  Ensure false "orders" (col "buyer_sig" BLOB);
  Ensure false "orders" (col "seller_sig" BLOB);
  record_migration 4 now
    "Added escrow/multi-sig columns: owner_pubkey, fee_percent, fee_address, multi_sig_key, multi_sig_redeem_script, buyer_sig, seller_sig"].

Definition run_migration_v5 (now : Z) : list step := [
  Ensure false "orders" (col "updated_at" INTEGER);
  record_migration 5 now "Added updated_at column to orders for state transition timestamps"].

Definition run_migration_v6 (now : Z) : list step := [
  Execute (DropTableIfExists "audit_logs");
  Execute (DropTableIfExists "payment_audits");
  record_migration 6 now
    "Dropped audit_logs and payment_audits tables (anti-anonymity metadata)"].

Definition run_migration_v7 (now : Z) : list step := [
  Execute (DropTableIfExists "users");
  record_migration 7 now
    "Dropped users table (stateless HMAC auth — no DB writes on register)"].

Definition run_migration_v8 (now : Z) : list step := [
  Execute (DropTableIfExists "chat_messages");
  Execute (DropTableIfExists "disputes");
  Execute (DropTableIfExists "dispute_evidence");
  Execute (DropIndex "idx_chat_order");
  Execute (DropIndex "idx_disputes_order");
  Execute (DropIndex "idx_dispute_evidence_dispute");
  record_migration 8 now "Dropped chat_messages, disputes, dispute_evidence tables"].

Definition run_migration_v9 (now : Z) : list step := [
  Ensure false "orders" (col "encrypted_order_blob" BLOB);
  Ensure false "orders" (col "day_bucket" INTEGER);
  Ensure false "orders" (col "expiry_bucket" INTEGER);
  Execute (DropIndex "idx_orders_buyer");
  Execute (DropIndex "idx_orders_seller");
  Execute (DropIndex "idx_orders_state");
  Execute (DropIndex "idx_orders_escrow");
  index "idx_orders_day_bucket" "orders" "day_bucket";
  index "idx_orders_expiry_bucket" "orders" "expiry_bucket";
  record_migration 9 now
    "Added encrypted_order_blob, day_bucket, expiry_bucket to orders; new indexes"].

Definition run_migration_v10 (now : Z) : list step := [
  Execute (CreateTable "orders_new" [
    primary_key (col "id" BLOB);
    col "encrypted_order_blob" BLOB;
    col "day_bucket" INTEGER;
    col "expiry_bucket" INTEGER]);
  Execute (InsertSelect "orders_new" [
    ("id", ECol "id"); ("encrypted_order_blob", ECol "encrypted_order_blob");
    ("day_bucket", ECol "day_bucket"); ("expiry_bucket", ECol "expiry_bucket")] "orders");
  Execute (DropTable "orders");
  Execute (RenameTable "orders_new" "orders");
  index "idx_orders_day_bucket" "orders" "day_bucket";
  index "idx_orders_expiry_bucket" "orders" "expiry_bucket";
  record_migration 10 now
    "Dropped legacy columns from orders (kept: id, encrypted_order_blob, day_bucket, expiry_bucket)"].

Definition run_migration_v11 (now : Z) : list step := [
  Execute (CreateTable "listings_new" [
    primary_key (col "id" BLOB);
    with_default (VBlob []) (not_null (col "encrypted_listing_blob" BLOB));
    with_default (VInt 0) (not_null (col "day_bucket" INTEGER));
    col "search_token" BLOB]);
  Execute (InsertSelect "listings_new" [
    ("id", ECol "id"); ("encrypted_listing_blob", ELit (VBlob []));
    ("day_bucket", ELit (VInt 0)); ("search_token", ECol "encrypted_search")] "listings");
  Execute (DropIndex "idx_listings_seller");
  Execute (DropIndex "idx_listings_status");
  Execute (DropIndex "idx_listings_search");
  Execute (DropIndex "idx_listings_expires");
  Execute (DropTable "listings");
  Execute (RenameTable "listings_new" "listings");
  index "idx_listings_day_bucket" "listings" "day_bucket";
  record_migration 11 now
    "Rebuilt listings table: encrypted_listing_blob, day_bucket, search_token (dropped 11 plaintext columns)"].

Definition run_migration_v12 (now : Z) : list step := [
  Ensure false "orders" (with_default (VInt 1) (not_null (col "version" INTEGER)));
  record_migration 12 now "Added version column to orders for TOCTOU guard on concurrent writes"].

Definition run_migration_v13 (now : Z) : list step := [
  Ensure true "orders" (with_default (VInt 0) (not_null (col "has_dispute" INTEGER)));
  index "idx_orders_has_dispute" "orders" "has_dispute";
  record_migration 13 now
    "Added has_dispute column to orders (prevents full-table scans for dispute lookups)"].

Definition run_migration_v14 (now : Z) : list step := [
  Ensure true "listings" (with_default (VText "active") (not_null (col "status" TEXT)));
  Ensure true "listings" (with_default (VText "XMR") (not_null (col "currency" TEXT)));
  Ensure true "listings" (with_default (VInt 1) (not_null (col "version" INTEGER)));
  index "idx_listings_status" "listings" "status";
  index "idx_listings_currency" "listings" "currency";
  Execute (CreateIndex "idx_listings_status_currency" "listings" ["status"; "currency"]);
  record_migration 14 now "Added status, currency, version columns to listings with indexes"].

Definition run_migration_v15 (now : Z) : list step := [
  Ensure true "orders" (col "client_encrypted_blob" BLOB);
  record_migration 15 now "Added client_encrypted_blob to orders for E2E client-side encryption"].

Definition run_migration_v16 (now : Z) : list step := [
  Ensure true "orders" (col "dispute_client_blob" BLOB);
  record_migration 16 now "Added dispute_client_blob to orders for E2E dispute encryption"].

Definition run_migration_v17 (now : Z) : list step := [
  Ensure true "orders" (col "chat_encrypted_blob" BLOB);
  record_migration 17 now "Added chat_encrypted_blob to orders for E2E chat encryption"].

Definition run_migration_v18 (now : Z) : list step := [
  Execute (CreateTable "notification_tracker" [
    primary_key (col "tx_hash" BLOB);
    not_null (col "order_id" BLOB);
    not_null (col "buyer_pubkey" BLOB);
    not_null (col "processed_at" INTEGER)]);
  record_migration 18 now "Added notification_tracker table for OP_RETURN notification scanning"].

Definition migrations : list (Z * (Z -> list step)) := [
  (1, run_migration_v1); (2, run_migration_v2); (3, run_migration_v3); (4, run_migration_v4);
  (5, run_migration_v5); (6, run_migration_v6); (7, run_migration_v7); (8, run_migration_v8);
  (9, run_migration_v9); (10, run_migration_v10); (11, run_migration_v11); (12, run_migration_v12);
  (13, run_migration_v13); (14, run_migration_v14); (15, run_migration_v15);
  (16, run_migration_v16); (17, run_migration_v17); (18, run_migration_v18)].

Fixpoint run_pending (h : host) (db_version : Z) (l : list (Z * (Z -> list step))) (s : state)
    : (db_error + unit) * state :=
  match l with
  | [] => (inr tt, s)
  | (v, m) :: l' =>
      if db_version <? v then
        match run_steps h (m (floor_timestamp_6h (now_utc h s.2))) s with
        | (inl e, s') => (inl e, s')
        | (inr _, s') => run_pending h db_version l' s'
        end
      else run_pending h db_version l' s
  end.

Section sqlx.

Context `{Sqlx}.
Definition run_sqlite_migrations (h : host) (s : state) : (db_error + unit) * state :=
  match execute h create_schema_migrations s with
  | (inl e, s) => (inl e, s)
  | (inr _, s) =>
      match get_schema_version h s with
      | (inl e, s) => (inl e, s)
      | (inr db_version, s) => run_pending h db_version migrations s
      end
  end.
End sqlx.

(** ** Runs without interference *)

Definition alone (h : host) : Prop := forall n d, other h n d = d.
Definition quiet (h : host) : Prop := alone h /\ forall n, fault h n = false.

Lemma quiet_call {A} h (f : db -> db_error + A * db) d n :
  quiet h ->
  call h f (d, n) = match f d with
                    | inl e => (inl e, (d, S n))
                    | inr (a, d') => (inr a, (d', S n))
                    end.
Proof. intros [Ho Hf]. unfold call. by rewrite Ho, Hf. Qed.

Definition check_step (p : step) (a : abs) : option abs :=
  match p with
  | Execute st => check_stmt st a
  | Ensure _ t c =>
      if bool_decide (c_name c ∈ names (default [] (s_tables (a_schema a) !! t))) then Some a
      else check_stmt (AddColumn t c) a
  end.

Fixpoint check_steps (l : list step) (a : abs) : option abs :=
  match l with [] => Some a | p :: l' => check_step p a ≫= check_steps l' end.

Lemma quiet_execute h st a a' d n :
  quiet h -> describes d a -> check_stmt st a = Some a' ->
  exists d', execute h st (d, n) = (inr tt, (d', S n)) /\ describes d' a'.
Proof.
  intros Hq Hd Hc. destruct (check_stmt_sound st a a' d Hd Hc) as (d' & He & Hd').
  exists d'. unfold execute. by rewrite quiet_call, He by done.
Qed.

Lemma run_step_sound h p a a' d n :
  quiet h -> describes d a -> check_step p a = Some a' ->
  exists d' n', run_step h p (d, n) = (inr tt, (d', n')) /\ describes d' a'.
Proof.
  intros Hq Hd Hc. destruct p as [st|hard t c]; cbn [run_step check_step] in *.
  - destruct (quiet_execute h st a a' d n) as (d' & ? & ?); eauto.
  - unfold column_exists. rewrite quiet_call by done. cbn beta iota zeta. rewrite (desc_schema _ _ Hd).
    case_bool_decide; [simplify_eq; eauto|].
    destruct (quiet_execute h (AddColumn t c) a a' d (S n)) as (d' & -> & ?); [done.. |].
    exists d', (S (S n)). by destruct hard.
Qed.

Lemma run_steps_sound h l : forall a a' d n,
  quiet h -> describes d a -> check_steps l a = Some a' ->
  exists d' n', run_steps h l (d, n) = (inr tt, (d', n')) /\ describes d' a'.
Proof.
  induction l as [|p l IH]; intros a a' d n Hq Hd Hc; cbn in *; [simplify_eq; eauto|].
  destruct (check_step p a) as [b|] eqn:Hp; [|discriminate].
  destruct (run_step_sound h p a b d n) as (d1 & n1 & -> & Hd1); [done.. |]. by apply (IH b).
Qed.

(** ** The stages: what is known of a database at each version *)

(** Only the schema and the recorded version: the tables may hold any rows. *)
Definition forget (a : abs) : abs := mk_abs (a_schema a) ∅ (a_top a).

Definition stage0 : abs :=
  mk_abs (mk_schema {[ version_table := [
            primary_key (col "version" INTEGER); not_null (col "applied_at" INTEGER);
            col "description" TEXT] ]} ∅) ∅ 0.

(** What the check computes from one version to the next.  That a table is empty
    is known from its creation to the end of the migration that creates it, and
    forgotten there. *)
Fixpoint stage (k : nat) : abs :=
  match k with
  | O => stage0
  | S k' =>
      let a := stage k' in
      match migrations !! k' with
      | Some (_, m) => forget (default a (check_steps (m 0) a))
      | None => a
      end
  end.

(** A database at version [k]: it has the schema the migrations 1 to [k] lead to,
    keeps its constraints, and [k] is the highest version recorded (none for 0). *)
Record at_version (k : nat) (d : db) : Prop := {
  at_schema : d_schema d = a_schema (stage k);
  at_wf : wf d;
  at_recorded : max_version (recorded (rows_of d version_table))
                = match k with O => None | _ => Some (Z.of_nat k) end }.

Lemma describes_forget d a : describes d a -> describes d (forget a).
Proof. intros [Hs Hwf _ Ht Hv]. by split; [| | set_solver | |]. Qed.

(** Closes an equation by evaluating both sides in the kernel's machine. *)
Ltac by_vm := match goal with |- _ = ?r => vm_cast_no_check (eq_refl r) end.

(** Each migration is accepted from the stage before it, whatever the clock. *)
Lemma stage_step k v m :
  migrations !! k = Some (v, m) ->
  v = Z.of_nat (S k) /\ forall now, forget <$> check_steps (m now) (stage k) = Some (stage (S k)).
Proof.
  intros H. do 18 (destruct k as [|k]; [injection H as <- <-; split; [done | intros now; by_vm] |]).
  discriminate H.
Qed.

Lemma stage_accepts k v m now :
  migrations !! k = Some (v, m) ->
  exists a, check_steps (m now) (stage k) = Some a /\ forall d, describes d a -> describes d (stage (S k)).
Proof.
  intros [_ H]%stage_step. specialize (H now). apply fmap_Some in H as (a & Ha & ->).
  exists a. split; [done|]. intros d. apply describes_forget.
Qed.

(** ** Upgrades *)

Lemma run_pending_app h v l1 l2 s :
  run_pending h v (l1 ++ l2) s
  = match run_pending h v l1 s with
    | (inl e, s') => (inl e, s')
    | (inr _, s') => run_pending h v l2 s'
    end.
Proof.
  revert s. induction l1 as [|[w m] l1 IH]; intros s; cbn; [done|].
  destruct (v <? w); [|apply IH]. by destruct (run_steps _ _ _) as [[e|[]] s'].
Qed.

Lemma run_pending_skip h v l s :
  Forall (fun p => p.1 <= v) l -> run_pending h v l s = (inr tt, s).
Proof.
  induction 1 as [|[w m] l Hw Hl IH]; cbn in *; [done|].
  by rewrite (proj2 (Z.ltb_ge _ _)) by done.
Qed.

Lemma migrations_versions k v m : migrations !! k = Some (v, m) -> v = Z.of_nat (S k).
Proof. intros H. by apply stage_step in H as [-> _]. Qed.

Lemma migrations_done k : Forall (fun p => p.1 <= Z.of_nat k) (take k migrations).
Proof.
  apply Forall_lookup. intros i [v m] H. apply lookup_take_Some in H as [H Hi].
  apply migrations_versions in H as ->. cbn. lia.
Qed.

Lemma run_pending_from h k s :
  run_pending h (Z.of_nat k) migrations s = run_pending h (Z.of_nat k) (drop k migrations) s.
Proof.
  rewrite <- (take_drop k migrations) at 1. rewrite run_pending_app, run_pending_skip; [done|].
  apply migrations_done.
Qed.

(** The migrations after version [k], from a database of stage [j >= k]. *)
Lemma run_pending_sound h k j d n :
  quiet h -> (k <= j <= 18)%nat -> describes d (stage j) ->
  exists d' n', run_pending h (Z.of_nat k) (drop j migrations) (d, n) = (inr tt, (d', n'))
             /\ describes d' (stage 18).
Proof.
  intros Hq Hj. remember (18 - j)%nat as todo eqn:Ht. revert j Hj Ht d n.
  induction todo as [|todo IH]; intros j Hj Ht d n Hd.
  - replace j with 18%nat in * by lia. by exists d, n.
  - destruct (lookup_lt_is_Some_2 migrations j) as [[v m] Hm]; [cbn; lia|].
    rewrite (drop_S _ _ _ Hm). cbn [run_pending].
    destruct (stage_step j v m Hm) as [-> _]. rewrite (proj2 (Z.ltb_lt _ _)) by lia.
    destruct (stage_accepts j _ m (floor_timestamp_6h (now_utc h (d, n).2)) Hm) as (a & Hc & Ha).
    destruct (run_steps_sound h _ (stage j) a d n Hq Hd Hc) as (d1 & n1 & -> & Hd1).
    apply IH; [lia | lia | by apply Ha].
Qed.

Lemma stage_top k : (k <= 18)%nat -> a_top (stage k) = Z.of_nat k.
Proof. intros H. do 19 (destruct k as [|k]; [by_vm|]). lia. Qed.

Lemma stage_forgets k : a_empty (stage k) = ∅.
Proof. induction k as [|k IH]; cbn [stage]; [done|]. by case_match; [case_match|]. Qed.

(** [at_version] is what the stage says. *)
Lemma at_version_describes k d : (k <= 18)%nat -> at_version k d <-> describes d (stage k).
Proof.
  intros Hk. pose proof (stage_top k Hk) as Ht. split.
  - intros [Hs Hwf Hv]. split; [done | done | by rewrite stage_forgets | lia |]. rewrite Hv, Ht.
    by destruct k.
  - intros [Hs Hwf _ _ Hv]. split; [done | done |]. rewrite Hv, Ht. by destruct k.
Qed.

(** Any rows: a database at version [k] stays there whatever well-formed contents
    the tables other than the version table are given. *)
Lemma at_version_any_rows k d data :
  at_version k d -> wf (mk_db (d_schema d) data) ->
  data !! version_table = d_data d !! version_table ->
  at_version k (mk_db (d_schema d) data).
Proof. intros [Hs _ Hv] Hwf Hd. split; [done | done |]. unfold rows_of in *. cbn. by rewrite Hd. Qed.

Lemma stage_has_version_table k :
  (k <= 18)%nat -> is_some (s_tables (a_schema (stage k)) !! version_table) = true.
Proof. intros H. do 19 (destruct k as [|k]; [by_vm|]). lia. Qed.

Lemma is_some_true {A} (o : option A) : is_some o = true -> exists x, o = Some x.
Proof. destruct o; [eauto | done]. Qed.

(** The first statement changes nothing once the version table exists. *)
Lemma create_again d cols :
  tables d !! version_table = Some cols -> exec create_schema_migrations d = inr d.
Proof.
  intros H. unfold exec, create_schema_migrations. cbn [prepare perform]. rewrite H. cbn.
  by destruct d.
Qed.

Section upgrade.

Context `{Sqlx}.

(** sqlx's SQLite driver reads NULL as the integer zero. *)
Class SqlxLaws := null_reads_zero : null_as_i64 = inr 0.
Context `{!SqlxLaws}.

Lemma run_from_version h k a d n :
  quiet h -> describes d a -> a_top a = Z.of_nat k ->
  is_some (s_tables (a_schema a) !! version_table) = true ->
  run_sqlite_migrations h (d, n) = run_pending h (Z.of_nat k) migrations (d, S (S n)).
Proof.
  intros Hq Hd Hk Hv.
  destruct (is_some_true _ Hv) as [cols Hc].
  rewrite <- (desc_schema _ _ Hd) in Hc. unfold run_sqlite_migrations, execute.
  rewrite quiet_call, (create_again d cols Hc) by done. cbn beta iota.
  unfold get_schema_version. rewrite quiet_call by done. unfold sql_max_version. rewrite Hc.
  rewrite (desc_version _ _ Hd), Hk.
  destruct (Z.of_nat k =? 0) eqn:E; [|done]. apply Z.eqb_eq in E. cbn beta iota.
  by rewrite null_reads_zero, E.
Qed.

Lemma run_after_version h k d n :
  quiet h -> (k <= 18)%nat -> describes d (stage k) ->
  run_sqlite_migrations h (d, n) = run_pending h (Z.of_nat k) migrations (d, S (S n)).
Proof.
  intros Hq Hk Hd. apply (run_from_version h k (stage k)); [done..| |].
  - by apply stage_top.
  - by apply stage_has_version_table.
Qed.

Lemma upgrade_sound h k d n :
  quiet h -> (k <= 18)%nat -> describes d (stage k) ->
  exists d' n', run_sqlite_migrations h (d, n) = (inr tt, (d', n')) /\ describes d' (stage 18).
Proof.
  intros Hq Hk Hd. rewrite (run_after_version h k d n Hq Hk Hd).
  rewrite run_pending_from. by apply run_pending_sound.
Qed.

Lemma fresh_describes : exists d, exec create_schema_migrations empty_db = inr d /\ describes d stage0.
Proof.
  assert (He : describes empty_db (mk_abs (mk_schema ∅ ∅) ∅ 0)).
  { split; [done | apply wf_empty | set_solver | done | done]. }
  destruct (check_stmt_sound create_schema_migrations _
    (mk_abs (a_schema stage0) {[ version_table ]} 0) empty_db He eq_refl) as (d & Hr & Hd).
  exists d. split; [done|]. by apply describes_forget in Hd.
Qed.

Lemma fresh_sound h n :
  quiet h ->
  exists d' n', run_sqlite_migrations h (empty_db, n) = (inr tt, (d', n')) /\ describes d' (stage 18).
Proof.
  intros Hq. destruct fresh_describes as (d & He & Hd).
  pose proof (run_after_version h 0 d n Hq ltac:(lia) Hd) as Hr.
  destruct (upgrade_sound h 0 d n Hq ltac:(lia) Hd) as (d' & n' & Hu & Hd').
  exists d', n'. split; [|done]. rewrite <- Hu. unfold run_sqlite_migrations, execute.
  rewrite !quiet_call, He by done.
  destruct (is_some_true (s_tables (a_schema stage0) !! version_table)) as [cols Hc]; [by_vm|].
  rewrite <- (desc_schema _ _ Hd) in Hc. by rewrite (create_again d cols Hc).
Qed.
End upgrade.

(** ** The schema the services are written against *)

(** The columns [FromRow] reads into the structs of db/models.rs. *)
Definition order_columns : list string := [
  "id"; "encrypted_order_blob"; "day_bucket"; "expiry_bucket"; "version"; "has_dispute";
  "client_encrypted_blob"; "dispute_client_blob"; "chat_encrypted_blob"].
Definition listing_columns : list string := [
  "id"; "encrypted_listing_blob"; "day_bucket"; "search_token"; "status"; "currency"; "version"].
Definition tracker_columns : list string := ["tx_hash"; "order_id"; "buyer_pubkey"; "processed_at"].

Definition service_schema : gmap string (list string) :=
  {[ "orders" := order_columns; "listings" := listing_columns;
     "notification_tracker" := tracker_columns;
     version_table := ["version"; "applied_at"; "description"] ]}.

Lemma final_tables : names <$> s_tables (a_schema (stage 18)) = service_schema.
Proof. by_vm. Qed.

Lemma migrations_complete `{SqlxLaws} h d n :
  quiet h ->
  d = empty_db \/ (exists k, (k <= 18)%nat /\ at_version k d) ->
  exists d' n', run_sqlite_migrations h (d, n) = (inr tt, (d', n')) /\ describes d' (stage 18).
Proof.
  intros Hq [-> | (k & Hk & Hd)]; [by apply fresh_sound |].
  by apply (upgrade_sound h k), at_version_describes.
Qed.

Lemma final_schema d : describes d (stage 18) ->
  names <$> tables d = service_schema /\ max_version (recorded (rows_of d version_table)) = Some 18.
Proof.
  intros Hd. by rewrite (desc_schema _ _ Hd), final_tables, (desc_version _ _ Hd), (stage_top 18).
Qed.

Definition zero_sqlx : Sqlx := inr 0.

Definition quiet_host : host := mk_host (fun _ => false) (fun _ d => d) (fun _ => 1700000000).

Lemma quiet_host_quiet : quiet quiet_host.
Proof. by split. Qed.

(** ** Assertions every statement preserves

    They hold after a run however it ends, provided that other processes
    preserve them too. *)

Definition polite (h : host) (I : db -> Prop) : Prop := forall n d, I d -> I (other h n d).

Definition stmt_of (p : step) : stmt :=
  match p with Execute st => st | Ensure _ t c => AddColumn t c end.

Definition preserves (I : db -> Prop) (st : stmt) : Prop :=
  forall d d', I d -> exec st d = inr d' -> I d'.

Lemma alone_polite h I : alone h -> polite h I.
Proof. intros Ho n d Hd. by rewrite Ho. Qed.

Section assertion.

Context (h : host) (I : db -> Prop) (Hpol : polite h I).

Lemma call_inv {A} (f : db -> db_error + A * db) d n r d' n' :
  (forall d d' a, I d -> f d = inr (a, d') -> I d') ->
  I d -> call h f (d, n) = (r, (d', n')) -> I d'.
Proof.
  intros Hf Hd. pose proof (Hpol n d Hd) as Ho. unfold call.
  destruct (fault h n); [by intros [= _ <- _]|].
  destruct (f (other h n d)) as [e|[a d1]] eqn:E; intros [= _ <- _]; [done | by eapply Hf].
Qed.

Lemma execute_inv st d n r d' n' :
  preserves I st -> I d -> execute h st (d, n) = (r, (d', n')) -> I d'.
Proof.
  intros Hst. apply call_inv. intros d1 d2 [] Hd1. destruct (exec st d1) eqn:E; [done|].
  intros [= ->]. by eapply Hst.
Qed.

Lemma run_step_inv p d n r d' n' :
  preserves I (stmt_of p) -> I d -> run_step h p (d, n) = (r, (d', n')) -> I d'.
Proof.
  intros Hst Hd. destruct p as [st|hard t c]; cbn [run_step stmt_of] in *.
  - by apply execute_inv.
  - destruct (column_exists h t (c_name c) (d, n)) as [b [d1 n1]] eqn:Hc.
    assert (Hd1 : I d1).
    { unfold column_exists in Hc. destruct (call _ _ _) as [r1 [d2 n2]] eqn:E.
      apply call_inv in E; [by injection Hc as _ <- _ | by intros ??? ? [= _ <-] | done]. }
    destruct b; [by intros [= _ <- _]|].
    destruct (execute h (AddColumn t c) (d1, n1)) as [r2 [d2 n2]] eqn:He.
    intros [= _ <- _]. by apply execute_inv in He.
Qed.

Lemma run_steps_inv l : forall d n r d' n',
  (forall p, p ∈ l -> preserves I (stmt_of p)) ->
  I d -> run_steps h l (d, n) = (r, (d', n')) -> I d'.
Proof.
  induction l as [|p l IH]; intros d n r d' n' Hst Hd; cbn [run_steps]; [by intros [= _ <- _]|].
  destruct (run_step h p (d, n)) as [r1 [d1 n1]] eqn:Hr.
  apply run_step_inv in Hr; [| apply Hst; left | done].
  destruct r1 as [e|[]]; [by intros [= _ <- _]|].
  apply IH; [|done]. intros p' Hp. apply Hst. by right.
Qed.

Lemma run_pending_inv v l : forall d n r d' n',
  (forall w m now p, (w, m) ∈ l -> p ∈ m now -> preserves I (stmt_of p)) ->
  I d -> run_pending h v l (d, n) = (r, (d', n')) -> I d'.
Proof.
  induction l as [|[w m] l IH]; intros d n r d' n' Hst Hd; cbn [run_pending]; [by intros [= _ <- _]|].
  assert (Htail : forall d1 n1, I d1 -> run_pending h v l (d1, n1) = (r, (d', n')) -> I d').
  { intros d1 n1. apply IH. intros w' m' now p Hin. apply (Hst w' m'). by right. }
  destruct (v <? w); [|by apply Htail].
  destruct (run_steps _ _ _) as [r1 [d1 n1]] eqn:Hr. apply run_steps_inv in Hr; [| |done].
  - destruct r1 as [e|[]]; [by intros [= _ <- _] | by apply Htail].
  - intros p Hp. eapply Hst; [left | exact Hp].
Qed.

Lemma run_inv `{Sqlx} d n r d' n' :
  (forall st, preserves I st) ->
  I d -> run_sqlite_migrations h (d, n) = (r, (d', n')) -> I d'.
Proof.
  intros Hst Hd. unfold run_sqlite_migrations.
  destruct (execute h create_schema_migrations (d, n)) as [r1 [d1 n1]] eqn:He.
  apply execute_inv in He; [|done..]. destruct r1 as [e|[]]; [by intros [= _ <- _]|].
  unfold get_schema_version.
  destruct (call h sql_max_version (d1, n1)) as [r2 [d2 n2]] eqn:Hv.
  apply call_inv in Hv; [| | done].
  - destruct r2 as [e|[v|]]; [by intros [= _ <- _] | by apply run_pending_inv |].
    destruct null_as_i64; [by intros [= _ <- _] | by apply run_pending_inv].
  - intros d3 d4 a. unfold sql_max_version. destruct (tables d3 !! _); [by intros ? [= _ <-] | done].
Qed.
End assertion.

(** ** Runs that no other process interleaves with *)

Lemma execute_cases h st d n r d' n' :
  alone h -> execute h st (d, n) = (r, (d', n')) ->
  (exists e, r = inl e /\ d' = d) \/ (r = inr tt /\ exec st d = inr d').
Proof.
  intros Ho. unfold execute, call. rewrite Ho. destruct (fault h n); [naive_solver|].
  destruct (exec st d); intros Hr; simplify_eq; eauto.
Qed.

Lemma run_execute_cases h st l d n r d' n' :
  alone h -> run_steps h (Execute st :: l) (d, n) = (r, (d', n')) ->
  (exists e, r = inl e /\ d' = d) \/
  (exists d1 n1, exec st d = inr d1 /\ run_steps h l (d1, n1) = (r, (d', n'))).
Proof.
  intros Ho. cbn [run_steps run_step]. destruct (execute h st (d, n)) as [r1 [d1 n1]] eqn:He.
  apply execute_cases in He as [(e & -> & ->) | [-> He]]; [intros [= <- <- _]; eauto | eauto | done].
Qed.

(** The run as the first statement, the version query, and the pending part. *)
Lemma run_cases `{Sqlx} h d n r d' n' :
  alone h -> run_sqlite_migrations h (d, n) = (r, (d', n')) ->
  (exists e, r = inl e /\ d' = d) \/
  exists d1, exec create_schema_migrations d = inr d1 /\
    ((exists e, r = inl e /\ d' = d1) \/
     exists v n1, run_pending h v migrations (d1, n1) = (r, (d', n')) /\
       (max_version (recorded (rows_of d1 version_table)) = Some v \/
        max_version (recorded (rows_of d1 version_table)) = None /\ null_as_i64 = inr v)).
Proof.
  intros Ho. unfold run_sqlite_migrations.
  destruct (execute h create_schema_migrations (d, n)) as [r1 [d1 n1]] eqn:He.
  apply execute_cases in He as [(e & -> & ->) | [-> He]]; [intros [= <- <- _]; eauto | | done].
  intros Hr. right. exists d1. split; [done|]. revert Hr.
  unfold get_schema_version, call, sql_max_version. rewrite Ho.
  destruct (fault h n1); [intros [= <- <- _]; eauto|].
  destruct (tables d1 !! version_table); [|intros [= <- <- _]; eauto].
  destruct (max_version _) as [v|] eqn:Hv; [eauto 10|].
  destruct null_as_i64 as [e|v] eqn:Hn; [intros [= <- <- _]; eauto | eauto 10].
Qed.

(** ** Databases for the examples *)

Definition blob_of (n : nat) : value := VBlob (repeat Byte.x61 n).

Definition old_order (n : nat) : stmt :=
  InsertRow "orders" [
    ("id", blob_of n); ("listing_id", blob_of 1); ("buyer_pubkey_hash", blob_of 2);
    ("seller_pubkey_hash", blob_of 3); ("currency", VText "XMR"); ("created_at", VInt 1700000000);
    ("encrypted_order_blob", blob_of 40); ("day_bucket", VInt 1699999200)].

Definition exec_all (l : list stmt) (d : db) : db :=
  foldl (fun d st => match exec st d with inl _ => d | inr d' => d' end) d l.

(** A database of version 9 with two orders. *)
Definition version_9 : db :=
  let '(_, (d, _)) := run_pending quiet_host 0 (take 9 migrations)
                        (exec_all [create_schema_migrations] empty_db, 0%nat) in
  exec_all [old_order 16; old_order 17] d.

Lemma exec_all_wf l d : wf d -> wf (exec_all l d).
Proof.
  revert d. induction l as [|st l IH]; intros d Hd; cbn; [done|]. apply IH.
  destruct (exec st d) eqn:E; [done|]. by eapply exec_preserves.
Qed.

Lemma version_9_wf : wf version_9.
Proof.
  unfold version_9. destruct (run_pending _ _ _ _) as [r [d n]] eqn:E. apply exec_all_wf.
  eapply run_pending_inv; [| | | exact E].
  - by intros ???.
  - intros w m now p _ _ d1 d2. apply exec_preserves.
  - apply exec_all_wf, wf_empty.
Qed.

Lemma at_version_9 : at_version 9 version_9.
Proof. split; [by_vm | apply version_9_wf | by_vm]. Qed.

Lemma version_9_known : exists k, (k <= 18)%nat /\ at_version k version_9.
Proof. exists 9%nat. split; [lia | exact at_version_9]. Qed.

(** ** The upgrade *)

(** C14. Without failing calls or interference, the migrations run to completion from
    an empty database and from a database at any of the eighteen versions,
    whatever rows its tables hold, and leave exactly the tables and columns the structs of db/models.rs are read
    from; the recorded version is 18, and the database is well formed. *)
Theorem migrations_upgrade `{SqlxLaws} h d n :
  quiet h ->
  d = empty_db \/ (exists k, (k <= 18)%nat /\ at_version k d) ->
  exists d' n',
    run_sqlite_migrations h (d, n) = (inr tt, (d', n')) /\
    names <$> tables d' = service_schema /\
    max_version (recorded (rows_of d' version_table)) = Some 18 /\ wf d'.
Proof.
  intros Hq Hd. destruct (migrations_complete h d n Hq Hd) as (d' & n' & Hr & Hd').
  destruct (final_schema d' Hd') as [Ht Hv]. exists d', n'. split_and!; [done..|apply Hd'].
Qed.

(** From version 9, with two orders. *)
Lemma migrations_upgrade_witness :
  length (rows_of version_9 "orders") = 2%nat /\
  exists d' n',
    run_sqlite_migrations (H := zero_sqlx) quiet_host (version_9, 0%nat) = (inr tt, (d', n')) /\
    names <$> tables d' = service_schema /\
    max_version (recorded (rows_of d' version_table)) = Some 18 /\ wf d'.
Proof.
  split; [by_vm|].
  apply (migrations_upgrade (H := zero_sqlx) (H0 := eq_refl)); [exact quiet_host_quiet|].
  right. exact version_9_known.
Defined.
