(* ===== verification/MigrationRestart.v ===== *)
(** Schema migrations that are started again after the process stopped.

    A process that stops is a host all of whose calls fail from some call on.
    What is known of the database it leaves is the abstract state after a prefix
    of one migration ([partial]); the static check of SqlCheck, run from there
    ([completes]), says whether the next start gets through that migration. *)
From S2P Require Import Prelude TimeBuckets Sql SqlCheck Migrations MigrationFaults.

(** ** Hosts that stop *)

Definition stopped (h : host) (n : nat) : Prop := forall i, (n <= i)%nat -> fault h i = true.

Definition stops (h : host) : Prop :=
  alone h /\ forall i, fault h i = true -> stopped h i.

Lemma stopped_mono h n n' : stopped h n -> (n <= n')%nat -> stopped h n'.
Proof. intros H Hn i Hi. apply H. lia. Qed.

Section stop.
Context (h : host) (Hh : stops h).

Lemma stopped_call {A} (f : db -> db_error + A * db) d n r d' n' :
  stopped h n -> call h f (d, n) = (r, (d', n')) -> r = inl Unavailable /\ d' = d /\ n' = S n.
Proof. intros Hn. unfold call. rewrite (proj1 Hh), Hn by done. by intros [= <- <- <-]. Qed.

Lemma stopped_step p d n r d' n' :
  stopped h n -> run_step h p (d, n) = (r, (d', n')) -> d' = d /\ stopped h n'.
Proof.
  intros Hn. destruct p as [st|hard t c]; cbn [run_step].
  - intros (-> & -> & ->)%stopped_call; [|done]. split; [done | eapply stopped_mono; [exact Hn | lia]].
  - unfold column_exists. destruct (call _ _ (d, n)) as [r1 [d1 n1]] eqn:E.
    apply stopped_call in E as (-> & -> & ->); [|done]. cbn iota.
    assert (Hn1 : stopped h (S n)) by (eapply stopped_mono; [exact Hn | lia]).
    destruct (execute _ _ _) as [r2 [d2 n2]] eqn:E. apply stopped_call in E as (-> & -> & ->); [|done].
    intros [= _ <- <-]. split; [done | eapply stopped_mono; [exact Hn | lia]].
Qed.

Lemma stopped_steps l : forall d n r d' n',
  stopped h n -> run_steps h l (d, n) = (r, (d', n')) -> d' = d /\ stopped h n'.
Proof.
  induction l as [|p l IH]; intros d n r d' n' Hn; cbn [run_steps]; [by intros [= _ <- <-]|].
  destruct (run_step h p (d, n)) as [r1 [d1 n1]] eqn:E. apply stopped_step in E as [-> Hn1]; [|done].
  destruct r1 as [e|[]]; [by intros [= _ <- <-] | by apply IH].
Qed.

Lemma stopped_pending v l : forall d n r d' n',
  stopped h n -> run_pending h v l (d, n) = (r, (d', n')) -> d' = d.
Proof.
  induction l as [|[w m] l IH]; intros d n r d' n' Hn; cbn [run_pending]; [by intros [= _ <- _]|].
  destruct (v <? w); [|by apply IH].
  destruct (run_steps _ _ _) as [r1 [d1 n1]] eqn:E. apply stopped_steps in E as [-> Hn1]; [|done].
  destruct r1 as [e|[]]; [by intros [= _ <- _] | by apply IH].
Qed.

(** A step the check accepts is either done, or the process has stopped. *)
Lemma stop_execute st a a' d n r d' n' :
  describes d a -> check_stmt st a = Some a' -> execute h st (d, n) = (r, (d', n')) ->
  (r = inr tt /\ describes d' a') \/ (d' = d /\ stopped h n').
Proof.
  intros Hd Hc. destruct (check_stmt_sound st a a' d Hd Hc) as (d1 & He & Hd1).
  unfold execute, call. rewrite (proj1 Hh). destruct (fault h n) eqn:Hf.
  - intros [= _ <- <-]. right. split; [done|]. eapply stopped_mono; [apply (proj2 Hh), Hf | lia].
  - rewrite He. intros [= <- <- _]. by left.
Qed.

Lemma stop_step p a a' d n r d' n' :
  describes d a -> check_step p a = Some a' -> run_step h p (d, n) = (r, (d', n')) ->
  (r = inr tt /\ describes d' a') \/ (d' = d /\ stopped h n').
Proof.
  intros Hd Hc. destruct p as [st|hard t c]; cbn [run_step check_step] in *; [by apply stop_execute with a|].
  unfold column_exists, call at 1. rewrite (proj1 Hh). destruct (fault h n) eqn:Hf.
  - assert (Hn : stopped h (S n)) by (eapply stopped_mono; [apply (proj2 Hh), Hf | lia]).
    destruct (execute _ _ _) as [r2 [d2 n2]] eqn:E. apply stopped_call in E as (-> & -> & ->); [|done].
    intros [= _ <- <-]. right. split; [done | eapply stopped_mono; [exact Hn | lia]].
  - cbn iota. rewrite (desc_schema _ _ Hd). case_bool_decide; [intros [= <- <- _]; left; by simplify_eq|].
    destruct (execute _ _ _) as [r2 [d2 n2]] eqn:E.
    destruct (stop_execute _ _ _ _ _ _ _ _ Hd Hc E) as [[-> Hd2] | [-> Hn]]; intros [= <- <- <-].
    + left. by destruct hard.
    + by right.
Qed.

Lemma stop_steps l : forall a a' d n r d' n',
  describes d a -> check_steps l a = Some a' -> run_steps h l (d, n) = (r, (d', n')) ->
  (r = inr tt /\ describes d' a') \/
  exists i b, (i < length l)%nat /\ check_steps (take i l) a = Some b /\ describes d' b /\ stopped h n'.
Proof.
  induction l as [|p l IH]; intros a a' d n r d' n' Hd Hc; cbn [run_steps check_steps] in *.
  - intros [= <- <- _]. left. by simplify_eq.
  - destruct (check_step p a) as [b|] eqn:Hp; [|done]. cbn in Hc.
    destruct (run_step h p (d, n)) as [r1 [d1 n1]] eqn:E.
    destruct (stop_step _ _ _ _ _ _ _ _ Hd Hp E) as [[-> Hd1] | [-> Hn]].
    + intros Hr. destruct (IH b a' d1 n1 r d' n' Hd1 Hc Hr) as [? | (i & b' & Hi & Hb & ?)]; [by left|].
      right. exists (S i), b'. cbn [length take check_steps]. rewrite Hp. split; [lia | by split].
    + assert (Hstay : forall r2 d2 n2, (r2, (d2, n2)) = (r, (d', n')) -> d2 = d -> stopped h n2 ->
        (r = inr tt /\ describes d' a') \/ exists i b, (i < length (p :: l))%nat /\
        check_steps (take i (p :: l)) a = Some b /\ describes d' b /\ stopped h n').
      { intros r2 d2 n2 [= <- <- <-] -> Hn2. right. exists 0%nat, a. cbn. split; [lia | done]. }
      destruct r1 as [e|[]]; intros Hr; [by eapply Hstay|].
      destruct (run_steps h l (d, n1)) as [r2 [d2 n2]] eqn:E2.
      apply stopped_steps in E2 as [-> Hn2]; [|done]. by eapply Hstay.
Qed.
End stop.

(** ** What a stopped run leaves *)

(** The steps of migration [k+1] without the one that records its version. *)
Definition body (k : nat) : list step :=
  match migrations !! k with Some (_, m) => removelast (m 0) | None => [] end.

Lemma migration_body k v m :
  migrations !! k = Some (v, m) -> exists description, forall now,
    m now = body k ++ [record_migration v now description].
Proof.
  intros H. do 18 (destruct k as [|k]; [injection H as <- <-; eexists; intros now; reflexivity |]).
  discriminate H.
Qed.

(** What is known after the first [i] steps of migration [k+1]. *)
Definition partial (k i : nat) : option abs := check_steps (take i (body k)) (stage k).

Lemma partial_start k : partial k 0 = Some (stage k).
Proof. done. Qed.

Lemma partial_start_inv k b : partial k 0 = Some b -> b = stage k.
Proof. by intros [= <-]. Qed.

Definition left_at (d : db) : Prop :=
  exists k i b, (k <= 18)%nat /\ (i <= length (body k))%nat /\ partial k i = Some b /\ describes d b.

Lemma stage_left k d : (k <= 18)%nat -> describes d (stage k) -> left_at d.
Proof. intros Hk Hd. exists k, 0%nat, (stage k). split_and!; [done | lia | apply partial_start | done]. Qed.

Lemma pending_left h k j d n r d' n' :
  stops h -> (k <= j <= 18)%nat -> describes d (stage j) ->
  run_pending h (Z.of_nat k) (drop j migrations) (d, n) = (r, (d', n')) -> left_at d'.
Proof.
  intros Hh. remember (18 - j)%nat as todo eqn:Ht. revert j Ht d n.
  induction todo as [|todo IH]; intros j Ht d n Hj Hd.
  - replace j with 18%nat in * by lia. intros [= _ <- _]. by apply (stage_left 18).
  - destruct (lookup_lt_is_Some_2 migrations j) as [[v m] Hm]; [cbn; lia|].
    rewrite (drop_S _ _ _ Hm). cbn [run_pending].
    destruct (stage_step j v m Hm) as [-> _]. rewrite (proj2 (Z.ltb_lt _ _)) by lia.
    set (now := floor_timestamp_6h _). destruct (stage_accepts j _ m now Hm) as (a & Hc & Ha).
    destruct (run_steps h (m now) (d, n)) as [r1 [d1 n1]] eqn:E.
    destruct (stop_steps h Hh _ _ _ _ _ _ _ _ Hd Hc E) as [[-> Hd1] | (i & b & Hi & Hb & Hd1 & Hn)].
    + apply IH; [lia | lia | by apply Ha].
    + assert (Hleft : left_at d1).
      { destruct (migration_body j _ m Hm) as [description Hbody]. rewrite Hbody in Hi, Hb.
        rewrite length_app in Hi. cbn in Hi. rewrite take_app_le in Hb by lia.
        exists j, i, b. split_and!; [lia | lia | exact Hb | done]. }
      destruct r1 as [e|[]]; [by intros [= _ <- _]|].
      intros ->%(stopped_pending h Hh); done.
Qed.

Section restart.
Context `{SqlxLaws}.

Lemma run_left h k d n r d' n' :
  stops h -> (k <= 18)%nat -> describes d (stage k) ->
  run_sqlite_migrations h (d, n) = (r, (d', n')) -> left_at d'.
Proof.
  intros Hh Hk Hd Hr. pose proof (stage_left k d Hk Hd) as Hleft.
  destruct (run_cases h d n r d' n' (proj1 Hh) Hr) as [(e & -> & ->) | (d1 & He & Hr')]; [done|].
  destruct (is_some_true _ (stage_has_version_table k Hk)) as [cols Hc].
  rewrite <- (desc_schema _ _ Hd) in Hc. rewrite (create_again d cols Hc) in He. injection He as <-.
  destruct Hr' as [(e & -> & ->) | (v & n1 & Hp & Hv)]; [done|].
  assert (v = Z.of_nat k) as ->.
  { rewrite (desc_version _ _ Hd), stage_top in Hv by done.
    destruct (Z.of_nat k =? 0) eqn:E; [apply Z.eqb_eq in E|]; destruct Hv as [Hv | [Hv Hnull]]; simplify_eq; [|done].
    rewrite null_reads_zero in Hnull. simplify_eq. done. }
  rewrite run_pending_from in Hp. by eapply pending_left in Hp.
Qed.

(** ** Where the next start gets through *)

(** Tables that must be empty for the copy of migrations 10 and 11 to be
    repeated. *)
Definition empties (k i : nat) : gset string :=
  if bool_decide (k = 9 /\ i = 2)%nat then {["orders_new"]}
  else if bool_decide (k = 10 /\ 2 <= i <= 6)%nat then {["listings_new"]} else ∅.

Definition with_empty (e : gset string) (a : abs) : abs := mk_abs (a_schema a) (e ∪ a_empty a) (a_top a).

(** Everything [b] says of a database, [a] says. *)
Definition covers (a b : abs) : bool :=
  bool_decide (a_schema a = a_schema b) && bool_decide (a_empty b ⊆ a_empty a) && (a_top a =? a_top b).

Definition completes (now : Z) (k : nat) (a : abs) : bool :=
  match migrations !! k with
  | Some (_, m) => match check_steps (m now) a with Some a' => covers a' (stage (S k)) | None => false end
  | None => false
  end.

(** The table being replaced is gone, or replaced already. *)
Definition replaced (k : nat) (s : gmap string (list column)) : bool :=
  (Nat.eqb k 9 && negb (is_some (s !! "orders"))) ||
  (Nat.eqb k 10 && negb (bool_decide ("encrypted_search" ∈ names (default [] (s !! "listings"))))).

Definition restartable (now : Z) (k i : nat) : bool :=
  match partial k i with
  | Some b => (a_top b =? Z.of_nat k) && is_some (s_tables (a_schema b) !! version_table) &&
              (replaced k (s_tables (a_schema b)) || completes now k (with_empty (empties k i) b))
  | None => false
  end.

Lemma restartable_everywhere now k :
  (k < 18)%nat -> forallb (restartable now k) (seq 0 (S (length (body k)))) = true.
Proof. intros Hk. do 18 (destruct k as [|k]; [by_vm|]). lia. Qed.

Lemma covers_describes d a b : describes d a -> covers a b = true -> describes d b.
Proof.
  intros [Hs Hwf He Hn0 Hv]. unfold covers. rewrite !andb_true_iff, !bool_decide_eq_true, Z.eqb_eq.
  intros [[Es Ee] Et]. split; [congruence | done | auto | lia | by rewrite <- Et].
Qed.

Lemma describes_with_empty d a e :
  describes d a -> (forall t, t ∈ e -> rows_of d t = []) -> describes d (with_empty e a).
Proof. intros [Hs Hwf He Hn0 Hv] Hn. split; [done.. | | done | done]. cbn. set_solver. Qed.

(** The windows: a copy already holds rows, or the old table is not there to be
    copied again. *)
Definition unfinished (d : db) : Prop :=
  let v := max_version (recorded (rows_of d version_table)) in
  (v = Some 9 /\ (tables d !! "orders" = None \/ rows_of d "orders_new" <> [])) \/
  (v = Some 10 /\ ("encrypted_search" ∉ names (default [] (tables d !! "listings")) \/
                   rows_of d "listings_new" <> [])).

Lemma empties_cases d k i :
  (forall t, t ∈ empties k i -> rows_of d t = []) \/
  (k = 9%nat /\ rows_of d "orders_new" <> []) \/ (k = 10%nat /\ rows_of d "listings_new" <> []).
Proof.
  unfold empties. repeat case_bool_decide.
  - destruct (decide (rows_of d "orders_new" = [])); [left; set_solver | right; left; naive_solver].
  - destruct (decide (rows_of d "listings_new" = [])); [left; set_solver | right; right; naive_solver].
  - left. set_solver.
Qed.

Lemma restart_completes h k a d n :
  quiet h -> (k < 18)%nat -> describes d a -> a_top a = Z.of_nat k ->
  is_some (s_tables (a_schema a) !! version_table) = true -> (forall now, completes now k a = true) ->
  exists d' n', run_sqlite_migrations h (d, n) = (inr tt, (d', n')) /\ describes d' (stage 18).
Proof.
  intros Hq Hk Hd Ht Hv Hc. rewrite (run_from_version h k a d n) by done. rewrite run_pending_from.
  destruct (lookup_lt_is_Some_2 migrations k) as [[v m] Hm]; [cbn; lia|].
  rewrite (drop_S _ _ _ Hm). cbn [run_pending].
  destruct (stage_step k v m Hm) as [-> _]. rewrite (proj2 (Z.ltb_lt _ _)) by lia.
  set (now := floor_timestamp_6h _). specialize (Hc now). unfold completes in Hc. rewrite Hm in Hc.
  destruct (check_steps (m now) a) as [a'|] eqn:Ec; [|done].
  destruct (run_steps_sound h (m now) a a' d (S (S n)) Hq Hd Ec) as (d1 & n1 & -> & Hd1).
  apply run_pending_sound; [done | lia | by apply (covers_describes d1 a')].
Qed.

Lemma left_restarts h d n :
  quiet h -> left_at d ->
  unfinished d \/
  exists d' n', run_sqlite_migrations h (d, n) = (inr tt, (d', n')) /\ describes d' (stage 18).
Proof.
  intros Hq (k & i & b & Hk & Hi & Hb & Hd). destruct (decide (k = 18%nat)) as [->|Hne].
  { right. assert (i = 0%nat) as -> by (cbn in Hi; lia). apply partial_start_inv in Hb as ->.
    by apply (upgrade_sound h 18). }
  assert (Hlt : (k < 18)%nat) by lia.
  assert (Hall : forall now, restartable now k i = true).
  { intros now. pose proof (restartable_everywhere now k Hlt) as Hf. rewrite forallb_forall in Hf.
    apply Hf, in_seq. lia. }
  unfold restartable in Hall. rewrite Hb in Hall.
  pose proof (Hall 0) as [[Ht%Z.eqb_eq Hv]%andb_true_iff _]%andb_true_iff.
  destruct (replaced k (s_tables (a_schema b))) eqn:Hr.
  { left. unfold replaced in Hr. rewrite <- (desc_schema _ _ Hd) in Hr.
    pose proof (desc_version _ _ Hd) as Hver. rewrite Ht in Hver. unfold unfinished.
    apply orb_true_iff in Hr as [[->%Nat.eqb_eq Hr]%andb_true_iff | [->%Nat.eqb_eq Hr]%andb_true_iff];
      apply negb_true_iff in Hr; cbn in Hver; rewrite Hver.
    - left. split; [done|]. left. by destruct (tables d !! "orders").
    - right. split; [done|]. left. by apply bool_decide_eq_false in Hr. }
  destruct (empties_cases d k i) as [He | Hrows].
  - right. apply (restart_completes h k (with_empty (empties k i) b)); [done | done | | done | done |].
    + by apply describes_with_empty.
    + intros now. specialize (Hall now). rewrite andb_true_iff in Hall. apply (proj2 Hall).
  - left. pose proof (desc_version _ _ Hd) as Hver. rewrite Ht in Hver. unfold unfinished.
    destruct Hrows as [[-> Hrows] | [-> Hrows]]; cbn in Hver; rewrite Hver; auto.
Qed.

(** C39. An upgrade that stopped before any of its calls, from an empty database or
    one at any version, whatever rows its tables hold, is completed by the next undisturbed start, unless it stopped
    while migration 10 or 11 was replacing its table: with rows in the copy, or
    with the old table gone or replaced and the version not recorded. *)
Theorem interrupted_upgrade h h' d n m r d' n' :
  stops h -> quiet h' ->
  d = empty_db \/ (exists k, (k <= 18)%nat /\ at_version k d) ->
  run_sqlite_migrations h (d, n) = (r, (d', n')) ->
  unfinished d' \/
  exists d'' n'', run_sqlite_migrations h' (d', m) = (inr tt, (d'', n'')) /\
    names <$> tables d'' = service_schema /\
    max_version (recorded (rows_of d'' version_table)) = Some 18.
Proof.
  intros Hh Hq Hd Hr.
  assert (Hend : left_at d' -> unfinished d' \/ exists d'' n'',
    run_sqlite_migrations h' (d', m) = (inr tt, (d'', n'')) /\ names <$> tables d'' = service_schema /\
    max_version (recorded (rows_of d'' version_table)) = Some 18).
  { intros Hl. destruct (left_restarts h' d' m Hq Hl) as [? | (d2 & n2 & Hr2 & Hd2)]; [by left|].
    right. exists d2, n2. split; [done | by apply final_schema]. }
  destruct Hd as [-> | (k & Hk & Hd)]; [|by apply Hend, (run_left h k d n r d' n'), Hr; [..|apply at_version_describes]].
  destruct (run_cases h empty_db n r d' n' (proj1 Hh) Hr) as [(e & -> & ->) | (d1 & He & Hr')].
  - right. destruct (fresh_sound h' m Hq) as (d2 & n2 & Hr2 & Hd2). exists d2, n2.
    split; [done | by apply final_schema].
  - destruct fresh_describes as (d2 & He2 & Hd2). rewrite He in He2. injection He2 as <-.
    apply Hend. destruct Hr' as [(e & -> & ->) | (v & n1 & Hp & Hv)]; [apply (stage_left 0); [lia | done]|].
    assert (v = 0) as ->.
    { pose proof (desc_version _ _ Hd2) as Hn. cbn in Hn. rewrite Hn in Hv. destruct Hv as [? | [_ Hv]]; [done|].
      rewrite null_reads_zero in Hv. by simplify_eq. }
    by apply (pending_left h 0 0 d1 n1 r d' n' Hh); [lia|..].
Qed.
End restart.

Lemma crash_stops c : stops (crash c).
Proof. split; [done|]. intros i Hi j Hj. cbn in *. apply Nat.leb_le in Hi. apply Nat.leb_le. lia. Qed.

(** An upgrade of two orders stopped in migration 10, before the copy. *)
Definition stopped_at_3 : (db_error + unit) * state :=
  run_sqlite_migrations (H := zero_sqlx) (crash 3) (version_9, 0%nat).

Lemma seen_at_3 :
  max_version (recorded (rows_of stopped_at_3.2.1 version_table)) = Some 9 /\
  length (rows_of stopped_at_3.2.1 "orders") = 2%nat /\ rows_of stopped_at_3.2.1 "orders_new" = [] /\
  is_some (tables stopped_at_3.2.1 !! "orders") = true.
Proof. split_and!; by_vm. Qed.

Lemma interrupted_upgrade_witness :
  length (rows_of stopped_at_3.2.1 "orders") = 2%nat /\
  exists d'' n'', run_sqlite_migrations (H := zero_sqlx) quiet_host (stopped_at_3.2.1, 0%nat) = (inr tt, (d'', n'')) /\
    names <$> tables d'' = service_schema /\
    max_version (recorded (rows_of d'' version_table)) = Some 18.
Proof.
  destruct seen_at_3 as (Hv & Hl & Hnew & Hold). split; [exact Hl|]. clear Hl.
  destruct stopped_at_3 as [r [d' n']] eqn:E. cbn [fst snd] in *.
  destruct (interrupted_upgrade (H := zero_sqlx) (H0 := eq_refl) (crash 3) quiet_host version_9 0 0 r d' n'
    (crash_stops 3) quiet_host_quiet (or_intror version_9_known) E)
    as [[[_ [Hno | Hne]] | [Hu _]] | Hdone].
  - rewrite Hno in Hold. discriminate Hold.
  - destruct (Hne Hnew).
  - rewrite Hv in Hu. discriminate Hu.
  - exact Hdone.
Defined.
