(* ===== verification/Models.v ===== *)
(** The records of src/db/models.rs: the rows of the two tables, the order
    data kept inside an encrypted blob, and its state machine
    ([OrderData::state_transitions], [OrderData::can_transition_to]). *)
From S2P Require Import Prelude.

Record NotificationTracker := mk_tracker {
  nt_tx_hash : bytes; nt_order_id : bytes; nt_buyer_pubkey : bytes; nt_processed_at : Z }.

Record Order := mk_order {
  o_id : bytes;
  o_encrypted_order_blob : bytes;
  o_day_bucket : Z;
  o_expiry_bucket : option Z;
  o_version : Z;
  o_has_dispute : Z;
  o_client_encrypted_blob : option bytes;
  o_dispute_client_blob : option bytes;
  o_chat_encrypted_blob : option bytes }.

Record DisputeEvidenceEntry := mk_evidence {
  de_id : string; de_submitted_by : string; de_encrypted_content : bytes;
  de_content_type : string; de_created_at : Z }.

Record DisputeData := mk_dispute {
  dd_id : string; dd_opened_by : string; dd_reason : string;
  dd_resolution : option string; dd_resolved_by : option string;
  dd_resolved_at : option Z; dd_created_at : Z;
  dd_evidence : list DisputeEvidenceEntry }.

Record ChatMessageData := mk_chat {
  cm_id : bytes; cm_sender_pubkey_hash : bytes; cm_encrypted_body : bytes;
  cm_created_at : Z; cm_expires_at : Z }.

Record OrderData := mk_order_data {
  listing_id : bytes;
  buyer_pubkey_hash : bytes;
  seller_pubkey_hash : bytes;
  buyer_pubkey : option string;
  seller_pubkey : option string;
  state : string;
  currency : string;
  escrow_address : option string;
  escrow_amount : option string;
  time_lock_seconds : Z;
  created_at : Z;
  funded_at : option Z;
  shipped_at : option Z;
  confirmed_at : option Z;
  released_at : option Z;
  refunded_at : option Z;
  expires_at : option Z;
  disputed_at : option Z;
  dispute_id : option string;
  owner_pubkey : option string;
  fee_percent : option Z;
  fee_address : option string;
  dispute : option DisputeData;
  chat_messages : list ChatMessageData;
  settlement_txid : option string }.

Record Listing := mk_listing {
  l_id : bytes;
  l_encrypted_listing_blob : bytes;
  l_day_bucket : Z;
  l_search_token : option bytes;
  l_status : string;
  l_currency : string;
  l_version : Z }.

Record ListingData := mk_listing_data {
  ld_seller_pubkey_hash : bytes;
  ld_seller_pubkey : option string;
  ld_encrypted_data : bytes;
  ld_encrypted_search : option bytes;
  ld_currency : string;
  ld_price_amount : string;
  ld_status : string;
  ld_created_at : Z;
  ld_expires_at : option Z;
  ld_updated_at : Z }.

(** ** The order state machine *)

Definition state_transitions (d : OrderData) : list string :=
  if decide (state d = "pending") then ["cancelled"; "funded"]
  else if decide (state d = "funded") then ["shipped"; "disputed"]
  else if decide (state d = "shipped") then ["confirmed"; "disputed"]
  else if decide (state d = "confirmed") then ["released"]
  else if decide (state d = "disputed") then ["released"; "refunded"]
  else [].

Definition can_transition_to (d : OrderData) (new_state : string) : bool :=
  bool_decide (new_state ∈ state_transitions d).

(** ** Field updates ([data.f = v] on a [&mut OrderData]) *)

Definition set_state (v : string) (d : OrderData) : OrderData :=
  match d with
  | mk_order_data li bh sh bp sp _ cu ea em tl ca fu sa co re rf ex di dd ow fp fa ds cm st =>
    mk_order_data li bh sh bp sp v cu ea em tl ca fu sa co re rf ex di dd ow fp fa ds cm st
  end.
Definition set_buyer_pubkey (v : option string) (d : OrderData) : OrderData :=
  match d with
  | mk_order_data li bh sh _ sp s cu ea em tl ca fu sa co re rf ex di dd ow fp fa ds cm st =>
    mk_order_data li bh sh v sp s cu ea em tl ca fu sa co re rf ex di dd ow fp fa ds cm st
  end.
Definition set_escrow_address (v : option string) (d : OrderData) : OrderData :=
  match d with
  | mk_order_data li bh sh bp sp s cu _ em tl ca fu sa co re rf ex di dd ow fp fa ds cm st =>
    mk_order_data li bh sh bp sp s cu v em tl ca fu sa co re rf ex di dd ow fp fa ds cm st
  end.
Definition set_funded_at (v : option Z) (d : OrderData) : OrderData :=
  match d with
  | mk_order_data li bh sh bp sp s cu ea em tl ca _ sa co re rf ex di dd ow fp fa ds cm st =>
    mk_order_data li bh sh bp sp s cu ea em tl ca v sa co re rf ex di dd ow fp fa ds cm st
  end.
Definition set_released_at (v : option Z) (d : OrderData) : OrderData :=
  match d with
  | mk_order_data li bh sh bp sp s cu ea em tl ca fu sa co _ rf ex di dd ow fp fa ds cm st =>
    mk_order_data li bh sh bp sp s cu ea em tl ca fu sa co v rf ex di dd ow fp fa ds cm st
  end.
Definition set_refunded_at (v : option Z) (d : OrderData) : OrderData :=
  match d with
  | mk_order_data li bh sh bp sp s cu ea em tl ca fu sa co re _ ex di dd ow fp fa ds cm st =>
    mk_order_data li bh sh bp sp s cu ea em tl ca fu sa co re v ex di dd ow fp fa ds cm st
  end.
Definition set_expires_at (v : option Z) (d : OrderData) : OrderData :=
  match d with
  | mk_order_data li bh sh bp sp s cu ea em tl ca fu sa co re rf _ di dd ow fp fa ds cm st =>
    mk_order_data li bh sh bp sp s cu ea em tl ca fu sa co re rf v di dd ow fp fa ds cm st
  end.
Definition set_disputed_at (v : option Z) (d : OrderData) : OrderData :=
  match d with
  | mk_order_data li bh sh bp sp s cu ea em tl ca fu sa co re rf ex _ dd ow fp fa ds cm st =>
    mk_order_data li bh sh bp sp s cu ea em tl ca fu sa co re rf ex v dd ow fp fa ds cm st
  end.
Definition set_dispute (i : option string) (v : option DisputeData) (d : OrderData) : OrderData :=
  match d with
  | mk_order_data li bh sh bp sp s cu ea em tl ca fu sa co re rf ex di _ ow fp fa _ cm st =>
    mk_order_data li bh sh bp sp s cu ea em tl ca fu sa co re rf ex di i ow fp fa v cm st
  end.
Definition set_settlement_txid (v : option string) (d : OrderData) : OrderData :=
  match d with
  | mk_order_data li bh sh bp sp s cu ea em tl ca fu sa co re rf ex di dd ow fp fa ds cm _ =>
    mk_order_data li bh sh bp sp s cu ea em tl ca fu sa co re rf ex di dd ow fp fa ds cm v
  end.

(** ** The lifecycle of an order *)

(** A lifecycle step: the new data is in a state the machine allows. *)
Definition lifecycle_step (d d' : OrderData) : Prop := can_transition_to d (state d') = true.

(** How many transitions a state is from the end of every lifecycle. *)
Definition state_rank (s : string) : nat :=
  if decide (s = "pending") then 4
  else if decide (s = "funded") then 3
  else if decide (s = "shipped") then 2
  else if decide (s = "confirmed") then 1
  else if decide (s = "disputed") then 1
  else 0.

Lemma can_transition_cases d s :
  can_transition_to d s = true ->
  (state d, s) ∈ [("pending", "cancelled"); ("pending", "funded");
                  ("funded", "shipped"); ("funded", "disputed");
                  ("shipped", "confirmed"); ("shipped", "disputed");
                  ("confirmed", "released");
                  ("disputed", "released"); ("disputed", "refunded")].
Proof.
  unfold can_transition_to, state_transitions. intros H%bool_decide_eq_true.
  repeat case_decide; try (by apply elem_of_nil in H);
    repeat (apply elem_of_cons in H as [->|H]); try (by apply elem_of_nil in H);
    match goal with E : state d = _ |- _ => rewrite E end; set_solver.
Qed.

Lemma can_transition_rank d s :
  can_transition_to d s = true -> (state_rank s < state_rank (state d))%nat.
Proof.
  intros H%can_transition_cases.
  repeat (apply elem_of_cons in H as [[= -> ->]|H]; [vm_compute; lia|]).
  by apply elem_of_nil in H.
Qed.

(** C21. Every lifecycle is finite: a chain of transitions from an order never
    exceeds the rank of its state, so no order sees more than four, and a
    state outside the five live ones admits none. *)
Theorem lifecycle_terminates (ds : list OrderData) (d : OrderData) :
  (forall i x y, (d :: ds) !! i = Some x -> (d :: ds) !! S i = Some y -> lifecycle_step x y) ->
  (length ds <= state_rank (state d) <= 4)%nat /\
  (state_rank (state d) = 0%nat -> forall s, can_transition_to d s = false).
Proof.
  intros H. split; [split|].
  - revert d H. induction ds as [|e ds IH]; intros d H; [cbn; lia|].
    assert (length ds <= state_rank (state e))%nat.
    { apply IH. intros i x y Hx Hy. exact (H (S i) x y Hx Hy). }
    pose proof (can_transition_rank d (state e) (H 0%nat d e eq_refl eq_refl)).
    cbn. lia.
  - unfold state_rank. repeat case_decide; lia.
  - intros Hr s. destruct (can_transition_to d s) eqn:E; [|done].
    apply can_transition_rank in E. lia.
Qed.

(** A concrete order, used by the witnesses. *)
Definition sample_order (st : string) : OrderData :=
  mk_order_data [] [] [] None None st "BTC" (Some "addr") (Some "1.0") 604800 0
    None None None None None None None None None None None None [] None.

Lemma lifecycle_terminates_witness :
  let ds := [sample_order "funded"; sample_order "shipped";
             sample_order "disputed"; sample_order "refunded"] in
  (length ds <= state_rank (state (sample_order "pending")) <= 4)%nat /\
  (state_rank (state (sample_order "pending")) = 0%nat ->
   forall s, can_transition_to (sample_order "pending") s = false).
Proof.
  apply lifecycle_terminates. intros i x y Hx Hy.
  do 5 (destruct i as [|i]; [by simplify_eq/=|]). done.
Defined.
