(* ===== verification/Effects.v ===== *)
(** Effects of the program and their sequential and interleaved semantics.

    A handler or a worker job is a [prog]: it either returns, panics, or
    performs one effect ([ev]: one SQL statement, one access to a mutex-guarded
    cache, one clock or random read, one RPC) and continues with the response.
    Each effect is atomic in the code (one awaited query, one lock scope), and
    the [.await] points are exactly between effects, so the same [prog] has a
    sequential semantics ([run]) and an interleaved one ([pool_step]). *)
From Stdlib Require Import Floats.SpecFloat.
From S2P Require Import Prelude Models.

(** ** Errors (src/error.rs) *)

Inductive AppError :=
| AuthFailed (m : string)
| NotFound (m : string)
| BadRequest (m : string)
| Forbidden (m : string)
| Conflict (m : string)
| Internal (m : string)
| TorRequired
| RateLimited.

(** A response as the middleware sees it; [None] is a body whose stream fails. *)
Record Response := mk_response {
  r_status : Z; r_headers : list (string * string); r_body : option bytes }.

(** [(StatusCode, Json(json!({"error":"error"}))).into_response()] *)
Definition error_body : bytes :=
  as_bytes (let q := String (ascii_of_nat 34) EmptyString in
            "{" +:+ q +:+ "error" +:+ q +:+ ":" +:+ q +:+ "error" +:+ q +:+ "}").

Definition uniform_error : Response :=
  mk_response 500 [("content-type", "application/json")] (Some error_body).

(** [impl IntoResponse for AppError] *)
Definition into_response (e : AppError) : Response := uniform_error.

(** ** JSON values ([serde_json::Value]) *)

Inductive Json :=
| JNull
| JBool (b : bool)
| JNum (n : Z)             (** an integer number, of [u64] or [i64] *)
| JFloat (x : spec_float)  (** any other number, the [f64] the parser made of it *)
| JStr (s : string)
| JArr (l : list Json)
| JObj (l : list (string * Json)).

(** ** Effects *)

(** The process-wide [static ... Lazy<Mutex<HashSet<String>>>] caches. *)
Inductive nonce_cache :=
| OrderCreate | OrderUpdate | ListingCreate | ListingUpdate
| DisputeNonces | ChatNonces | AdminTokens.

#[global] Instance nonce_cache_eq_dec : EqDecision nonce_cache.
Proof. solve_decision. Defined.

Definition nonce_cache_code (c : nonce_cache) : nat :=
  match c with
  | OrderCreate => 0 | OrderUpdate => 1 | ListingCreate => 2 | ListingUpdate => 3
  | DisputeNonces => 4 | ChatNonces => 5 | AdminTokens => 6
  end.
Definition nonce_cache_decode (n : nat) : option nonce_cache :=
  [OrderCreate; OrderUpdate; ListingCreate; ListingUpdate;
   DisputeNonces; ChatNonces; AdminTokens] !! n.

#[global] Program Instance nonce_cache_countable : Countable nonce_cache :=
  inj_countable nonce_cache_code nonce_cache_decode _.
Next Obligation. by intros []. Qed.

(** The SET list of an [UPDATE orders]; every statement of the code also sets
    [version = version + 1] and is guarded by [id = ? AND version = ?]. *)
Inductive order_set :=
| SetEncryptedBlob (b : bytes)
| SetExpiryBucket (e : option Z)
| SetDisputeBlob (b : bytes)
| SetHasDispute (f : Z)
| SetChatBlob (b : bytes).

Inductive chain := Xmr | Btc.

Inductive ev : Type -> Type :=
| ENow : ev Z
| ERandom (n : nat) : ev bytes
| EUuid : ev bytes
| ENonceInsert (c : nonce_cache) (key : string) : ev bool
| EOrderSelect (id : bytes) : ev (string + option Order)
| EOrderInsert (id blob : bytes) (day : Z) (expiry : option Z) : ev (string + unit)
| EOrderUpdate (sets : list order_set) (id : bytes) (v : Z) : ev (string + nat)
| EOrderAll : ev (string + list Order)
| EListingSelect (id : bytes) : ev (string + option Listing)
| EListingInsert (l : Listing) : ev (string + unit)
| EListingUpdate (f : Listing -> Listing) (id : bytes) (v : Z) : ev (string + nat)
| EListingAll : ev (string + list Listing)
| ETrackerSelect (tx : bytes) : ev (string + option NotificationTracker)
| ETrackerInsert (t : NotificationTracker) : ev (string + unit)
| EPublish (order_id : string) : ev unit
| EChallengeRetain (now : Z) : ev unit
| EChallengeInsert (id : string) (c : bytes * Z) : ev unit
| EChallengeRemove (id : string) : ev (option (bytes * Z))
| EWriteFile (path contents : string) : ev bool
| ERpc (c : chain) (method : string) (params : Json) (wire : bytes) : ev (string + Json).

(** ** Programs *)

Inductive prog (A : Type) : Type :=
| Ret (a : A)
| Panic
| Vis (R : Type) (e : ev R) (k : R -> prog A).
Arguments Ret {A} a.
Arguments Panic {A}.
Arguments Vis {A R} e k.

Fixpoint bind {A B} (p : prog A) (f : A -> prog B) : prog B :=
  match p with
  | Ret a => f a
  | Panic => Panic
  | Vis e k => Vis e (fun r => bind (k r) f)
  end.

Definition trigger {R} (e : ev R) : prog R := Vis e Ret.

(** [?] on a pure [Result], on an effect's [Result], and on a sub-program. *)
Notation "'let!' x := e 'in' q" := (Vis e (fun x => q))
  (at level 200, x pattern, e at level 100, q at level 200) : mkt_scope.
Notation "'try' x := r 'in' q" :=
  (match r with inl err => Ret (inl err) | inr x => q end)
  (at level 200, x pattern, r at level 100, q at level 200) : mkt_scope.
Notation "'do' x := p 'in' q" := (bind p (fun x => q))
  (at level 200, x pattern, p at level 100, q at level 200) : mkt_scope.

(** A panicking arithmetic result inside a program. *)
Definition arith {A} (o : option Z) (k : Z -> prog A) : prog A :=
  match o with Some z => k z | None => Panic end.

Definition map_err {E F A} (f : E -> F) (r : E + A) : F + A :=
  match r with inl e => inl (f e) | inr a => inr a end.

Definition ok_or {E A} (o : option A) (e : E) : E + A :=
  match o with Some a => inr a | None => inl e end.

Definition db_error (e : string) : AppError := Internal ("DB error: " +:+ e).

(** ** The world *)

Record World := mk_world {
  w_orders : gmap bytes Order;
  w_listings : gmap bytes Listing;
  w_tracker : gmap bytes NotificationTracker;
  w_nonces : gset (nonce_cache * string);
  w_challenges : gmap string (bytes * Z);
  w_published : list string;
  w_files : gmap string string;
  w_time : nat }.

(** [std::fs::write] opens the file, which empties it, and then writes: it fails
    before the file is touched, or after the first [n] bytes (none, when the
    disk is full). *)
Inductive WriteFault : Set :=
| NotOpened
| CutAfter (n : nat).

(** What the outside answers: indexed by the number of effects so far, so that
    every reading may differ from every other. *)
Record Env := mk_env {
  env_now : nat -> Z;
  env_random : nat -> nat -> bytes;
  env_uuid : nat -> bytes;
  env_db_fault : nat -> option string;
  env_io_fault : nat -> option WriteFault;
  env_rpc : nat -> chain -> string -> Json -> string + Json }.

Definition w_set_orders (f : gmap bytes Order -> gmap bytes Order) (w : World) : World :=
  mk_world (f (w_orders w)) (w_listings w) (w_tracker w) (w_nonces w) (w_challenges w)
    (w_published w) (w_files w) (w_time w).
Definition w_set_listings (f : gmap bytes Listing -> gmap bytes Listing) (w : World) : World :=
  mk_world (w_orders w) (f (w_listings w)) (w_tracker w) (w_nonces w) (w_challenges w)
    (w_published w) (w_files w) (w_time w).
Definition w_set_tracker (f : gmap bytes NotificationTracker -> gmap bytes NotificationTracker)
    (w : World) : World :=
  mk_world (w_orders w) (w_listings w) (f (w_tracker w)) (w_nonces w) (w_challenges w)
    (w_published w) (w_files w) (w_time w).
Definition w_set_nonces (f : gset (nonce_cache * string) -> gset (nonce_cache * string))
    (w : World) : World :=
  mk_world (w_orders w) (w_listings w) (w_tracker w) (f (w_nonces w)) (w_challenges w)
    (w_published w) (w_files w) (w_time w).
Definition w_set_challenges (f : gmap string (bytes * Z) -> gmap string (bytes * Z))
    (w : World) : World :=
  mk_world (w_orders w) (w_listings w) (w_tracker w) (w_nonces w) (f (w_challenges w))
    (w_published w) (w_files w) (w_time w).
Definition w_publish (s : string) (w : World) : World :=
  mk_world (w_orders w) (w_listings w) (w_tracker w) (w_nonces w) (w_challenges w)
    (w_published w ++ [s]) (w_files w) (w_time w).
Definition w_write (p c : string) (w : World) : World :=
  mk_world (w_orders w) (w_listings w) (w_tracker w) (w_nonces w) (w_challenges w)
    (w_published w) (<[p := c]> (w_files w)) (w_time w).
Definition w_tick (w : World) : World :=
  mk_world (w_orders w) (w_listings w) (w_tracker w) (w_nonces w) (w_challenges w)
    (w_published w) (w_files w) (S (w_time w)).

(** ** SQL statements on the [orders] table *)

Definition apply_set (s : order_set) (o : Order) : Order :=
  match o with
  | mk_order id eb db xb v hd cb dc ch =>
    match s with
    | SetEncryptedBlob b => mk_order id b db xb v hd cb dc ch
    | SetExpiryBucket e => mk_order id eb db e v hd cb dc ch
    | SetDisputeBlob b => mk_order id eb db xb v hd cb (Some b) ch
    | SetHasDispute f => mk_order id eb db xb v f cb dc ch
    | SetChatBlob b => mk_order id eb db xb v hd cb dc (Some b)
    end
  end.

Definition bump_version (o : Order) : Order :=
  match o with
  | mk_order id eb db xb v hd cb dc ch => mk_order id eb db xb (v + 1) hd cb dc ch
  end.

(** [UPDATE orders SET ..., version = version + 1 WHERE id = ? AND version = ?]
    and the number of rows it affected. *)
Definition sql_update_order (sets : list order_set) (id : bytes) (v : Z)
    (m : gmap bytes Order) : gmap bytes Order * nat :=
  match m !! id with
  | Some o =>
      if decide (o_version o = v)
      then (<[id := bump_version (fold_left (fun o s => apply_set s o) sets o)]> m, 1%nat)
      else (m, 0%nat)
  | None => (m, 0%nat)
  end.

(** [INSERT INTO orders (id, encrypted_order_blob, day_bucket, expiry_bucket)]:
    the other columns take their schema defaults; the primary key is [id]. *)
Definition sql_insert_order (id blob : bytes) (day : Z) (expiry : option Z)
    (m : gmap bytes Order) : option (gmap bytes Order) :=
  match m !! id with
  | Some _ => None
  | None => Some (<[id := mk_order id blob day expiry 1 0 None None None]> m)
  end.

Definition sql_update_listing (f : Listing -> Listing) (id : bytes) (v : Z)
    (m : gmap bytes Listing) : gmap bytes Listing * nat :=
  match m !! id with
  | Some l => if decide (l_version l = v) then (<[id := f l]> m, 1%nat) else (m, 0%nat)
  | None => (m, 0%nat)
  end.

(** A database fault answers an error and leaves the tables alone. *)
Definition guarded {A} (env : Env) (w : World) (k : World * (string + A)) : World * (string + A) :=
  match env_db_fault env (w_time w) with Some e => (w, inl e) | None => k end.

Definition pk_conflict : string := "UNIQUE constraint failed".

(** ** The effect handler *)
Definition handle (env : Env) {R} (e : ev R) (w : World) : World * R :=
  let '(w', r) :=
    match e in ev R return World * R with
    | ENow => (w, env_now env (w_time w))
    | ERandom n => (w, env_random env (w_time w) n)
    | EUuid => (w, env_uuid env (w_time w))
    | ENonceInsert c key =>
        if decide ((c, key) ∈ w_nonces w) then (w, false)
        else (w_set_nonces (fun s => {[(c, key)]} ∪ s) w, true)
    | EOrderSelect id => guarded env w (w, inr (w_orders w !! id))
    | EOrderInsert id blob day expiry =>
        guarded env w
          (match sql_insert_order id blob day expiry (w_orders w) with
           | Some m => (w_set_orders (fun _ => m) w, inr tt)
           | None => (w, inl pk_conflict)
           end)
    | EOrderUpdate sets id v =>
        guarded env w
          (let '(m, n) := sql_update_order sets id v (w_orders w) in
           (w_set_orders (fun _ => m) w, inr n))
    | EOrderAll => guarded env w (w, inr (map snd (map_to_list (w_orders w))))
    | EListingSelect id => guarded env w (w, inr (w_listings w !! id))
    | EListingInsert l =>
        guarded env w
          (match w_listings w !! l_id l with
           | Some _ => (w, inl pk_conflict)
           | None => (w_set_listings (<[l_id l := l]>) w, inr tt)
           end)
    | EListingUpdate f id v =>
        guarded env w
          (let '(m, n) := sql_update_listing f id v (w_listings w) in
           (w_set_listings (fun _ => m) w, inr n))
    | EListingAll => guarded env w (w, inr (map snd (map_to_list (w_listings w))))
    | ETrackerSelect tx => guarded env w (w, inr (w_tracker w !! tx))
    | ETrackerInsert t =>
        guarded env w
          (match w_tracker w !! nt_tx_hash t with
           | Some _ => (w, inr tt)
           | None => (w_set_tracker (<[nt_tx_hash t := t]>) w, inr tt)
           end)
    | EPublish s => (w_publish s w, tt)
    | EChallengeRetain now =>
        (w_set_challenges (filter (fun kv => now < snd (snd kv))) w, tt)
    | EChallengeInsert id c => (w_set_challenges (<[id := c]>) w, tt)
    | EChallengeRemove id => (w_set_challenges (delete id) w, w_challenges w !! id)
    | EWriteFile p c =>
        match env_io_fault env (w_time w) with
        | None => (w_write p c w, true)
        | Some NotOpened => (w, false)
        | Some (CutAfter n) => (w_write p (substring 0 n c) w, false)
        end
    | ERpc c m ps _ => (w, env_rpc env (w_time w) c m ps)
    end in
  (w_tick w', r).

(** ** Sequential semantics; [None] is a panic. *)
Fixpoint run (env : Env) {A} (p : prog A) (w : World) : World * option A :=
  match p with
  | Ret a => (w, Some a)
  | Panic => (w, None)
  | Vis e k => let '(w', r) := handle env e w in run env (k r) w'
  end.

(** ** Interleaved semantics: a pool of programs over one world *)

Inductive label :=
| LCommit (id : bytes) (v : Z)  (** an order update that changed a row *)
| LInsert (id : bytes)          (** a new order *)
| LListing (id : bytes)         (** a listing inserted or updated *)
| LOther.

Definition label_of {R} (e : ev R) : R -> label :=
  match e in ev R return R -> label with
  | EOrderUpdate _ id v =>
      fun r => match r with inr (S _) => LCommit id v | _ => LOther end
  | EOrderInsert id _ _ _ => fun r => match r with inr _ => LInsert id | _ => LOther end
  | EListingUpdate _ id _ =>
      fun r => match r with inr (S _) => LListing id | _ => LOther end
  | EListingInsert l => fun r => match r with inr _ => LListing (l_id l) | _ => LOther end
  | _ => fun _ => LOther
  end.

(** A step of thread [i] and the trace of labels it leaves. *)
Inductive pool_step {A} (env : Env) :
    list (prog A) -> World -> nat * label -> list (prog A) -> World -> Prop :=
| pool_step_intro ps i R (e : ev R) k w w' r :
    ps !! i = Some (Vis e k) ->
    handle env e w = (w', r) ->
    pool_step env ps w (i, label_of e r) (<[i := k r]> ps) w'.

Inductive pool_steps {A} (env : Env) :
    list (prog A) -> World -> list (nat * label) -> list (prog A) -> World -> Prop :=
| pool_refl ps w : pool_steps env ps w [] ps w
| pool_trans ps w l ps1 w1 ls ps2 w2 :
    pool_step env ps w l ps1 w1 ->
    pool_steps env ps1 w1 ls ps2 w2 ->
    pool_steps env ps w (l :: ls) ps2 w2.

(** The labels one program can leave, whatever the responses. *)
Fixpoint path {A} (p : prog A) (ls : list label) (q : prog A) {struct ls} : Prop :=
  match ls with
  | [] => p = q
  | l :: ls' =>
      match p with
      | Vis e k => exists r, l = label_of e r /\ path (k r) ls' q
      | _ => False
      end
  end.

(** ** Lemmas *)

Lemma run_bind env {A B} (p : prog A) (f : A -> prog B) w :
  run env (bind p f) w =
  let '(w', o) := run env p w in
  match o with Some a => run env (f a) w' | None => (w', None) end.
Proof.
  revert w. induction p as [a| |R e k IH]; intros w; [done|done|].
  cbn [bind run]. destruct (handle env e w) as [w' r]. apply IH.
Qed.

Lemma handle_nonce env c key w :
  handle env (ENonceInsert c key) w =
  if decide ((c, key) ∈ w_nonces w) then (w_tick w, false)
  else (w_tick (w_set_nonces (fun s => {[(c, key)]} ∪ s) w), true).
Proof. unfold handle. by case_decide. Qed.

Lemma pool_steps_app {A} env (ps1 ps2 ps3 : list (prog A)) w1 w2 w3 l1 l2 :
  pool_steps env ps1 w1 l1 ps2 w2 -> pool_steps env ps2 w2 l2 ps3 w3 ->
  pool_steps env ps1 w1 (l1 ++ l2) ps3 w3.
Proof. induction 1; intros H2; [done|]. eapply pool_trans; [done|by apply IHpool_steps]. Qed.

(** The sequential run of one thread is one of the interleavings. *)
Lemma run_steps env {A} (ps : list (prog A)) i p w w' a :
  ps !! i = Some p -> run env p w = (w', Some a) ->
  exists ls, pool_steps env ps w ls (<[i := Ret a]> ps) w'.
Proof.
  revert ps w. induction p as [x| |R e k IH]; intros ps w Hi H; cbn in H; simplify_eq.
  - exists []. rewrite list_insert_id by done. constructor.
  - destruct (handle env e w) as [w1 r] eqn:E.
    assert (i < length ps)%nat as Hlt by (by eapply lookup_lt_Some).
    destruct (IH r (<[i := k r]> ps) w1) as [ls Hls]; [by apply list_lookup_insert_eq|done|].
    rewrite list_insert_insert_eq in Hls. exists ((i, label_of e r) :: ls).
    eapply pool_trans; [|exact Hls]. by apply (pool_step_intro env ps i R e k w w1 r).
Qed.

(** Every thread of a pool follows a path of its own program. *)
Lemma pool_thread env {A} (ps ps' : list (prog A)) w w' ls (i : nat) (p : prog A) :
  pool_steps env ps w ls ps' w' -> ps !! i = Some p ->
  exists q : prog A, ps' !! i = Some q /\
    path p (map snd (List.filter (fun l => Nat.eqb (fst l) i) ls)) q.
Proof.
  intros H. revert p. induction H as [|ps w [j l] ps1 w1 ls ps2 w2 Hs _ IH].
  - intros p Hp. by exists p.
  - intros p Hp. inversion Hs as [? j' R e k ? ? r Hj Hh]; simplify_eq. cbn [List.filter fst].
    destruct (Nat.eqb_spec j i) as [->|Hne].
    + destruct (IH (k r)) as [q [Hq Hpath]].
      { apply list_lookup_insert_eq. by eapply lookup_lt_Some. }
      exists q. split; [done|]. rewrite Hj in Hp. simplify_eq. cbn. by exists r.
    + apply IH. by rewrite list_lookup_insert_ne.
Qed.

Lemma path_ret {A} (a : A) ls q : path (Ret a) ls q -> ls = [] /\ q = Ret a.
Proof. by destruct ls; cbn; [intros <-|]. Qed.

Lemma path_vis {A R} (e : ev R) (k : R -> prog A) ls a :
  path (Vis e k) ls (Ret a) ->
  exists r ls', ls = label_of e r :: ls' /\ path (k r) ls' (Ret a).
Proof. destruct ls as [|l ls]; cbn; [done|]. intros (r & -> & Hp). by exists r, ls. Qed.

Lemma path_panic {A} ls (a : A) : ~ path Panic ls (Ret a).
Proof. by destruct ls; cbn; intros ?. Qed.

Lemma path_bind {A B} (p : prog A) (f : A -> prog B) ls b :
  path (bind p f) ls (Ret b) ->
  exists ls1 ls2 a, path p ls1 (Ret a) /\ path (f a) ls2 (Ret b) /\ ls = ls1 ++ ls2.
Proof.
  revert p. induction ls as [|l ls IH]; intros [a| |R e k] H; try done; cbn [bind] in H.
  - by exists [], [], a.
  - by exists [], (l :: ls), a.
  - destruct H as (r & -> & H). destruct (IH (k r) H) as (ls1 & ls2 & a & H1 & H2 & ->).
    exists (label_of e r :: ls1), ls2, a. split; [by exists r|done].
Qed.

(** Follows the hypothesis [H : path p ls (Ret a)] to the ends of [p], one goal
    per end that [a] does not exclude; there [H] equates the results. *)
Ltac path_inv H :=
  repeat first
    [ exfalso; exact (path_panic _ _ H)
    | progress cbn [bind trigger map_err ok_or negb] in H
    | progress unfold arith in H
    | apply path_ret in H as [-> H]; try discriminate H
    | apply path_vis in H as (? & ? & -> & H)
    | match type of H with
      | path (match ?x with _ => _ end) _ _ => let E := fresh "Hc" in destruct x eqn:E
      | path (bind (match ?x with _ => _ end) _) _ _ => let E := fresh "Hc" in destruct x eqn:E
      end ].

(** A run without a label of a change leaves both tables alone. *)
Lemma handle_quiet env {R} (e : ev R) w w' r :
  handle env e w = (w', r) -> label_of e r = LOther ->
  w_orders w' = w_orders w /\ w_listings w' = w_listings w.
Proof.
  intros H Hl. destruct e; unfold handle, guarded in H;
    try (destruct (env_db_fault _ _); [by simplify_eq/=|]); try (by simplify_eq/=).
  - case_decide; by simplify_eq/=.
  - destruct (sql_insert_order _ _ _ _ _); by simplify_eq/=.
  - unfold sql_update_order in H. destruct (w_orders w !! id); [|by simplify_eq/=].
    case_decide; by simplify_eq/=.
  - destruct (w_listings w !! _); by simplify_eq/=.
  - unfold sql_update_listing in H. destruct (w_listings w !! id); [|by simplify_eq/=].
    case_decide; by simplify_eq/=.
  - destruct (w_tracker w !! _); by simplify_eq/=.
  - destruct (env_io_fault _ _) as [[]|]; by simplify_eq/=.
Qed.

Lemma run_quiet env {A} (p : prog A) w w' a :
  run env p w = (w', Some a) ->
  exists ls, path p ls (Ret a) /\
    (Forall (eq LOther) ls -> w_orders w' = w_orders w /\ w_listings w' = w_listings w).
Proof.
  revert w. induction p as [x| |R e k IH]; intros w H; cbn in H; simplify_eq.
  - by exists [].
  - destruct (handle env e w) as [w1 r] eqn:E.
    destruct (IH r w1 H) as (ls & Hp & Hq). exists (label_of e r :: ls). split.
    + cbn. by exists r.
    + intros [Hl Hf]%Forall_cons.
      destruct (Hq Hf) as [-> ->]. by apply (handle_quiet env e w w1 r).
Qed.

(** A program whose failing ends are reached without a change leaves the tables
    alone when it fails. *)
Lemma err_unchanged env {E A} (p : prog (E + A)) w w' e :
  (forall ls, path p ls (Ret (inl e)) -> Forall (eq LOther) ls) ->
  run env p w = (w', Some (inl e)) ->
  w_orders w' = w_orders w /\ w_listings w' = w_listings w.
Proof. intros Hp Hr. destruct (run_quiet _ _ _ _ _ Hr) as (ls & Hls & Hq). by apply Hq, Hp. Qed.

(** Closes the premise of [err_unchanged]. *)
Ltac err_paths :=
  let ls := fresh "ls" in let Hp := fresh "Hp" in
  intros ls Hp; path_inv Hp; simplify_eq/=;
  repeat (apply Forall_cons; split; [try done; by split_matches|]); done.

(** ** Symbolic execution of programs *)

(** No database fault occurs. *)
Definition quiet (env : Env) : Prop := forall n, env_db_fault env n = None.

Lemma run_vis env {A R} (e : ev R) (k : R -> prog A) w :
  run env (Vis e k) w = let '(w', r) := handle env e w in run env (k r) w'.
Proof. done. Qed.

Lemma guarded_quiet {A} env w (k : World * (string + A)) : quiet env -> guarded env w k = k.
Proof. intros Hq. unfold guarded. by rewrite Hq. Qed.

(** Evaluates the next effect in [H] or in the goal. *)
Ltac step_in H := rewrite run_vis in H; unfold handle, guarded in H;
  cbn [w_orders w_listings w_tracker w_nonces w_challenges w_published w_files w_time
       w_tick w_set_orders w_set_listings w_set_tracker w_set_nonces w_set_challenges
       w_publish w_write map_err ok_or negb Nat.eqb] in H.
Ltac step := rewrite run_vis; unfold handle; rewrite ?guarded_quiet by done;
  cbn [w_orders w_listings w_tracker w_nonces w_challenges w_published w_files w_time
       w_tick w_set_orders w_set_listings w_set_tracker w_set_nonces w_set_challenges
       w_publish w_write map_err ok_or negb Nat.eqb].

(** Splits on a database fault in [H]; a fault contradicts success. *)
Ltac no_fault H :=
  match type of H with
  | context [env_db_fault ?e ?n] => destruct (env_db_fault e n); [done|]
  end; cbn [map_err ok_or] in H.

(** ** A concrete environment and world, used by the witnesses *)

Definition sample_env : Env :=
  mk_env (fun n => 1747000000 + Z.of_nat n) (fun t n => repeat (byte_of_Z (Z.of_nat t)) n)
    (fun t => le_bytes 16 (Z.of_nat t)) (fun _ => None) (fun _ => None)
    (fun _ _ _ _ => inl "node offline").

Definition empty_world : World := mk_world ∅ ∅ ∅ ∅ ∅ [] ∅ 0.

Definition world_with_order (o : Order) : World :=
  w_set_orders (<[o_id o := o]>) empty_world.

Lemma sample_env_quiet : quiet sample_env.
Proof. done. Qed.

#[export] Hint Resolve sample_env_quiet : mkt.
