(* ===== verification/Occ.v ===== *)
(** Optimistic concurrency on the [orders] table.

    Every writer of the program (the order, dispute and chat handlers of the
    API, and the worker jobs) reads the row's version and then issues
    [UPDATE ... version = version + 1 WHERE id = ? AND version = ?].  The
    theorems are about arbitrary programs over the effects of Effects.v, hence
    about every interleaving of those handlers. *)
From S2P Require Import Prelude Models Effects.

(** The version column of an order; an order not yet inserted counts as the
    schema default. *)
Definition version_of (m : gmap bytes Order) (id : bytes) : Z :=
  match m !! id with Some o => o_version o | None => 1 end.

(** The versions the committed updates of [id] replaced, oldest first. *)
Fixpoint commits (id : bytes) (ls : list (nat * label)) : list Z :=
  match ls with
  | [] => []
  | (_, LCommit id' v) :: t => if decide (id' = id) then v :: commits id t else commits id t
  | (_, _) :: t => commits id t
  end.

(** ** One effect *)

Lemma apply_sets_version sets o :
  o_version (fold_left (fun o s => apply_set s o) sets o) = o_version o.
Proof. revert o. induction sets as [|s t IH]; intros []; [done|]. cbn. rewrite IH. by destruct s. Qed.

Lemma apply_sets_id sets o :
  o_id (fold_left (fun o s => apply_set s o) sets o) = o_id o.
Proof. revert o. induction sets as [|s t IH]; intros []; [done|]. cbn. rewrite IH. by destruct s. Qed.

Lemma bump_version_version o : o_version (bump_version o) = o_version o + 1.
Proof. by destruct o. Qed.

Lemma sql_update_version sets id v m m' n id' :
  sql_update_order sets id v m = (m', n) ->
  (n = 1%nat /\ (exists o, m !! id = Some o) /\ version_of m id = v /\
     version_of m' id' = (if decide (id = id') then v + 1 else version_of m id')) \/
  (n = 0%nat /\ m' = m).
Proof.
  unfold sql_update_order. destruct (m !! id) as [o|] eqn:E; [|intros [= <- <-]; by right].
  case_decide as Hv; intros [= <- <-]; [|by right].
  left. unfold version_of at 1. rewrite E. split_and!; [done|by eauto|done|].
  unfold version_of. case_decide as Hid.
  - subst id'. rewrite lookup_insert_eq, bump_version_version, apply_sets_version. by rewrite Hv.
  - by rewrite lookup_insert_ne.
Qed.

Lemma sql_insert_version id blob day ex m m' id' :
  sql_insert_order id blob day ex m = Some m' -> version_of m' id' = version_of m id'.
Proof.
  unfold sql_insert_order. destruct (m !! id) eqn:E; [done|]. intros [= <-].
  unfold version_of. destruct (decide (id = id')) as [->|Hne].
  - by rewrite lookup_insert_eq, E.
  - by rewrite lookup_insert_ne.
Qed.

(** What one effect does to the version of one order. *)
Lemma handle_version env {R} (e : ev R) w w' r id :
  handle env e w = (w', r) ->
  match label_of e r with
  | LCommit id' v =>
      version_of (w_orders w) id' = v /\
      version_of (w_orders w') id = version_of (w_orders w) id + (if decide (id' = id) then 1 else 0)
  | _ => version_of (w_orders w') id = version_of (w_orders w) id
  end.
Proof.
  intros H. destruct e; cbn [label_of];
    try (unfold handle, guarded in H; repeat case_match; simplify_eq/=; done).
  - (* insert *)
    unfold handle, guarded in H.
    destruct (env_db_fault _ _); [by simplify_eq/=|].
    destruct (sql_insert_order _ _ _ _ _) eqn:E; simplify_eq/=; [by eapply sql_insert_version|done].
  - (* update *)
    unfold handle, guarded in H.
    destruct (env_db_fault _ _); [by simplify_eq/=|].
    destruct (sql_update_order _ _ _ _) as [m n] eqn:E; simplify_eq/=.
    destruct (sql_update_version _ _ _ _ _ _ id E) as [(-> & _ & Hv & Hv')|(-> & ->)]; [|done].
    split; [done|]. rewrite Hv'. case_decide; subst; lia.
Qed.

(** ** The interface of a writer

    What a handler that updates one order promises: if it answers with a new
    version, one of its effects committed on the version before. *)
Class OrderWriter `{BuildProfile} {A} (p : prog A) (id : bytes) (ver : A -> option Z) :=
  writer_commits : forall ls a v',
    path p ls (Ret a) -> ver a = Some v' ->
    exists v, LCommit id v ∈ ls /\ i64_op (v + 1) = Some v'.

Lemma commits_elem i id v ls : (i, LCommit id v) ∈ ls -> v ∈ commits id ls.
Proof.
  induction ls as [|[j l] ls IH]; [by intros ?%elem_of_nil|].
  intros [[= <- <-]|H%IH]%elem_of_cons; cbn [commits].
  - rewrite decide_True by done. left.
  - destruct l; [case_decide; [by right|done]|done..].
Qed.

(** One committed version belongs to one thread. *)
Lemma commits_thread_unique i j id v ls :
  NoDup (commits id ls) -> (i, LCommit id v) ∈ ls -> (j, LCommit id v) ∈ ls -> i = j.
Proof.
  induction ls as [|[k l] ls IH]; [by intros _ ?%elem_of_nil|]. cbn [commits]. intros Hn Hi Hj.
  apply elem_of_cons in Hi as [Hi|Hi], Hj as [Hj|Hj]; simplify_eq; [done| | |].
  - rewrite decide_True in Hn by done. apply NoDup_cons in Hn as [Hn _].
    by apply commits_elem in Hj.
  - rewrite decide_True in Hn by done. apply NoDup_cons in Hn as [Hn _].
    by apply commits_elem in Hi.
  - apply IH; [|done..]. destruct l; [case_decide; [by apply NoDup_cons in Hn as [_ Hn]|done]|done..].
Qed.

Lemma thread_label i (l : label) (ls : list (nat * label)) :
  l ∈ map snd (List.filter (fun l => Nat.eqb (fst l) i) ls) -> (i, l) ∈ ls.
Proof.
  rewrite !list_elem_of_In, in_map_iff. intros ([j l'] & <- & Hin%filter_In).
  destruct Hin as [Hin Hj%Nat.eqb_eq]. cbn in Hj |- *. by subst j.
Qed.

(** ** Traces *)

(** The commits of a trace, its version column and their uniqueness. *)
Lemma commits_consecutive {A} env (ps ps' : list (prog A)) w w' ls id :
  pool_steps env ps w ls ps' w' ->
  commits id ls = seqZ (version_of (w_orders w) id) (Z.of_nat (length (commits id ls))) /\
  version_of (w_orders w') id = version_of (w_orders w) id + Z.of_nat (length (commits id ls)).
Proof.
  induction 1 as [|ps w [j l] ps1 w1 ls ps2 w2 Hs _ [IH1 IH2]]; [by cbn; split; [|lia]|].
  inversion Hs as [? j' R e k ? ? r Hj Hh]; simplify_eq.
  pose proof (handle_version env e w w1 r id Hh) as Hd.
  destruct (label_of e r) as [id' v| | |]; cbn [commits].
  - destruct Hd as [Hv Hd]. case_decide as Hid.
    + subst id'. cbn [length]. rewrite Hd in IH1, IH2. split; [|lia].
      rewrite seqZ_cons by lia. rewrite Hv. f_equal.
      rewrite IH1 at 1. f_equal; [lia|]. lia.
    + rewrite Hd, Z.add_0_r in IH1, IH2. done.
  - rewrite Hd in IH1, IH2. done.
  - rewrite Hd in IH1, IH2. done.
  - rewrite Hd in IH1, IH2. done.
Qed.

(** C1. No lost update: in any interleaving of any programs, the updates that
    committed on an order replaced the consecutive versions v, v+1, v+2, ...
    of that order, each exactly once, and the version column counts them.  An
    update computed from a stale row can never commit. *)
Theorem occ_no_lost_update {A} env (ps ps' : list (prog A)) w w' ls id :
  pool_steps env ps w ls ps' w' ->
  commits id ls = seqZ (version_of (w_orders w) id) (Z.of_nat (length (commits id ls))) /\
  version_of (w_orders w') id = version_of (w_orders w) id + Z.of_nat (length (commits id ls)) /\
  NoDup (commits id ls).
Proof.
  intros H. destruct (commits_consecutive _ _ _ _ _ _ id H) as [Hc Hv].
  split_and!; [done|done|]. rewrite Hc. apply NoDup_seqZ.
Qed.

(** Two writers of one order that both answered got different versions, both
    newer than the row they started from. *)
Lemma writers_serialize `{BuildProfile} {A} env (ps ps' : list (prog A)) w w' ls id ver i j p q a b v1 v2 :
  OrderWriter p id ver -> OrderWriter q id ver ->
  pool_steps env ps w ls ps' w' -> i <> j ->
  ps !! i = Some p -> ps !! j = Some q ->
  ps' !! i = Some (Ret a) -> ps' !! j = Some (Ret b) ->
  ver a = Some v1 -> ver b = Some v2 ->
  in_i64 (version_of (w_orders w) id) -> in_i64 (version_of (w_orders w') id) ->
  v1 <> v2 /\
  version_of (w_orders w) id < v1 <= version_of (w_orders w') id /\
  version_of (w_orders w) id < v2 <= version_of (w_orders w') id.
Proof.
  intros Hp Hq Hs Hij Hi Hj Hi' Hj' Hv1 Hv2 Hr Hr'.
  destruct (pool_thread _ _ _ _ _ _ i p Hs Hi) as (p' & Ep & Hpath1).
  destruct (pool_thread _ _ _ _ _ _ j q Hs Hj) as (q' & Eq & Hpath2). simplify_eq.
  destruct (Hp _ _ _ Hpath1 Hv1) as (u1 & Hin1%thread_label & Hu1).
  destruct (Hq _ _ _ Hpath2 Hv2) as (u2 & Hin2%thread_label & Hu2).
  destruct (commits_consecutive _ _ _ _ _ _ id Hs) as [Hc Hv].
  assert (forall u, u ∈ commits id ls -> version_of (w_orders w) id <= u < version_of (w_orders w') id) as Hb.
  { intros u Hu. rewrite Hc in Hu. apply elem_of_seqZ in Hu. lia. }
  pose proof (Hb _ (commits_elem _ _ _ _ Hin1)). pose proof (Hb _ (commits_elem _ _ _ _ Hin2)).
  rewrite i64_op_in in Hu1, Hu2 by zlia. simplify_eq.
  split; [|lia]. intros E. assert (u1 = u2) as <- by lia.
  apply Hij, (commits_thread_unique i j id u1 ls); [|done..]. rewrite Hc. apply NoDup_seqZ.
Qed.

(** Two writers that both read version 1: one commits, the other changes no
    row. *)
Lemma occ_no_lost_update_witness :
  let o := mk_order [] [] 0 None 1 0 None None None in
  let p := trigger (EOrderUpdate [SetHasDispute 1] [] 1) in
  exists ls w', pool_steps sample_env [p; p] (world_with_order o) ls [Ret (inr 1%nat); Ret (inr 0%nat)] w' /\
    commits [] ls = [1] /\ version_of (w_orders w') [] = 2 /\ NoDup (commits [] ls).
Proof.
  intros o p.
  assert (exists ls w', pool_steps sample_env [p; p] (world_with_order o) ls
            [Ret (inr 1%nat); Ret (inr 0%nat)] w' /\ commits [] ls = [1]) as (ls & w' & H & Hc).
  { eexists _, _. split.
    - eapply pool_trans; [by eapply (pool_step_intro _ _ 0)|].
      eapply pool_trans; [by eapply (pool_step_intro _ _ 1)|]. apply pool_refl.
    - reflexivity. }
  exists ls, w'. destruct (occ_no_lost_update _ _ _ _ _ _ [] H) as (_ & Hv & Hn).
  split_and!; [done|done| |done]. rewrite Hv, Hc. reflexivity.
Defined.
