(* ===== verification/Transition.v ===== *)
(** Transition signatures over canonical CBOR: crypto/transition_sig.rs and the
    client's copy of it, wasm/src/transition.rs. *)
From S2P Require Import Prelude Interfaces Instances.

(** ** [std::collections::BTreeMap<i64, _>]: an association list by key *)

Fixpoint btree_insert {V} (k : Z) (v : V) (m : list (Z * V)) : list (Z * V) :=
  match m with
  | [] => [(k, v)]
  | (k', v') :: t =>
      if decide (k < k') then (k, v) :: m
      else if decide (k = k') then (k, v) :: t
      else (k', v') :: btree_insert k v t
  end.

Definition TRANSITION_SIG_VERSION : Z := 1.

Record TransitionPayload := mk_payload {
  tp_version : Z;               (* u8 *)
  tp_order_id : bytes;
  tp_prev_version : Z;          (* i64 *)
  tp_new_blob_sha256 : bytes;   (* [u8; 32] *)
  tp_nonce : bytes;
  tp_hour_bucket : Z            (* u64 *) }.

(** [TransitionPayload::new] *)
Definition payload_new (order_id : bytes) (prev_version : Z) (sha : bytes)
    (nonce : bytes) (hour_bucket : Z) : TransitionPayload :=
  mk_payload TRANSITION_SIG_VERSION order_id prev_version sha nonce hour_bucket.

(** The width of the fields. *)
Definition payload_ok (p : TransitionPayload) : Prop :=
  0 <= tp_version p < 256 /\ in_i64 (tp_prev_version p) /\ in_u64 (tp_hour_bucket p).

Section transition.

Context `{Cbor} `{Ed25519}.

(** The [map.insert] calls of [to_cbor], in the source's order. *)
Definition payload_map (p : TransitionPayload) : list (Z * CborValue) :=
  let map := [] in
  let map := btree_insert 1 (CInteger (tp_version p)) map in
  let map := btree_insert 2 (CBytes (tp_order_id p)) map in
  let map := btree_insert 3 (CInteger (tp_prev_version p)) map in
  let map := btree_insert 4 (CBytes (tp_new_blob_sha256 p)) map in
  let map := btree_insert 5 (CBytes (tp_nonce p)) map in
  btree_insert 6 (CInteger (i64_wrap (tp_hour_bucket p))) map.

Definition to_value (m : list (Z * CborValue)) : CborValue :=
  CMap (map (fun kv => (CInteger (fst kv), snd kv)) m).

Definition to_cbor (p : TransitionPayload) : string + bytes :=
  match cbor_into_writer (to_value (payload_map p)) with
  | inl e => inl ("CBOR encode: " +:+ e)
  | inr buf => inr buf
  end.

Definition sign_transition (signing_key : bytes) (p : TransitionPayload) : string + bytes :=
  match to_cbor p with inl e => inl e | inr cbor => inr (ed_sign signing_key cbor) end.

(** [verify_transition]: [Signature::from_bytes] takes any 64 bytes. *)
Definition verify_transition (verifying_key_bytes : bytes) (p : TransitionPayload)
    (signature_bytes : bytes) : string + TransitionPayload :=
  match vk_from_bytes verifying_key_bytes with
  | None => inl "Invalid verifying key"
  | Some pk =>
      match to_cbor p with
      | inl e => inl e
      | inr cbor =>
          if ed_verify pk cbor signature_bytes then inr p
          else inl "Transition signature verification failed"
      end
  end.

(** wasm/src/transition.rs: the client's encoder and signer. *)
Definition wasm_transition_to_cbor (order_id : bytes) (prev_version : Z)
    (new_blob_sha256 nonce : bytes) (hour_bucket : Z) : string + bytes :=
  if negb (Nat.eqb (length new_blob_sha256) 32) then inl "new_blob_sha256 must be 32 bytes"
  else
    let map := [] in
    let map := btree_insert 1 (CInteger TRANSITION_SIG_VERSION) map in
    let map := btree_insert 2 (CBytes order_id) map in
    let map := btree_insert 3 (CInteger prev_version) map in
    let map := btree_insert 4 (CBytes new_blob_sha256) map in
    let map := btree_insert 5 (CBytes nonce) map in
    let map := btree_insert 6 (CInteger (i64_wrap hour_bucket)) map in
    match cbor_into_writer (to_value map) with
    | inl e => inl ("CBOR encode failed: " +:+ e)
    | inr buf => inr buf
    end.

Definition wasm_sign_transition (secret_key order_id : bytes) (prev_version : Z)
    (new_blob_sha256 nonce : bytes) (hour_bucket : Z) : string + bytes :=
  if negb (Nat.eqb (length secret_key) 32) then inl "secret_key must be 32 bytes"
  else
    match wasm_transition_to_cbor order_id prev_version new_blob_sha256 nonce hour_bucket with
    | inl e => inl e
    | inr cbor => inr (ed_sign secret_key cbor)
    end.

(** ** Properties *)

(** The encoded map lists the keys 1 to 6 in ascending order. *)
Lemma payload_value p :
  to_value (payload_map p) =
  CMap [(CInteger 1, CInteger (tp_version p)); (CInteger 2, CBytes (tp_order_id p));
        (CInteger 3, CInteger (tp_prev_version p)); (CInteger 4, CBytes (tp_new_blob_sha256 p));
        (CInteger 5, CBytes (tp_nonce p)); (CInteger 6, CInteger (i64_wrap (tp_hour_bucket p)))].
Proof. done. Qed.

Lemma payload_value_ok p : payload_ok p -> cbor_ok (to_value (payload_map p)).
Proof.
  intros (Hv & Hp & Hh). rewrite payload_value. cbn.
  pose proof (i64_wrap_range (tp_hour_bucket p)). split_and!; try done; zlia.
Qed.

Context `{!CborLaws _} `{!Ed25519Laws _}.

Lemma to_cbor_total p : payload_ok p -> exists b, to_cbor p = inr b.
Proof.
  intros Hok. destruct (cbor_total _ (payload_value_ok p Hok)) as [b Hb].
  exists b. unfold to_cbor. by rewrite Hb.
Qed.

(** The signed bytes bind every field: two payloads of well-formed fields with
    the same canonical encoding are the same payload, so a signature for one
    version, blob hash, nonce or hour is a signature for no other. *)
Theorem to_cbor_injective p q b :
  payload_ok p -> payload_ok q -> to_cbor p = inr b -> to_cbor q = inr b -> p = q.
Proof.
  intros Hp Hq Ep Eq. unfold to_cbor in Ep, Eq.
  destruct (cbor_into_writer (to_value (payload_map p))) as [|bp] eqn:E1; [done|].
  destruct (cbor_into_writer (to_value (payload_map q))) as [|bq] eqn:E2; [done|].
  injection Ep as ->. injection Eq as ->.
  pose proof (cbor_inj _ _ _ (payload_value_ok p Hp) (payload_value_ok q Hq) E1 E2) as E.
  rewrite !payload_value in E. injection E as E1' E2' E3' E4' E5' E6'.
  destruct Hp as (_ & _ & Hp), Hq as (_ & _ & Hq). destruct p, q; cbn in *.
  apply i64_wrap_inj in E6'; [|done..]. congruence.
Qed.

(** The client and the server agree: what [sign_transition] of the WASM module
    signs for well-formed arguments, [verify_transition] of the server accepts
    under the signer's public key, and it returns the payload it was given. *)
Theorem wasm_signs_for_server sk order_id v sha nonce hour :
  length sk = 32%nat -> length sha = 32%nat -> in_i64 v -> in_u64 hour ->
  let p := payload_new order_id v sha nonce hour in
  exists sig, wasm_sign_transition sk order_id v sha nonce hour = inr sig /\
    sign_transition sk p = inr sig /\
    length sig = 64%nat /\
    verify_transition (ed_public sk) p sig = inr p.
Proof.
  intros Hsk Hsha Hv Hh p.
  assert (payload_ok p) as Hok by (unfold payload_ok, p, payload_new, TRANSITION_SIG_VERSION; cbn; zlia).
  destruct (to_cbor_total p Hok) as [b Hb].
  exists (ed_sign sk b). destruct (ed_sign_verify sk) as (k & Hk & Hver).
  assert (wasm_transition_to_cbor order_id v sha nonce hour = inr b) as Hw.
  { unfold wasm_transition_to_cbor. rewrite Hsha. cbn [negb Nat.eqb].
    unfold to_cbor, payload_map, p, payload_new in Hb. cbn [tp_version tp_order_id
      tp_prev_version tp_new_blob_sha256 tp_nonce tp_hour_bucket] in Hb.
    cbn zeta in Hb |- *. by destruct (cbor_into_writer _). }
  split_and!.
  - unfold wasm_sign_transition. rewrite Hsk. cbn [negb Nat.eqb]. by rewrite Hw.
  - unfold sign_transition. by rewrite Hb.
  - apply ed_sign_length.
  - unfold verify_transition. by rewrite Hk, Hb, Hver.
Qed.

(** The converse direction: a payload is accepted only with a signature on
    exactly its encoding. *)
Lemma verify_transition_sound vkb p sig q :
  verify_transition vkb p sig = inr q ->
  q = p /\ exists k b, vk_from_bytes vkb = Some k /\ to_cbor p = inr b /\ ed_verify k b sig = true.
Proof.
  unfold verify_transition. intros E. destruct (vk_from_bytes vkb) as [k|]; [|done].
  destruct (to_cbor p) as [|b]; [done|].
  destruct (ed_verify k b sig) eqn:Ev; simplify_eq. split; [done|]. by exists k, b.
Qed.
End transition.

Lemma to_cbor_injective_witness :
  exists b, let p := payload_new [] 5 (sha256 []) [] 100 in to_cbor p = inr b /\ p = p.
Proof.
  eexists. intros p. split; [reflexivity|].
  eapply (to_cbor_injective p p); [..|reflexivity|reflexivity];
    unfold payload_ok, p, payload_new, TRANSITION_SIG_VERSION; cbn; zlia.
Defined.

Lemma wasm_signs_for_server_witness :
  exists sig, wasm_sign_transition (sha256 []) [] 5 (sha256 []) [] 100 = inr sig /\
    verify_transition (ed_public (sha256 [])) (payload_new [] 5 (sha256 []) [] 100) sig =
    inr (payload_new [] 5 (sha256 []) [] 100).
Proof.
  destruct (wasm_signs_for_server (sha256 []) [] 5 (sha256 []) [] 100) as (sig & H1 & H2 & H3 & H4);
    [reflexivity|reflexivity|zlia|zlia|].
  by exists sig.
Defined.
