(* ===== verification/Amounts.v ===== *)
(** Amount strings of background/payment_poller.rs: [parse_btc_amount_safe],
    [parse_xmr_amount_safe], [parse_decimal_string_to_int], and the [format!]
    calls that print amounts (background/dummy_worker.rs, [random_amount]).

    A [str] is the list of the values of its UTF-8 bytes, so [len], slicing
    (with its char-boundary panic), [chars().nth], [trim] and [parse] are those
    of the Rust standard library on that encoding.  [None] is a panic. *)
From S2P Require Import Prelude.

Abbreviation str := (list Z).

Definition str_of (s : string) : str := map byte_val (as_bytes s).

(** ** The standard library's [str] operations *)

Definition chr_dot : Z := 46.
Definition chr_0 : Z := 48.
Definition chr_5 : Z := 53.
Definition chr_plus : Z := 43.
Definition chr_minus : Z := 45.

(** A continuation byte: not a char boundary. *)
Definition is_cont (b : Z) : bool := (128 <=? b) && (b <? 192).

(** [char::is_whitespace] by UTF-8 encoding. *)
Definition whitespace : list str :=
  [[9]; [10]; [11]; [12]; [13]; [32]; [194; 133]; [194; 160]; [225; 154; 128]]
  ++ map (fun k => [226; 128; 128 + k]) [0; 1; 2; 3; 4; 5; 6; 7; 8; 9; 10; 40; 41; 47]
  ++ [[226; 129; 159]; [227; 128; 128]].

Fixpoint strip_prefix (p s : str) : option str :=
  match p, s with
  | [], _ => Some s
  | _, [] => None
  | a :: p', b :: s' => if a =? b then strip_prefix p' s' else None
  end.

Fixpoint strip_any (ps : list str) (s : str) : option str :=
  match ps with
  | [] => None
  | p :: ps' => match strip_prefix p s with Some r => Some r | None => strip_any ps' s end
  end.

Fixpoint strip_all (ps : list str) (fuel : nat) (s : str) : str :=
  match fuel with
  | O => s
  | S n => match strip_any ps s with Some r => strip_all ps n r | None => s end
  end.

Definition trim (s : str) : str :=
  let s := strip_all whitespace (length s) s in
  rev (strip_all (map (@rev Z) whitespace) (length s) (rev s)).

Definition contains (c : Z) (s : str) : bool := existsb (Z.eqb c) s.

(** [s.split(..).collect()], for a set of ASCII separators. *)
Fixpoint split_on (sep : Z -> bool) (s : str) : list str :=
  match s with
  | [] => [[]]
  | b :: t =>
      if sep b then [] :: split_on sep t
      else match split_on sep t with
           | p :: ps => (b :: p) :: ps
           | [] => [[b]]
           end
  end.

(** [&s[..n]] *)
Definition slice_to (n : nat) (s : str) : option str :=
  match s !! n with
  | Some b => if is_cont b then None else Some (take n s)
  | None => if Nat.eqb n (length s) then Some s else None
  end.

(** The lead byte of [s.chars().nth(n)]. *)
Fixpoint chars_nth (n : nat) (s : str) : option Z :=
  match s with
  | [] => None
  | b :: t =>
      if is_cont b then chars_nth n t
      else match n with O => Some b | S n' => chars_nth n' t end
  end.

Definition is_digit (b : Z) : bool := (48 <=? b) && (b <=? 57).

Definition digits_val (s : str) : Z := fold_left (fun a d => a * 10 + (d - 48)) s 0.

(** [parse::<u64>()]: an optional [+], then digits, in range. *)
Definition parse_u64 (s : str) : option Z :=
  let s := match s with b :: t => if b =? chr_plus then t else s | [] => s end in
  match s with
  | [] => None
  | _ => if forallb is_digit s && (digits_val s <=? u64_max) then Some (digits_val s) else None
  end.

(** [parse::<i32>()] *)
Definition parse_i32 (s : str) : option Z :=
  let '(neg, s) :=
    match s with
    | b :: t => if b =? chr_plus then (false, t) else if b =? chr_minus then (true, t) else (false, s)
    | [] => (false, s)
    end in
  match s with
  | [] => None
  | _ =>
      let v := if neg then - digits_val s else digits_val s in
      if forallb is_digit s && (- 2 ^ 31 <=? v) && (v <? 2 ^ 31) then Some v else None
  end.

(** [{}] and [{:0w}] of a [u64]; 20 digits print every [u64]. *)
Fixpoint dec_digits (fuel : nat) (z : Z) : str :=
  match fuel with
  | O => []
  | S n => if z <? 10 then [chr_0 + z] else dec_digits n (z / 10) ++ [chr_0 + z mod 10]
  end.
Definition dec (z : Z) : str := dec_digits 20 z.
Definition zeros (n : nat) : str := replicate n chr_0.
Definition dec_pad (w : nat) (z : Z) : str := zeros (w - length (dec z)) ++ dec z.

(** ** The parsers *)

Definition MIN_PAYMENT_SATS : Z := 546.

Definition parse_btc_amount_safe (amount_str : str) : option Z :=
  match amount_str with [] => Some 0 | _ =>
  let amount_str := trim amount_str in
  let floor sats := if sats <? MIN_PAYMENT_SATS then 0 else sats in
  if contains chr_dot amount_str then
    match split_on (Z.eqb chr_dot) amount_str with
    | [p0; frac_str] =>
        let whole := default 0 (parse_u64 p0) in
        let padded :=
          if Nat.ltb (length frac_str) 8 then Some (frac_str ++ zeros (8 - length frac_str))
          else if Nat.ltb 8 (length frac_str) then
            match slice_to 8 frac_str with
            | None => None
            | Some first_8 =>
                let ninth_char := default chr_0 (chars_nth 8 frac_str) in
                if chr_5 <=? ninth_char then
                  let base := default 0 (parse_u64 first_8) in
                  Some (dec_pad 8 (u64_sat_add base 1))
                else Some first_8
            end
          else Some frac_str in
        match padded with
        | None => None
        | Some padded =>
            let frac := default 0 (parse_u64 padded) in
            Some (floor (u64_sat_add (u64_sat_mul whole 100000000) frac))
        end
    | _ => Some 0
    end
  else
    match parse_u64 amount_str with
    | Some v => Some (floor (u64_sat_mul v 100000000))
    | None => Some 0
    end
  end.

Definition parse_decimal_string_to_int (s : str) (decimal_places : nat) : option Z :=
  let scale := 10 ^ Z.of_nat decimal_places in
  match split_on (Z.eqb chr_dot) s with
  | [p0] => Some (u64_sat_mul (default 0 (parse_u64 p0)) scale)
  | [p0; frac_str] =>
      let whole := default 0 (parse_u64 p0) in
      let frac_u64 :=
        if Nat.ltb (length frac_str) decimal_places then
          Some (default 0 (parse_u64 (frac_str ++ zeros (decimal_places - length frac_str))))
        else if Nat.ltb decimal_places (length frac_str) then
          match slice_to decimal_places frac_str with
          | None => None
          | Some p => Some (default 0 (parse_u64 p))
          end
        else Some (default 0 (parse_u64 frac_str)) in
      match frac_u64 with
      | None => None
      | Some f => Some (u64_sat_add (u64_sat_mul whole scale) f)
      end
  | _ => Some 0
  end.

Section xmr.

Context `{BuildProfile}.

(** [10u64.pow(e)] for an [e] cast to [u32]. *)
Definition pow10 (e : Z) : option Z := u64_op (10 ^ (e mod 2 ^ 32)).

(** [-exponent] on an [i32]. *)
Definition neg_i32 (e : Z) : option Z :=
  if decide (e = - 2 ^ 31) then (if overflow_checks then None else Some e) else Some (- e).

Definition parse_xmr_amount_safe (amount_str : str) : option Z :=
  match amount_str with [] => Some 0 | _ =>
  let amount_str := trim amount_str in
  if contains 101 amount_str || contains 69 amount_str then
    let parts := split_on (fun b => (b =? 101) || (b =? 69)) amount_str in
    let mantissa_str := default [] (parts !! 0%nat) in
    let exponent_str := default [chr_0] (parts !! 1%nat) in
    match parse_decimal_string_to_int mantissa_str 12 with
    | None => None
    | Some mantissa_piconero =>
        let exponent := default 0 (parse_i32 exponent_str) in
        if 0 <=? exponent then
          match pow10 exponent with
          | None => None
          | Some p => Some (u64_sat_mul mantissa_piconero p)
          end
        else
          match neg_i32 exponent with
          | None => None
          | Some e =>
              match pow10 e with
              | None => None
              | Some divisor =>
                  (* integer division by zero panics in every profile *)
                  if divisor =? 0 then None else Some (mantissa_piconero / divisor)
              end
          end
    end
  else parse_decimal_string_to_int amount_str 12
  end.
End xmr.

(** ** Digits *)

Lemma digits_val_snoc s d : digits_val (s ++ [d]) = digits_val s * 10 + (d - 48).
Proof. unfold digits_val. by rewrite fold_left_app. Qed.

Lemma digits_val_app s t : digits_val (s ++ t) = digits_val s * 10 ^ Z.of_nat (length t) + digits_val t.
Proof.
  induction t as [|d t IH] using rev_ind.
  - rewrite app_nil_r. cbn. lia.
  - rewrite app_assoc, !digits_val_snoc, IH, length_app. cbn [length].
    rewrite Nat2Z.inj_add, Z.pow_add_r by lia. change (10 ^ Z.of_nat 1) with 10. ring.
Qed.

Lemma is_digit_range d : is_digit d = true <-> 48 <= d <= 57.
Proof. unfold is_digit. rewrite andb_true_iff, !Z.leb_le. done. Qed.

Definition all_digits (s : str) : Prop := forallb is_digit s = true.

Lemma all_digits_app s t : all_digits s -> all_digits t -> all_digits (s ++ t).
Proof. unfold all_digits. intros. by rewrite forallb_app, H, H0. Qed.

Lemma all_digits_zeros n : all_digits (zeros n).
Proof. induction n; [done|]. exact IHn. Qed.

Lemma digits_val_zeros n : digits_val (zeros n) = 0.
Proof.
  induction n as [|n IH]; [done|]. unfold zeros. cbn [replicate].
  change (chr_0 :: replicate n chr_0) with ([chr_0] ++ zeros n).
  rewrite digits_val_app, IH. done.
Qed.

Lemma digits_val_nonneg s : all_digits s -> 0 <= digits_val s.
Proof.
  unfold all_digits. induction s as [|d s IH] using rev_ind; [done|].
  rewrite forallb_app, andb_true_iff. intros [H1 H2]. rewrite digits_val_snoc.
  cbn in H2. rewrite andb_true_r in H2. apply is_digit_range in H2. specialize (IH H1). lia.
Qed.

Lemma digits_val_bound s : all_digits s -> digits_val s < 10 ^ Z.of_nat (length s).
Proof.
  unfold all_digits. induction s as [|d s IH] using rev_ind; [done|].
  rewrite forallb_app, andb_true_iff. intros [H1 H2]. rewrite digits_val_snoc, length_app.
  cbn in H2. rewrite andb_true_r in H2. apply is_digit_range in H2. specialize (IH H1).
  cbn [length]. rewrite Nat2Z.inj_add, Z.pow_add_r by lia. change (10 ^ Z.of_nat 1) with 10. lia.
Qed.

Lemma dec_digits_spec fuel z :
  0 <= z < 10 ^ Z.of_nat fuel ->
  all_digits (dec_digits fuel z) /\ digits_val (dec_digits fuel z) = z /\
  (fuel <> 0%nat -> dec_digits fuel z <> []) /\
  (forall w, (w <> 0%nat) -> z < 10 ^ Z.of_nat w -> (length (dec_digits fuel z) <= w)%nat).
Proof.
  revert z. induction fuel as [|n IH]; intros z Hz.
  { cbn in *. split_and!; [done|cbn; lia|done|lia]. }
  cbn [dec_digits]. destruct (Z.ltb_spec z 10) as [Hs|Hs].
  - unfold chr_0. split_and!; [|unfold digits_val; cbn [fold_left]; lia|done|cbn; lia].
    unfold all_digits. cbn [forallb]. rewrite andb_true_r. apply is_digit_range. lia.
  - rewrite Nat2Z.inj_succ, Z.pow_succ_r in Hz by lia.
    pose proof (Z.mod_pos_bound z 10 ltac:(lia)).
    destruct (IH (z / 10)) as (Hd & Hv & Hne & Hlen).
    { split; [apply Z.div_pos; lia|]. apply Z.div_lt_upper_bound; lia. }
    split_and!.
    + apply all_digits_app; [done|]. unfold all_digits. cbn [forallb]. rewrite andb_true_r.
      apply is_digit_range. unfold chr_0. lia.
    + rewrite digits_val_snoc, Hv. unfold chr_0.
      pose proof (Z.div_mod z 10). lia.
    + intros _ E. by apply app_eq_nil in E as [_ ?].
    + intros w Hw Hzw. rewrite length_app. cbn [length].
      destruct w as [|w]; [done|]. rewrite Nat2Z.inj_succ, Z.pow_succ_r in Hzw by lia.
      destruct w as [|w]; [cbn in Hzw; lia|].
      assert (length (dec_digits n (z / 10)) <= S w)%nat; [|lia].
      apply Hlen; [done|]. apply Z.div_lt_upper_bound; lia.
Qed.

Lemma dec_spec z : in_u64 z ->
  all_digits (dec z) /\ digits_val (dec z) = z /\ dec z <> [] /\
  (forall w, (w <> 0%nat) -> z < 10 ^ Z.of_nat w -> (length (dec z) <= w)%nat).
Proof.
  intros Hz. destruct (dec_digits_spec 20 z) as (? & ? & Hne & ?).
  { zwidth. change (10 ^ Z.of_nat 20) with 100000000000000000000. lia. }
  split_and!; auto.
Qed.

Lemma all_digits_plus s : all_digits s -> forall b t, s = b :: t -> (b =? chr_plus) = false.
Proof.
  intros Hs b t ->. unfold all_digits in Hs. cbn in Hs. apply andb_true_iff in Hs as [Hb _].
  apply is_digit_range in Hb. apply Z.eqb_neq. unfold chr_plus. lia.
Qed.

Lemma parse_u64_digits s :
  all_digits s -> s <> [] -> digits_val s <= u64_max -> parse_u64 s = Some (digits_val s).
Proof.
  intros Hs Hne Hv. unfold parse_u64. destruct s as [|b t]; [done|].
  rewrite (all_digits_plus _ Hs b t eq_refl). rewrite Hs.
  by rewrite (proj2 (Z.leb_le _ _) Hv).
Qed.

(** Printing and parsing a [u64] round-trips. *)
Lemma parse_u64_dec z : in_u64 z -> parse_u64 (dec z) = Some z.
Proof.
  intros Hz. destruct (dec_spec z Hz) as (Hd & Hv & Hne & _).
  rewrite parse_u64_digits; [by rewrite Hv|done|done|rewrite Hv; zlia].
Qed.

(** ** Decimal text as bytes *)

(** [u64::to_string().as_bytes()] *)
Definition dec_bytes (z : Z) : bytes := map byte_of_Z (dec z).

Lemma byte_of_Z_inj a b : 0 <= a < 256 -> 0 <= b < 256 -> byte_of_Z a = byte_of_Z b -> a = b.
Proof.
  intros Ha Hb E. apply (f_equal byte_val) in E. rewrite !byte_val_of_Z in E.
  by rewrite !Z.mod_small in E by lia.
Qed.

Lemma digits_bytes_inj s t :
  all_digits s -> all_digits t -> map byte_of_Z s = map byte_of_Z t -> s = t.
Proof.
  revert t. induction s as [|a s IH]; intros [|b t] Hs Ht E; try done. cbn in E.
  injection E as Eh Et. unfold all_digits in *. cbn in Hs, Ht.
  apply andb_true_iff in Hs as [Ha Hs], Ht as [Hb Ht].
  apply is_digit_range in Ha, Hb. f_equal; [by apply byte_of_Z_inj in Eh; lia|by apply IH].
Qed.

Lemma dec_bytes_inj a b : in_u64 a -> in_u64 b -> dec_bytes a = dec_bytes b -> a = b.
Proof.
  intros Ha Hb E. destruct (dec_spec a Ha) as (Da & Va & _), (dec_spec b Hb) as (Db & Vb & _).
  apply digits_bytes_inj in E; [|done..]. congruence.
Qed.

Lemma dec_pad_spec w z : in_u64 z -> (w <> 0)%nat -> z < 10 ^ Z.of_nat w ->
  all_digits (dec_pad w z) /\ digits_val (dec_pad w z) = z /\ length (dec_pad w z) = w.
Proof.
  intros Hz Hw Hb. destruct (dec_spec z Hz) as (Hd & Hv & Hne & Hl). unfold dec_pad.
  specialize (Hl w Hw Hb). split_and!.
  - apply all_digits_app; [apply all_digits_zeros|done].
  - rewrite digits_val_app, digits_val_zeros, Hv. lia.
  - unfold zeros. rewrite length_app, length_replicate. lia.
Qed.

Lemma parse_u64_range s v : parse_u64 s = Some v -> in_u64 v.
Proof.
  unfold parse_u64. intros H. repeat case_match; simplify_eq;
    match goal with E : _ && _ = true |- _ => apply andb_true_iff in E as [E1 E2] end;
    apply Z.leb_le in E2; pose proof (digits_val_nonneg _ E1); zlia.
Qed.

Lemma default_u64_range o : (forall v, o = Some v -> in_u64 v) -> in_u64 (default 0 o).
Proof. destruct o; cbn; [auto|zlia]. Qed.

(** ** Splitting and trimming plain ASCII *)

Definition graphic (b : Z) : Prop := 33 <= b <= 126.

Lemma all_digits_graphic s : all_digits s -> Forall graphic s.
Proof.
  unfold all_digits. intros H. apply Forall_forall. intros x Hx.
  rewrite forallb_forall in H. specialize (H x (proj1 (list_elem_of_In _ _) Hx)).
  apply is_digit_range in H. unfold graphic. lia.
Qed.

Lemma strip_any_none ps b t :
  Forall (fun p => exists a q, p = a :: q /\ a <> b) ps -> strip_any ps (b :: t) = None.
Proof.
  induction 1 as [|p ps (a & q & -> & Hab) _ IH]; [done|].
  cbn. by rewrite (proj2 (Z.eqb_neq _ _) Hab).
Qed.

Lemma strip_all_graphic ps n s :
  (forall b, graphic b -> Forall (fun p => exists a q, p = a :: q /\ a <> b) ps) ->
  Forall graphic s -> strip_all ps n s = s.
Proof.
  intros Hps Hs. destruct n as [|n]; [done|]. cbn [strip_all].
  destruct Hs as [|b t Hb Ht].
  - specialize (Hps 65 ltac:(unfold graphic; lia)).
    assert (strip_any ps [] = None) as ->; [|done].
    induction Hps as [|p ps (a & q & -> & _) _ IH]; [done|]. cbn. exact IH.
  - by rewrite (strip_any_none ps b t (Hps b Hb)).
Qed.

Lemma trim_graphic s : Forall graphic s -> trim s = s.
Proof.
  intros Hs. unfold trim.
  assert (forall b, graphic b -> Forall (fun p => exists a q, p = a :: q /\ a <> b) whitespace) as H1.
  { unfold graphic. intros b Hb. unfold whitespace. cbn. repeat constructor; eexists _, _; (split; [done|lia]). }
  assert (forall b, graphic b ->
    Forall (fun p => exists a q, p = a :: q /\ a <> b) (map (@rev Z) whitespace)) as H2.
  { unfold graphic. intros b Hb. unfold whitespace. cbn. repeat constructor; eexists _, _; (split; [done|lia]). }
  rewrite (strip_all_graphic _ _ s H1 Hs).
  rewrite (strip_all_graphic _ _ (rev s) H2); [apply rev_involutive|].
  apply Forall_rev. done.
Qed.

Lemma split_on_none sep s : forallb (fun b => negb (sep b)) s = true -> split_on sep s = [s].
Proof.
  induction s as [|b s IH]; [done|]. cbn [forallb]. rewrite andb_true_iff, negb_true_iff.
  intros [Hb Hs]. cbn [split_on]. by rewrite Hb, (IH Hs).
Qed.

Lemma split_on_app sep p b s :
  forallb (fun b => negb (sep b)) p = true -> sep b = true ->
  split_on sep (p ++ b :: s) = p :: split_on sep s.
Proof.
  intros Hp Hb. induction p as [|a p IH].
  - cbn [app split_on]. by rewrite Hb.
  - cbn [forallb] in Hp. apply andb_true_iff in Hp as [Ha Hp]. apply negb_true_iff in Ha.
    cbn [app split_on]. by rewrite Ha, (IH Hp).
Qed.

Lemma all_digits_no_sep sep s :
  all_digits s -> (forall d, is_digit d = true -> sep d = false) ->
  forallb (fun b => negb (sep b)) s = true.
Proof.
  unfold all_digits. intros Hs Hsep. rewrite forallb_forall in Hs |- *. intros x Hx.
  by rewrite (Hsep x (Hs x Hx)).
Qed.

Lemma digit_not_dot d : is_digit d = true -> Z.eqb chr_dot d = false.
Proof. rewrite is_digit_range. intros. apply Z.eqb_neq. unfold chr_dot. lia. Qed.

Lemma contains_app c s t : contains c (s ++ t) = contains c s || contains c t.
Proof. unfold contains. apply existsb_app. Qed.

Lemma contains_digits c s :
  all_digits s -> is_digit c = false -> contains c s = false.
Proof.
  unfold all_digits, contains. intros Hs Hc. apply not_true_is_false. intros E.
  apply existsb_exists in E as (x & Hx & E). apply Z.eqb_eq in E. subst x.
  rewrite forallb_forall in Hs. by rewrite (Hs c Hx) in Hc.
Qed.

(** ** Properties of the parsers *)

Definition print_amount (w : nat) (whole frac : Z) : str := dec whole ++ chr_dot :: dec_pad w frac.

Lemma print_amount_facts w whole frac :
  in_u64 whole -> in_u64 frac -> (w <> 0)%nat -> frac < 10 ^ Z.of_nat w ->
  Forall graphic (print_amount w whole frac) /\
  split_on (Z.eqb chr_dot) (print_amount w whole frac) = [dec whole; dec_pad w frac] /\
  print_amount w whole frac <> [] /\
  parse_u64 (dec_pad w frac) = Some frac.
Proof.
  intros Hw Hf Hw0 Hb.
  destruct (dec_spec whole Hw) as (Hd & _ & Hne & _).
  destruct (dec_pad_spec w frac Hf Hw0 Hb) as (Hd2 & Hv2 & Hl2).
  split_and!.
  - unfold print_amount. apply Forall_app. split; [by apply all_digits_graphic|].
    constructor; [unfold graphic, chr_dot; lia|by apply all_digits_graphic].
  - unfold print_amount. rewrite split_on_app; [|by apply all_digits_no_sep, digit_not_dot|done].
    rewrite split_on_none; [done|]. by apply all_digits_no_sep, digit_not_dot.
  - unfold print_amount. intros E. by apply app_eq_nil in E as [? _].
  - rewrite parse_u64_digits; [by rewrite Hv2|done| |rewrite Hv2; zlia].
    intros E. rewrite E in Hl2. cbn in Hl2. lia.
Qed.

Lemma btc_print_exact whole frac :
  0 <= whole -> 0 <= frac < 10 ^ 8 -> whole * 10 ^ 8 + frac <= u64_max ->
  parse_btc_amount_safe (print_amount 8 whole frac) =
  Some (let sats := whole * 10 ^ 8 + frac in if sats <? MIN_PAYMENT_SATS then 0 else sats).
Proof.
  intros H1 H2 H3.
  assert (in_u64 whole) as Hw by zlia. assert (in_u64 frac) as Hf by zlia.
  destruct (print_amount_facts 8 whole frac Hw Hf ltac:(done) ltac:(lia)) as (Hg & Hs & Hne & Hp).
  destruct (dec_pad_spec 8 frac Hf ltac:(done) ltac:(lia)) as (_ & _ & Hl).
  unfold parse_btc_amount_safe.
  destruct (print_amount 8 whole frac) as [|b t] eqn:Epa; [done|]. rewrite <-Epa in *.
  rewrite trim_graphic by done.
  assert (contains chr_dot (print_amount 8 whole frac) = true) as ->.
  { unfold print_amount. rewrite contains_app. cbn. by rewrite orb_true_r. }
  rewrite Hs, Hl. cbn [Nat.ltb Nat.leb]. rewrite Hp, (parse_u64_dec whole Hw). cbn [from_option id].
  unfold u64_sat_mul, u64_sat_add. rewrite (u64_sat_id (whole * 100000000)) by zlia.
  rewrite u64_sat_id by zlia. done.
Qed.

(** Print and parse round-trip for bitcoin: an amount printed as
    ["{whole}.{frac:08}"] (the program's own format) is read back as exactly
    that many satoshis, or as 0 when it is below the dust limit. *)
Theorem parse_btc_print whole frac :
  0 <= whole -> 0 <= frac < 10 ^ 8 -> whole * 10 ^ 8 + frac <= u64_max ->
  parse_btc_amount_safe (print_amount 8 whole frac) =
  Some (let sats := whole * 10 ^ 8 + frac in if sats <? MIN_PAYMENT_SATS then 0 else sats).
Proof. apply btc_print_exact. Qed.

Lemma parse_btc_print_witness :
  parse_btc_amount_safe (str_of "1.23456789") = Some 123456789.
Proof. apply (parse_btc_print 1 23456789); zlia. Defined.

Lemma xmr_print_exact `{BuildProfile} whole frac :
  0 <= whole -> 0 <= frac < 10 ^ 12 -> whole * 10 ^ 12 + frac <= u64_max ->
  parse_xmr_amount_safe (print_amount 12 whole frac) = Some (whole * 10 ^ 12 + frac).
Proof.
  intros H1 H2 H3.
  assert (in_u64 whole) as Hw by zlia. assert (in_u64 frac) as Hf by zlia.
  destruct (print_amount_facts 12 whole frac Hw Hf ltac:(done) ltac:(lia)) as (Hg & Hs & Hne & Hp).
  destruct (dec_pad_spec 12 frac Hf ltac:(done) ltac:(lia)) as (Hd & _ & Hl).
  destruct (dec_spec whole Hw) as (Hdw & _ & _ & _).
  unfold parse_xmr_amount_safe.
  destruct (print_amount 12 whole frac) as [|b t] eqn:Epa; [done|]. rewrite <-Epa in *.
  rewrite trim_graphic by done.
  assert (forall c, is_digit c = false -> (c =? chr_dot) = false ->
    contains c (print_amount 12 whole frac) = false) as Hc.
  { intros c Hc1 Hc2. unfold print_amount. rewrite contains_app, contains_digits by done.
    change (contains c (chr_dot :: dec_pad 12 frac))
      with ((c =? chr_dot) || contains c (dec_pad 12 frac)).
    by rewrite Hc2, contains_digits. }
  rewrite !Hc by done. cbn [orb]. unfold parse_decimal_string_to_int.
  rewrite Hs, Hl. cbn [Nat.ltb Nat.leb]. rewrite Hp, (parse_u64_dec whole Hw). cbn [from_option id].
  change (10 ^ Z.of_nat 12) with 1000000000000.
  unfold u64_sat_mul, u64_sat_add. rewrite (u64_sat_id (whole * _)) by zlia.
  rewrite u64_sat_id by zlia. done.
Qed.

(** Monero amounts printed as ["{whole}.{frac:012}"] are read back exactly. *)
Theorem parse_xmr_print `{BuildProfile} whole frac :
  0 <= whole -> 0 <= frac < 10 ^ 12 -> whole * 10 ^ 12 + frac <= u64_max ->
  parse_xmr_amount_safe (print_amount 12 whole frac) = Some (whole * 10 ^ 12 + frac).
Proof. apply xmr_print_exact. Qed.

Lemma parse_xmr_print_witness :
  @parse_xmr_amount_safe release (str_of "0.001234567890") = Some 1234567890.
Proof. apply (@parse_xmr_print release 0 1234567890); zlia. Defined.

Lemma slice_to_ascii n s : Forall (fun b => b < 128) s -> (n <= length s)%nat -> is_Some (slice_to n s).
Proof.
  intros Hs Hn. unfold slice_to. destruct (s !! n) as [b|] eqn:E.
  - rewrite Forall_lookup in Hs. specialize (Hs n b E).
    unfold is_cont. rewrite (proj2 (Z.leb_gt _ _)) by lia. by eexists.
  - apply lookup_ge_None in E. replace n with (length s) by lia. rewrite Nat.eqb_refl. by eexists.
Qed.

Lemma strip_any_sublist ps s r : strip_any ps s = Some r -> forall P, Forall P s -> Forall P r.
Proof.
  revert s r. induction ps as [|p ps IH]; intros s r E P Hs; [done|]. cbn in E.
  destruct (strip_prefix p s) as [q|] eqn:Ep; simplify_eq; [|by eapply IH].
  clear IH. revert s Hs Ep. induction p as [|a p IH]; intros s Hs Ep; [by simplify_eq/=|].
  destruct s as [|b s]; [done|]. cbn in Ep. destruct (a =? b); [|done].
  inversion Hs; subst. by eapply IH.
Qed.

Lemma strip_all_Forall ps n s P : Forall P s -> Forall P (strip_all ps n s).
Proof.
  revert s. induction n as [|n IH]; intros s Hs; [done|]. cbn.
  destruct (strip_any ps s) eqn:E; [|done]. apply IH. by eapply strip_any_sublist.
Qed.

Lemma trim_Forall P s : Forall P s -> Forall P (trim s).
Proof. intros Hs. unfold trim. by apply Forall_rev, strip_all_Forall, Forall_rev, strip_all_Forall. Qed.

Lemma split_on_Forall sep P s p : Forall P s -> In p (split_on sep s) -> Forall P p.
Proof.
  revert p. induction s as [|b s IH]; intros p Hs Hin.
  - cbn in Hin. destruct Hin as [<-|[]]. constructor.
  - inversion Hs; subst. cbn in Hin. destruct (sep b).
    + destruct Hin as [<-|Hin]; [constructor|by apply IH].
    + destruct (split_on sep s) as [|q qs].
      * destruct Hin as [<-|[]]. by constructor.
      * destruct Hin as [<-|Hin]; [constructor; [done|apply IH; [done|by left]]|].
        apply IH; [done|by right].
Qed.

(** Whatever the (ASCII) string, [parse_btc_amount_safe] does not panic and
    yields either 0 or a payable amount: at least the dust limit, within
    [u64]. *)
Theorem parse_btc_safe s :
  Forall (fun b => b < 128) s ->
  exists v, parse_btc_amount_safe s = Some v /\ (v = 0 \/ MIN_PAYMENT_SATS <= v <= u64_max).
Proof.
  intros Hs.
  assert (forall z, in_u64 z -> let v := if z <? MIN_PAYMENT_SATS then 0 else z in
    v = 0 \/ MIN_PAYMENT_SATS <= v <= u64_max) as Hfloor.
  { intros z Hz. cbn. destruct (Z.ltb_spec z MIN_PAYMENT_SATS); [by left|right]. zlia. }
  unfold parse_btc_amount_safe. destruct s as [|b t]; [exists 0; by split; [|left]|].
  set (s := b :: t) in *. clearbody s. apply (trim_Forall _ _) in Hs.
  set (u := trim s) in *. clearbody u.
  destruct (contains chr_dot u).
  - destruct (split_on (Z.eqb chr_dot) u) as [|p0 [|fs [|]]] eqn:Esp;
      try (exists 0; by split; [|left]).
    assert (Forall (fun b => b < 128) fs) as Hfs.
    { eapply split_on_Forall; [exact Hs|]. rewrite Esp. right. by left. }
    match goal with |- context [match ?X with None => None | Some _ => _ end] =>
      assert (is_Some X) as [padded Hp] end.
    { destruct (Nat.ltb_spec (length fs) 8); [by eexists|].
      destruct (Nat.ltb_spec 8 (length fs)); [|by eexists].
      destruct (slice_to_ascii 8 fs Hfs ltac:(lia)) as [f8 ->]. case_match; by eexists. }
    rewrite Hp. eexists. split; [done|]. apply Hfloor, u64_sat_range.
  - destruct (parse_u64 u) as [v|]; [|exists 0; by split; [|left]].
    eexists. split; [done|]. apply Hfloor, u64_sat_range.
Qed.

Lemma parse_btc_safe_witness :
  exists v, parse_btc_amount_safe (str_of "21000000.123456785") = Some v /\
    (v = 0 \/ MIN_PAYMENT_SATS <= v <= u64_max).
Proof. apply parse_btc_safe. vm_compute. repeat constructor. Defined.

Lemma pow10_factor e : 64 <= e -> exists c, 10 ^ e = 2 ^ 64 * c /\ 0 < c.
Proof.
  intros He. exists (5 ^ 64 * 10 ^ (e - 64)). split.
  - rewrite Z.mul_assoc, <-Z.pow_mul_l. change (2 * 5) with 10.
    rewrite <-Z.pow_add_r by lia. f_equal. lia.
  - apply Z.mul_pos_pos; apply Z.pow_pos_nonneg; lia.
Qed.

(** A negative exponent from 64 on makes [parse_xmr_amount_safe] panic, in
    every build profile: [10u64.pow] overflows with the checks on, and wraps
    to 0 without them, so the division by it fails.  The string comes from the
    client's order data and the panic ends the worker. *)
Theorem parse_xmr_exponent_panics `{BuildProfile} m e :
  in_u64 m -> 64 <= e < 2 ^ 31 ->
  parse_xmr_amount_safe (dec m ++ 101 :: chr_minus :: dec e) = None.
Proof.
  intros Hm He. assert (in_u64 e) as Heu by zlia.
  destruct (dec_spec m Hm) as (Hdm & Hvm & Hnm & _).
  destruct (dec_spec e Heu) as (Hde & Hve & Hn & _).
  set (s := dec m ++ 101 :: chr_minus :: dec e).
  assert (Forall graphic s) as Hg.
  { apply Forall_app. split; [by apply all_digits_graphic|].
    repeat constructor; try (unfold graphic, chr_minus; lia). by apply all_digits_graphic. }
  unfold parse_xmr_amount_safe. destruct s as [|b t] eqn:Es.
  { unfold s in Es. by apply app_eq_nil in Es as [? _]. }
  rewrite <-Es in *. rewrite trim_graphic by done.
  assert (contains 101 s = true) as ->.
  { unfold s. rewrite contains_app. cbn. by rewrite orb_true_r. }
  cbn [orb]. unfold s.
  assert (forall d, is_digit d = true -> (d =? 101) || (d =? 69) = false) as Hsep.
  { intros d Hd%is_digit_range. rewrite !(proj2 (Z.eqb_neq _ _)) by lia. done. }
  rewrite split_on_app; [|by apply all_digits_no_sep|done].
  rewrite (split_on_none _ (chr_minus :: dec e)).
  2:{ cbn. by rewrite all_digits_no_sep. }
  cbn [list_lookup lookup from_option id].
  assert (parse_decimal_string_to_int (dec m) 12 = Some (u64_sat_mul m (10 ^ Z.of_nat 12))) as ->.
  { unfold parse_decimal_string_to_int.
    rewrite split_on_none by (by apply all_digits_no_sep, digit_not_dot).
    by rewrite parse_u64_dec. }
  assert (parse_i32 (chr_minus :: dec e) = Some (- e)) as ->.
  { unfold parse_i32. cbn [Z.eqb]. change (chr_minus =? chr_plus) with false.
    change (chr_minus =? chr_minus) with true. cbn match.
    destruct (dec e) as [|x y] eqn:E; [done|]. rewrite <-E. unfold all_digits in Hde. rewrite E in *.
    rewrite Hde, Hve. cbn [andb].
    rewrite (proj2 (Z.leb_le _ _)), (proj2 (Z.ltb_lt _ _)) by lia. done. }
  cbn [from_option id]. rewrite (proj2 (Z.leb_gt 0 (- e))) by lia.
  unfold neg_i32. rewrite decide_False by lia. rewrite Z.opp_involutive.
  unfold pow10. rewrite (Z.mod_small e) by lia.
  destruct (pow10_factor e ltac:(lia)) as (c & Ec & Hc).
  unfold u64_op. rewrite decide_False by (rewrite Ec; zwidth; lia).
  destruct overflow_checks; [done|].
  unfold u64_wrap. rewrite Ec, (Z.mul_comm (2 ^ 64)), Z.mod_mul by done. done.
Qed.

Lemma parse_xmr_exponent_panics_witness :
  @parse_xmr_amount_safe release (str_of "1e-64") = None /\
  @parse_xmr_amount_safe dev (str_of "1e-64") = None.
Proof.
  split; [apply (@parse_xmr_exponent_panics release 1 64)
         |apply (@parse_xmr_exponent_panics dev 1 64)]; zlia.
Defined.

(** The parsers accept what is not a number: an unreadable integer part counts
    as zero, so ["1,000.5"] is half a bitcoin. *)
Example parse_btc_thousands :
  parse_btc_amount_safe (str_of "1,000.5") = Some 50000000 /\
  parse_btc_amount_safe (str_of "garbage.5") = Some 50000000.
Proof. done. Qed.
