(* ===== verification/Texts.v ===== *)
(** Text processing of the Rust standard library, shared by the components that
    read what people type: [trim], [to_lowercase] on ASCII, [split_whitespace],
    and what [hex::encode] prints.  A text is processed as the values of its
    UTF-8 bytes ([str_of] of Amounts.v) and turned back with [of_str]. *)
From S2P Require Import Prelude Interfaces Instances Amounts.

Definition of_str (s : str) : string := of_utf8 (map byte_of_Z s).

Lemma byte_of_Z_val b : byte_of_Z (byte_val b) = b.
Proof. by destruct b. Qed.

Lemma of_str_of s : of_str (str_of s) = s.
Proof.
  unfold of_str, str_of. rewrite map_map, (map_ext _ id), map_id by (intros; apply byte_of_Z_val).
  apply string_of_as_bytes.
Qed.

Lemma str_of_app s t : str_of (s +:+ t) = str_of s ++ str_of t.
Proof. unfold str_of. by rewrite as_bytes_app, map_app. Qed.

Lemma str_of_length s : length (str_of s) = String.length s.
Proof. unfold str_of. by rewrite length_map, as_bytes_length. Qed.

Lemma str_of_cons c s : exists b, byte_val b = Z.of_nat (nat_of_ascii c) /\ str_of (String c s) = byte_val b :: str_of s.
Proof.
  exists (Ascii.byte_of_ascii c). split; [|done]. by destruct c as [[] [] [] [] [] [] [] []].
Qed.

(** [s.trim()] *)
Definition trim_text (s : string) : string := of_str (trim (str_of s)).

Lemma trim_text_graphic s : Forall graphic (str_of s) -> trim_text s = s.
Proof. intros Hs. unfold trim_text. by rewrite trim_graphic, of_str_of. Qed.

(** [{}] of a [u64] *)
Definition dec_string (z : Z) : string := of_utf8 (dec_bytes z).

Lemma dec_string_inj a b : in_u64 a -> in_u64 b -> dec_string a = dec_string b -> a = b.
Proof.
  intros Ha Hb E. apply dec_bytes_inj; [done..|]. unfold dec_string in E.
  apply (f_equal as_bytes) in E. unfold as_bytes, of_utf8 in E.
  by rewrite !String.list_byte_of_string_of_list_byte in E.
Qed.

(** [c.to_ascii_lowercase()], and [s.to_ascii_lowercase()] *)
Definition ascii_lower (c : ascii) : ascii :=
  let n := Z.of_nat (nat_of_ascii c) in
  if (65 <=? n) && (n <=? 90) then ascii_of_nat (Z.to_nat (n + 32)) else c.

Definition to_lowercase (s : string) : string :=
  string_of_list_ascii (map ascii_lower (list_ascii_of_string s)).

(** [c.is_ascii_hexdigit()] *)
Definition is_ascii_hexdigit (b : Z) : bool :=
  is_digit b || ((97 <=? b) && (b <=? 102)) || ((65 <=? b) && (b <=? 70)).

(** The digits [hex::encode] writes. *)
Definition lower_hex (b : Z) : Prop := 48 <= b <= 57 \/ 97 <= b <= 102.

Lemma lower_hex_graphic b : lower_hex b -> graphic b.
Proof. unfold lower_hex, graphic. lia. Qed.

Lemma lower_hex_digit b : lower_hex b -> is_ascii_hexdigit b = true.
Proof. unfold lower_hex, is_ascii_hexdigit, is_digit. intros H. lia. Qed.

Lemma to_lowercase_hex s : Forall lower_hex (str_of s) -> to_lowercase s = s.
Proof.
  unfold to_lowercase. induction s as [|c s IH]; [done|].
  destruct (str_of_cons c s) as (b & Hb & ->). intros [Hl Hs]%Forall_cons.
  cbn [list_ascii_of_string map string_of_list_ascii]. rewrite (IH Hs). f_equal.
  unfold ascii_lower. rewrite <-Hb. unfold lower_hex in Hl.
  by replace ((65 <=? byte_val b) && (byte_val b <=? 90)) with false by lia.
Qed.

(** The documented output of [hex::encode]: lower-case hexadecimal digits. *)
Class HexText (X : Hex) := hex_lower : forall b, Forall lower_hex (str_of (hex_encode b)).

Lemma hex_graphic `{Hex} `{!HexText _} b : Forall graphic (str_of (hex_encode b)).
Proof. eapply Forall_impl; [apply hex_lower|]. exact lower_hex_graphic. Qed.

#[export] Instance hex_inst_text : HexText hex_inst.
Proof.
  intros b. induction b as [|x b IH]; [constructor|]. cbn [hex_encode hex_inst hex_enc].
  unfold str_of, as_bytes in *. cbn [String.list_byte_of_string map]. constructor; [|constructor; [|exact IH]].
  all: clear IH; unfold lower_hex; destruct x; vm_compute; first [by left|by right].
Qed.

(** ** [s.split_whitespace()] *)

(** The pieces between whitespace characters. *)
Fixpoint split_ws (n : nat) (s : str) : list str :=
  match n with
  | O => [[]]
  | S n =>
      match strip_any whitespace s with
      | Some r => [] :: split_ws n r
      | None =>
          match s with
          | [] => [[]]
          | b :: t => match split_ws n t with p :: ps => (b :: p) :: ps | [] => [[b]] end
          end
      end
  end.

Definition split_whitespace (s : str) : list str :=
  List.filter (fun p => negb (Nat.eqb (length p) 0)) (split_ws (length s) s).

Lemma strip_any_graphic b t : graphic b -> strip_any whitespace (b :: t) = None.
Proof.
  intros Hb. apply strip_any_none. unfold graphic in Hb. unfold whitespace. cbn.
  repeat constructor; eexists _, _; (split; [done|lia]).
Qed.

Lemma split_ws_word w : forall n s,
  Forall graphic w -> split_ws (length w + n) (w ++ s) =
  match split_ws n s with p :: ps => (w ++ p) :: ps | [] => [w] end.
Proof.
  induction w as [|b w IH]; intros n s Hw; cbn [length app Nat.add].
  - destruct n as [|n]; cbn [split_ws]; [done|]. destruct (strip_any whitespace s); [done|].
    destruct s; [done|]. by destruct (split_ws n s).
  - apply Forall_cons in Hw as [Hb Hw]. cbn [split_ws]. rewrite strip_any_graphic by done.
    rewrite (IH n s Hw). by destruct (split_ws n s).
Qed.

(** Words separated by single spaces. *)
Fixpoint join_words (ws : list str) : str :=
  match ws with
  | [] => []
  | [w] => w
  | w :: rest => w ++ 32 :: join_words rest
  end.

Definition word (w : str) : Prop := w <> [] /\ Forall graphic w.

(** A text of words splits into these words. *)
Lemma split_join ws : Forall word ws -> split_whitespace (join_words ws) = ws.
Proof.
  unfold split_whitespace. intros Hws.
  assert (forall w, word w -> negb (Nat.eqb (length w) 0) = true) as Hne
    by (intros [|] [? _]; done).
  induction Hws as [|w ws Hw Hws IH]; [done|]. pose proof (Hne w Hw) as Hnw. destruct Hw as [Hn Hg].
  destruct ws as [|w' ws].
  - cbn [join_words]. pose proof (split_ws_word w 0 [] Hg) as E. cbn [split_ws] in E.
    rewrite !app_nil_r, Nat.add_0_r in E. rewrite E. cbn [List.filter]. by rewrite Hnw.
  - change (join_words (w :: w' :: ws)) with (w ++ 32 :: join_words (w' :: ws)).
    rewrite length_app, split_ws_word by done. set (t := join_words (w' :: ws)) in *.
    cbn [length split_ws]. replace (strip_any whitespace (32 :: t)) with (Some t) by done.
    rewrite app_nil_r. cbn [List.filter]. by rewrite Hnw, IH.
Qed.
