(* ===== verification/Orders.v ===== *)
(** The orders service, src/services/orders.rs: [create_order], [get_order]
    and [update_order] over the effects of Effects.v. *)
From S2P Require Import Prelude Interfaces Instances TimeBuckets Models Effects Occ Transition.

Record CreateOrderRequest := mk_create_order {
  co_client_encrypted_blob : string;
  co_time_lock_days : option Z;   (* u64 *)
  co_nonce : string }.

Record UpdateOrderRequest := mk_update_order {
  uo_client_encrypted_blob : string;
  uo_transition_signature : string;
  uo_nonce : string;
  uo_hour_bucket : Z              (* u64 *) }.

Record OrderResponse := mk_order_response {
  or_id : string;
  or_client_encrypted_blob : option string;
  or_day_bucket : Z;
  or_expiry_bucket : option Z;
  or_version : Z;
  or_has_dispute : bool }.

Definition MAX_ORDER_BLOB_BYTES : Z := 256 * 1024.

(** [format!("{}:{}", id, nonce)] *)
Definition nonce_key (id nonce : string) : string := id +:+ ":" +:+ nonce.

Section orders.

Context `{BuildProfile} `{Hex} `{Base64} `{Hashing} `{Cbor} `{Ed25519}.

(** The blob checks [create_order] and [update_order] share. *)
Definition decode_order_blob (s : string) : AppError + bytes :=
  match b64_decode s with
  | inl e => inl (BadRequest ("Invalid client_encrypted_blob base64: " +:+ e))
  | inr blob =>
      if Nat.eqb (length blob) 0 then inl (BadRequest "client_encrypted_blob is empty")
      else if MAX_ORDER_BLOB_BYTES <? Z.of_nat (length blob)
      then inl (BadRequest "client_encrypted_blob too large")
      else inr blob
  end.

Definition lock_expiry (now lock_days : Z) : Z :=
  let lock_seconds := i64_sat_mul (i64_wrap lock_days) 86400 in
  floor_timestamp_6h (i64_sat_add now lock_seconds).

Definition create_order (default_lock_days : Z) (req : CreateOrderRequest)
    : prog (AppError + OrderResponse) :=
  try blob := decode_order_blob (co_client_encrypted_blob req) in
  let! fresh := ENonceInsert OrderCreate (co_nonce req) in
  if negb fresh then Ret (inl (Conflict "Create-order nonce already used")) else
  let! ts := ENow in
  let now := floor_timestamp_6h ts in
  let lock_days := default default_lock_days (co_time_lock_days req) in
  let expiry_bucket := lock_expiry now lock_days in
  let! order_id := EUuid in
  let! r := EOrderInsert order_id blob now (Some expiry_bucket) in
  try _ := map_err db_error r in
  Ret (inr (mk_order_response (hex_encode order_id) (Some (co_client_encrypted_blob req))
              now (Some expiry_bucket) 1 false)).

Definition get_order (id : string) : prog (AppError + OrderResponse) :=
  try id_bytes := map_err (fun _ => BadRequest "Invalid order_id") (hex_decode id) in
  let! r := EOrderSelect id_bytes in
  try row := map_err db_error r in
  try o := ok_or row (NotFound "Order not found") in
  Ret (inr (mk_order_response id (Some (b64_encode (o_encrypted_order_blob o)))
              (o_day_bucket o) (o_expiry_bucket o) (o_version o)
              (negb (o_has_dispute o =? 0)))).

Definition update_order (pubkey_bytes : bytes) (id : string) (req : UpdateOrderRequest)
    : prog (AppError + OrderResponse) :=
  try id_bytes := map_err (fun _ => BadRequest "Invalid order_id") (hex_decode id) in
  try blob := decode_order_blob (uo_client_encrypted_blob req) in
  let! fresh := ENonceInsert OrderUpdate (nonce_key id (uo_nonce req)) in
  if negb fresh then Ret (inl (Conflict "Update-order nonce already used")) else
  let! r := EOrderSelect id_bytes in
  try current := map_err db_error r in
  try o := ok_or current (NotFound "Order not found") in
  let v := o_version o in
  try nonce_bytes := map_err (fun _ => BadRequest "Invalid nonce hex") (hex_decode (uo_nonce req)) in
  try sig_bytes := map_err (fun _ => BadRequest "Invalid transition_signature hex")
                     (hex_decode (uo_transition_signature req)) in
  if negb (Nat.eqb (length sig_bytes) 64)
  then Ret (inl (BadRequest "Transition signature must be 64 bytes")) else
  let payload := payload_new id_bytes v (sha256 blob) nonce_bytes (uo_hour_bucket req) in
  try _ := map_err (fun e => AuthFailed ("Transition signature invalid: " +:+ e))
             (verify_transition pubkey_bytes payload sig_bytes) in
  let! r := EOrderUpdate [SetEncryptedBlob blob] id_bytes v in
  try n := map_err db_error r in
  if Nat.eqb n 0 then Ret (inl (Conflict "Order was modified by another request")) else
  arith (i64_op (v + 1)) (fun v' =>
  Ret (inr (mk_order_response id (Some (uo_client_encrypted_blob req))
              (o_day_bucket o) (o_expiry_bucket o) v' false))).
End orders.

(** ** Lemmas *)

Lemma nonce_key_inj id nonce id' nonce' :
  String.length id = String.length id' ->
  nonce_key id nonce = nonce_key id' nonce' -> id = id' /\ nonce = nonce'.
Proof.
  intros Hl E. unfold nonce_key in E. apply (f_equal as_bytes) in E.
  rewrite !as_bytes_app in E. apply app_inj_length in E as [E1 E2].
  - by apply as_bytes_inj in E1; apply app_inv_head, as_bytes_inj in E2.
  - by rewrite !as_bytes_length.
Qed.

Section orders_facts.

Context `{BuildProfile} `{Hex} `{Base64} `{Hashing} `{Cbor} `{Ed25519}.

Lemma decode_order_blob_ok s blob :
  decode_order_blob s = inr blob ->
  b64_decode s = inr blob /\ 0 < Z.of_nat (length blob) <= MAX_ORDER_BLOB_BYTES.
Proof.
  unfold decode_order_blob. destruct (b64_decode s) as [|b]; [done|].
  destruct (Nat.eqb_spec (length b) 0); [done|].
  destruct (Z.ltb_spec MAX_ORDER_BLOB_BYTES (Z.of_nat (length b))); [done|].
  intros [= ->]. split; [done|lia].
Qed.

(** What a successful [update_order] did to the world. *)
Lemma update_order_ok env pk id req w w' resp :
  run env (update_order pk id req) w = (w', Some (inr resp)) ->
  exists idb blob o nonce sig,
    hex_decode id = inr idb /\ decode_order_blob (uo_client_encrypted_blob req) = inr blob /\
    hex_decode (uo_nonce req) = inr nonce /\
    hex_decode (uo_transition_signature req) = inr sig /\ length sig = 64%nat /\
    w_orders w !! idb = Some o /\
    verify_transition pk (payload_new idb (o_version o) (sha256 blob) nonce (uo_hour_bucket req)) sig
      = inr (payload_new idb (o_version o) (sha256 blob) nonce (uo_hour_bucket req)) /\
    w_orders w' = <[idb := bump_version (apply_set (SetEncryptedBlob blob) o)]> (w_orders w) /\
    (OrderUpdate, nonce_key id (uo_nonce req)) ∉ w_nonces w /\
    (OrderUpdate, nonce_key id (uo_nonce req)) ∈ w_nonces w' /\
    i64_op (o_version o + 1) = Some (or_version resp) /\
    or_has_dispute resp = false /\
    or_client_encrypted_blob resp = Some (uo_client_encrypted_blob req).
Proof.
  unfold update_order. intros E.
  destruct (hex_decode id) as [|idb] eqn:E1; [done|]. cbn [map_err] in E.
  destruct (decode_order_blob _) as [|blob] eqn:E2; [done|].
  step_in E. case_decide as Hn; [by cbn in E|]. cbn [negb] in E.
  step_in E. no_fault E.
  destruct (w_orders w !! idb) as [o|] eqn:Eo; [|done]. cbn [ok_or] in E.
  destruct (hex_decode (uo_nonce req)) as [|nonce] eqn:E3; [done|]. cbn [map_err] in E.
  destruct (hex_decode (uo_transition_signature req)) as [|sig] eqn:E4; [done|]. cbn [map_err] in E.
  destruct (Nat.eqb_spec (length sig) 64) as [Hl|]; [|done]. cbn [negb] in E.
  destruct (verify_transition _ _ _) as [|q] eqn:Ev; [done|]. cbn [map_err] in E.
  step_in E. no_fault E.
  unfold sql_update_order in E. rewrite Eo, decide_True in E by done.
  cbn [map_err Nat.eqb fold_left] in E.
  destruct (i64_op (o_version o + 1)) as [v'|] eqn:Ei; [|done]. cbn [arith run] in E.
  simplify_eq. pose proof (verify_transition_sound _ _ _ _ Ev) as [-> _].
  exists idb, blob, o, nonce, sig. split_and!; try done.
  cbn. set_solver.
Qed.

Definition ok_version (r : AppError + OrderResponse) : option Z :=
  match r with inr resp => Some (or_version resp) | inl _ => None end.

#[export] Instance update_order_writer pk id idb req :
  hex_decode id = inr idb -> OrderWriter (update_order pk id req) idb ok_version.
Proof.
  intros Hid ls a v' Hp Hv. destruct a as [|resp]; [done|]. injection Hv as <-.
  unfold update_order in Hp. rewrite Hid in Hp. path_inv Hp.
  simplify_eq. destruct x0 as [|[|m]]; [done|by simplify_eq/=|].
  exists (o_version o0). split; [|done]. right. right. left.
Qed.

(** An update that got past its nonce answers an error to every later update
    with the same order id and nonce, wherever the two run. *)
Lemma update_order_seen env pk id req w w' res :
  (OrderUpdate, nonce_key id (uo_nonce req)) ∈ w_nonces w ->
  run env (update_order pk id req) w = (w', res) ->
  (exists e, res = Some (inl e)) /\ w_orders w' = w_orders w.
Proof.
  intros Hin. unfold update_order. intros E.
  destruct (map_err _ (hex_decode id)) as [|idb]; [cbn in E; simplify_eq; by eauto|].
  destruct (decode_order_blob _) as [|blob]; [cbn in E; simplify_eq; by eauto|].
  step_in E. rewrite decide_True in E by done. cbn in E. simplify_eq; by eauto.
Qed.

(** C5. [update_order] may change one order, and only if its signature by the
    caller's key over that order's id, its stored version, the hash of the new
    blob, the nonce and the hour verifies.  It then replaces the blob and
    bumps the version; every other column, every other order and the listings
    stay, and the nonce is used up. *)
Theorem update_order_effect env pk id req w w' resp :
  run env (update_order pk id req) w = (w', Some (inr resp)) ->
  exists idb blob o nonce sig p,
    hex_decode id = inr idb /\ b64_decode (uo_client_encrypted_blob req) = inr blob /\
    hex_decode (uo_nonce req) = inr nonce /\
    hex_decode (uo_transition_signature req) = inr sig /\
    w_orders w !! idb = Some o /\
    p = payload_new idb (o_version o) (sha256 blob) nonce (uo_hour_bucket req) /\
    verify_transition pk p sig = inr p /\
    0 < Z.of_nat (length blob) <= MAX_ORDER_BLOB_BYTES /\
    w_orders w' !! idb =
      Some (mk_order (o_id o) blob (o_day_bucket o) (o_expiry_bucket o) (o_version o + 1)
              (o_has_dispute o) (o_client_encrypted_blob o) (o_dispute_client_blob o)
              (o_chat_encrypted_blob o)) /\
    (forall id', id' <> idb -> w_orders w' !! id' = w_orders w !! id') /\
    (OrderUpdate, nonce_key id (uo_nonce req)) ∉ w_nonces w /\
    (OrderUpdate, nonce_key id (uo_nonce req)) ∈ w_nonces w' /\
    (in_i64 (o_version o + 1) -> or_version resp = o_version o + 1).
Proof.
  intros E. destruct (update_order_ok _ _ _ _ _ _ _ E) as
    (idb & blob & o & nonce & sig & E1 & E2 & E3 & E4 & _ & E5 & E6 & E7 & E8 & E9 & E10 & _).
  destruct (decode_order_blob_ok _ _ E2) as [Hb Hl].
  exists idb, blob, o, nonce, sig, (payload_new idb (o_version o) (sha256 blob) nonce (uo_hour_bucket req)).
  rewrite E7. split_and!; try (by apply Hl); try done.
  - rewrite lookup_insert_eq. by destruct o.
  - intros id' Hne. by rewrite lookup_insert_ne.
  - intros Hv. rewrite i64_op_in in E10 by done. by simplify_eq.
Qed.

(** A nonce updates an order once: after a successful update, the same id and
    nonce are refused in every later world, whatever the rest of the request,
    the caller and the clock, and the orders stay as they are. *)
Theorem update_order_nonce_once env env2 pk pk2 id req req2 w w' resp w2 w2' res :
  run env (update_order pk id req) w = (w', Some (inr resp)) ->
  w_nonces w' ⊆ w_nonces w2 -> uo_nonce req2 = uo_nonce req ->
  run env2 (update_order pk2 id req2) w2 = (w2', res) ->
  (exists e, res = Some (inl e)) /\ w_orders w2' = w_orders w2.
Proof.
  intros E Hsub Hn E2. destruct (update_order_ok _ _ _ _ _ _ _ E) as
    (idb & blob & o & nonce & sig & _ & _ & _ & _ & _ & _ & _ & _ & _ & Hin & _).
  eapply (update_order_seen env2 pk2 id req2); [|done]. rewrite Hn. by apply Hsub.
Qed.

(** Handlers are atomic on failure: whenever [create_order], [get_order] or
    [update_order] answers an error, both tables are exactly as before, and
    [get_order] changes neither in any case. *)
Theorem orders_fail_unchanged env days pk id creq ureq w w' e :
  run env (create_order days creq) w = (w', Some (inl e)) \/
  run env (update_order pk id ureq) w = (w', Some (inl e)) \/
  (exists r, run env (get_order id) w = (w', Some r)) ->
  w_orders w' = w_orders w /\ w_listings w' = w_listings w.
Proof.
  intros [E|[E|[r E]]]; revert E.
  - apply err_unchanged. unfold create_order. err_paths.
  - apply err_unchanged. unfold update_order. err_paths.
  - intros E. destruct (run_quiet _ _ _ _ _ E) as (ls & Hls & Hq). apply Hq.
    revert Hls. clear. unfold get_order. intros Hls. path_inv Hls; by repeat constructor.
Qed.

(** ** Creation *)

Lemma create_order_ok env days req w w' resp :
  run env (create_order days req) w = (w', Some (inr resp)) ->
  exists blob now idb expiry,
    decode_order_blob (co_client_encrypted_blob req) = inr blob /\
    now = floor_timestamp_6h (env_now env (S (w_time w))) /\
    expiry = lock_expiry now (default days (co_time_lock_days req)) /\
    w_orders w !! idb = None /\
    w_orders w' = <[idb := mk_order idb blob now (Some expiry) 1 0 None None None]> (w_orders w) /\
    (OrderCreate, co_nonce req) ∉ w_nonces w /\
    (OrderCreate, co_nonce req) ∈ w_nonces w' /\
    resp = mk_order_response (hex_encode idb) (Some (co_client_encrypted_blob req))
             now (Some expiry) 1 false.
Proof.
  unfold create_order. intros E.
  destruct (decode_order_blob _) as [|blob] eqn:E1; [done|].
  step_in E. case_decide as Hn; [by cbn in E|]. cbn [negb] in E.
  step_in E. step_in E. step_in E. no_fault E.
  unfold sql_insert_order in E. cbn in E.
  destruct (w_orders w !! _) eqn:Eo; [done|]. simplify_eq/=.
  eexists _, _, _, _. split_and!; try done. set_solver.
Qed.

(** [get_order] in a world that has the row. *)
Lemma get_order_row env id idb o w :
  quiet env -> hex_decode id = inr idb -> w_orders w !! idb = Some o ->
  run env (get_order id) w =
    (w_tick w, Some (inr (mk_order_response id (Some (b64_encode (o_encrypted_order_blob o)))
      (o_day_bucket o) (o_expiry_bucket o) (o_version o) (negb (o_has_dispute o =? 0))))).
Proof.
  intros Hq Hid Ho. unfold get_order. rewrite Hid. cbn [map_err].
  step. by rewrite Ho.
Qed.

(** C16. Create then get: a created order is read back, in every later world whose
    row it still is, under the id the creation answered, with the same day and
    expiry buckets, version 1, no dispute, and the bytes the client sent.  The
    creation inserted exactly one row, stored the time rounded to six hours,
    and used its nonce up. *)
Theorem create_get_roundtrip `{!HexLaws _} `{!Base64Laws _} env env2 days req w w' w2 resp :
  run env (create_order days req) w = (w', Some (inr resp)) ->
  quiet env2 ->
  (forall id o, w_orders w !! id = None -> w_orders w' !! id = Some o -> w_orders w2 !! id = Some o) ->
  exists idb blob o g,
    hex_decode (or_id resp) = inr idb /\
    w_orders w !! idb = None /\ w_orders w' = <[idb := o]> (w_orders w) /\
    (21600 | o_day_bucket o) /\
    (OrderCreate, co_nonce req) ∉ w_nonces w /\ (OrderCreate, co_nonce req) ∈ w_nonces w' /\
    run env2 (get_order (or_id resp)) w2 = (w_tick w2, Some (inr g)) /\
    or_id g = or_id resp /\ or_day_bucket g = or_day_bucket resp /\
    or_expiry_bucket g = or_expiry_bucket resp /\
    or_version g = 1 /\ or_version resp = 1 /\ or_has_dispute g = false /\
    or_client_encrypted_blob g = Some (b64_encode blob) /\
    b64_decode (co_client_encrypted_blob req) = inr blob /\
    b64_decode (b64_encode blob) = inr blob.
Proof.
  intros E Hq Hrow. destruct (create_order_ok _ _ _ _ _ _ E) as
    (blob & now & idb & expiry & E1 & Hnow & Hexp & Enone & Ew & Hn & Hn' & ->).
  destruct (decode_order_blob_ok _ _ E1) as [Hb _].
  assert (w_orders w2 !! idb = Some (mk_order idb blob now (Some expiry) 1 0 None None None)) as Ho.
  { apply Hrow; [done|]. by rewrite Ew, lookup_insert_eq. }
  assert (hex_decode (hex_encode idb) = inr idb) as Hid by apply hex_roundtrip.
  pose proof (get_order_row env2 _ _ _ _ Hq Hid Ho) as Hg.
  eexists idb, blob, _, (mk_order_response _ _ _ _ _ _). split_and!; [..|exact Hg| | | | | | | | |]; try done.
  - rewrite Hnow. unfold floor_timestamp_6h. cbn. apply Z.divide_factor_r.
  - apply b64_roundtrip.
Qed.

(** The expiry of a lock of up to a million days is exact: the start of the
    window plus the days. *)
Lemma lock_expiry_exact ts days :
  0 <= ts < 2 ^ 62 -> 0 <= days <= 1000000 ->
  lock_expiry (floor_timestamp_6h ts) days = floor_timestamp_6h ts + days * 86400.
Proof.
  intros Ht Hd. unfold lock_expiry. pose proof (floor_6h_bounds ts ltac:(lia)).
  pose proof (floor_6h_nonneg ts ltac:(lia)).
  rewrite i64_wrap_id by zlia. unfold i64_sat_mul, i64_sat_add.
  rewrite (i64_sat_id (days * 86400)) by zlia. rewrite i64_sat_id by zlia.
  rewrite floor_6h_div by lia. rewrite floor_6h_div by lia.
  replace (ts / 21600 * 21600 + days * 86400) with ((ts / 21600 + days * 4) * 21600) by lia.
  by rewrite Z.div_mul by lia.
Qed.
End orders_facts.

(** Any [time_lock_days] of 2^63 or more is a negative number of days after the
    cast: the order is stored already expired. *)
Example lock_expiry_wraps : lock_expiry (floor_timestamp_6h 1747000000) (2 ^ 64 - 1) = 1746986400 - 86400.
Proof. reflexivity. Qed.

(** ** Witnesses *)

Definition sample_row : Order :=
  mk_order (le_bytes 16 7) (as_bytes "old") 1746986400 (Some 1747591200) 1 1 None None None.

Definition sample_key : bytes := sha256 (as_bytes "alice").

Definition sample_update : UpdateOrderRequest :=
  let blob := as_bytes "new" in
  let p := payload_new (o_id sample_row) 1 (sha256 blob) (le_bytes 8 3) 485277 in
  mk_update_order (b64_encode blob)
    (match sign_transition sample_key p with inr s => hex_encode s | inl _ => "" end)
    (hex_encode (le_bytes 8 3)) 485277.

Definition sample_create : CreateOrderRequest :=
  mk_create_order (b64_encode (as_bytes "hello")) (Some 7) "n1".

(** The sample update is accepted. *)
Definition sample_update_prog `{BuildProfile} : prog (AppError + OrderResponse) :=
  update_order (ed_public sample_key) (hex_encode (o_id sample_row)) sample_update.

Ltac run_witness E :=
  match goal with
  | |- context [run ?env ?p ?w] => destruct (run env p w) as [? [[?|?]|]] eqn:E
  end;
  [exfalso; apply (f_equal snd) in E; vm_compute in E; discriminate E| |
   exfalso; apply (f_equal snd) in E; vm_compute in E; discriminate E].

Lemma update_order_effect_witness :
  match run sample_env (@sample_update_prog release) (world_with_order sample_row) with
  | (w', Some (inr resp)) =>
      exists o, w_orders w' !! o_id sample_row = Some o /\ o_version o = 2 /\
        or_version resp = 2 /\ o_has_dispute o = 1
  | _ => False
  end.
Proof.
  run_witness E.
  destruct (update_order_effect _ _ _ _ _ _ _ E) as
    (idb & blob & o' & nonce & sig & p & E1 & _ & _ & _ & E5 & _ & _ & _ & E6 & _ & _ & _ & E7).
  assert (idb = o_id sample_row) as -> by (rewrite hex_roundtrip in E1; by injection E1 as <-).
  assert (o' = sample_row) as -> 
    by (unfold world_with_order in E5; cbn [w_orders w_set_orders] in E5;
        rewrite lookup_insert_eq in E5; by injection E5 as <-).
  eexists. split_and!; [exact E6|reflexivity|apply E7; vm_compute; by split|reflexivity].
Defined.

Lemma update_order_nonce_once_witness :
  match run sample_env (@sample_update_prog release) (world_with_order sample_row) with
  | (w', Some (inr resp)) =>
      exists e, snd (run sample_env (@sample_update_prog release) w') = Some (inl e)
  | _ => False
  end.
Proof.
  run_witness E. destruct (run sample_env (@sample_update_prog release) w) as [w2 res] eqn:E2.
  destruct (update_order_nonce_once _ sample_env _ (ed_public sample_key) _ _ sample_update
    _ _ _ w w2 res E ltac:(reflexivity) eq_refl E2) as [[e ->] _]. by exists e.
Defined.

Lemma orders_fail_unchanged_witness :
  match run sample_env (@get_order _ _ "zz") (world_with_order sample_row) with
  | (w', Some (inl e)) => w_orders w' = w_orders (world_with_order sample_row)
  | _ => False
  end.
Proof.
  destruct (run sample_env (get_order "zz") (world_with_order sample_row)) as [w' r] eqn:E.
  assert (r = Some (inl (BadRequest "Invalid order_id"))) as ->
    by (apply (f_equal snd) in E; vm_compute in E; done).
  apply (@orders_fail_unchanged release _ _ _ _ _ sample_env 0 [] "zz" sample_create sample_update
           _ w' (BadRequest "Invalid order_id")).
  right. right. eexists. exact E.
Defined.

Lemma create_get_roundtrip_witness :
  match run sample_env (create_order 7 sample_create) empty_world with
  | (w', Some (inr resp)) =>
      exists g, run sample_env (get_order (or_id resp)) w' = (w_tick w', Some (inr g)) /\
        or_client_encrypted_blob g = Some (b64_encode (as_bytes "hello"))
  | _ => False
  end.
Proof.
  run_witness E.
  destruct (create_get_roundtrip _ sample_env _ _ _ _ _ _ E sample_env_quiet ltac:(done)) as
    (idb & blob & o' & g & _ & _ & _ & _ & _ & _ & Hg & _ & _ & _ & _ & _ & _ & Hb & E1 & _).
  exists g. split; [exact Hg|]. rewrite Hb. vm_compute in E1. by simplify_eq.
Defined.
