(* ===== verification/BlindSig.v ===== *)
(** Chaum blind RSA signatures for admin tokens, src/crypto/blind_sig.rs.

    [BigUint] arithmetic is arithmetic on [Z]; the byte codec, [modpow] and
    [extended_gcd] of the big-integer crates are those of the [BigInts] class.
    A Rust panic ([expect], an index out of range) is [None]. *)
From S2P Require Import Prelude Interfaces Instances Amounts.

Definition ADMIN_ACTION_LABEL : string := "tor-mkt:admin:v1".
Definition BLIND_SIG_MIN_BITS : Z := 2048.
Definition BLIND_SIG_MAX_BITS : Z := 4096.

Record AdminKeypair := mk_admin_keypair { ak_private : RsaPrivateKey; ak_public : RsaPublicKey }.

Section blind_sig.

Context `{Hex} `{Hashing} `{BigInts} `{Pkcs1}.

Definition keypair_from_hex (hex_str : string) : string + AdminKeypair :=
  match hex_decode hex_str with
  | inl e => inl ("invalid hex: " +:+ e)
  | inr der =>
      match from_pkcs1_der der with
      | inl e => inl ("invalid PKCS#1 DER: " +:+ e)
      | inr private => inr (mk_admin_keypair private (rsa_public private))
      end
  end.

Definition privkey_hex (k : AdminKeypair) : string + string :=
  match private_to_pkcs1_der (ak_private k) with
  | inl e => inl ("PKCS#1 DER encoding: " +:+ e)
  | inr der => inr (hex_encode der)
  end.

Definition pubkey_hex (k : AdminKeypair) : string + string :=
  match public_to_pkcs1_der (ak_public k) with
  | inl e => inl ("public key DER encoding: " +:+ e)
  | inr der => inr (hex_encode der)
  end.

(** The bytes [compose_token_message] feeds to the hasher. *)
Definition token_preimage (domain action_id : string) (nonce : bytes) (expiry_hour : Z) : bytes :=
  as_bytes ADMIN_ACTION_LABEL ++ as_bytes ":" ++ as_bytes domain ++ as_bytes ":" ++
  as_bytes action_id ++ as_bytes ":" ++ nonce ++ as_bytes ":" ++ dec_bytes expiry_hour.

Definition compose_token_message (domain action_id : string) (nonce : bytes) (expiry_hour : Z) : bytes :=
  sha256 (token_preimage domain action_id nonce expiry_hour).

(** [rsa_new] is the key generator of the [rsa] crate. *)
Definition generate_admin_keypair (rsa_new : Z -> option RsaPrivateKey) (bits : Z)
    : option AdminKeypair :=
  match rsa_new (Z.max BLIND_SIG_MIN_BITS (Z.min BLIND_SIG_MAX_BITS bits)) with
  | Some private => Some (mk_admin_keypair private (rsa_public private))
  | None => None
  end.

(** The random factor: [fill_bytes] answered [rnd], as long as the modulus;
    the excess high bits are masked and zero is replaced by one. *)
Definition blinding_bytes (n_bits : Z) (rnd : bytes) : option bytes :=
  let n_bytes := (n_bits + 7) / 8 in
  let excess := n_bytes * 8 - n_bits in
  match rnd with
  | [] => None
  | b :: t =>
      let r_bytes := byte_of_Z (Z.land (byte_val b) (Z.shiftr 255 excess)) :: t in
      Some (if forallb (fun b => byte_val b =? 0) r_bytes
            then <[(Z.to_nat n_bytes - 1)%nat := byte_of_Z 1]> r_bytes else r_bytes)
  end.

Definition blind_message (rnd message_hash : bytes) (pub_key : RsaPublicKey)
    : option (bytes * bytes) :=
  let n := rsa_n pub_key in
  let e := rsa_e pub_key in
  let m := from_bytes_be message_hash in
  let n_bits := if n =? 0 then 0 else Z.log2 n + 1 in
  match blinding_bytes n_bits rnd with
  | None => None
  | Some r_bytes =>
      let r := from_bytes_be r_bytes in
      let r_e := modpow r e n in
      Some (to_bytes_be ((m * r_e) mod n), to_bytes_be r)
  end.

Definition sign_blinded (blinded : bytes) (priv_key : RsaPrivateKey) : bytes :=
  to_bytes_be (modpow (from_bytes_be blinded) (rsa_d priv_key) (rsa_n (rsa_public priv_key))).

Definition modinv (a m : Z) : option Z :=
  let '(gcd, x) := extended_gcd a m in
  if negb (gcd =? 1) then None
  else if x <? 0 then Some (m - Z.abs x mod m)
  else Some (x mod m).

Definition unblind_signature (blinded_sig blinding_factor : bytes) (pub_key : RsaPublicKey)
    : option bytes :=
  let n := rsa_n pub_key in
  match modinv (from_bytes_be blinding_factor) n with
  | None => None
  | Some r_inv => Some (to_bytes_be ((from_bytes_be blinded_sig * r_inv) mod n))
  end.

Definition verify_token (message_hash signature : bytes) (pub_key : RsaPublicKey) : bool :=
  let e := rsa_e pub_key in
  let n := rsa_n pub_key in
  let sig := from_bytes_be signature in
  let m := from_bytes_be message_hash in
  if n <=? sig then false else modpow sig e n =? m.

(** ** Valid keys *)

(** What the [rsa] crate's key generation documents: a modulus, positive
    exponents, and decryption inverting encryption on the residues. *)
Record rsa_key_ok (k : RsaPrivateKey) : Prop := {
  rsa_modulus : 1 < rsa_n (rsa_public k);
  rsa_e_pos : 0 <= rsa_e (rsa_public k);
  rsa_d_pos : 0 <= rsa_d k;
  rsa_inverse : forall x, 0 <= x < rsa_n (rsa_public k) ->
    (x ^ rsa_d k mod rsa_n (rsa_public k)) ^ rsa_e (rsa_public k) mod rsa_n (rsa_public k) = x }.

Definition keypair_ok (k : AdminKeypair) : Prop :=
  rsa_key_ok (ak_private k) /\ ak_public k = rsa_public (ak_private k).

Context `{!BigIntsLaws _}.

Lemma from_bytes_be_nonneg b : 0 <= from_bytes_be b.
Proof.
  induction b as [|x b IH]; [by rewrite from_bytes_be_nil|].
  rewrite from_bytes_be_cons. pose proof (byte_val_range x). nia.
Qed.

Lemma from_bytes_be_bound b : from_bytes_be b < 256 ^ Z.of_nat (length b).
Proof.
  induction b as [|x b IH]; [by rewrite from_bytes_be_nil|].
  rewrite from_bytes_be_cons. cbn [length]. rewrite Nat2Z.inj_succ, Z.pow_succ_r by lia.
  pose proof (byte_val_range x). nia.
Qed.

(** [modinv] is the inverse modulo [m], exactly when there is one. *)
Lemma modinv_spec a m :
  1 < m ->
  match modinv a m with
  | Some x => Z.gcd a m = 1 /\ 0 <= x <= m /\ (a * x) mod m = 1
  | None => Z.gcd a m <> 1
  end.
Proof.
  intros Hm. unfold modinv. destruct (extended_gcd a m) as [g x] eqn:E.
  destruct (extended_gcd_spec _ _ _ _ E) as [Hg [y Hy]].
  destruct (Z.eqb_spec g 1) as [->|Hne]; cbn [negb]; [|congruence].
  assert ((a * (x mod m)) mod m = 1) as Hax.
  { rewrite Z.mul_mod_idemp_r by lia. replace (a * x) with (1 + (- y) * m) by lia.
    rewrite Z.mod_add by lia. by apply Z.mod_small. }
  destruct (Z.ltb_spec x 0) as [Hx|Hx].
  - pose proof (Z.mod_pos_bound (Z.abs x) m ltac:(lia)). split; [done|]. split; [lia|].
    transitivity ((a * (x mod m)) mod m); [|done]. rewrite Z.mul_mod_idemp_r by lia.
    replace (m - Z.abs x mod m) with (x + (Z.abs x / m + 1) * m)
      by (pose proof (Z.div_mod (Z.abs x) m ltac:(lia)); lia).
    rewrite Z.mul_add_distr_l, Z.mul_assoc, Z.mod_add by lia. done.
  - pose proof (Z.mod_pos_bound x m ltac:(lia)). split; [done|]. split; [lia|done].
Qed.

Lemma pow_mul_mod a b e n : 0 <= e -> 1 < n ->
  ((a * b) mod n) ^ e mod n = ((a ^ e mod n) * (b ^ e mod n)) mod n.
Proof.
  intros He Hn. rewrite Z.mod_pow_l, Z.pow_mul_l.
  by rewrite Z.mul_mod_idemp_l, Z.mul_mod_idemp_r by lia.
Qed.

(** A raw RSA signature of a residue verifies. *)
Lemma verify_sign_blinded k hash :
  rsa_key_ok k -> from_bytes_be hash < rsa_n (rsa_public k) ->
  verify_token hash (sign_blinded hash k) (rsa_public k) = true.
Proof.
  intros [Hn He Hd Hinv] Hm. unfold verify_token, sign_blinded.
  pose proof (from_bytes_be_nonneg hash).
  rewrite !modpow_spec by lia.
  pose proof (Z.mod_pos_bound (from_bytes_be hash ^ rsa_d k) (rsa_n (rsa_public k)) ltac:(lia)).
  rewrite from_to_bytes_be by lia.
  destruct (Z.leb_spec (rsa_n (rsa_public k)) (from_bytes_be hash ^ rsa_d k mod rsa_n (rsa_public k)));
    [lia|].
  apply Z.eqb_eq. by apply Hinv.
Qed.

(** Blind, sign, unblind, verify: the signature the client recovers from the
    server's answer verifies on the message the server never saw, whenever the
    random factor is coprime to the modulus, which is exactly when
    [unblind_signature] does not panic. *)
Theorem blind_signature_roundtrip k rnd hash blinded factor :
  rsa_key_ok k -> from_bytes_be hash < rsa_n (rsa_public k) ->
  blind_message rnd hash (rsa_public k) = Some (blinded, factor) ->
  match unblind_signature (sign_blinded blinded k) factor (rsa_public k) with
  | Some sig => Z.gcd (from_bytes_be factor) (rsa_n (rsa_public k)) = 1 /\
                verify_token hash sig (rsa_public k) = true
  | None => Z.gcd (from_bytes_be factor) (rsa_n (rsa_public k)) <> 1
  end.
Proof.
  intros [Hn He Hd Hinv] Hm Hb. unfold blind_message in Hb.
  set (n := rsa_n (rsa_public k)) in *. set (e := rsa_e (rsa_public k)) in *.
  destruct (blinding_bytes _ rnd) as [r_bytes|]; [|done]. simplify_eq.
  set (m := from_bytes_be hash) in *. set (r := from_bytes_be r_bytes) in *.
  pose proof (from_bytes_be_nonneg hash) as Hm0. fold m in Hm0.
  pose proof (from_bytes_be_nonneg r_bytes) as Hr. fold r in Hr.
  unfold unblind_signature. rewrite from_to_bytes_be by done. fold n.
  pose proof (modinv_spec r n Hn) as Hi. destruct (modinv r n) as [ri|]; [|done].
  destruct Hi as (Hg & Hri & Hri1). split; [done|].
  unfold verify_token, sign_blinded. fold n e m.
  rewrite (modpow_spec r e n) by lia.
  set (bl := (m * (r ^ e mod n)) mod n).
  assert (0 <= bl < n) as Hbl by (apply Z.mod_pos_bound; lia).
  rewrite (from_to_bytes_be bl), modpow_spec by lia.
  set (s := bl ^ rsa_d k mod n).
  assert (0 <= s < n) as Hs by (apply Z.mod_pos_bound; lia).
  rewrite (from_to_bytes_be s) by lia.
  pose proof (Z.mod_pos_bound (s * ri) n ltac:(lia)).
  rewrite from_to_bytes_be by lia. destruct (Z.leb_spec n ((s * ri) mod n)); [lia|].
  rewrite modpow_spec, pow_mul_mod by lia. apply Z.eqb_eq.
  unfold s. rewrite (Hinv bl Hbl). unfold bl.
  rewrite <-Z.mul_mod by lia.
  replace (m * (r ^ e mod n) * ri ^ e) with (m * ri ^ e * (r ^ e mod n)) by ring.
  rewrite Z.mul_mod_idemp_r by lia.
  replace (m * ri ^ e * r ^ e) with (m * (r * ri) ^ e) by (rewrite Z.pow_mul_l; ring).
  rewrite <-Z.mul_mod_idemp_r, <-Z.mod_pow_l, Hri1, Z.pow_1_l, (Z.mod_small 1), Z.mul_1_r by lia.
  by apply Z.mod_small.
Qed.
End blind_sig.

(** ** What a token binds *)

Definition colon : byte := byte_of_Z 58.

Lemma dec_bytes_colon z : in_u64 z -> colon ∉ dec_bytes z.
Proof.
  intros Hz. destruct (dec_spec z Hz) as (Hd & _). unfold dec_bytes, all_digits in *.
  rewrite list_elem_of_In, in_map_iff. intros (d & Hc & Hin).
  rewrite forallb_forall in Hd. specialize (Hd d Hin). apply is_digit_range in Hd.
  apply byte_of_Z_inj in Hc; lia.
Qed.

Definition no_colon (s : string) : Prop := colon ∉ as_bytes s.
Definition admin_domain (d : string) : Prop := d = "dispute:resolve" \/ d = "admin:rotate_kek".

(** A token is bound to its context: the hashed bytes determine the domain, the
    action, the nonce and the hour, so that (collisions of SHA-256 apart) a token
    for one dispute, nonce and hour is a token for nothing else, and in
    particular a dispute token never rotates the key. *)
Theorem token_preimage_injective d d' id id' nonce nonce' h h' :
  admin_domain d -> admin_domain d' -> no_colon id -> no_colon id' -> in_u64 h -> in_u64 h' ->
  token_preimage d id nonce h = token_preimage d' id' nonce' h' ->
  d = d' /\ id = id' /\ nonce = nonce' /\ h = h'.
Proof.
  intros Hd Hd' Hid Hid' Hh Hh' E. unfold token_preimage in E.
  apply app_inv_head, app_inv_head in E.
  assert (d = d') as <-.
  { destruct Hd as [->| ->], Hd' as [->| ->]; [done|discriminate E..|done]. }
  apply app_inv_head, app_inv_head in E. change (as_bytes ":") with [colon] in E.
  cbn [app] in E. apply sep_inj in E as [E1 E2]; [|done..].
  apply sep_inj_last in E2 as [E2 E3]; [|by apply dec_bytes_colon..].
  apply as_bytes_inj in E1. by apply dec_bytes_inj in E3.
Qed.

Lemma token_preimage_injective_witness :
  admin_domain "dispute:resolve" /\ no_colon "00ff" /\
  (token_preimage "dispute:resolve" "00ff" [] 3 = token_preimage "dispute:resolve" "00ff" [] 3 ->
   "dispute:resolve" = "dispute:resolve" /\ "00ff" = "00ff" /\ [] = ([] : bytes) /\ 3 = 3).
Proof.
  assert (no_colon "00ff") as Hn by (unfold no_colon; vm_compute; set_solver).
  split; [by left|]. split; [exact Hn|].
  apply token_preimage_injective; [by left|by left|exact Hn|exact Hn|zlia|zlia].
Defined.

(** A textbook key, used by the witnesses. *)
Definition toy_key : RsaPrivateKey := mk_rsa_private (mk_rsa_public 33 3) 7.
Definition toy_hash : bytes := replicate 31 (byte_of_Z 0) ++ [byte_of_Z 5].

Lemma toy_key_ok : rsa_key_ok toy_key.
Proof.
  split; [done..|]. intros x Hx. change (0 <= x < 33) in Hx. change (rsa_n _) with 33.
  change (rsa_e _) with 3. change (rsa_d _) with 7.
  assert (In x (seqZ 0 33)) as Hin by (apply list_elem_of_In, elem_of_seqZ; lia).
  assert (forallb (fun x => (x ^ 7 mod 33) ^ 3 mod 33 =? x) (seqZ 0 33) = true) as Hall by reflexivity.
  rewrite forallb_forall in Hall. by apply Z.eqb_eq, Hall.
Qed.

Lemma blind_signature_roundtrip_witness :
  exists blinded factor sig,
    blind_message [byte_of_Z 7] toy_hash (rsa_public toy_key) = Some (blinded, factor) /\
    unblind_signature (sign_blinded blinded toy_key) factor (rsa_public toy_key) = Some sig /\
    blinded <> toy_hash /\ verify_token toy_hash sig (rsa_public toy_key) = true.
Proof.
  destruct (blind_message [byte_of_Z 7] toy_hash (rsa_public toy_key)) as [[bl f]|] eqn:E; [|discriminate E].
  assert (from_bytes_be toy_hash < rsa_n (rsa_public toy_key)) as Hm by reflexivity.
  pose proof (blind_signature_roundtrip toy_key [byte_of_Z 7] toy_hash bl f toy_key_ok Hm E) as Hr.
  destruct (unblind_signature (sign_blinded bl toy_key) f (rsa_public toy_key)) as [sig|] eqn:E2;
    vm_compute in E; injection E as <- <-; [|vm_compute in E2; discriminate E2].
  exists [byte_of_Z 32], [byte_of_Z 7], sig.
  split_and!; [done|exact E2|done|by destruct Hr as [_ Hr]].
Defined.
