(* ===== verification/Admin.v ===== *)
(** The admin service, src/services/admin.rs: blind signing, the public key and
    the rotation of the key-encryption key, with the token checks it shares with
    [resolve_dispute] (src/services/disputes.rs). *)
From S2P Require Import Prelude Interfaces Instances Models Effects BlindSig.

(** The token fields of [RotateKekRequest] and [ResolveDisputeRequest]. *)
Record TokenFields := mk_token_fields {
  tf_token_signature : option string;
  tf_token_message : option string;
  tf_token_nonce : option string;
  tf_token_expiry_hour : option Z (* i64 *) }.

Record RotateKekRequest := mk_rotate_kek { rk_session_nonce : string; rk_token : TokenFields }.
Record RotateKekResponse := mk_rotate_kek_response {
  rk_success : bool; rk_message : string; rk_kek_rotated : bool }.

(** [opt.as_ref().and_then(|s| hex::decode(s).ok())] *)
Definition opt_hex `{Hex} (o : option string) : option bytes :=
  match o with
  | Some s => match hex_decode s with inr b => Some b | inl _ => None end
  | None => None
  end.

(** [(a - b).abs() > 1] on [i64]; [i64::MIN.abs()] overflows. *)
Definition hour_apart `{BuildProfile} (a b : Z) : option bool :=
  match i64_op (a - b) with
  | None => None
  | Some d => match i64_op (Z.abs d) with None => None | Some x => Some (1 <? x) end
  end.

Section admin.

Context `{BuildProfile} `{Hex} `{Hashing} `{BigInts} `{Pkcs1}.

Definition blind_sign (admin_keypair : option AdminKeypair) (blinded_blob : string)
    : AppError + string :=
  match admin_keypair with
  | None => inl (Internal "Admin keypair not configured")
  | Some kp =>
      match hex_decode blinded_blob with
      | inl e => inl (BadRequest ("Invalid hex: " +:+ e))
      | inr blinded =>
          if Nat.eqb (length blinded) 0 || Nat.ltb 512 (length blinded)
          then inl (BadRequest "Blinded message must be 1-512 bytes")
          else inr (hex_encode (sign_blinded blinded (ak_private kp)))
      end
  end.

Definition get_admin_pubkey (admin_keypair : option AdminKeypair) : AppError + string :=
  match admin_keypair with
  | None => inl (Internal "Admin keypair not configured")
  | Some kp =>
      match pubkey_hex kp with
      | inl e => inl (Internal ("Failed to serialize pubkey: " +:+ e))
      | inr s => inr s
      end
  end.

(** The checks of both handlers up to the signature: the nonce's text and the
    expiry hour. *)
Definition check_token (kp : AdminKeypair) (domain action_id : string) (t : TokenFields)
    : AppError + (string * Z) :=
  match opt_hex (tf_token_signature t) with
  | None => inl (BadRequest "Missing or invalid token_signature")
  | Some sig_bytes =>
  match opt_hex (tf_token_message t) with
  | None => inl (BadRequest "Missing or invalid token_message")
  | Some msg_hash =>
  match tf_token_nonce t with
  | None => inl (BadRequest "Missing token_nonce")
  | Some token_nonce_hex =>
  match hex_decode token_nonce_hex with
  | inl _ => inl (BadRequest "Invalid token_nonce hex")
  | inr token_nonce_bytes =>
  match tf_token_expiry_hour t with
  | None => inl (BadRequest "Missing token_expiry_hour")
  | Some token_expiry =>
      if negb (Nat.eqb (length msg_hash) 32)
      then inl (BadRequest "token_message must be 32 bytes")
      else if negb (bool_decide (msg_hash =
                 compose_token_message domain action_id token_nonce_bytes (u64_wrap token_expiry)))
      then inl (Forbidden "Token message does not match request context")
      else if negb (verify_token msg_hash sig_bytes (ak_public kp))
      then inl (Forbidden "Invalid admin token signature")
      else inr (token_nonce_hex, token_expiry)
  end end end end end.

(** [SystemTime::now().duration_since(UNIX_EPOCH).unwrap().as_secs() / 3600],
    then the expiry check. *)
Definition token_fresh (token_expiry secs : Z) : option bool :=
  if secs <? 0 then None
  else match hour_apart token_expiry (i64_wrap (secs / 3600)) with
       | None => None
       | Some far => Some (negb far)
       end.

(** [data_dir] is [state.config.server.data_dir]; joining appends the name. *)
Definition rotate_kek (admin_keypair : option AdminKeypair) (data_dir : string)
    (req : RotateKekRequest) : prog (AppError + RotateKekResponse) :=
  try kp := ok_or admin_keypair (Internal "Admin keypair not configured") in
  try token := check_token kp "admin:rotate_kek" "rotate" (rk_token req) in
  let! secs := ENow in
  match token_fresh (snd token) secs with
  | None => Panic
  | Some false => Ret (inl (Forbidden "Admin token expired or not yet valid"))
  | Some true =>
      let! new_kek := ERandom 32 in
      let! ok := EWriteFile (data_dir +:+ "/kek.hex") (hex_encode new_kek) in
      if negb ok then Ret (inl (Internal "Failed to persist KEK rotation")) else
      Ret (inr (mk_rotate_kek_response true
                  "KEK rotated successfully. Key written to dedicated file." true))
  end.

(** ** Facts *)

(** What an accepted token is. *)
Lemma check_token_ok kp domain action_id t nonce_hex expiry :
  check_token kp domain action_id t = inr (nonce_hex, expiry) <->
  exists sig nonce,
    opt_hex (tf_token_signature t) = Some sig /\
    tf_token_nonce t = Some nonce_hex /\ hex_decode nonce_hex = inr nonce /\
    tf_token_expiry_hour t = Some expiry /\
    let m := compose_token_message domain action_id nonce (u64_wrap expiry) in
    opt_hex (tf_token_message t) = Some m /\ length m = 32%nat /\
    verify_token m sig (ak_public kp) = true.
Proof.
  unfold check_token. split.
  - intros E.
    destruct (opt_hex (tf_token_signature t)) as [sig|]; [|done].
    destruct (opt_hex (tf_token_message t)) as [m|]; [|done].
    destruct (tf_token_nonce t) as [nh|]; [|done].
    destruct (hex_decode nh) as [|nonce] eqn:En; [done|].
    destruct (tf_token_expiry_hour t) as [x|]; [|done].
    destruct (Nat.eqb_spec (length m) 32) as [Hl|]; [|done]. cbn [negb] in E.
    case_bool_decide as Hm; [|done]. cbn [negb] in E.
    destruct (verify_token m sig (ak_public kp)) eqn:Ev; [|done]. cbn [negb] in E.
    injection E as -> ->. exists sig, nonce. by rewrite <-Hm.
  - intros (sig & nonce & -> & -> & -> & -> & -> & -> & Hv). cbn [negb Nat.eqb].
    rewrite bool_decide_true by done. cbn [negb]. by rewrite Hv.
Qed.

(** The window is one hour either side, away from the ends of [i64]. *)
Lemma token_fresh_spec expiry secs :
  0 <= secs < 2 ^ 62 -> - 2 ^ 62 < expiry < 2 ^ 62 ->
  token_fresh expiry secs =
    Some (bool_decide (secs / 3600 - 1 <= expiry <= secs / 3600 + 1)).
Proof.
  intros Hs He. unfold token_fresh, hour_apart.
  destruct (Z.ltb_spec secs 0); [lia|].
  pose proof (Z.div_pos secs 3600 ltac:(lia) ltac:(lia)).
  pose proof (Z.div_le_upper_bound secs 3600 secs ltac:(lia) ltac:(lia)).
  rewrite i64_wrap_id by zlia. rewrite i64_op_in by zlia. rewrite i64_op_in by zlia.
  f_equal. destruct (Z.ltb_spec 1 (Z.abs (expiry - secs / 3600))).
  - symmetry. apply bool_decide_eq_false. lia.
  - symmetry. apply bool_decide_eq_true. lia.
Qed.

(** An expiry 2^63 hours before now passes the check of the release build:
    the difference is [i64::MIN], whose [abs] wraps to itself. *)
Lemma token_fresh_overflow secs :
  overflow_checks = false -> 0 <= secs < 2 ^ 62 ->
  token_fresh (i64_min + secs / 3600) secs = Some true.
Proof.
  intros Hp Hs. unfold token_fresh, hour_apart. destruct (Z.ltb_spec secs 0); [lia|].
  pose proof (Z.div_pos secs 3600 ltac:(lia) ltac:(lia)).
  pose proof (Z.div_le_upper_bound secs 3600 secs ltac:(lia) ltac:(lia)).
  rewrite i64_wrap_id by zlia. rewrite (i64_op_in (_ - _)) by zlia.
  replace (i64_min + secs / 3600 - secs / 3600) with i64_min by lia.
  unfold i64_op. rewrite decide_False by zlia. by rewrite Hp.
Qed.

(** What a rotation is granted for: the token is for rotating the key, its
    signature verifies under the administrator's key, and its hour is fresh at
    [secs]. *)
Definition rotation_granted (admin_keypair : option AdminKeypair) (req : RotateKekRequest) (secs : Z) : Prop :=
  exists kp sig nonce nonce_hex expiry,
    let m := compose_token_message "admin:rotate_kek" "rotate" nonce (u64_wrap expiry) in
    admin_keypair = Some kp /\
    opt_hex (tf_token_signature (rk_token req)) = Some sig /\
    opt_hex (tf_token_message (rk_token req)) = Some m /\
    tf_token_nonce (rk_token req) = Some nonce_hex /\ hex_decode nonce_hex = inr nonce /\
    tf_token_expiry_hour (rk_token req) = Some expiry /\
    verify_token m sig (ak_public kp) = true /\ token_fresh expiry secs = Some true.

(** C25. Key rotation is guarded: [rotate_kek] succeeds only with a token for
    rotating the key whose signature verifies under the admin key and whose
    hour is fresh; it then writes 32 random bytes in hex to the key file, and
    nothing else of the state changes.  When it does not succeed the files are
    as before, unless the write itself broke off, with the same token checked:
    then the key file holds only a beginning of the new key's text, and the
    answer is the error of that write. *)
Theorem rotate_kek_guarded env admin dir req w w' r :
  run env (rotate_kek admin dir req) w = (w', r) ->
  w_orders w' = w_orders w /\ w_listings w' = w_listings w /\ w_nonces w' = w_nonces w /\
  w_tracker w' = w_tracker w /\ w_challenges w' = w_challenges w /\ w_published w' = w_published w /\
  match r with
  | Some (inr resp) =>
      rk_kek_rotated resp = true /\ rotation_granted admin req (env_now env (w_time w)) /\
      exists t, w_files w' = <[(dir +:+ "/kek.hex") := hex_encode (env_random env t 32)]> (w_files w)
  | _ =>
      w_files w' = w_files w \/
      (rotation_granted admin req (env_now env (w_time w)) /\
       r = Some (inl (Internal "Failed to persist KEK rotation")) /\
       exists t n, w_files w' = <[(dir +:+ "/kek.hex") :=
                     substring 0 n (hex_encode (env_random env t 32))]> (w_files w))
  end.
Proof.
  unfold rotate_kek. intros E.
  destruct admin as [kp|]; cbn [ok_or] in E; [|cbn in E; simplify_eq; split_and!; auto].
  destruct (check_token _ _ _ _) as [|[nh x]] eqn:Ec; [cbn in E; simplify_eq; split_and!; auto|].
  step_in E. cbn [snd] in E.
  destruct (token_fresh x _) as [[]|] eqn:Ef; [|cbn in E; simplify_eq; split_and!; auto..].
  assert (rotation_granted (Some kp) req (env_now env (w_time w))) as Hg.
  { apply check_token_ok in Ec as (sig & nonce & Hs & Hn & Hd & Hx & Hm & _ & Hv).
    by exists kp, sig, nonce, nh, x. }
  step_in E. step_in E.
  destruct (env_io_fault env _) as [[|n]|]; cbn [negb run] in E; simplify_eq; split_and!; try reflexivity.
  - by left.
  - right. split_and!; [done..|]. by eexists _, n.
  - done.
  - by eexists.
Qed.

(** No nonce is kept: the same request rotates the key again, as often as it
    is sent within its hour. *)
Theorem rotate_kek_replays env env2 admin dir req w w' resp w2 :
  run env (rotate_kek admin dir req) w = (w', Some (inr resp)) ->
  env_now env2 (w_time w2) = env_now env (w_time w) ->
  (forall t, env_io_fault env2 t = None) ->
  exists w2' resp2, run env2 (rotate_kek admin dir req) w2 = (w2', Some (inr resp2)) /\
    w_files w2' !! (dir +:+ "/kek.hex") = Some (hex_encode (env_random env2 (S (w_time w2)) 32)).
Proof.
  unfold rotate_kek. intros E Hnow Hio.
  destruct admin as [kp|]; cbn [ok_or] in E |- *; [|done].
  destruct (check_token _ _ _ _) as [|[nh x]] eqn:Ec; [done|].
  step_in E. cbn [snd] in E |- *.
  destruct (token_fresh x _) as [[]|] eqn:Ef; [|done..].
  step. rewrite Hnow, Ef. step. step. rewrite Hio. cbn [negb run].
  eexists _, _. split; [done|]. cbn [w_files w_write w_tick]. by rewrite lookup_insert_eq.
Qed.

Context `{!HexLaws _} `{!HashingLaws _} `{!BigIntsLaws _}.

(** The blind-signing endpoint signs what it is given: sent the token message
    itself, unblinded, it answers a signature that both token checks accept,
    for any domain, action, nonce and hour. *)
Theorem blind_sign_forges_token kp domain action_id nonce expiry :
  keypair_ok kp -> 256 ^ 32 <= rsa_n (ak_public kp) <= 256 ^ 512 ->
  exists s, let m := compose_token_message domain action_id nonce (u64_wrap expiry) in
    blind_sign (Some kp) (hex_encode m) = inr s /\
    check_token kp domain action_id
      (mk_token_fields (Some s) (Some (hex_encode m)) (Some (hex_encode nonce)) (Some expiry))
    = inr (hex_encode nonce, expiry).
Proof.
  intros [Hk Hp] Hn. set (m := compose_token_message _ _ _ _).
  assert (length m = 32%nat) as Hl by apply sha256_length.
  exists (hex_encode (sign_blinded m (ak_private kp))). cbn zeta. split.
  - unfold blind_sign. rewrite hex_roundtrip, Hl. done.
  - apply check_token_ok. exists (sign_blinded m (ak_private kp)), nonce.
    cbn [tf_token_signature tf_token_message tf_token_nonce tf_token_expiry_hour opt_hex].
    rewrite !hex_roundtrip. split_and!; try done.
    rewrite Hp. apply verify_sign_blinded; [done|].
    pose proof (from_bytes_be_bound m) as Hb. rewrite Hl in Hb. rewrite Hp in Hn.
    change (Z.of_nat 32) with 32 in Hb. lia.
Qed.
End admin.

(** ** Witnesses *)

(** The identity key: small enough to evaluate. *)
Definition unit_key : RsaPrivateKey := mk_rsa_private (mk_rsa_public (256 ^ 32) 1) 1.
Definition unit_pair : AdminKeypair := mk_admin_keypair unit_key (rsa_public unit_key).

Lemma unit_pair_ok : keypair_ok unit_pair.
Proof.
  split; [|done]. split; [done..|]. intros x Hx. change (rsa_n _) with (256 ^ 32) in *.
  change (rsa_e _) with 1. change (rsa_d _) with 1. rewrite !Z.pow_1_r.
  rewrite Z.mod_mod by done. by apply Z.mod_small.
Qed.

Lemma blind_sign_forges_token_witness :
  exists s, let m := compose_token_message "admin:rotate_kek" "rotate" [] (u64_wrap 485277) in
    blind_sign (Some unit_pair) (hex_encode m) = inr s /\
    check_token unit_pair "admin:rotate_kek" "rotate"
      (mk_token_fields (Some s) (Some (hex_encode m)) (Some (hex_encode [])) (Some 485277))
    = inr (hex_encode [], 485277).
Proof. apply (blind_sign_forges_token unit_pair); [exact unit_pair_ok|split; done]. Defined.

Definition sample_rotate : RotateKekRequest :=
  let m := compose_token_message "admin:rotate_kek" "rotate" [] (u64_wrap 485277) in
  mk_rotate_kek "" (mk_token_fields (Some (hex_encode (sign_blinded m unit_key)))
    (Some (hex_encode m)) (Some (hex_encode [])) (Some 485277)).

Lemma rotate_kek_guarded_witness :
  match run sample_env (@rotate_kek release _ _ _ (Some unit_pair) "data" sample_rotate) empty_world with
  | (w', Some (inr resp)) => rk_kek_rotated resp = true
  | _ => False
  end.
Proof.
  destruct (run _ _ _) as [w' [[e|resp]|]] eqn:E;
    [exfalso; apply (f_equal snd) in E; vm_compute in E; discriminate E| |
     exfalso; apply (f_equal snd) in E; vm_compute in E; discriminate E].
  destruct (rotate_kek_guarded _ _ _ _ _ _ _ E) as (_ & _ & _ & _ & _ & _ & Hr & _). exact Hr.
Defined.

(** A full disk: the rotation is refused and the key of an earlier one is gone. *)
Definition full_disk_env : Env :=
  mk_env (env_now sample_env) (env_random sample_env) (env_uuid sample_env) (env_db_fault sample_env)
    (fun _ => Some (CutAfter 0)) (env_rpc sample_env).

Example rotation_cut_short :
  let '(w', r) := run full_disk_env (@rotate_kek release _ _ _ (Some unit_pair) "data" sample_rotate)
                    (w_write "data/kek.hex" "earlier key" empty_world) in
  r = Some (inl (Internal "Failed to persist KEK rotation")) /\
  w_files w' !! "data/kek.hex" = Some "".
Proof. vm_compute. split; reflexivity. Qed.

Lemma rotate_kek_replays_witness :
  match run sample_env (@rotate_kek release _ _ _ (Some unit_pair) "data" sample_rotate) empty_world with
  | (w', Some (inr resp)) =>
      exists w2' resp2, run sample_env (@rotate_kek release _ _ _ (Some unit_pair) "data" sample_rotate)
        empty_world = (w2', Some (inr resp2))
  | _ => False
  end.
Proof.
  destruct (run _ _ _) as [w' [[e|resp]|]] eqn:E;
    [exfalso; apply (f_equal snd) in E; vm_compute in E; discriminate E| |
     exfalso; apply (f_equal snd) in E; vm_compute in E; discriminate E].
  destruct (rotate_kek_replays _ sample_env _ _ _ _ _ _ empty_world E eq_refl (fun _ => eq_refl))
    as (w2' & r2 & H2 & _). exists w2', r2. exact (eq_trans (eq_sym E) H2).
Defined.
