(* ===== verification/Disputes.v ===== *)
(** The dispute service, src/services/disputes.rs. *)
From S2P Require Import Prelude Interfaces Instances Models Effects Occ Orders BlindSig Admin.

Record OpenDisputeRequest := mk_open_dispute {
  od_order_id : string;
  od_client_encrypted_blob : string;
  od_transition_signature : string;
  od_nonce : string }.

Record UpdateDisputeRequest := mk_update_dispute {
  ud_client_encrypted_blob : string;
  ud_transition_signature : string;
  ud_nonce : string }.

Record ResolveDisputeRequest := mk_resolve_dispute {
  rd_outcome_blob : string;
  rd_admin_signature : string;
  rd_nonce : string;
  rd_token : TokenFields }.

Record DisputeResponse := mk_dispute_response {
  dr_id : string;
  dr_order_id : string;
  dr_client_encrypted_blob : option string;
  dr_version : Z;
  dr_has_dispute : bool }.

Definition MAX_DISPUTE_BLOB_BYTES : Z := 512 * 1024.

Section disputes.

Context `{BuildProfile} `{Hex} `{Base64} `{Hashing} `{BigInts} `{UuidText}.

(** The blob checks of the three writers. *)
Definition decode_dispute_blob (what too_large s : string) : AppError + bytes :=
  match b64_decode s with
  | inl e => inl (BadRequest ("Invalid " +:+ what +:+ " base64: " +:+ e))
  | inr blob =>
      if MAX_DISPUTE_BLOB_BYTES <? Z.of_nat (length blob)
      then inl (BadRequest too_large) else inr blob
  end.

(** Read the version, then the conditional update with the bump. *)
Definition bump_order (sets : list order_set) (missing : string) (id_bytes : bytes)
    : prog (AppError + Z) :=
  let! r := EOrderSelect id_bytes in
  try current := map_err db_error r in
  try o := ok_or current (NotFound missing) in
  let v := o_version o in
  let! r := EOrderUpdate sets id_bytes v in
  try n := map_err db_error r in
  if Nat.eqb n 0 then Ret (inl (Conflict "Order was modified by another request")) else
  arith (i64_op (v + 1)) (fun v' => Ret (inr v')).

Definition open_dispute (req : OpenDisputeRequest) : prog (AppError + DisputeResponse) :=
  try order_id_bytes := map_err (fun _ => BadRequest "Invalid order_id") (hex_decode (od_order_id req)) in
  try blob := decode_dispute_blob "client_encrypted_blob" "dispute blob too large"
                (od_client_encrypted_blob req) in
  let! fresh := ENonceInsert DisputeNonces (nonce_key (od_order_id req) (od_nonce req)) in
  if negb fresh then Ret (inl (Conflict "Dispute nonce already used")) else
  let! dispute_id := EUuid in
  do r := bump_order [SetDisputeBlob blob; SetHasDispute 1] "Order not found" order_id_bytes in
  try new_version := r in
  Ret (inr (mk_dispute_response (uuid_to_string dispute_id) (od_order_id req)
              (Some (od_client_encrypted_blob req)) new_version true)).

Definition get_dispute (id : string) : prog (AppError + DisputeResponse) :=
  try order_id_bytes := map_err (fun _ => BadRequest "Invalid id") (hex_decode id) in
  let! r := EOrderSelect order_id_bytes in
  try row := map_err db_error r in
  try o := ok_or row (NotFound "Dispute not found") in
  if o_has_dispute o =? 0 then Ret (inl (NotFound "No dispute for this order")) else
  Ret (inr (mk_dispute_response id (hex_encode order_id_bytes)
              (option_map b64_encode (o_dispute_client_blob o)) (o_version o) true)).

Definition update_dispute (id : string) (req : UpdateDisputeRequest) : prog (AppError + DisputeResponse) :=
  try order_id_bytes := map_err (fun _ => BadRequest "Invalid id") (hex_decode id) in
  try blob := decode_dispute_blob "client_encrypted_blob" "dispute blob too large"
                (ud_client_encrypted_blob req) in
  let! fresh := ENonceInsert DisputeNonces (nonce_key id (ud_nonce req)) in
  if negb fresh then Ret (inl (Conflict "Dispute nonce already used")) else
  do r := bump_order [SetDisputeBlob blob] "Dispute not found" order_id_bytes in
  try v' := r in
  Ret (inr (mk_dispute_response id id (Some (ud_client_encrypted_blob req)) v' true)).

Definition resolve_dispute (admin_keypair : option AdminKeypair) (id : string)
    (req : ResolveDisputeRequest) : prog (AppError + DisputeResponse) :=
  try admin_kp := ok_or admin_keypair (Internal "Admin keypair not configured") in
  try token := check_token admin_kp "dispute:resolve" id (rd_token req) in
  let! secs := ENow in
  match token_fresh (snd token) secs with
  | None => Panic
  | Some false => Ret (inl (Forbidden "Admin token expired or not yet valid"))
  | Some true =>
      let! fresh := ENonceInsert AdminTokens (nonce_key id (fst token)) in
      if negb fresh then Ret (inl (Conflict "Admin token nonce already used")) else
      try order_id_bytes := map_err (fun _ => BadRequest "Invalid id") (hex_decode id) in
      try outcome := decode_dispute_blob "outcome_blob" "outcome blob too large" (rd_outcome_blob req) in
      do r := bump_order [SetDisputeBlob outcome; SetHasDispute 0] "Dispute not found" order_id_bytes in
      try v' := r in
      Ret (inr (mk_dispute_response id id (Some (rd_outcome_blob req)) v' false))
  end.

(** ** Facts *)

Lemma bump_order_ok env sets missing id w w' v' :
  run env (bump_order sets missing id) w = (w', Some (inr v')) ->
  exists o, w_orders w !! id = Some o /\
    w_orders w' = <[id := bump_version (fold_left (fun o s => apply_set s o) sets o)]> (w_orders w) /\
    w_listings w' = w_listings w /\ w_nonces w' = w_nonces w /\
    i64_op (o_version o + 1) = Some v'.
Proof.
  unfold bump_order. intros E. step_in E. no_fault E.
  destruct (w_orders w !! id) as [o|] eqn:Eo; [|done]. cbn [ok_or] in E.
  step_in E. no_fault E. unfold sql_update_order in E. rewrite Eo, decide_True in E by done.
  cbn [map_err Nat.eqb] in E.
  destruct (i64_op (o_version o + 1)) as [z|] eqn:Ei; [|done]. cbn [arith run] in E. simplify_eq.
  by exists o.
Qed.

(** A successful writer answers the version [bump_order] committed. *)
Lemma bump_order_path sets missing id ls v' :
  path (bump_order sets missing id) ls (Ret (inr v')) ->
  exists v, LCommit id v ∈ ls /\ i64_op (v + 1) = Some v'.
Proof.
  unfold bump_order. intros Hp. path_inv Hp. simplify_eq.
  destruct x1 as [|[|m]]; simplify_eq/=. exists (o_version o0). split; [right; left|done].
Qed.

Lemma decode_dispute_blob_ok what large s blob :
  decode_dispute_blob what large s = inr blob ->
  b64_decode s = inr blob /\ Z.of_nat (length blob) <= MAX_DISPUTE_BLOB_BYTES.
Proof.
  unfold decode_dispute_blob. destruct (b64_decode s) as [|b]; [done|].
  destruct (Z.ltb_spec MAX_DISPUTE_BLOB_BYTES (Z.of_nat (length b))); [done|].
  by intros [= ->].
Qed.

Lemma get_dispute_row env id idb o w :
  quiet env -> hex_decode id = inr idb -> w_orders w !! idb = Some o ->
  run env (get_dispute id) w =
    (w_tick w, Some (if o_has_dispute o =? 0 then inl (NotFound "No dispute for this order")
                     else inr (mk_dispute_response id (hex_encode idb)
                       (option_map b64_encode (o_dispute_client_blob o)) (o_version o) true))).
Proof.
  intros Hq Hid Ho. unfold get_dispute. rewrite Hid. cbn [map_err]. step. rewrite Ho.
  cbn [map_err ok_or]. by destruct (o_has_dispute o =? 0).
Qed.

(** C27. Opening a dispute: it replaces the dispute blob, raises the flag and bumps
    the version of the named order; the order's own blob and every other column
    and order stay, the nonce is used up, and [get_dispute] answers the dispute
    with the opened blob and the answered version from then on. *)
Theorem open_dispute_effect env env2 req w w' w2 resp :
  run env (open_dispute req) w = (w', Some (inr resp)) ->
  quiet env2 -> w_orders w2 = w_orders w' ->
  exists idb blob o o',
    hex_decode (od_order_id req) = inr idb /\ b64_decode (od_client_encrypted_blob req) = inr blob /\
    Z.of_nat (length blob) <= MAX_DISPUTE_BLOB_BYTES /\
    w_orders w !! idb = Some o /\ w_orders w' = <[idb := o']> (w_orders w) /\
    o' = mk_order (o_id o) (o_encrypted_order_blob o) (o_day_bucket o) (o_expiry_bucket o)
           (o_version o + 1) 1 (o_client_encrypted_blob o) (Some blob) (o_chat_encrypted_blob o) /\
    (DisputeNonces, nonce_key (od_order_id req) (od_nonce req)) ∉ w_nonces w /\
    (DisputeNonces, nonce_key (od_order_id req) (od_nonce req)) ∈ w_nonces w' /\
    i64_op (o_version o + 1) = Some (dr_version resp) /\
    run env2 (get_dispute (od_order_id req)) w2 =
      (w_tick w2, Some (inr (mk_dispute_response (od_order_id req) (hex_encode idb)
         (Some (b64_encode blob)) (o_version o + 1) true))).
Proof.
  unfold open_dispute. intros E Hq Hw2.
  destruct (hex_decode (od_order_id req)) as [|idb] eqn:Eid; [done|]. cbn [map_err] in E.
  destruct (decode_dispute_blob _ _ _) as [|blob] eqn:Eb; [done|].
  destruct (decode_dispute_blob_ok _ _ _ _ Eb) as [Eb1 Eb2].
  step_in E. case_decide as Hn; [by cbn in E|]. cbn [negb] in E. step_in E.
  rewrite run_bind in E.
  destruct (run env (bump_order _ _ _) _) as [w3 [[e|v']|]] eqn:Er; [done| |done]. cbn in E.
  simplify_eq. apply bump_order_ok in Er as (o & Ho & Ew & _ & Hnon & Hv).
  cbn in Ho, Ew, Hnon. eexists idb, blob, o, _. split_and!; try done.
  - by destruct o.
  - rewrite Hnon. set_solver.
  - by rewrite (get_dispute_row env2 _ idb (bump_version (fold_left (fun o s => apply_set s o)
      [SetDisputeBlob blob; SetHasDispute 1] o))) ; [destruct o| | |rewrite Hw2, Ew, lookup_insert_eq].
Qed.

(** C26. Resolving a dispute is for holders of an admin token: a success means the
    token message is the one for this dispute, its nonce and its hour, that it
    is signed under the admin key, fresh, and its nonce unused until now.  The
    outcome replaces the dispute blob and lowers the flag, after which
    [get_dispute] answers that there is no dispute. *)
Theorem resolve_dispute_effect env env2 admin id req w w' w2 resp :
  run env (resolve_dispute admin id req) w = (w', Some (inr resp)) ->
  quiet env2 -> w_orders w2 = w_orders w' ->
  exists kp sig nonce nonce_hex expiry idb outcome o,
    admin = Some kp /\ opt_hex (tf_token_signature (rd_token req)) = Some sig /\
    tf_token_nonce (rd_token req) = Some nonce_hex /\ hex_decode nonce_hex = inr nonce /\
    verify_token (compose_token_message "dispute:resolve" id nonce (u64_wrap expiry)) sig
      (ak_public kp) = true /\
    token_fresh expiry (env_now env (w_time w)) = Some true /\
    (AdminTokens, nonce_key id nonce_hex) ∉ w_nonces w /\
    (AdminTokens, nonce_key id nonce_hex) ∈ w_nonces w' /\
    hex_decode id = inr idb /\ b64_decode (rd_outcome_blob req) = inr outcome /\
    w_orders w !! idb = Some o /\
    w_orders w' = <[idb := mk_order (o_id o) (o_encrypted_order_blob o) (o_day_bucket o)
       (o_expiry_bucket o) (o_version o + 1) 0 (o_client_encrypted_blob o) (Some outcome)
       (o_chat_encrypted_blob o)]> (w_orders w) /\
    dr_has_dispute resp = false /\
    run env2 (get_dispute id) w2 = (w_tick w2, Some (inl (NotFound "No dispute for this order"))).
Proof.
  unfold resolve_dispute. intros E Hq Hw2.
  destruct admin as [kp|]; cbn [ok_or] in E; [|done].
  destruct (check_token _ _ _ _) as [|[nh x]] eqn:Ec; [done|].
  step_in E. cbn [fst snd] in E. destruct (token_fresh x _) as [[]|] eqn:Ef; [|done..].
  step_in E. case_decide as Hn; [by cbn in E|]. cbn [negb] in E.
  destruct (hex_decode id) as [|idb] eqn:Eid; [done|]. cbn [map_err] in E.
  destruct (decode_dispute_blob _ _ _) as [|outcome] eqn:Eb; [done|].
  destruct (decode_dispute_blob_ok _ _ _ _ Eb) as [Eb1 Eb2]. rewrite run_bind in E.
  destruct (run env (bump_order _ _ _) _) as [w3 [[e|v']|]] eqn:Er; [done| |done]. cbn in E.
  simplify_eq. apply bump_order_ok in Er as (o & Ho & Ew & _ & Hnon & Hv). cbn in Ho, Ew, Hnon.
  apply check_token_ok in Ec as (sig & nonce & Hs & Hno & Hd & Hx & _ & _ & Hver).
  exists kp, sig, nonce, nh, x, idb, outcome, o. split_and!; try done.
  - rewrite Hnon. set_solver.
  - rewrite Ew. f_equal. by destruct o.
  - by rewrite (get_dispute_row env2 _ idb (bump_version (fold_left (fun o s => apply_set s o)
      [SetDisputeBlob outcome; SetHasDispute 0] o))); [destruct o| | |rewrite Hw2, Ew, lookup_insert_eq].
Qed.

(** A failed dispute request changes no row. *)
Theorem disputes_fail_unchanged env admin id oreq ureq rreq w w' e :
  run env (open_dispute oreq) w = (w', Some (inl e)) \/
  run env (update_dispute id ureq) w = (w', Some (inl e)) \/
  run env (resolve_dispute admin id rreq) w = (w', Some (inl e)) \/
  run env (get_dispute id) w = (w', Some (inl e)) ->
  w_orders w' = w_orders w /\ w_listings w' = w_listings w.
Proof.
  intros [E|[E|[E|E]]]; revert E; apply err_unchanged;
    unfold open_dispute, update_dispute, resolve_dispute, get_dispute, bump_order; err_paths.
Qed.
End disputes.

(** ** Witnesses *)

Definition sample_open : OpenDisputeRequest :=
  mk_open_dispute (hex_encode (o_id sample_row)) (b64_encode (as_bytes "broken")) "" "d1".

Lemma open_dispute_effect_witness :
  match run sample_env (@open_dispute release _ _ _ sample_open) (world_with_order sample_row) with
  | (w', Some (inr resp)) =>
      exists g, run sample_env (get_dispute (od_order_id sample_open)) w' = (w_tick w', Some (inr g)) /\
        dr_has_dispute g = true /\ dr_client_encrypted_blob g = Some (b64_encode (as_bytes "broken"))
  | _ => False
  end.
Proof.
  run_witness E.
  destruct (open_dispute_effect _ sample_env _ _ _ _ _ E sample_env_quiet eq_refl) as
    (idb & blob & o' & o2 & _ & Hb & _ & _ & _ & _ & _ & _ & _ & Hg).
  eexists. split; [exact Hg|]. split; [done|]. cbn [dr_client_encrypted_blob].
  do 2 f_equal. unfold sample_open in Hb. cbn [od_client_encrypted_blob] in Hb.
  rewrite b64_roundtrip in Hb. by injection Hb as <-.
Defined.

Definition sample_resolve : ResolveDisputeRequest :=
  let m := compose_token_message "dispute:resolve" (hex_encode (o_id sample_row)) [] (u64_wrap 485277) in
  mk_resolve_dispute (b64_encode (as_bytes "refund")) "" ""
    (mk_token_fields (Some (hex_encode (sign_blinded m unit_key)))
       (Some (hex_encode m)) (Some (hex_encode [])) (Some 485277)).

Lemma resolve_dispute_effect_witness :
  match run sample_env (@resolve_dispute release _ _ _ _ (Some unit_pair)
                          (hex_encode (o_id sample_row)) sample_resolve) (world_with_order sample_row) with
  | (w', Some (inr resp)) =>
      dr_has_dispute resp = false /\
      snd (run sample_env (get_dispute (hex_encode (o_id sample_row))) w') =
        Some (inl (NotFound "No dispute for this order"))
  | _ => False
  end.
Proof.
  run_witness E.
  destruct (resolve_dispute_effect _ sample_env _ _ _ _ _ _ _ E sample_env_quiet eq_refl) as
    (kp & sig & nonce & nh & x & idb & outcome & o' & _ & _ & _ & _ & _ & _ & _ & _ & _ & _ & _ & _ & Hr & Hg).
  split; [exact Hr|]. exact (f_equal snd Hg).
Defined.

Lemma disputes_fail_unchanged_witness :
  match run sample_env (get_dispute "zz") (world_with_order sample_row) with
  | (w', Some (inl e)) => w_orders w' = w_orders (world_with_order sample_row)
  | _ => False
  end.
Proof.
  destruct (run _ _ _) as [w' r] eqn:E.
  assert (r = Some (inl (BadRequest "Invalid id"))) as ->
    by (apply (f_equal snd) in E; vm_compute in E; done).
  apply (@disputes_fail_unchanged release _ _ _ _ _ sample_env None "zz" sample_open
           (mk_update_dispute "" "" "") sample_resolve _ w' (BadRequest "Invalid id")).
  right. right. right. exact E.
Defined.
