(* ===== verification/Chat.v ===== *)
(** The chat service, src/services/chat.rs. *)
From S2P Require Import Prelude Interfaces Instances Models Effects Occ Orders.

Record SendMessageRequest := mk_send_message {
  sm_chat_encrypted_blob : string;
  sm_transition_signature : string;
  sm_nonce : string }.

Record ChatResponse := mk_chat_response {
  cr_order_id : string;
  cr_chat_encrypted_blob : option string;
  cr_version : Z }.

Definition MAX_CHAT_BLOB_BYTES : Z := 256 * 1024.

Section chat.

Context `{BuildProfile} `{Hex} `{Base64}.

(** Two queries: the row's version, then its chat blob. *)
Definition get_chat (order_id : string) : prog (AppError + ChatResponse) :=
  try id_bytes := map_err (fun _ => BadRequest "Invalid order_id") (hex_decode order_id) in
  let! r := EOrderSelect id_bytes in
  try row := map_err db_error r in
  match row with
  | Some o =>
      let! r := EOrderSelect id_bytes in
      try blob := map_err db_error r in
      Ret (inr (mk_chat_response order_id
                  (option_map b64_encode (blob ≫= o_chat_encrypted_blob)) (o_version o)))
  | None => Ret (inr (mk_chat_response order_id None 0))
  end.

Definition update_chat (order_id : string) (req : SendMessageRequest) : prog (AppError + ChatResponse) :=
  try id_bytes := map_err (fun _ => BadRequest "Invalid order_id") (hex_decode order_id) in
  match b64_decode (sm_chat_encrypted_blob req) with
  | inl e => Ret (inl (BadRequest ("Invalid chat_encrypted_blob base64: " +:+ e)))
  | inr new_blob =>
  if MAX_CHAT_BLOB_BYTES <? Z.of_nat (length new_blob)
  then Ret (inl (BadRequest "chat_encrypted_blob too large")) else
  let! r := EOrderSelect id_bytes in
  try current := map_err db_error r in
  try o := ok_or current (NotFound "Order not found") in
  let current_version := o_version o in
  let! fresh := ENonceInsert ChatNonces (nonce_key order_id (sm_nonce req)) in
  if negb fresh then Ret (inl (Conflict "Chat nonce already used")) else
  let! r := EOrderUpdate [SetChatBlob new_blob] id_bytes current_version in
  try n := map_err db_error r in
  if Nat.eqb n 0 then Ret (inl (Conflict "Order was modified by another request")) else
  arith (i64_op (current_version + 1)) (fun v' =>
  Ret (inr (mk_chat_response order_id (Some (sm_chat_encrypted_blob req)) v')))
  end.

Lemma update_chat_ok env id req w w' resp :
  run env (update_chat id req) w = (w', Some (inr resp)) ->
  exists idb blob o,
    hex_decode id = inr idb /\ b64_decode (sm_chat_encrypted_blob req) = inr blob /\
    Z.of_nat (length blob) <= MAX_CHAT_BLOB_BYTES /\
    w_orders w !! idb = Some o /\
    w_orders w' = <[idb := bump_version (apply_set (SetChatBlob blob) o)]> (w_orders w) /\
    (ChatNonces, nonce_key id (sm_nonce req)) ∉ w_nonces w /\
    (ChatNonces, nonce_key id (sm_nonce req)) ∈ w_nonces w' /\
    i64_op (o_version o + 1) = Some (cr_version resp).
Proof.
  unfold update_chat. intros E.
  destruct (hex_decode id) as [|idb] eqn:Eid; [done|]. cbn [map_err] in E.
  destruct (b64_decode _) as [|blob] eqn:Eb; [done|].
  destruct (Z.ltb_spec MAX_CHAT_BLOB_BYTES (Z.of_nat (length blob))); [done|].
  step_in E. no_fault E. destruct (w_orders w !! idb) as [o|] eqn:Eo; [|done]. cbn [ok_or] in E.
  step_in E. case_decide as Hn; [by cbn in E|]. cbn [negb] in E.
  step_in E. no_fault E. unfold sql_update_order in E. rewrite Eo, decide_True in E by done.
  cbn [map_err Nat.eqb fold_left] in E.
  destruct (i64_op (o_version o + 1)) as [z|] eqn:Ei; [|done]. cbn [arith run] in E. simplify_eq.
  exists idb, blob, o. split_and!; try done. cbn. set_solver.
Qed.

(** Chat round trip: a sent chat blob is what [get_chat] answers afterwards,
    with the version the sender was told; the order's own blob, dispute and
    buckets and every other order are untouched, and the nonce is used up. *)
Theorem chat_roundtrip `{!Base64Laws _} env env2 id req w w' w2 resp :
  run env (update_chat id req) w = (w', Some (inr resp)) ->
  quiet env2 -> w_orders w2 = w_orders w' ->
  exists idb blob o,
    hex_decode id = inr idb /\ b64_decode (sm_chat_encrypted_blob req) = inr blob /\
    Z.of_nat (length blob) <= MAX_CHAT_BLOB_BYTES /\
    w_orders w !! idb = Some o /\
    w_orders w' = <[idb := mk_order (o_id o) (o_encrypted_order_blob o) (o_day_bucket o)
       (o_expiry_bucket o) (o_version o + 1) (o_has_dispute o) (o_client_encrypted_blob o)
       (o_dispute_client_blob o) (Some blob)]> (w_orders w) /\
    (ChatNonces, nonce_key id (sm_nonce req)) ∉ w_nonces w /\
    (ChatNonces, nonce_key id (sm_nonce req)) ∈ w_nonces w' /\
    i64_op (o_version o + 1) = Some (cr_version resp) /\
    run env2 (get_chat id) w2 =
      (w_tick (w_tick w2), Some (inr (mk_chat_response id (Some (b64_encode blob)) (o_version o + 1)))) /\
    b64_decode (b64_encode blob) = inr blob.
Proof.
  intros E Hq Hw2. destruct (update_chat_ok _ _ _ _ _ _ E) as
    (idb & blob & o & Hid & Hb & Hl & Ho & Ew & Hn & Hn' & Hv).
  exists idb, blob, o. split_and!; try done.
  - rewrite Ew. f_equal. by destruct o.
  - unfold get_chat. rewrite Hid. cbn [map_err]. step. rewrite Hw2, Ew, lookup_insert_eq. cbn [map_err].
    step. rewrite Hw2, Ew, lookup_insert_eq. by destruct o.
  - apply b64_roundtrip.
Qed.

(** A failed chat request changes no row. *)
Lemma chat_fail_unchanged env id req w w' e :
  run env (update_chat id req) w = (w', Some (inl e)) \/
  run env (get_chat id) w = (w', Some (inl e)) ->
  w_orders w' = w_orders w /\ w_listings w' = w_listings w.
Proof. intros [E|E]; revert E; apply err_unchanged; unfold update_chat, get_chat; err_paths. Qed.
End chat.

Definition sample_message : SendMessageRequest := mk_send_message (b64_encode (as_bytes "hi")) "" "c1".

Lemma chat_roundtrip_witness :
  match run sample_env (@update_chat release _ _ (hex_encode (o_id sample_row)) sample_message)
          (world_with_order sample_row) with
  | (w', Some (inr resp)) =>
      snd (run sample_env (get_chat (hex_encode (o_id sample_row))) w') =
        Some (inr (mk_chat_response (hex_encode (o_id sample_row)) (Some (b64_encode (as_bytes "hi"))) 2))
  | _ => False
  end.
Proof.
  run_witness E.
  destruct (chat_roundtrip _ sample_env _ _ _ _ _ _ E sample_env_quiet eq_refl) as
    (idb & blob & o' & Hid & Hb & _ & Ho & _ & _ & _ & _ & Hg & _).
  rewrite hex_roundtrip in Hid. injection Hid as <-.
  unfold sample_message in Hb. cbn [sm_chat_encrypted_blob] in Hb.
  rewrite b64_roundtrip in Hb. injection Hb as <-.
  unfold world_with_order in Ho. cbn [w_orders w_set_orders] in Ho.
  rewrite lookup_insert_eq in Ho. injection Ho as <-. exact (f_equal snd Hg).
Defined.
