(* ===== verification/Writers.v ===== *)
(** Every API request that updates an order, served concurrently.

    [OrderWriter] (Occ.v) is the interface; the five writers of the order, dispute
    and chat services are its instances, and the theorem about any mix of them
    uses nothing else. *)
From S2P Require Import Prelude Interfaces Instances Models Effects Occ Transition Orders BlindSig Admin Disputes Chat.

(** A request and its reply, as the router dispatches them. *)
Inductive WriteRequest :=
| WUpdateOrder (pubkey_bytes : bytes) (id : string) (req : UpdateOrderRequest)
| WOpenDispute (req : OpenDisputeRequest)
| WUpdateDispute (id : string) (req : UpdateDisputeRequest)
| WResolveDispute (id : string) (req : ResolveDisputeRequest)
| WUpdateChat (order_id : string) (req : SendMessageRequest).

Inductive WriteReply :=
| RpOrder (r : AppError + OrderResponse)
| RpDispute (r : AppError + DisputeResponse)
| RpChat (r : AppError + ChatResponse).

Definition ok_value {E A} (r : E + A) : option A :=
  match r with inr a => Some a | inl _ => None end.

Definition reply_version (r : WriteReply) : option Z :=
  match r with
  | RpOrder r => option_map or_version (ok_value r)
  | RpDispute r => option_map dr_version (ok_value r)
  | RpChat r => option_map cr_version (ok_value r)
  end.

Definition write_target (r : WriteRequest) : string :=
  match r with
  | WUpdateOrder _ id _ | WUpdateDispute id _ | WResolveDispute id _ | WUpdateChat id _ => id
  | WOpenDispute req => od_order_id req
  end.

Section writers.

Context `{BuildProfile} `{Hex} `{Base64} `{Hashing} `{BigInts} `{UuidText} `{Cbor} `{Ed25519}.
Variable admin_keypair : option AdminKeypair.

Definition serve (r : WriteRequest) : prog WriteReply :=
  match r with
  | WUpdateOrder pk id req => do r := update_order pk id req in Ret (RpOrder r)
  | WOpenDispute req => do r := open_dispute req in Ret (RpDispute r)
  | WUpdateDispute id req => do r := update_dispute id req in Ret (RpDispute r)
  | WResolveDispute id req => do r := resolve_dispute admin_keypair id req in Ret (RpDispute r)
  | WUpdateChat id req => do r := update_chat id req in Ret (RpChat r)
  end.

(** ** The writers implement the interface *)

Definition dispute_version (r : AppError + DisputeResponse) : option Z :=
  option_map dr_version (ok_value r).
Definition chat_version (r : AppError + ChatResponse) : option Z :=
  option_map cr_version (ok_value r).

#[local] Instance open_dispute_writer id req :
  hex_decode (od_order_id req) = inr id -> OrderWriter (open_dispute req) id dispute_version.
Proof.
  intros Hid ls [e|resp] v' Hp Hv; [done|]. injection Hv as <-. unfold open_dispute in Hp.
  rewrite Hid in Hp. cbn [map_err] in Hp.
  destruct (decode_dispute_blob _ _ _); [by apply path_ret in Hp as [_ Hp]|].
  apply path_vis in Hp as ([] & l1 & -> & Hp); [|by apply path_ret in Hp as [_ Hp]].
  apply path_vis in Hp as (u & l2 & -> & Hp).
  apply path_bind in Hp as (l3 & l4 & [e|v] & Hp1 & Hp2 & ->);
    apply path_ret in Hp2 as [-> Hp2]; [done|]. simplify_eq.
  apply bump_order_path in Hp1 as (v0 & Hin & Hv). exists v0. split; [set_solver|done].
Qed.

#[local] Instance update_dispute_writer id_s id req :
  hex_decode id_s = inr id -> OrderWriter (update_dispute id_s req) id dispute_version.
Proof.
  intros Hid ls [e|resp] v' Hp Hv; [done|]. injection Hv as <-. unfold update_dispute in Hp.
  rewrite Hid in Hp. cbn [map_err] in Hp.
  destruct (decode_dispute_blob _ _ _); [by apply path_ret in Hp as [_ Hp]|].
  apply path_vis in Hp as ([] & l1 & -> & Hp); [|by apply path_ret in Hp as [_ Hp]].
  apply path_bind in Hp as (l3 & l4 & [e|v] & Hp1 & Hp2 & ->);
    apply path_ret in Hp2 as [-> Hp2]; [done|]. simplify_eq.
  apply bump_order_path in Hp1 as (v0 & Hin & Hv). exists v0. split; [set_solver|done].
Qed.

#[local] Instance resolve_dispute_writer id_s id req :
  hex_decode id_s = inr id ->
  OrderWriter (resolve_dispute admin_keypair id_s req) id dispute_version.
Proof.
  intros Hid ls [e|resp] v' Hp Hv; [done|]. injection Hv as <-. unfold resolve_dispute in Hp.
  destruct admin_keypair as [kp|]; [|by apply path_ret in Hp as [_ Hp]]. cbn [ok_or] in Hp.
  destruct (check_token _ _ _ _) as [|t]; [by apply path_ret in Hp as [_ Hp]|].
  apply path_vis in Hp as (secs & l0 & -> & Hp).
  destruct (token_fresh _ _) as [[]|]; [|by apply path_ret in Hp as [_ Hp]|by apply path_panic in Hp].
  apply path_vis in Hp as ([] & l1 & -> & Hp); [|by apply path_ret in Hp as [_ Hp]].
  cbn [negb] in Hp. rewrite Hid in Hp. cbn [map_err] in Hp.
  destruct (decode_dispute_blob _ _ _); [by apply path_ret in Hp as [_ Hp]|].
  apply path_bind in Hp as (l3 & l4 & [e|v] & Hp1 & Hp2 & ->);
    apply path_ret in Hp2 as [-> Hp2]; [done|]. simplify_eq.
  apply bump_order_path in Hp1 as (v0 & Hin & Hv). exists v0. split; [set_solver|done].
Qed.

#[local] Instance update_chat_writer id_s id req :
  hex_decode id_s = inr id -> OrderWriter (update_chat id_s req) id chat_version.
Proof.
  intros Hid ls [e|resp] v' Hp Hv; [done|]. injection Hv as <-. unfold update_chat in Hp.
  rewrite Hid in Hp. path_inv Hp. simplify_eq.
  match goal with |- context [label_of (EOrderUpdate _ _ _) ?r] => destruct r as [|[|m]] end;
    simplify_eq/=.
  match goal with X : i64_op (o_version ?o + 1) = _ |- _ => exists (o_version o) end.
  split; [|done]. right. right. left.
Qed.

(** A handler wrapped into the reply type. *)
Lemma wrap_writer {A} (p : prog A) (f : A -> WriteReply) id ver :
  OrderWriter p id ver -> (forall a, reply_version (f a) = ver a) ->
  OrderWriter (bind p (fun r => Ret (f r))) id reply_version.
Proof.
  intros Hw Hf ls a v' Hp Hv. apply path_bind in Hp as (l1 & l2 & r & Hp1 & Hp2 & ->).
  apply path_ret in Hp2 as [-> Hp2]. simplify_eq. rewrite Hf in Hv.
  rewrite app_nil_r. by apply (Hw l1 r).
Qed.

#[export] Instance serve_writer r id :
  hex_decode (write_target r) = inr id -> OrderWriter (serve r) id reply_version.
Proof.
  intros Hid. destruct r; cbn [write_target serve] in *.
  - apply (wrap_writer _ _ _ ok_version); [by apply update_order_writer|by intros []].
  - apply (wrap_writer _ _ _ dispute_version); [by apply open_dispute_writer|done].
  - apply (wrap_writer _ _ _ dispute_version); [by apply update_dispute_writer|done].
  - apply (wrap_writer _ _ _ dispute_version); [by apply resolve_dispute_writer|done].
  - apply (wrap_writer _ _ _ chat_version); [by apply update_chat_writer|done].
Qed.

(** C10. Concurrent writers serialise: of any requests served concurrently, in any
    interleaving of their database accesses, two that updated the same order
    were told different versions, both above the version the order started
    from and at most the version it ended with.  Two clients can never both
    believe they made version n. *)
Theorem concurrent_writers_serialize env reqs w ls ps' w' i j p q id a b v1 v2 :
  pool_steps env (serve <$> reqs) w ls ps' w' ->
  i <> j -> reqs !! i = Some p -> reqs !! j = Some q ->
  hex_decode (write_target p) = inr id -> hex_decode (write_target q) = inr id ->
  ps' !! i = Some (Ret a) -> ps' !! j = Some (Ret b) ->
  reply_version a = Some v1 -> reply_version b = Some v2 ->
  in_i64 (version_of (w_orders w) id) -> in_i64 (version_of (w_orders w') id) ->
  v1 <> v2 /\
  version_of (w_orders w) id < v1 <= version_of (w_orders w') id /\
  version_of (w_orders w) id < v2 <= version_of (w_orders w') id.
Proof.
  intros Hs Hij Hp Hq Hidp Hidq Ha Hb Hv1 Hv2 Hr Hr'.
  apply (writers_serialize env (serve <$> reqs) ps' w w' ls id reply_version i j
           (serve p) (serve q) a b v1 v2); try done;
    first [by apply serve_writer | by rewrite list_lookup_fmap, ?Hp, ?Hq].
Qed.
End writers.

Definition sample_writes : list WriteRequest :=
  [WOpenDispute sample_open; WUpdateChat (hex_encode (o_id sample_row)) sample_message].

(** One thread after the other: the dispute is version 2, the chat version 3. *)
Lemma concurrent_writers_serialize_witness :
  exists ls ps' w' a b,
    pool_steps sample_env (serve (H := release) None <$> sample_writes)
      (world_with_order sample_row) ls ps' w' /\
    ps' !! 0%nat = Some (Ret a) /\ ps' !! 1%nat = Some (Ret b) /\
    reply_version a = Some 2 /\ reply_version b = Some 3 /\ (2 <> 3 :> Z).
Proof.
  set (ps := serve (H := release) None <$> sample_writes).
  destruct (run sample_env (serve (H := release) None (WOpenDispute sample_open))
              (world_with_order sample_row)) as [w1 [a|]] eqn:E1;
    [|exfalso; apply (f_equal snd) in E1; vm_compute in E1; discriminate E1].
  destruct (run_steps sample_env ps 0 _ _ _ _ eq_refl E1) as [l1 H1].
  destruct (run sample_env (serve (H := release) None (WUpdateChat (hex_encode (o_id sample_row)) sample_message))
              w1) as [w2 [b|]] eqn:E2;
    [|exfalso; apply (f_equal fst) in E1; cbn [fst] in E1; rewrite <-E1 in E2;
      apply (f_equal snd) in E2; vm_compute in E2; discriminate E2].
  destruct (run_steps sample_env (<[0%nat := Ret a]> ps) 1
    (serve (H := release) None (WUpdateChat (hex_encode (o_id sample_row)) sample_message))
    _ _ _ ltac:(by rewrite list_lookup_insert_ne) E2) as [l2 H2].
  pose proof (pool_steps_app _ _ _ _ _ _ _ _ _ H1 H2) as H.
  set (r1 := run sample_env (serve (H := release) None (WOpenDispute sample_open))
               (world_with_order sample_row)) in *.
  assert (w1 = fst r1) as Hw1 by (by rewrite E1). rewrite Hw1 in E2.
  assert (reply_version a = Some 2) as Ha.
  { transitivity (snd r1 ≫= reply_version); [by rewrite E1|vm_compute; reflexivity]. }
  set (r2 := run sample_env _ (fst r1)) in E2.
  assert (reply_version b = Some 3) as Hb.
  { transitivity (snd r2 ≫= reply_version); [by rewrite E2|vm_compute; reflexivity]. }
  assert (version_of (w_orders w2) (o_id sample_row) = 3) as Hv.
  { transitivity (version_of (w_orders (fst r2)) (o_id sample_row)); [by rewrite E2|vm_compute; reflexivity]. }
  exists (l1 ++ l2), (<[1%nat := Ret b]> (<[0%nat := Ret a]> ps)), w2, a, b.
  split; [exact H|]. split; [done|]. split; [done|]. split; [done|]. split; [done|].
  apply (concurrent_writers_serialize (H := release) None sample_env sample_writes
           (world_with_order sample_row) (l1 ++ l2) _ w2 0 1 (WOpenDispute sample_open)
           (WUpdateChat (hex_encode (o_id sample_row)) sample_message) (o_id sample_row) a b 2 3 H);
    [done|reflexivity|reflexivity|apply hex_roundtrip|apply hex_roundtrip
    |reflexivity|reflexivity|exact Ha|exact Hb| |rewrite Hv; zlia].
  unfold version_of, world_with_order. cbn [w_orders w_set_orders].
  rewrite lookup_insert_eq. cbn [o_version sample_row]. zlia.
Defined.
