(* ===== verification/Auth.v ===== *)
(** Authentication: the HMAC and signature checks of every request
    (src/gateway/stateless_auth.rs, src/gateway/auth_common.rs), the replay
    cache, the challenge service that hands out auth keys (src/services/auth.rs)
    and the hashes of src/crypto/hash.rs and src/crypto/hmac_auth.rs. *)
From S2P Require Import Prelude Interfaces Instances Models Effects Amounts.

(** ** Requests as the middleware sees them *)

(** Header names are lower case, as the [http] crate stores them. *)
Record Request := mk_request {
  rq_method : string;
  rq_path : string;
  rq_headers : list (string * bytes);
  (** extensions: [AuthPubkey], [AuthPubkeyBytes], [CircuitSlot] *)
  rq_auth : option bytes;
  rq_pubkey : option bytes;
  rq_slot : option Z }.

(** [headers.get(name)] *)
Fixpoint hdr_get (hs : list (string * bytes)) (name : string) : option bytes :=
  match hs with
  | [] => None
  | (n, v) :: t => if decide (n = name) then Some v else hdr_get t name
  end.

Definition with_auth (h pk : bytes) (r : Request) : Request :=
  mk_request (rq_method r) (rq_path r) (rq_headers r) (Some h) (Some pk) (rq_slot r).

Definition MAX_NONCES_PER_BUCKET : Z := 10000.

(** [static REPLAY_CACHE] *)
Abbreviation ReplayCache := (gmap Z (gset bytes)).

Section auth.
Context `{Hex} `{Hashing} `{Ed25519} `{HeaderText}.

(** ** Keyed hashes *)

Definition hash_pubkey (pubkey_bytes : bytes) : bytes := blake3 pubkey_bytes.

Definition hash_search_keyword (keyword : string) (domain_secret : bytes) : bytes :=
  blake3 (as_bytes "marketplace_search_v1" ++ domain_secret ++ as_bytes keyword).

Definition hash_challenge (challenge server_secret : bytes) : bytes :=
  blake3 (as_bytes "marketplace_challenge_v1" ++ server_secret ++ challenge).

Definition derive_auth_key (server_secret : string) (pubkey : bytes) : option bytes :=
  hmac_sha256 (as_bytes server_secret) (as_bytes "auth_key_derivation_v1" ++ pubkey).

Definition derive_ephemeral_admin_identity (server_secret : string) (session_nonce : bytes)
    (action_domain : string) : option bytes :=
  hmac_sha256 (as_bytes server_secret)
    (as_bytes "ephemeral-admin-identity-v1" ++ as_bytes action_domain ++ session_nonce).

(** [constant_time_compare] (crypto/zk.rs); [ct_eq] is equality. *)
Definition constant_time_compare (a b : bytes) : bool :=
  if negb (Nat.eqb (length a) (length b)) then false else bool_decide (a = b).

Definition verify_ephemeral_admin_identity (server_secret : string) (identity session_nonce : bytes)
    (action_domain : string) : option bool :=
  match derive_ephemeral_admin_identity server_secret session_nonce action_domain with
  | Some expected => Some (constant_time_compare expected identity)
  | None => None
  end.

Definition generate_auth_token (auth_key pubkey : bytes) (hour_bucket : Z) (path : string) : option bytes :=
  hmac_sha256 auth_key (as_bytes "auth-token-v1" ++ pubkey ++ le_bytes 8 hour_bucket ++ as_bytes path).

Definition verify_auth_token (auth_key token pubkey : bytes) (hour_bucket : Z) (path : string) : bool :=
  match generate_auth_token auth_key pubkey hour_bucket path with
  | Some expected => Nat.eqb (length expected) (length token) && bool_decide (expected = token)
  | None => false
  end.

Definition sign_challenge (sk challenge : bytes) : bytes := ed_sign sk challenge.

Definition verify_challenge (pk : vk) (challenge signature : bytes) : bool :=
  match sig_from_slice signature with Some sig => ed_verify pk challenge sig | None => false end.

Definition derive_domain_identity (server_secret domain pubkey_hash : bytes) : option bytes :=
  hmac_sha256 server_secret (as_bytes "domain-identity-v1" ++ domain ++ pubkey_hash).

(** ** The checks of the middleware *)

Definition compute_hmac (auth_key pubkey : bytes) (hour_bucket : Z) (path : string) (nonce : bytes)
    : option bytes :=
  hmac_sha256 auth_key (pubkey ++ le_bytes 8 hour_bucket ++ as_bytes path ++ nonce).

Definition build_challenge (hmac pubkey : bytes) (hour_bucket : Z) (nonce : bytes) : bytes :=
  hmac ++ pubkey ++ le_bytes 8 hour_bucket ++ nonce.

Definition verify_hmac (auth_key pubkey : bytes) (hour_bucket : Z) (path : string)
    (nonce expected : bytes) : bool :=
  match compute_hmac auth_key pubkey hour_bucket path nonce with
  | Some computed => Nat.eqb (length computed) (length expected) && bool_decide (computed = expected)
  | None => false
  end.

Definition verify_signature (pk_bytes hmac pubkey : bytes) (hour_bucket : Z) (nonce sig_bytes : bytes) : bool :=
  let challenge := build_challenge hmac pubkey hour_bucket nonce in
  match vk_from_bytes pk_bytes with
  | None => false
  | Some pk =>
      match sig_from_slice sig_bytes with
      | None => false
      | Some sig => ed_verify pk challenge sig
      end
  end.

(** [retain], [entry().or_default()], the overflow guard, [insert]. *)
Definition check_replay (cache : ReplayCache) (hour_bucket : Z) (nonce : bytes) : ReplayCache * bool :=
  let cache := filter (fun kv => u64_sat_sub hour_bucket 1 <= fst kv) cache in
  let entry := default ∅ (cache !! hour_bucket) in
  let entry := if MAX_NONCES_PER_BUCKET <=? Z.of_nat (size entry) then ∅ else entry in
  (<[hour_bucket := {[nonce]} ∪ entry]> cache, bool_decide (nonce ∉ entry)).

Definition header_str (r : Request) (name : string) : option string :=
  hdr_get (rq_headers r) name ≫= to_str.

Definition auth_exempt (path : string) : bool :=
  String.prefix "/auth/" path || String.prefix "/api/auth/" path || String.prefix "/public/" path.

(** The decoded headers of a request. *)
Record AuthHeaders := mk_auth_headers {
  ah_pk : bytes; ah_hmac : bytes; ah_hour : Z; ah_nonce : bytes; ah_sig : bytes }.

Definition read_auth_headers (r : Request) : AppError + AuthHeaders :=
  match header_str r "x-auth-pubkey" with None => inl (AuthFailed "missing pubkey") | Some pubkey_hex =>
  match header_str r "x-auth-hmac" with None => inl (AuthFailed "missing hmac") | Some hmac_hex =>
  match header_str r "x-auth-hour" with None => inl (AuthFailed "missing hour") | Some hour_str =>
  match header_str r "x-auth-nonce" with None => inl (AuthFailed "missing nonce") | Some nonce_hex =>
  match header_str r "x-auth-signature" with None => inl (AuthFailed "missing signature") | Some sig_hex =>
  match hex_decode pubkey_hex with inl _ => inl (AuthFailed "invalid pubkey hex") | inr pk_bytes =>
  if negb (Nat.eqb (length pk_bytes) 32) then inl (AuthFailed "invalid pubkey length") else
  match hex_decode hmac_hex with inl _ => inl (AuthFailed "invalid hmac hex") | inr hmac_bytes =>
  match parse_u64 (str_of hour_str) with None => inl (AuthFailed "invalid hour") | Some hour_bucket =>
  match hex_decode nonce_hex with inl _ => inl (AuthFailed "invalid nonce hex") | inr nonce_bytes =>
  match hex_decode sig_hex with inl _ => inl (AuthFailed "invalid sig hex") | inr sig_bytes =>
  inr (mk_auth_headers pk_bytes hmac_bytes hour_bucket nonce_bytes sig_bytes)
  end end end end end end end end end end.

(** [(now / 3600) as u64] *)
Definition current_hour (now : Z) : Z := u64_wrap (Z.quot now 3600).

(** From the headers to the extensions: the new cache and the request to
    forward, or the rejection. *)
Definition authenticate (server_secret : string) (now : Z) (cache : ReplayCache) (r : Request)
    : ReplayCache * (AppError + Request) :=
  match read_auth_headers r with
  | inl e => (cache, inl e)
  | inr h =>
      if (current_hour now <? ah_hour h) || (ah_hour h <? u64_sat_sub (current_hour now) 1)
      then (cache, inl (AuthFailed "stale hour bucket")) else
      match derive_auth_key server_secret (ah_pk h) with
      | None => (cache, inl (AuthFailed "key derivation failed"))
      | Some auth_key =>
          if negb (verify_hmac auth_key (ah_pk h) (ah_hour h) (rq_path r) (ah_nonce h) (ah_hmac h))
          then (cache, inl (AuthFailed "hmac mismatch"))
          else if negb (verify_signature (ah_pk h) (ah_hmac h) (ah_pk h) (ah_hour h) (ah_nonce h) (ah_sig h))
          then (cache, inl (AuthFailed "signature mismatch"))
          else
            let '(cache, fresh) := check_replay cache (ah_hour h) (ah_nonce h) in
            if negb fresh then (cache, inl (AuthFailed "replay detected"))
            else (cache, inr (with_auth (hash_pubkey (ah_pk h)) (ah_pk h) r))
      end
  end.

(** ** The replay cache *)

(** Retaining recent buckets does not change them. *)
Lemma retain_lookup (cache : ReplayCache) (t h : Z) :
  t <= h -> filter (fun kv : Z * gset bytes => t <= fst kv) cache !! h = cache !! h.
Proof.
  intros Hh. destruct (cache !! h) as [v|] eqn:E.
  - by apply map_lookup_filter_Some.
  - apply map_lookup_filter_None. by left.
Qed.

Lemma check_replay_spec cache hb n c' fresh :
  0 <= hb <= u64_max -> check_replay cache hb n = (c', fresh) ->
  let e := default ∅ (cache !! hb) in
  (forall h, h <> hb -> hb <= h + 1 -> 0 <= h -> c' !! h = cache !! h) /\
  if MAX_NONCES_PER_BUCKET <=? Z.of_nat (size e)
  then c' !! hb = Some {[n]} /\ fresh = true
  else c' !! hb = Some ({[n]} ∪ e) /\ fresh = bool_decide (n ∉ e).
Proof.
  intros Hhb. unfold check_replay. cbn zeta.
  rewrite retain_lookup by (unfold u64_sat_sub; zlia).
  intros E. destruct (MAX_NONCES_PER_BUCKET <=? _); simplify_eq; split_and!.
  all: try (intros h Hne Hh H0'; rewrite lookup_insert_ne by congruence;
    rewrite retain_lookup by (unfold u64_sat_sub; zlia); done).
  - rewrite lookup_insert_eq. f_equal. set_solver.
  - apply bool_decide_eq_true. set_solver.
  - by rewrite lookup_insert_eq.
  - done.
Qed.

Lemma check_replay_recorded cache hb n c' fresh :
  check_replay cache hb n = (c', fresh) -> n ∈ default ∅ (c' !! hb).
Proof. unfold check_replay. intros [= <- _]. rewrite lookup_insert_eq. cbn. set_solver. Qed.

(** ** What an accepted request is *)

Lemma authenticate_ok secret now cache r cache' r' :
  authenticate secret now cache r = (cache', inr r') ->
  exists h key,
    read_auth_headers r = inr h /\ derive_auth_key secret (ah_pk h) = Some key /\
    u64_sat_sub (current_hour now) 1 <= ah_hour h <= current_hour now /\
    verify_hmac key (ah_pk h) (ah_hour h) (rq_path r) (ah_nonce h) (ah_hmac h) = true /\
    verify_signature (ah_pk h) (ah_hmac h) (ah_pk h) (ah_hour h) (ah_nonce h) (ah_sig h) = true /\
    check_replay cache (ah_hour h) (ah_nonce h) = (cache', true) /\
    r' = with_auth (hash_pubkey (ah_pk h)) (ah_pk h) r.
Proof.
  unfold authenticate. intros E. destruct (read_auth_headers r) as [|h]; [done|].
  destruct ((current_hour now <? ah_hour h) || _) eqn:Ew; [done|].
  apply orb_false_iff in Ew as [E1%Z.ltb_ge E2%Z.ltb_ge].
  destruct (derive_auth_key secret (ah_pk h)) as [key|] eqn:Ek; [|done].
  destruct (verify_hmac _ _ _ _ _ _) eqn:Eh; [|done]. cbn [negb] in E.
  destruct (verify_signature _ _ _ _ _ _) eqn:Es; [|done]. cbn [negb] in E.
  destruct (check_replay _ _ _) as [c []] eqn:Ec; [|done]. cbn [negb] in E. simplify_eq.
  by exists h, key.
Qed.

Lemma current_hour_range now : 0 <= current_hour now <= u64_max.
Proof. unfold current_hour, u64_wrap. pose proof (Z.mod_pos_bound (Z.quot now 3600) (2 ^ 64)). zlia. Qed.

(** A rejected request leaves the nonces of the live hours as they were. *)
Lemma authenticate_err secret now cache r cache' e :
  authenticate secret now cache r = (cache', inl e) ->
  forall h, current_hour now <= h + 1 -> 0 <= h ->
  default ∅ (cache' !! h) = default ∅ (cache !! h).
Proof.
  unfold authenticate. intros E h Hh H0'. destruct (read_auth_headers r) as [|hd]; [by simplify_eq|].
  destruct ((current_hour now <? ah_hour hd) || _) eqn:Ew; [by simplify_eq|].
  apply orb_false_iff in Ew as [E1%Z.ltb_ge E2%Z.ltb_ge].
  destruct (derive_auth_key secret (ah_pk hd)) as [key|]; [|by simplify_eq].
  destruct (verify_hmac _ _ _ _ _ _) eqn:Eh; [|by cbn [negb] in E; simplify_eq]. cbn [negb] in E.
  destruct (verify_signature _ _ _ _ _ _) eqn:Es; [|by cbn [negb] in E; simplify_eq]. cbn [negb] in E.
  destruct (check_replay _ _ _) as [c []] eqn:Ec; [done|]. cbn [negb] in E. simplify_eq.
  pose proof (current_hour_range now).
  assert (0 <= ah_hour hd <= u64_max) as Hr by (unfold u64_sat_sub in E2; zlia).
  destruct (check_replay_spec _ _ _ _ _ Hr Ec) as [Hother Hself].
  destruct (decide (h = ah_hour hd)) as [->|Hne]; [|by rewrite Hother by (done || lia)].
  destruct (MAX_NONCES_PER_BUCKET <=? _); [by destruct Hself|]. destruct Hself as [-> Hf].
  symmetry in Hf. apply bool_decide_eq_false, dec_stable in Hf. cbn [from_option id].
  apply set_eq. set_solver.
Qed.

(** ** Runs of the middleware's authentication *)

(** The accepted hour and nonce of each request, in order. *)
Fixpoint run_auth (secret : string) (cache : ReplayCache) (l : list (Z * Request))
    : list (option (Z * bytes)) :=
  match l with
  | [] => []
  | (now, r) :: t =>
      let '(cache', res) := authenticate secret now cache r in
      (match res, read_auth_headers r with
       | inr _, inr h => Some (ah_hour h, ah_nonce h)
       | _, _ => None
       end) :: run_auth secret cache' t
  end.

(** How many of [l] were accepted for hour [h]. *)
Fixpoint accepted (h : Z) (l : list (option (Z * bytes))) : nat :=
  match l with
  | [] => 0
  | Some (h', _) :: t => (if decide (h' = h) then 1 else 0) + accepted h t
  | None :: t => accepted h t
  end.

(** The cache still knows every nonce of a live hour that has not overflowed. *)
Definition cache_inv (cache : ReplayCache) (past : list (option (Z * bytes))) (cur : Z) : Prop :=
  forall h, 0 <= h -> cur <= h + 1 ->
    (size (default ∅ (cache !! h)) <= accepted h past)%nat /\
    (Z.of_nat (accepted h past) <= MAX_NONCES_PER_BUCKET ->
     forall n, Some (h, n) ∈ past -> n ∈ default ∅ (cache !! h)).

Lemma cache_inv_accept cache past cur hb n cache' :
  cache_inv cache past cur -> 0 <= hb <= u64_max -> cur <= hb + 1 -> hb <= cur ->
  check_replay cache hb n = (cache', true) ->
  cache_inv cache' (Some (hb, n) :: past) cur /\
  (Z.of_nat (accepted hb past) < MAX_NONCES_PER_BUCKET -> Some (hb, n) ∉ past).
Proof.
  intros Hinv Hhb Hcur Hle Hc. destruct (check_replay_spec _ _ _ _ _ Hhb Hc) as [Hother Hself].
  destruct (Hinv hb ltac:(lia) ltac:(lia)) as [Hsize Hknown]. split.
  - intros h Hh0 Hh. destruct (decide (h = hb)) as [->|Hne].
    + cbn [accepted]. rewrite decide_True by done.
      destruct (Z.leb_spec MAX_NONCES_PER_BUCKET (Z.of_nat (size (default ∅ (cache !! hb))))) as [Hfull|Hroom];
        destruct Hself as [-> Hf]; cbn [from_option id].
      * split; [rewrite size_singleton; lia|]. intros Hb. lia.
      * split.
        { pose proof (size_union_alt ({[n]} : gset bytes) (default ∅ (cache !! hb))) as Hs.
          rewrite size_singleton in Hs.
          pose proof (subseteq_size (default ∅ (cache !! hb) ∖ {[n]}) (default ∅ (cache !! hb))
            ltac:(set_solver)). lia. }
        intros Hb m [[= <-]|Hin]%elem_of_cons; [set_solver|].
        apply elem_of_union_r, Hknown; [lia|done].
    + cbn [accepted]. rewrite decide_False by congruence. rewrite Hother by lia.
      destruct (Hinv h Hh0 Hh) as [Hs Hk]. split; [exact Hs|].
      intros Hb m [[= -> ->]|Hin]%elem_of_cons; [done|]. by apply Hk.
  - intros Hroom Hin. apply Hknown in Hin; [|lia].
    destruct (Z.leb_spec MAX_NONCES_PER_BUCKET (Z.of_nat (size (default ∅ (cache !! hb))))); [lia|].
    destruct Hself as [_ Hf]. symmetry in Hf. apply bool_decide_eq_true in Hf. done.
Qed.

Lemma cache_inv_mono cache past cur cur' :
  cache_inv cache past cur -> cur <= cur' -> cache_inv cache past cur'.
Proof. intros Hinv Hle h Hh0 Hh. apply Hinv; lia. Qed.

Lemma run_auth_inv secret l cache past cur i h n :
  cache_inv cache past cur ->
  Sorted Z.le (cur :: map (fun x => current_hour (fst x)) l) ->
  run_auth secret cache l !! i = Some (Some (h, n)) ->
  (exists k, (k < i)%nat /\ run_auth secret cache l !! k = Some (Some (h, n))) \/ Some (h, n) ∈ past ->
  MAX_NONCES_PER_BUCKET <= Z.of_nat (accepted h past + accepted h (take i (run_auth secret cache l))).
Proof.
  revert cache past cur i. induction l as [|[now r] l IH]; intros cache past cur i Hinv Hs Hi Hk; [done|].
  cbn [map fst] in Hs. apply Sorted_inv in Hs as [Hs Hhd]. inversion Hhd as [|? ? Hle]; subst.
  apply (cache_inv_mono _ _ _ _ Hinv) in Hle as Hinv'. clear Hinv.
  cbn [run_auth] in Hi, Hk |- *.
  destruct (authenticate secret now cache r) as [cache' res] eqn:Ea.
  destruct res as [e|r'].
  - (* rejected *)
    destruct i as [|i]; [done|]. cbn [lookup list_lookup] in Hi.
    cbn [take accepted]. apply (IH cache' past (current_hour now)); [|done|done|].
    + intros x Hx0 Hx. destruct (Hinv' x Hx0 Hx). by rewrite (authenticate_err _ _ _ _ _ _ Ea x Hx Hx0).
    + destruct Hk as [(k & Hlt & Hk)|]; [left|by right]. destruct k as [|k]; [done|].
      exists k. split; [lia|done].
  - (* accepted *)
    apply authenticate_ok in Ea as (hd & key & Er & _ & Hw & _ & _ & Hc & _). rewrite Er in Hi, Hk |- *.
    pose proof (current_hour_range now).
    assert (0 <= ah_hour hd <= u64_max /\ current_hour now <= ah_hour hd + 1) as [Hr1 Hr2]
      by (unfold u64_sat_sub in Hw; zlia).
    destruct (cache_inv_accept _ _ (current_hour now) _ _ _ Hinv' Hr1 Hr2 ltac:(lia) Hc) as [Hnext Hnew].
    destruct i as [|i].
    + cbn in Hi. injection Hi as <- <-. cbn [take accepted].
      destruct Hk as [(k & Hlt & _)|Hin]; [lia|].
      destruct (Z.lt_ge_cases (Z.of_nat (accepted (ah_hour hd) past)) MAX_NONCES_PER_BUCKET) as [Hroom|]; [|lia].
      by destruct (Hnew Hroom).
    + cbn [lookup list_lookup] in Hi. cbn [take accepted].
      specialize (IH cache' (Some (ah_hour hd, ah_nonce hd) :: past) (current_hour now) i Hnext Hs Hi).
      cbn [accepted] in IH.
      assert ((exists k, (k < i)%nat /\ run_auth secret cache' l !! k = Some (Some (h, n))) \/
        Some (h, n) ∈ Some (ah_hour hd, ah_nonce hd) :: past) as Hk'.
      { destruct Hk as [(k & Hlt & Hk)|Hin]; [|right; by right].
        destruct k as [|k]; [cbn in Hk; right; injection Hk as <- <-; left|].
        left. exists k. split; [lia|done]. }
      specialize (IH Hk'). lia.
Qed.

(** C7. Replay protection: requests are served in the order of a clock that does not
    step back.  Once a request is accepted, no later request with the same hour
    and nonce is, until the hour has taken ten thousand accepted requests. *)
Theorem replay_protection secret l i j h n :
  Sorted Z.le (map (fun x => current_hour (fst x)) l) ->
  run_auth secret ∅ l !! i = Some (Some (h, n)) ->
  (i < j)%nat ->
  Z.of_nat (accepted h (take j (run_auth secret ∅ l))) < MAX_NONCES_PER_BUCKET ->
  run_auth secret ∅ l !! j <> Some (Some (h, n)).
Proof.
  intros Hs Hi Hlt Hfew Hj.
  pose proof (run_auth_inv secret l ∅ [] 0 j h n) as Hinv. cbn [accepted] in Hinv.
  enough (MAX_NONCES_PER_BUCKET <= Z.of_nat (accepted h (take j (run_auth secret ∅ l)))) by lia.
  apply Hinv; [|constructor; [done|]|done|left; by exists i].
  - intros x _ _. rewrite lookup_empty. cbn [from_option id]. rewrite size_empty.
    split; [cbn; lia|]. intros _ m Hm%elem_of_nil. done.
  - destruct l as [|[t r] l]; constructor. apply current_hour_range.
Qed.

(** C8. Authentication is sound: an accepted request carried, for its own path, an
    HMAC under the key derived from the server secret for its public key, and a
    signature under that public key over the HMAC, the key, the hour and the
    nonce; its hour is the current one or the one before and its nonce was not
    in the cache.  What is forwarded is the request with the hash of that key. *)
Theorem authenticate_sound secret now cache r cache' r' :
  authenticate secret now cache r = (cache', inr r') ->
  exists h key vkey sig,
    read_auth_headers r = inr h /\
    current_hour now - 1 <= ah_hour h <= current_hour now /\
    derive_auth_key secret (ah_pk h) = Some key /\
    compute_hmac key (ah_pk h) (ah_hour h) (rq_path r) (ah_nonce h) = Some (ah_hmac h) /\
    vk_from_bytes (ah_pk h) = Some vkey /\ sig_from_slice (ah_sig h) = Some sig /\
    ed_verify vkey (build_challenge (ah_hmac h) (ah_pk h) (ah_hour h) (ah_nonce h)) sig = true /\
    (Z.of_nat (size (default ∅ (cache !! ah_hour h))) < MAX_NONCES_PER_BUCKET ->
      ah_nonce h ∉ default ∅ (cache !! ah_hour h)) /\
    ah_nonce h ∈ default ∅ (cache' !! ah_hour h) /\
    rq_auth r' = Some (hash_pubkey (ah_pk h)) /\ rq_pubkey r' = Some (ah_pk h) /\
    rq_path r' = rq_path r /\ rq_headers r' = rq_headers r.
Proof.
  intros E. apply authenticate_ok in E as (h & key & Er & Ek & Hw & Hh & Hs & Hc & ->).
  unfold verify_hmac in Hh. destruct (compute_hmac _ _ _ _ _) as [c|] eqn:Ec; [|done].
  apply andb_true_iff in Hh as [_ Hh%bool_decide_eq_true].
  unfold verify_signature in Hs. destruct (vk_from_bytes (ah_pk h)) as [vkey|] eqn:Ev; [|done].
  destruct (sig_from_slice (ah_sig h)) as [sig|] eqn:Esig; [|done].
  pose proof (current_hour_range now).
  assert (0 <= ah_hour h <= u64_max) as Hr by (unfold u64_sat_sub in Hw; zlia).
  destruct (check_replay_spec _ _ _ _ _ Hr Hc) as [_ Hself].
  exists h, key, vkey, sig. split_and!; try done; try (unfold u64_sat_sub in Hw; zlia).
  - by rewrite Ec, Hh.
  - intros Hroom. destruct (Z.leb_spec MAX_NONCES_PER_BUCKET (Z.of_nat (size (default ∅ (cache !! ah_hour h))))); [lia|].
    destruct Hself as [_ Hf]. symmetry in Hf. by apply bool_decide_eq_true in Hf.
  - by apply check_replay_recorded in Hc.
Qed.

(** A signed challenge is unambiguous: for fixed-size HMACs and keys it
    determines the HMAC, the key, the hour and the nonce. *)
Lemma build_challenge_inj m m' pk pk' h h' n n' :
  length m = length m' -> length pk = length pk' -> in_u64 h -> in_u64 h' ->
  build_challenge m pk h n = build_challenge m' pk' h' n' ->
  m = m' /\ pk = pk' /\ h = h' /\ n = n'.
Proof.
  intros Hm Hpk Hh Hh' E. unfold build_challenge in E.
  apply app_inj_length in E as [E1 E]; [|done]. apply app_inj_length in E as [E2 E]; [|done].
  apply app_inj_length in E as [E3 E]; [|by rewrite !le_bytes_length].
  apply le_bytes_inj in E3; done.
Qed.

(** Authentication is complete: a client that signs as the frontend does, with
    the auth key the challenge service derives for its key, the current hour (or
    the one before) and a nonce not yet in the cache, is accepted. *)
Theorem authenticate_complete `{!HexLaws _} `{!HashingLaws _} `{!Ed25519Laws _}
    secret now cache r sk key hour hour_str nonce mac :
  let pk := ed_public sk in
  derive_auth_key secret pk = Some key ->
  compute_hmac key pk hour (rq_path r) nonce = Some mac ->
  header_str r "x-auth-pubkey" = Some (hex_encode pk) ->
  header_str r "x-auth-hmac" = Some (hex_encode mac) ->
  header_str r "x-auth-hour" = Some hour_str -> parse_u64 (str_of hour_str) = Some hour ->
  header_str r "x-auth-nonce" = Some (hex_encode nonce) ->
  header_str r "x-auth-signature" = Some (hex_encode (ed_sign sk (build_challenge mac pk hour nonce))) ->
  current_hour now - 1 <= hour <= current_hour now ->
  nonce ∉ default ∅ (cache !! hour) ->
  exists cache', authenticate secret now cache r = (cache', inr (with_auth (hash_pubkey pk) pk r)).
Proof.
  intros pk Hkey Hmac H1' H2' H3' Hh H4' H5' Hw Hn.
  unfold authenticate, read_auth_headers. rewrite H1', H2', H3', H4', H5'.
  rewrite !hex_roundtrip, Hh. unfold pk at 1. rewrite ed_public_length. cbn [negb Nat.eqb ah_hour ah_pk
    ah_nonce ah_hmac ah_sig].
  pose proof (current_hour_range now) as Hr. assert (0 <= hour) as H0' by (by apply parse_u64_range in Hh as [? _]).
  rewrite (proj2 (Z.ltb_ge _ _)) by lia.
  rewrite (proj2 (Z.ltb_ge _ _)) by (unfold u64_sat_sub; zlia). cbn [orb]. rewrite Hkey.
  assert (verify_hmac key pk hour (rq_path r) nonce mac = true) as ->.
  { unfold verify_hmac. rewrite Hmac, Nat.eqb_refl. by apply bool_decide_eq_true. }
  cbn [negb].
  destruct (ed_sign_verify sk) as (vkey & Hvk & Hver).
  assert (verify_signature pk mac pk hour nonce (ed_sign sk (build_challenge mac pk hour nonce)) = true) as ->.
  { unfold verify_signature, pk. rewrite Hvk, sig_from_slice_64 by apply ed_sign_length. apply Hver. }
  cbn [negb]. destruct (check_replay cache hour nonce) as [c' f] eqn:Ec.
  assert (0 <= hour <= u64_max) as Hhr by lia.
  destruct (check_replay_spec _ _ _ _ _ Hhr Ec) as [_ Hself].
  assert (f = true) as ->.
  { destruct (MAX_NONCES_PER_BUCKET <=? _); destruct Hself as [_ ->]; [done|]. by apply bool_decide_eq_true. }
  cbn [negb]. by eexists.
Qed.

(** ** The challenge service (src/services/auth.rs) *)

Definition CHALLENGE_TTL_SECS : Z := 300.

Definition cleanup_challenges {A} (k : prog A) : prog A :=
  let! now := ENow in
  let! _ := EChallengeRetain now in k.

Context `{BuildProfile}.

(** The challenge id and the challenge, in hex. *)
Definition challenge (pubkey : string) : prog (AppError + (string * string)) :=
  try pk_bytes := map_err (fun _ => BadRequest "invalid pubkey hex") (hex_decode pubkey) in
  if negb (Nat.eqb (length pk_bytes) 32) then Ret (inl (BadRequest "invalid pubkey length")) else
  let! challenge_bytes := ERandom 32 in
  let! id_bytes := ERandom 16 in
  let challenge_id := hex_encode id_bytes in
  let! now := ENow in
  arith (i64_op (now + CHALLENGE_TTL_SECS)) (fun expires_at =>
  cleanup_challenges (
  let! _ := EChallengeInsert challenge_id (challenge_bytes, expires_at) in
  Ret (inr (challenge_id, hex_encode challenge_bytes)))).

Record VerifyRequest := mk_verify_request {
  vr_pubkey : string; vr_challenge_id : string; vr_signature : string }.

(** The auth key in hex. *)
Definition verify (server_secret : string) (req : VerifyRequest) : prog (AppError + string) :=
  try pk_array := map_err (fun _ => BadRequest "invalid pubkey hex") (hex_decode (vr_pubkey req)) in
  if negb (Nat.eqb (length pk_array) 32) then Ret (inl (BadRequest "invalid pubkey length")) else
  try sig_bytes := map_err (fun _ => BadRequest "invalid signature hex") (hex_decode (vr_signature req)) in
  cleanup_challenges (
  let! c := EChallengeRemove (vr_challenge_id req) in
  try stored := ok_or c (BadRequest "challenge not found or expired") in
  try pk := ok_or (vk_from_bytes pk_array) (BadRequest "invalid pubkey") in
  try sig := ok_or (sig_from_slice sig_bytes) (BadRequest "invalid signature encoding") in
  if negb (ed_verify pk (fst stored) sig) then Ret (inl (BadRequest "signature verification failed")) else
  try auth_key := ok_or (derive_auth_key server_secret pk_array) (Internal "auth key derivation failed") in
  Ret (inr (hex_encode auth_key))).

(** A challenge is good once and for five minutes: [verify] answers an auth key
    only for a stored challenge that has not expired, signed under the key whose
    auth key it answers; and whatever the outcome of the signature check, the
    challenge is gone, so that the same id never verifies again. *)
Theorem verify_single_use env env2 secret req req2 w w' w2 key :
  run env (verify secret req) w = (w', Some (inr key)) ->
  w_challenges w2 = w_challenges w' -> vr_challenge_id req2 = vr_challenge_id req ->
  (exists c exp pk_bytes pk sig_bytes sig auth_key,
    w_challenges w !! vr_challenge_id req = Some (c, exp) /\ env_now env (w_time w) < exp /\
    hex_decode (vr_pubkey req) = inr pk_bytes /\ vk_from_bytes pk_bytes = Some pk /\
    hex_decode (vr_signature req) = inr sig_bytes /\ sig_from_slice sig_bytes = Some sig /\
    ed_verify pk c sig = true /\
    derive_auth_key secret pk_bytes = Some auth_key /\ key = hex_encode auth_key) /\
  (forall key2 w3, run env2 (verify secret req2) w2 <> (w3, Some (inr key2))).
Proof.
  unfold verify, cleanup_challenges. intros E Hw2 Hid.
  destruct (hex_decode (vr_pubkey req)) as [|pkb] eqn:E1; [done|]. cbn [map_err] in E.
  destruct (negb (Nat.eqb (length pkb) 32)); [done|].
  destruct (hex_decode (vr_signature req)) as [|sb] eqn:E2; [done|]. cbn [map_err] in E.
  step_in E. step_in E. step_in E.
  destruct (filter _ _ !! vr_challenge_id req) as [[c exp]|] eqn:Ec; [|done]. cbn [ok_or fst] in E.
  apply map_lookup_filter_Some in Ec as [Ec Hexp]. cbn in Hexp.
  destruct (vk_from_bytes pkb) as [pk|] eqn:E3; [|done]. cbn [ok_or] in E.
  destruct (sig_from_slice sb) as [sig|] eqn:E4; [|done]. cbn [ok_or] in E.
  destruct (ed_verify pk c sig) eqn:E5; [|done]. cbn [negb] in E.
  destruct (derive_auth_key secret pkb) as [k|] eqn:E6; [|done]. cbn in E. simplify_eq.
  cbn in Hw2. split; [by exists c, exp, pkb, pk, sb, sig, k|].
  intros key2 w3 F.
  destruct (map_err _ (hex_decode (vr_pubkey req2))) as [|pkb2]; [done|].
  destruct (negb (Nat.eqb (length pkb2) 32)); [done|].
  destruct (map_err _ (hex_decode (vr_signature req2))) as [|sb2]; [done|].
  step_in F. step_in F. step_in F. rewrite Hw2, Hid in F.
  destruct (filter _ (delete _ _) !! vr_challenge_id req) as [[c2 exp2]|] eqn:Ec2; [|done].
  apply map_lookup_filter_Some in Ec2 as [Ec2 _]. by rewrite lookup_delete_eq in Ec2.
Qed.

(** The flow of the frontend: a challenge that is signed and sent back within
    its five minutes is answered with the auth key the middleware derives for
    that public key. *)
Theorem challenge_verify_flow `{!HexLaws _} `{!HashingLaws _} `{!Ed25519Laws _}
    env env2 secret sk w w' w2 id ch c :
  run env (challenge (hex_encode (ed_public sk))) w = (w', Some (inr (id, ch))) ->
  hex_decode ch = inr c ->
  w_challenges w2 !! id = w_challenges w' !! id ->
  in_i64 (env_now env (S (S (w_time w))) + CHALLENGE_TTL_SECS) ->
  env_now env2 (w_time w2) < env_now env (S (S (w_time w))) + CHALLENGE_TTL_SECS ->
  exists key w3,
    derive_auth_key secret (ed_public sk) = Some key /\
    run env2 (verify secret (mk_verify_request (hex_encode (ed_public sk)) id (hex_encode (ed_sign sk c)))) w2
      = (w3, Some (inr (hex_encode key))) /\
    w_challenges w3 !! id = None.
Proof.
  unfold challenge, cleanup_challenges. intros E Hc Hsame Hr Hnow.
  rewrite hex_roundtrip in E. cbn [map_err] in E. rewrite ed_public_length in E. cbn [negb Nat.eqb] in E.
  step_in E. step_in E. step_in E. rewrite i64_op_in in E by done. cbn [arith] in E.
  step_in E. step_in E. step_in E. cbn [run] in E. simplify_eq.
  rewrite hex_roundtrip in Hc. simplify_eq. cbn [w_challenges w_set_challenges w_tick] in Hsame.
  rewrite lookup_insert_eq in Hsame.
  destruct (hmac_total (as_bytes secret) (as_bytes "auth_key_derivation_v1" ++ ed_public sk)) as [key Hkey].
  destruct (ed_sign_verify sk) as (vkey & Hvk & Hver).
  eexists key, _. split; [done|]. unfold verify, cleanup_challenges. cbn [vr_pubkey vr_challenge_id vr_signature].
  rewrite !hex_roundtrip. cbn [map_err]. rewrite ed_public_length. cbn [negb Nat.eqb].
  step. step. step.
  rewrite (proj2 (map_lookup_filter_Some _ _ _ _)) by (split; [exact Hsame|exact Hnow]).
  cbn [ok_or fst]. rewrite Hvk. cbn [ok_or]. rewrite sig_from_slice_64 by apply ed_sign_length.
  cbn [ok_or]. rewrite Hver. cbn [negb]. unfold derive_auth_key. rewrite Hkey. cbn [ok_or run].
  split; [done|]. cbn. by rewrite lookup_delete_eq.
Qed.
End auth.

(** ** Witnesses *)

Definition auth_sk : bytes := sha256 (as_bytes "bob").
Definition auth_hour : Z := 485277.
Definition auth_now : Z := 485277 * 3600 + 5.

(** The request the frontend sends for [GET /orders/x]. *)
Definition auth_request (nonce : bytes) : Request :=
  let pk := ed_public auth_sk in
  let mac := match derive_auth_key "secret" pk with
             | Some key => default [] (compute_hmac key pk auth_hour "/orders/x" nonce)
             | None => []
             end in
  mk_request "GET" "/orders/x"
    [("x-auth-pubkey", as_bytes (hex_encode pk)); ("x-auth-hmac", as_bytes (hex_encode mac));
     ("x-auth-hour", as_bytes "485277"); ("x-auth-nonce", as_bytes (hex_encode nonce));
     ("x-auth-signature", as_bytes (hex_encode (ed_sign auth_sk (build_challenge mac pk auth_hour nonce))))]
    None None None.

Lemma replay_protection_witness :
  let l := [(auth_now, auth_request (as_bytes "n")); (auth_now + 60, auth_request (as_bytes "n"))] in
  run_auth "secret" ∅ l !! 0%nat = Some (Some (auth_hour, as_bytes "n")) /\
  run_auth "secret" ∅ l !! 1%nat <> Some (Some (auth_hour, as_bytes "n")).
Proof.
  intros l. assert (run_auth "secret" ∅ l !! 0%nat = Some (Some (auth_hour, as_bytes "n"))) as H0
    by (vm_compute; reflexivity).
  split; [exact H0|]. apply (replay_protection "secret" l 0 1 auth_hour (as_bytes "n")); [|exact H0|lia|].
  - repeat constructor; vm_compute; discriminate.
  - vm_compute. reflexivity.
Defined.

Lemma authenticate_sound_witness :
  match authenticate "secret" auth_now ∅ (auth_request (as_bytes "n")) with
  | (_, inr r') => rq_pubkey r' = Some (ed_public auth_sk) /\ rq_path r' = "/orders/x"
  | _ => False
  end.
Proof.
  destruct (authenticate _ _ _ _) as [c' [e|r']] eqn:E;
    [exfalso; apply (f_equal snd) in E; vm_compute in E; discriminate E|].
  destruct (authenticate_sound _ _ _ _ _ _ E) as
    (h & key & vkey & sig & Er & _ & _ & _ & _ & _ & _ & _ & _ & _ & Hpk & Hpath & _).
  split; [|exact Hpath]. rewrite Hpk. vm_compute in Er. injection Er as <-. reflexivity.
Defined.

Lemma authenticate_complete_witness :
  exists cache', authenticate "secret" auth_now ∅ (auth_request (as_bytes "n")) =
    (cache', inr (with_auth (hash_pubkey (ed_public auth_sk)) (ed_public auth_sk) (auth_request (as_bytes "n")))).
Proof.
  destruct (derive_auth_key "secret" (ed_public auth_sk)) as [key|] eqn:Ek; [|vm_compute in Ek; discriminate Ek].
  destruct (compute_hmac key (ed_public auth_sk) auth_hour "/orders/x" (as_bytes "n")) as [mac|] eqn:Em;
    [|vm_compute in Em; discriminate Em].
  pose proof Ek as Ek'. pose proof Em as Em'.
  vm_compute in Ek'. injection Ek' as <-. vm_compute in Em'. injection Em' as <-.
  eapply (authenticate_complete "secret" auth_now ∅ (auth_request (as_bytes "n")) auth_sk _ auth_hour
    "485277" (as_bytes "n") _ Ek Em); try reflexivity.
  - split; vm_compute; discriminate.
  - rewrite lookup_empty. apply not_elem_of_empty.
Defined.

Definition challenge_world : World :=
  fst (run sample_env (@challenge _ release (hex_encode (ed_public auth_sk))) empty_world).

Definition sample_verify : VerifyRequest :=
  mk_verify_request (hex_encode (ed_public auth_sk)) (hex_encode (env_random sample_env 1 16))
    (hex_encode (ed_sign auth_sk (env_random sample_env 0 32))).

Lemma verify_single_use_witness :
  match run sample_env (verify "secret" sample_verify) challenge_world with
  | (w', Some (inr key)) =>
      forall key2 w3, run sample_env (verify "secret" sample_verify) w' <> (w3, Some (inr key2))
  | _ => False
  end.
Proof.
  destruct (run _ _ _) as [w' [[e|key]|]] eqn:E;
    [exfalso; apply (f_equal snd) in E; vm_compute in E; discriminate E| |
     exfalso; apply (f_equal snd) in E; vm_compute in E; discriminate E].
  apply (verify_single_use sample_env sample_env "secret" sample_verify sample_verify challenge_world w' w' key E eq_refl eq_refl).
Defined.

Lemma challenge_verify_flow_witness :
  match run sample_env (@challenge _ release (hex_encode (ed_public auth_sk))) empty_world with
  | (w', Some (inr (id, ch))) =>
      exists key w3, derive_auth_key "secret" (ed_public auth_sk) = Some key /\
        run sample_env (verify "secret" sample_verify) w' = (w3, Some (inr (hex_encode key)))
  | _ => False
  end.
Proof.
  destruct (run _ _ _) as [w' [[e|[id ch]]|]] eqn:E;
    [exfalso; apply (f_equal snd) in E; vm_compute in E; discriminate E| |
     exfalso; apply (f_equal snd) in E; vm_compute in E; discriminate E].
  assert (id = vr_challenge_id sample_verify /\ ch = hex_encode (env_random sample_env 0 32)) as [-> ->].
  { apply (f_equal snd) in E. vm_compute in E. injection E as <- <-. split; reflexivity. }
  destruct (challenge_verify_flow (H3 := release) sample_env sample_env "secret" auth_sk empty_world w' w'
    _ _ (env_random sample_env 0 32) E) as (key & w3 & Hk & Hv & _).
  - apply hex_roundtrip.
  - reflexivity.
  - vm_compute. split; discriminate.
  - assert (w_time w' = 6%nat) as -> by (apply (f_equal (fun x => w_time (fst x))) in E; vm_compute in E; done).
    vm_compute. reflexivity.
  - exists key, w3. split; [exact Hk|exact Hv].
Defined.
