(* ===== verification/RateLimit.v ===== *)
(** The rate limiter, src/gateway/ratelimit.rs: one fixed window per key. *)
From S2P Require Import Prelude.

(** [Instant]s are numbers of nanoseconds; [now - start] saturates at zero. *)
Record RateEntry := mk_rate_entry { re_count : Z (* u32 *); re_window_start : Z }.

Record RateLimiter := mk_rate_limiter { max_requests : Z (* u32 *); window_duration : Z }.

Definition new_limiter (max window_seconds : Z) : RateLimiter :=
  mk_rate_limiter max (window_seconds * 1000000000).

Abbreviation Buckets := (gmap string RateEntry).

Definition check (l : RateLimiter) (now : Z) (key : string) (buckets : Buckets) : Buckets * bool :=
  match buckets !! key with
  | Some entry =>
      if window_duration l <? Z.max 0 (now - re_window_start entry)
      then (<[key := mk_rate_entry 1 now]> buckets, true)
      else if max_requests l <=? re_count entry then (buckets, false)
      else (<[key := mk_rate_entry (re_count entry + 1) (re_window_start entry)]> buckets, true)
  | None => (<[key := mk_rate_entry 1 now]> buckets, true)
  end.

Definition is_allowed (l : RateLimiter) (now : Z) (key : string) (buckets : Buckets) : Buckets * bool :=
  check l now key buckets.

(** Checks in the order the mutex serves them. *)
Fixpoint run_checks (l : RateLimiter) (buckets : Buckets) (reqs : list (Z * string)) : list bool :=
  match reqs with
  | [] => []
  | (now, key) :: t =>
      let '(b, ok) := check l now key buckets in ok :: run_checks l b t
  end.

(** How many requests of [key] at times in [t0, t1] were allowed. *)
Fixpoint allowed (key : string) (t0 t1 : Z) (reqs : list (Z * string)) (oks : list bool) : Z :=
  match reqs, oks with
  | (now, k) :: t, ok :: oks' =>
      (if ok && bool_decide (k = key) && (t0 <=? now) && (now <=? t1) then 1 else 0)
      + allowed key t0 t1 t oks'
  | _, _ => 0
  end.

(** ** The bound *)

(** What a bucket may still allow within [t0, t0 + window]. *)
Definition entry_room (l : RateLimiter) (t0 : Z) (e : option RateEntry) : Z :=
  match e with
  | None => Z.max 1 (max_requests l)
  | Some e =>
      if re_window_start e <? t0
      then Z.max 0 (max_requests l - re_count e) + Z.max 1 (max_requests l)
      else Z.max 0 (max_requests l - re_count e)
  end.

Lemma check_other l now key k b b' ok :
  check l now k b = (b', ok) -> k <> key -> b' !! key = b !! key.
Proof.
  unfold check. intros E Hne. destruct (b !! k) as [e|]; [|simplify_eq; by rewrite lookup_insert_ne].
  destruct (_ <? _); [simplify_eq; by rewrite lookup_insert_ne|].
  destruct (_ <=? _); simplify_eq; [done|by rewrite lookup_insert_ne].
Qed.

(** Inside the interval a check uses up the room it grants. *)
Lemma check_room l t0 now key b b' ok :
  t0 <= now <= t0 + window_duration l ->
  check l now key b = (b', ok) ->
  entry_room l t0 (b' !! key) + (if ok then 1 else 0) <= entry_room l t0 (b !! key).
Proof.
  unfold check. intros Hnow E. destruct (b !! key) as [e|] eqn:Eb.
  - destruct (Z.ltb_spec (window_duration l) (Z.max 0 (now - re_window_start e))) as [Hw|Hw].
    + simplify_eq. rewrite lookup_insert_eq. cbn [entry_room re_window_start re_count].
      destruct (Z.ltb_spec now t0); [lia|]. destruct (Z.ltb_spec (re_window_start e) t0); lia.
    + destruct (Z.leb_spec (max_requests l) (re_count e)); simplify_eq.
      * rewrite Eb. lia.
      * rewrite lookup_insert_eq. cbn [entry_room re_window_start re_count].
        destruct (Z.ltb_spec (re_window_start e) t0); lia.
  - simplify_eq. rewrite lookup_insert_eq. cbn [entry_room re_window_start re_count].
    destruct (Z.ltb_spec now t0); lia.
Qed.

(** Before the interval the room stays within twice the limit. *)
Definition bucket_ok (l : RateLimiter) (b : Buckets) : Prop :=
  forall key e, b !! key = Some e -> 0 <= re_count e.

Lemma check_ok l now key b b' ok : bucket_ok l b -> check l now key b = (b', ok) -> bucket_ok l b'.
Proof.
  unfold check. intros Hb E k e He. destruct (b !! key) as [e0|] eqn:Eb.
  - pose proof (Hb _ _ Eb). destruct (_ <? _); [|destruct (_ <=? _)]; simplify_eq;
      try (by eapply Hb); apply lookup_insert_Some in He as [[<- <-]|[_ He]];
      cbn; try lia; by eapply Hb.
  - simplify_eq. apply lookup_insert_Some in He as [[<- <-]|[_ He]]; [cbn; lia|by eapply Hb].
Qed.

Lemma entry_room_max l t0 e :
  0 <= max_requests l -> (forall x, e = Some x -> 0 <= re_count x) ->
  entry_room l t0 e <= 2 * Z.max 1 (max_requests l).
Proof.
  intros Hm He. destruct e as [x|]; cbn [entry_room]; [|lia].
  specialize (He x eq_refl). destruct (_ <? _); lia.
Qed.

Lemma entry_room_nonneg l t0 e : 0 <= entry_room l t0 e.
Proof. destruct e as [x|]; cbn [entry_room]; [destruct (_ <? _); lia|lia]. Qed.

Lemma allowed_in l t0 key reqs b :
  Sorted Z.le (t0 :: map fst reqs) ->
  allowed key t0 (t0 + window_duration l) reqs (run_checks l b reqs) <= entry_room l t0 (b !! key).
Proof.
  revert b. induction reqs as [|[now k] reqs IH]; intros b Hs; [apply entry_room_nonneg|].
  cbn [map fst] in Hs. apply Sorted_inv in Hs as [Hs Hhd]. inversion Hhd as [|? ? Hle]; subst.
  cbn [run_checks]. destruct (check l now k b) as [b' ok] eqn:E. cbn [allowed].
  assert (Sorted Z.le (t0 :: map fst reqs)) as Hs'.
  { apply Sorted_inv in Hs as [Hs Hhd']. constructor; [done|].
    destruct reqs; cbn in *; constructor. inversion Hhd'; subst. lia. }
  specialize (IH b' Hs'). destruct (decide (k = key)) as [->|Hne].
  - rewrite bool_decide_true by done. rewrite andb_true_r.
    destruct (Z.leb_spec now (t0 + window_duration l)) as [Hin|Hout].
    + pose proof (check_room l t0 now key b b' ok ltac:(lia) E).
      rewrite (proj2 (Z.leb_le t0 now)) by lia. destruct ok; cbn [andb]; lia.
    + rewrite andb_false_r. cbn [Z.add].
      (* every later check is after the interval too *)
      assert (forall b, allowed key t0 (t0 + window_duration l) reqs (run_checks l b reqs) = 0) as ->.
      { clear -Hs Hout. revert now Hs Hout. induction reqs as [|[n k] reqs IH]; intros now Hs Hout b; [done|].
        cbn [map fst] in Hs. apply Sorted_inv in Hs as [Hs Hhd]. inversion Hhd; subst.
        cbn [run_checks]. destruct (check l n k b) as [b' ok]. cbn [allowed].
        rewrite (proj2 (Z.leb_gt n (t0 + window_duration l))) by lia. rewrite andb_false_r.
        rewrite (IH n Hs ltac:(lia)). done. }
      apply entry_room_nonneg.
  - rewrite bool_decide_false by done. rewrite andb_false_r. cbn [andb Z.add].
    by rewrite <-(check_other _ _ _ _ _ _ _ E Hne).
Qed.

(** C33. The rate limiter bounds bursts: whatever the keys of the other requests, in
    any interval as long as the window at most twice the configured number of
    requests of one key are allowed (a fixed window can be filled at its end and
    the next at its start); with a limit of zero, one per window still is. *)
Theorem rate_limit_burst l reqs key t0 b :
  0 <= max_requests l -> bucket_ok l b -> Sorted Z.le (map fst reqs) ->
  allowed key t0 (t0 + window_duration l) reqs (run_checks l b reqs)
    <= 2 * Z.max 1 (max_requests l).
Proof.
  intros Hm. revert b. induction reqs as [|[now k] reqs IH]; intros b Hb Hs; [cbn; lia|].
  destruct (Z.lt_ge_cases now t0) as [Hlt|Hge].
  - cbn [map fst] in Hs. apply Sorted_inv in Hs as [Hs _].
    cbn [run_checks]. destruct (check l now k b) as [b' ok] eqn:E. cbn [allowed].
    rewrite (proj2 (Z.leb_gt t0 now)) by lia. rewrite andb_false_r. cbn [andb Z.add].
    apply IH; [by eapply check_ok|done].
  - etransitivity; [apply allowed_in|].
    + constructor; [done|]. cbn [map fst]. by constructor.
    + apply entry_room_max; [done|]. intros x Hx. by eapply Hb.
Qed.

Lemma rate_limit_burst_witness :
  let l := mk_rate_limiter 2 10 in
  let reqs := [(0, "a"); (9, "a"); (9, "b"); (9, "a"); (11, "a"); (12, "a"); (13, "a")] in
  allowed "a" 3 (3 + window_duration l) reqs (run_checks l ∅ reqs) = 3 /\ 3 <= 2 * Z.max 1 2.
Proof.
  intros l reqs. split; [vm_compute; reflexivity|].
  replace 3 with (allowed "a" 3 (3 + window_duration l) reqs (run_checks l ∅ reqs)) at 1
    by (vm_compute; reflexivity).
  apply (rate_limit_burst l reqs "a" 3 ∅); [done| |].
  - intros k e He. by rewrite lookup_empty in He.
  - repeat constructor; cbn; lia.
Defined.
