(* ===== verification/Gateway.v ===== *)
(** The middleware stack of src/gateway/: error_unifier.rs, response_padding.rs,
    stateless_auth.rs, rate_limit_middleware.rs, validation.rs, tor_guard.rs and
    security.rs, layered around the router as [build_router] does (mod.rs).

    A handler takes the request and the state and answers the new state and a
    response; a middleware takes the next handler.  The router with its services
    is a parameter of the stack: its state is [gw_app]. *)
From S2P Require Import Prelude Interfaces Instances Models Effects Amounts Texts Auth RateLimit.

Record Gateway (S : Type) := mk_gateway {
  gw_replay : ReplayCache; gw_buckets : Buckets; gw_app : S }.
Arguments mk_gateway {S} _ _ _.
Arguments gw_replay {S} _.
Arguments gw_buckets {S} _.
Arguments gw_app {S} _.

(** What the stack reads from its surroundings, per request. *)
Record GatewayEnv := mk_gateway_env {
  ge_server_secret : string;
  ge_now : Z;               (** [OffsetDateTime::now_utc().unix_timestamp()] *)
  ge_instant : Z;           (** [Instant::now()] *)
  ge_slot : Z;              (** [gen_range(0..8)] *)
  ge_limiter : RateLimiter }.

Definition PADDED_SIZE : nat := Z.to_nat 4096.
Definition MAX_REQUEST_SIZE : Z := 1048576.
Definition MAX_PATH_LENGTH : Z := 256.
Definition MAX_HEADER_COUNT : Z := 50.
Definition MAX_HEADER_VALUE_LENGTH : Z := 8192.

(** [HeaderMap::insert] and [remove]; names are lower case. *)
Definition hdr_remove (name : string) (hs : list (string * string)) : list (string * string) :=
  List.filter (fun h => negb (bool_decide (fst h = name))) hs.
Definition hdr_insert (name value : string) (hs : list (string * string)) : list (string * string) :=
  hdr_remove name hs ++ [(name, value)].

Fixpoint rhdr_get (hs : list (string * string)) (name : string) : option string :=
  match hs with
  | [] => None
  | (n, v) :: t => if decide (n = name) then Some v else rhdr_get t name
  end.

(** [str::contains] *)
Definition str_contains (p s : string) : bool :=
  match String.index 0 p s with Some _ => true | None => false end.

Section gateway.
Context `{Hex} `{Hashing} `{Ed25519} `{HeaderText}.
Context {S : Type}.

Definition handler : Type := Request -> Gateway S -> Gateway S * Response.

Definition is_client_error (status : Z) : bool := (400 <=? status) && (status <? 500).

Definition error_unifier_middleware (next : handler) : handler := fun request st =>
  let '(st, response) := next request st in
  if is_client_error (r_status response)
  then (st, mk_response 500 (hdr_remove "content-length" (r_headers response)) (Some error_body))
  else (st, response).

Definition space : byte := byte_of_Z 32.

Definition response_padding_middleware (next : handler) : handler := fun request st =>
  let '(st, response) := next request st in
  match r_body response with
  | None =>
      (st, mk_response (r_status response) (hdr_insert "content-length" "4096" (r_headers response))
             (Some (replicate PADDED_SIZE space)))
  | Some body_bytes =>
      if Nat.ltb PADDED_SIZE (length body_bytes)
      then (st, mk_response (r_status response)
                  (hdr_insert "content-length" (dec_string (Z.of_nat (length body_bytes))) (r_headers response))
                  (Some body_bytes))
      else (st, mk_response (r_status response) (hdr_insert "content-length" "4096" (r_headers response))
                  (Some (resize PADDED_SIZE space body_bytes)))
  end.

Definition stateless_auth_middleware (env : GatewayEnv) (next : handler) : handler := fun request st =>
  if auth_exempt (rq_path request) then next request st
  else
    let '(cache, r) := authenticate (ge_server_secret env) (ge_now env) (gw_replay st) request in
    let st := mk_gateway cache (gw_buckets st) (gw_app st) in
    match r with
    | inl e => (st, into_response e)
    | inr request => next request st
    end.

(** [format!("ip:{}", first_ip.trim())] *)

Definition get_rate_limit_key (request : Request) : string :=
  let from_header :=
    match header_str request "x-auth-pubkey" with
    | Some pubkey_str =>
        if negb (bool_decide (pubkey_str = "")) && negb (bool_decide (pubkey_str = "anonymous"))
        then Some pubkey_str else None
    | None => None
    end in
  let from_ip :=
    match header_str request "x-forwarded-for" with
    | Some ip_str =>
        let first_ip := default [] (split_on (Z.eqb 44) (str_of ip_str) !! 0%nat) in
        "ip:" +:+ trim_text (of_utf8 (map byte_of_Z first_ip))
    | None =>
        match header_str request "x-real-ip" with
        | Some ip_str => "ip:" +:+ ip_str
        | None => "anonymous"
        end
    end in
  match rq_auth request with
  | Some auth =>
      let key := hex_encode auth in
      if negb (bool_decide (key = "")) then key else default from_ip from_header
  | None => default from_ip from_header
  end.

Definition extract_pubkey_from_request (request : Request) : option string :=
  let from_header :=
    match header_str request "x-auth-pubkey" with
    | Some s => if negb (bool_decide (s = "")) && negb (bool_decide (s = "anonymous")) then Some s else None
    | None => None
    end in
  match rq_auth request with
  | Some auth =>
      let key := hex_encode auth in
      if negb (bool_decide (key = "")) then Some key else from_header
  | None => from_header
  end.

Definition rate_limit_middleware (env : GatewayEnv) (next : handler) : handler := fun request st =>
  let key := get_rate_limit_key request in
  let '(buckets, ok) := check (ge_limiter env) (ge_instant env) key (gw_buckets st) in
  let st := mk_gateway (gw_replay st) buckets (gw_app st) in
  if negb ok then (st, into_response RateLimited) else next request st.

Definition uniform_rejection : Response := uniform_error.

(** Whether [validation_middleware] lets a request through. *)
Definition request_valid (request : Request) : bool :=
  match (header_str request "content-length" ≫= fun s => parse_u64 (str_of s)) with
  | Some len => len <=? MAX_REQUEST_SIZE
  | None => true
  end &&
  (Z.of_nat (String.length (rq_path request)) <=? MAX_PATH_LENGTH) &&
  (Z.of_nat (length (rq_headers request)) <=? MAX_HEADER_COUNT) &&
  forallb (fun h => match to_str (snd h) with
                    | Some s => Z.of_nat (String.length s) <=? MAX_HEADER_VALUE_LENGTH
                    | None => true
                    end) (rq_headers request) &&
  (if bool_decide (rq_method request = "POST") || bool_decide (rq_method request = "PUT")
      || bool_decide (rq_method request = "PATCH")
   then match hdr_get (rq_headers request) "content-type" with
        | None => false
        | Some ct =>
            match to_str ct with
            | Some ct_str =>
                String.prefix "application/json" ct_str || String.prefix "multipart/form-data" ct_str
            | None => true
            end
        end
   else true).

Definition validation_middleware (next : handler) : handler := fun request st =>
  if request_valid request then next request st else (st, uniform_rejection).

Definition tor_guard_middleware (env : GatewayEnv) (next : handler) : handler := fun request st =>
  next (mk_request (rq_method request) (rq_path request) (rq_headers request)
          (rq_auth request) (rq_pubkey request) (Some (ge_slot env))) st.

(** [HeaderValue::from_str] accepts every text that [to_str] gave. *)
Definition security_headers (host : option string) (hs : list (string * string)) : list (string * string) :=
  let hs := hdr_insert "x-content-type-options" "nosniff" hs in
  let hs := hdr_insert "x-frame-options" "DENY" hs in
  let hs := hdr_insert "referrer-policy" "no-referrer" hs in
  let hs := hdr_insert "x-robots-tag" "noindex, nofollow" hs in
  let hs := hdr_insert "permissions-policy"
    "camera=(), microphone=(), geolocation=(), interest-cohort=()" hs in
  let hs := hdr_insert "content-security-policy"
    "default-src 'self'; script-src 'self' 'wasm-unsafe-eval'; style-src 'self'; img-src 'self' data:; connect-src 'self'; frame-ancestors 'none'; base-uri 'self'; form-action 'self'" hs in
  let hs := hdr_insert "cache-control" "no-store, max-age=0" hs in
  let hs := hdr_insert "pragma" "no-cache" hs in
  match host with
  | Some host_str => if str_contains ".onion" host_str then hdr_insert "onion-location" host_str hs else hs
  | None => hs
  end.

Definition security_headers_middleware (next : handler) : handler := fun request st =>
  let host := header_str request "host" in
  let '(st, response) := next request st in
  (st, mk_response (r_status response) (security_headers host (r_headers response)) (r_body response)).

(** The layers of [build_router], the last added outermost. *)
Definition gateway (env : GatewayEnv) (router : handler) : handler :=
  error_unifier_middleware
    (response_padding_middleware
      (stateless_auth_middleware env
        (rate_limit_middleware env
          (validation_middleware
            (tor_guard_middleware env
              (security_headers_middleware router)))))).

(** ** Headers *)

Lemma rhdr_get_app hs ks name :
  rhdr_get (hs ++ ks) name = match rhdr_get hs name with Some v => Some v | None => rhdr_get ks name end.
Proof. induction hs as [|[n v] hs IH]; [done|]. cbn. by case_decide. Qed.

Lemma rhdr_get_remove name hs name' :
  rhdr_get (hdr_remove name hs) name' = if decide (name = name') then None else rhdr_get hs name'.
Proof.
  induction hs as [|[n v] hs IH]; [by case_decide|]. unfold hdr_remove in *. cbn [List.filter fst].
  case_bool_decide as Hn; cbn [negb].
  - subst n. rewrite IH. cbn. by repeat case_decide.
  - cbn. rewrite IH. repeat case_decide; congruence.
Qed.

Lemma rhdr_get_insert name v hs name' :
  rhdr_get (hdr_insert name v hs) name' = if decide (name = name') then Some v else rhdr_get hs name'.
Proof.
  unfold hdr_insert. rewrite rhdr_get_app, rhdr_get_remove. cbn.
  case_decide; [done|]. by destruct (rhdr_get hs name').
Qed.

(** ** The shape of every response *)

Lemma padded_shape (next : handler) r st st' resp :
  response_padding_middleware next r st = (st', resp) ->
  exists body, r_body resp = Some body /\
    rhdr_get (r_headers resp) "content-length" = Some (dec_string (Z.of_nat (length body))) /\
    (PADDED_SIZE <= length body)%nat /\
    (forall st2 inner ib, next r st = (st2, inner) -> r_body inner = Some ib ->
      if Nat.ltb PADDED_SIZE (length ib) then body = ib
      else body = ib ++ replicate (PADDED_SIZE - length ib) space) /\
    exists inner, next r st = (st', inner) /\ r_status resp = r_status inner.
Proof.
  unfold response_padding_middleware. destruct (next r st) as [s2 inner] eqn:En.
  assert (dec_string (Z.of_nat PADDED_SIZE) = "4096") as Hdec by reflexivity.
  intros E. destruct (r_body inner) as [ib|] eqn:Eb.
  - destruct (Nat.ltb_spec PADDED_SIZE (length ib)) as [Hlt|Hge]; simplify_eq.
    + exists ib. cbn [r_headers r_body r_status]. rewrite rhdr_get_insert, decide_True by done. split_and!; try done; [lia| |by eauto].
      intros ? ? ? [= <- <-] Hib. rewrite Eb in Hib. injection Hib as <-.
      by rewrite (proj2 (Nat.ltb_lt _ _)).
    + exists (resize PADDED_SIZE space ib). cbn [r_headers r_body r_status]. rewrite rhdr_get_insert, decide_True by done.
      rewrite length_resize, Hdec. split_and!; try done; [|by eauto].
      intros ? ? ? [= <- <-] Hib. rewrite Eb in Hib. injection Hib as <-.
      rewrite (proj2 (Nat.ltb_ge _ _)) by done. by apply resize_ge.
  - simplify_eq. exists (replicate PADDED_SIZE space). cbn [r_headers r_body r_status].
    rewrite rhdr_get_insert, decide_True by done. rewrite length_replicate, Hdec.
    split_and!; try done; [|by eauto]. intros ? ? ? [= <- <-] Hib. congruence.
Qed.

(** Every response that leaves the gateway, whatever the router answered: the
    status is never 4xx; either the body is at least 4096 bytes and announced
    by its length, a body of at most 4096 bytes having been filled up with
    spaces, or the router (an extractor of the framework) answered 4xx and the
    client gets the 17-byte error body, not padded and without a length. *)
Theorem gateway_response_shape env router r st st' resp :
  gateway env router r st = (st', resp) ->
  is_client_error (r_status resp) = false /\
  exists body, r_body resp = Some body /\
    ((PADDED_SIZE <= length body)%nat /\
     rhdr_get (r_headers resp) "content-length" = Some (dec_string (Z.of_nat (length body))) \/
     r_status resp = 500 /\ body = error_body /\ length body = 17%nat /\
     rhdr_get (r_headers resp) "content-length" = None).
Proof.
  unfold gateway. set (inner := stateless_auth_middleware env _). unfold error_unifier_middleware.
  destruct (response_padding_middleware inner r st) as [s2 padded] eqn:Ep. intros E.
  destruct (padded_shape _ _ _ _ _ Ep) as (body & Hb & Hcl & Hlen & _).
  destruct (is_client_error (r_status padded)) eqn:Ec; simplify_eq.
  - split; [done|]. exists error_body. split; [done|]. right. cbn [r_headers r_status].
    split_and!; try done. rewrite rhdr_get_remove. by rewrite decide_True.
  - split; [done|]. exists body. split; [done|]. left. split; [done|exact Hcl].
Qed.

(** What the client sees of a rejection: the uniform error, padded. *)
Definition rejection : Response :=
  mk_response 500 (hdr_insert "content-length" "4096" (r_headers uniform_error))
    (Some (resize PADDED_SIZE space error_body)).

Lemma unify_pad_error (next : handler) r st st' :
  next r st = (st', uniform_error) ->
  error_unifier_middleware (response_padding_middleware next) r st = (st', rejection).
Proof.
  intros En. unfold error_unifier_middleware, response_padding_middleware. rewrite En.
  cbn [uniform_error r_body]. assert (Nat.ltb PADDED_SIZE (length error_body) = false) as -> by reflexivity.
  reflexivity.
Qed.

(** C19. The gate: a request for a protected path reaches the router only
    authenticated, within its rate limit and valid.  Otherwise the services'
    state does not change and, whichever of the three checks refused it, the
    client receives the very same response. *)
Theorem gateway_gate env router r st st' resp :
  gateway env router r st = (st', resp) -> auth_exempt (rq_path r) = false ->
  (exists r' cache,
     authenticate (ge_server_secret env) (ge_now env) (gw_replay st) r = (cache, inr r') /\
     snd (check (ge_limiter env) (ge_instant env) (get_rate_limit_key r') (gw_buckets st)) = true /\
     request_valid r' = true) \/
  (gw_app st' = gw_app st /\ resp = rejection).
Proof.
  intros E Hex. unfold gateway in E.
  destruct (authenticate (ge_server_secret env) (ge_now env) (gw_replay st) r) as [cache [e|r']] eqn:Ea.
  - right. rewrite (unify_pad_error _ r st (mk_gateway cache (gw_buckets st) (gw_app st))) in E.
    + by simplify_eq.
    + unfold stateless_auth_middleware. by rewrite Hex, Ea.
  - destruct (check (ge_limiter env) (ge_instant env) (get_rate_limit_key r') (gw_buckets st))
      as [b' ok] eqn:Ec.
    destruct ok; [destruct (request_valid r') eqn:Ev|].
    + left. exists r', cache. by rewrite Ec.
    + right. rewrite (unify_pad_error _ r st (mk_gateway cache b' (gw_app st))) in E.
      * by simplify_eq.
      * unfold stateless_auth_middleware, rate_limit_middleware, validation_middleware.
        rewrite Hex, Ea. cbn [gw_buckets gw_replay gw_app]. by rewrite Ec, Ev.
    + right. rewrite (unify_pad_error _ r st (mk_gateway cache b' (gw_app st))) in E.
      * by simplify_eq.
      * unfold stateless_auth_middleware, rate_limit_middleware.
        rewrite Hex, Ea. cbn [gw_buckets gw_replay gw_app]. by rewrite Ec.
Qed.
End gateway.

(** ** Witnesses *)

Definition sample_genv : GatewayEnv :=
  mk_gateway_env "secret" auth_now 0 3 (mk_rate_limiter 100 60).
Definition sample_gateway : Gateway nat := mk_gateway ∅ ∅ 0%nat.

(** A router whose JSON extractor rejects the body. *)
Definition rejecting_router : handler (S := nat) := fun r st =>
  (mk_gateway (gw_replay st) (gw_buckets st) (S (gw_app st)), mk_response 422 [] (Some (as_bytes "missing field"))).

(** An authenticated request with a malformed body is answered the bare error
    body. *)
Lemma gateway_response_shape_witness :
  let '(st', resp) := gateway sample_genv rejecting_router (auth_request (as_bytes "n")) sample_gateway in
  gw_app st' = 1%nat /\ is_client_error (r_status resp) = false /\ r_body resp = Some error_body.
Proof.
  destruct (gateway sample_genv rejecting_router (auth_request (as_bytes "n")) sample_gateway)
    as [st' resp] eqn:E.
  destruct (gateway_response_shape sample_genv rejecting_router _ _ _ _ E) as (Hc & _).
  split; [|split; [exact Hc|]].
  - apply (f_equal fst) in E. cbn [fst] in E. rewrite <-E. vm_compute. reflexivity.
  - apply (f_equal snd) in E. cbn [snd] in E. rewrite <-E. vm_compute. reflexivity.
Defined.

Lemma gateway_gate_witness :
  let r := mk_request "POST" "/admin/rotate-kek" [] None None None in
  let '(st', resp) := gateway sample_genv rejecting_router r sample_gateway in
  gw_app st' = 0%nat /\ resp = rejection.
Proof.
  intros r. destruct (gateway sample_genv rejecting_router r sample_gateway) as [st' resp] eqn:E.
  destruct (gateway_gate sample_genv rejecting_router r sample_gateway st' resp E ltac:(reflexivity))
    as [(r' & cache & Ha & _)|[Happ Hresp]].
  - exfalso. apply (f_equal snd) in Ha. vm_compute in Ha. discriminate Ha.
  - split; [exact Happ|exact Hresp].
Defined.
