(* ===== verification/Routes.v ===== *)
(** The router of src/gateway/mod.rs: the routes each service registers, and
    which of them a request reaches without authentication.

    A route is a list of literal segments and parameters; a parameter matches one
    segment that is not empty.  The extractors' percent-decoding of a parameter
    and the JSON bodies are left out; the answer of a known path with another
    method, and the fallback, are [None]. *)
From S2P Require Import Prelude Auth.

(** ** Paths *)

Fixpoint segments (s : string) : list string :=
  match s with
  | EmptyString => [""]
  | String c t =>
      if Ascii.eqb c "/" then "" :: segments t
      else match segments t with p :: ps => String c p :: ps | [] => [String c ""] end
  end.

Fixpoint join_segments (l : list string) : string :=
  match l with
  | [] => ""
  | [a] => a
  | a :: rest => a +:+ String "/" (join_segments rest)
  end.

Lemma segments_nonempty s : segments s <> [].
Proof. destruct s as [|c s]; cbn; [done|]. destruct (Ascii.eqb c "/"); [done|]. by destruct (segments s). Qed.

Lemma join_cons_char c p ps : join_segments (String c p :: ps) = String c (join_segments (p :: ps)).
Proof. by destruct ps. Qed.

Lemma segments_join s : join_segments (segments s) = s.
Proof.
  induction s as [|c s IH]; [done|]. cbn [segments]. pose proof (segments_nonempty s) as Hn.
  destruct (segments s) as [|p ps] eqn:Es; [done|].
  destruct (Ascii.eqb_spec c "/") as [->|_].
  - change (join_segments ("" :: p :: ps)) with (String "/" (join_segments (p :: ps))). by rewrite IH.
  - rewrite join_cons_char. by rewrite IH.
Qed.

(** ** Routes *)

Inductive segment := Lit (s : string) | Param.
Inductive method := GET | POST.

Inductive endpoint :=
| EpWorkerPubkey | EpChallenge | EpVerify
| EpListListings | EpCreateListing | EpGetListing (id : string) | EpUpdateListing (id : string)
| EpCreateOrder | EpGetOrder (id : string) | EpUpdateOrder (id : string)
| EpGetChat (order_id : string) | EpUpdateChat (order_id : string)
| EpBlindSign | EpAdminPubkey | EpRotateKek
| EpOpenDispute | EpGetDispute (id : string) | EpUpdateDispute (id : string) | EpResolveDispute (id : string)
| EpSubscribe (order_id : string).

Record route := mk_route { rt_path : list segment; rt_method : method; rt_endpoint : string -> endpoint }.

Definition public_routes : list route :=
  [mk_route [Lit "public"; Lit "worker-pubkey"] GET (fun _ => EpWorkerPubkey)].
Definition auth_routes : list route :=
  [mk_route [Lit "auth"; Lit "challenge"] POST (fun _ => EpChallenge);
   mk_route [Lit "auth"; Lit "verify"] POST (fun _ => EpVerify)].
Definition listings_routes : list route :=
  [mk_route [Lit "listings"] GET (fun _ => EpListListings);
   mk_route [Lit "listings"] POST (fun _ => EpCreateListing);
   mk_route [Lit "listings"; Param] GET EpGetListing;
   mk_route [Lit "listings"; Param; Lit "update"] POST EpUpdateListing].
Definition orders_routes : list route :=
  [mk_route [Lit "orders"] POST (fun _ => EpCreateOrder);
   mk_route [Lit "orders"; Param] GET EpGetOrder;
   mk_route [Lit "orders"; Param; Lit "update"] POST EpUpdateOrder].
Definition chat_routes : list route :=
  [mk_route [Lit "chat"; Param] GET EpGetChat;
   mk_route [Lit "chat"; Param] POST EpUpdateChat].
Definition admin_routes : list route :=
  [mk_route [Lit "admin"; Lit "blind-sign"] POST (fun _ => EpBlindSign);
   mk_route [Lit "admin"; Lit "pubkey"] GET (fun _ => EpAdminPubkey);
   mk_route [Lit "admin"; Lit "rotate-kek"] POST (fun _ => EpRotateKek)].
Definition disputes_routes : list route :=
  [mk_route [Lit "disputes"] POST (fun _ => EpOpenDispute);
   mk_route [Lit "disputes"; Param] GET EpGetDispute;
   mk_route [Lit "disputes"; Param; Lit "update"] POST EpUpdateDispute;
   mk_route [Lit "disputes"; Param; Lit "resolve"] POST EpResolveDispute].

(** [build_router]: the merged services and the WebSocket. *)
Definition router : list route :=
  public_routes ++ auth_routes ++ listings_routes ++ orders_routes ++ chat_routes ++ admin_routes ++
  disputes_routes ++ [mk_route [Lit "ws"; Lit "payments"; Param] GET EpSubscribe].

(** The parameter of a path that matches ("" when the route has none). *)
Fixpoint match_segments (pattern : list segment) (path : list string) (param : string) : option string :=
  match pattern, path with
  | [], [] => Some param
  | Lit a :: pattern, s :: path => if bool_decide (s = a) then match_segments pattern path param else None
  | Param :: pattern, s :: path => if bool_decide (s = "") then None else match_segments pattern path s
  | _, _ => None
  end.

(** [get] also answers HEAD. *)
Definition method_ok (m : method) (name : string) : bool :=
  match m with
  | GET => bool_decide (name = "GET") || bool_decide (name = "HEAD")
  | POST => bool_decide (name = "POST")
  end.

Definition match_route (name path : string) (r : route) : option endpoint :=
  match segments path with
  | "" :: rest =>
      param ← match_segments (rt_path r) rest "";
      if method_ok (rt_method r) name then Some (rt_endpoint r param) else None
  | _ => None
  end.

Fixpoint dispatch_in (routes : list route) (name path : string) : option endpoint :=
  match routes with
  | [] => None
  | r :: rest => match match_route name path r with Some e => Some e | None => dispatch_in rest name path end
  end.

Definition dispatch (name path : string) : option endpoint := dispatch_in router name path.

(** ** Which endpoints need no authentication *)

Definition open_endpoint (e : endpoint) : bool :=
  match e with EpWorkerPubkey | EpChallenge | EpVerify => true | _ => false end.

(** The path of a match, rebuilt from its pattern and parameter. *)
Fixpoint path_of (pattern : list segment) (param : string) : list string :=
  match pattern with
  | [] => []
  | Lit a :: rest => a :: path_of rest param
  | Param :: rest => param :: path_of rest param
  end.

(** Routes have at most one parameter. *)
Fixpoint params (pattern : list segment) : nat :=
  match pattern with [] => 0 | Lit _ :: rest => params rest | Param :: rest => S (params rest) end.

Lemma match_segments_fixed pattern : forall path p q,
  params pattern = 0%nat -> match_segments pattern path p = Some q -> q = p /\ forall x, path = path_of pattern x.
Proof.
  induction pattern as [|[a|] rest IH]; intros [|s path] p q Hn E; cbn in *; simplify_eq; [done|].
  case_bool_decide; [|done]. subst s. destruct (IH path p q Hn E) as [-> Hx]. split; [done|].
  intros x. by rewrite (Hx x) at 1.
Qed.

Lemma match_segments_path pattern : forall path p q,
  (params pattern <= 1)%nat -> match_segments pattern path p = Some q -> path = path_of pattern q.
Proof.
  induction pattern as [|[a|] rest IH]; intros [|s path] p q Hn E; cbn in *; simplify_eq; [done| |].
  - case_bool_decide; [|done]. subst s. by rewrite (IH path p q Hn E) at 1.
  - case_bool_decide; [done|]. destruct (match_segments_fixed rest path s q ltac:(lia) E) as [-> Hx].
    by rewrite (Hx s) at 1.
Qed.

Lemma match_route_path name path r e :
  (params (rt_path r) <= 1)%nat -> match_route name path r = Some e ->
  exists param, e = rt_endpoint r param /\ path = join_segments ("" :: path_of (rt_path r) param).
Proof.
  intros Hp E. unfold match_route in E. destruct (segments path) as [|[|c s] rest] eqn:Es; [done| |done].
  destruct (match_segments (rt_path r) rest "") as [param|] eqn:Em; cbn in E; [|done].
  destruct (method_ok _ _); simplify_eq. exists param. split; [done|].
  rewrite <-(match_segments_path _ _ _ _ Hp Em), <-Es. by rewrite segments_join.
Qed.

Lemma dispatch_in_match routes name path e :
  dispatch_in routes name path = Some e -> exists r, r ∈ routes /\ match_route name path r = Some e.
Proof.
  induction routes as [|r routes IH]; cbn; [done|]. destruct (match_route name path r) as [e'|] eqn:Em.
  - intros [= ->]. exists r. split; [set_solver|done].
  - intros E. destruct (IH E) as (x & Hx & Hm). exists x. split; [set_solver|done].
Qed.

(** C18. The path decides: whatever path a client sends, the request reaches a handler
    without authentication exactly when the handler is the challenge, its
    verification, or the worker's public key; no other handler is reachable
    through the exempted prefixes. *)
Theorem exempt_routes name path e :
  dispatch name path = Some e -> auth_exempt path = open_endpoint e.
Proof.
  intros E. apply dispatch_in_match in E as (r & Hr & Em).
  assert (Forall (fun r => (params (rt_path r) <= 1)%nat /\
    forall param, auth_exempt (join_segments ("" :: path_of (rt_path r) param)) = open_endpoint (rt_endpoint r param))
    router) as Hall.
  { unfold router. cbn [app public_routes auth_routes listings_routes orders_routes chat_routes admin_routes disputes_routes].
    repeat (apply Forall_cons; split; [split; [cbn; lia|intros param; reflexivity]|]). done. }
  rewrite Forall_forall in Hall. destruct (Hall r Hr) as [Hp Hex].
  destruct (match_route_path name path r e Hp Em) as (param & -> & ->). apply Hex.
Qed.

Lemma exempt_routes_witness :
  dispatch "POST" "/orders/0a/update" = Some (EpUpdateOrder "0a") /\ auth_exempt "/orders/0a/update" = false.
Proof.
  assert (dispatch "POST" "/orders/0a/update" = Some (EpUpdateOrder "0a")) as E by (vm_compute; reflexivity).
  split; [exact E|]. exact (exempt_routes "POST" "/orders/0a/update" _ E).
Defined.
