(* ===== verification/Listings.v ===== *)
(** The listing service, src/services/listings.rs: creation, lookup, update and
    search by opaque token. *)
From S2P Require Import Prelude Interfaces Instances TimeBuckets Models Effects Occ Transition Orders.

Record CreateListingRequest := mk_create_listing {
  cl_client_encrypted_blob : string;
  cl_search_token : option string;
  cl_status : option string;
  cl_currency : option string;
  cl_time_lock_days : option Z;
  cl_nonce : string }.

Record UpdateListingRequest := mk_update_listing {
  ul_client_encrypted_blob : string;
  ul_search_token : option string;
  ul_status : option string;
  ul_currency : option string;
  ul_nonce : string }.

Record SearchQuery := mk_search_query {
  sq_q : option string;
  sq_currency : option string;
  sq_status : option string;
  sq_limit : option Z;
  sq_offset : option Z }.

Record ListingResponse := mk_listing_response {
  lr_id : string;
  lr_client_encrypted_blob : string;
  lr_search_token : option string;
  lr_status : string;
  lr_currency : string;
  lr_day_bucket : Z;
  lr_version : Z }.

Record ListingsResponse := mk_listings_response { lrs_listings : list ListingResponse; lrs_total : Z }.

Definition MAX_LISTING_BLOB_BYTES : Z := 64 * 1024.
Definition MAX_SEARCH_TOKEN_BYTES : Z := 256.
Definition MAX_LABEL_BYTES : Z := 32.

Definition is_ascii (s : string) : bool := forallb (fun b => byte_val b <? 128) (as_bytes s).

Definition validate_label (label field : string) : AppError + string :=
  if Nat.eqb (String.length label) 0 then inl (BadRequest (field +:+ " is empty"))
  else if MAX_LABEL_BYTES <? Z.of_nat (String.length label) then inl (BadRequest (field +:+ " too long"))
  else if negb (is_ascii label) then inl (BadRequest (field +:+ " must be ASCII"))
  else inr label.

(** [.filter(|s| !s.is_empty())] *)
Definition non_empty (o : option string) : option string :=
  match o with Some s => if bool_decide (s = "") then None else Some s | None => None end.

(** ** The order of the search: [ORDER BY day_bucket DESC, id DESC] *)

(** [a] comes before or with [b]. *)
Definition newer (a b : Listing) : Prop :=
  l_day_bucket b < l_day_bucket a \/
  (l_day_bucket a = l_day_bucket b /\ blob_leb (l_id b) (l_id a) = true).

#[global] Instance newer_dec a b : Decision (newer a b).
Proof. unfold newer. apply _. Defined.

(** The [WHERE] clause. *)
Definition matches (status currency : option string) (token : option bytes) (l : Listing) : bool :=
  match status with Some s => bool_decide (l_status l = s) | None => true end &&
  match currency with Some c => bool_decide (l_currency l = c) | None => true end &&
  match token with Some t => bool_decide (l_search_token l = Some t) | None => true end.

(** All rows the query can answer, in its order; [LIMIT ? OFFSET ?]. *)
Definition hits (status currency : option string) (token : option bytes) (rows : list Listing) : list Listing :=
  merge_sort newer (List.filter (matches status currency token) rows).
Definition page (limit offset : Z) (rows : list Listing) : list Listing :=
  take (Z.to_nat limit) (drop (Z.to_nat offset) rows).

Section listings.
Context `{BuildProfile} `{Hex}.

Definition decode_listing_blob (s : string) : AppError + bytes :=
  match hex_decode s with
  | inl _ => inl (BadRequest "Invalid client_encrypted_blob hex")
  | inr blob =>
      if Nat.eqb (length blob) 0 then inl (BadRequest "client_encrypted_blob is empty")
      else if MAX_LISTING_BLOB_BYTES <? Z.of_nat (length blob)
      then inl (BadRequest "client_encrypted_blob too large")
      else inr blob
  end.

Definition decode_search_token (o : option string) : AppError + option bytes :=
  match o with
  | Some hex_str =>
      match hex_decode hex_str with
      | inl _ => inl (BadRequest "Invalid search_token hex")
      | inr bytes =>
          if MAX_SEARCH_TOKEN_BYTES <? Z.of_nat (length bytes)
          then inl (BadRequest "search_token too large") else inr (Some bytes)
      end
  | None => inr None
  end.

Definition validate_opt (o : option string) (field : string) : AppError + option string :=
  match o with
  | Some s => match validate_label s field with inl e => inl e | inr l => inr (Some l) end
  | None => inr None
  end.

Definition create_listing (req : CreateListingRequest) : prog (AppError + ListingResponse) :=
  try blob := decode_listing_blob (cl_client_encrypted_blob req) in
  try search_token := decode_search_token (cl_search_token req) in
  try status := validate_label (default "active" (cl_status req)) "status" in
  try currency := validate_label (default "XMR" (cl_currency req)) "currency" in
  let! fresh := ENonceInsert ListingCreate (cl_nonce req) in
  if negb fresh then Ret (inl (Conflict "Create-listing nonce already used")) else
  let! ts := ENow in
  let now := floor_timestamp_6h ts in
  let! listing_id := EUuid in
  let! r := EListingInsert (mk_listing listing_id blob now search_token status currency 1) in
  try _ := map_err db_error r in
  Ret (inr (mk_listing_response (hex_encode listing_id) (cl_client_encrypted_blob req)
              (cl_search_token req) status currency now 1)).

Definition listing_response (l : Listing) : ListingResponse :=
  mk_listing_response (hex_encode (l_id l)) (hex_encode (l_encrypted_listing_blob l))
    (option_map hex_encode (l_search_token l)) (l_status l) (l_currency l) (l_day_bucket l) (l_version l).

Definition list_listings (query : SearchQuery) : prog (AppError + ListingsResponse) :=
  let limit := Z.max 1 (Z.min 100 (default 50 (sq_limit query))) in
  let offset := Z.max 0 (default 0 (sq_offset query)) in
  let filter_status := non_empty (sq_status query) in
  let filter_currency := non_empty (sq_currency query) in
  try search_token_bytes :=
    match non_empty (sq_q query) with
    | Some hex_str =>
        match hex_decode hex_str with
        | inl _ => inl (BadRequest "Invalid q hex")
        | inr b => inr (Some b)
        end
    | None => inr None
    end in
  let! r := EListingAll in
  try rows := map_err db_error r in
  let rows := page limit offset (hits filter_status filter_currency search_token_bytes rows) in
  Ret (inr (mk_listings_response (map listing_response rows) (Z.of_nat (length rows)))).

Definition get_listing (id : string) : prog (AppError + ListingResponse) :=
  try id_bytes := map_err (fun _ => BadRequest "Invalid id") (hex_decode id) in
  let! r := EListingSelect id_bytes in
  try row := map_err db_error r in
  try l := ok_or row (NotFound "Listing not found") in
  Ret (inr (mk_listing_response id (hex_encode (l_encrypted_listing_blob l))
              (option_map hex_encode (l_search_token l)) (l_status l) (l_currency l)
              (l_day_bucket l) (l_version l))).

(** [SET encrypted_listing_blob, search_token, status, currency, version = version + 1] *)
Definition set_listing (blob : bytes) (token : option bytes) (status currency : string) (l : Listing) : Listing :=
  mk_listing (l_id l) blob (l_day_bucket l) token status currency (l_version l + 1).

Definition update_listing (id : string) (req : UpdateListingRequest) : prog (AppError + ListingResponse) :=
  try id_bytes := map_err (fun _ => BadRequest "Invalid id") (hex_decode id) in
  try blob := decode_listing_blob (ul_client_encrypted_blob req) in
  try search_token := decode_search_token (ul_search_token req) in
  try status := validate_opt (ul_status req) "status" in
  try currency := validate_opt (ul_currency req) "currency" in
  let! fresh := ENonceInsert ListingUpdate (nonce_key id (ul_nonce req)) in
  if negb fresh then Ret (inl (Conflict "Update-listing nonce already used")) else
  let! r := EListingSelect id_bytes in
  try row := map_err db_error r in
  try current := ok_or row (NotFound "Listing not found") in
  let v := l_version current in
  let final_status := default (l_status current) status in
  let final_currency := default (l_currency current) currency in
  let! r := EListingUpdate (set_listing blob search_token final_status final_currency) id_bytes v in
  try n := map_err db_error r in
  if Nat.eqb n 0 then Ret (inl (Conflict "Listing was modified by another request")) else
  let! ts := ENow in
  let now := floor_timestamp_6h ts in
  arith (i64_op (v + 1)) (fun v' =>
  Ret (inr (mk_listing_response id (ul_client_encrypted_blob req) (ul_search_token req)
              final_status final_currency now v'))).
End listings.

(** ** The search order is total *)

#[global] Instance newer_trans : Transitive newer.
Proof.
  intros a b c [H1|[H1 H1']] [H2|[H2 H2']]; unfold newer; [left; lia..|].
  right. split; [lia|]. by eapply blob_leb_trans.
Qed.

#[global] Instance newer_total : Total newer.
Proof.
  intros a b. unfold newer.
  destruct (Z.lt_total (l_day_bucket a) (l_day_bucket b)) as [?|[E|?]]; [right; by left| |left; by left].
  destruct (blob_leb_total (l_id a) (l_id b)); [right; right|left; right]; by rewrite E.
Qed.

(** ** Pages *)

Lemma take_drop_split {A} (l : list A) a b : take a (drop b l) ++ drop (b + a) l = drop b l.
Proof. rewrite <-drop_drop. apply take_drop. Qed.

(** Consecutive pages put together are the list from the first offset on. *)
Lemma pages_concat (rows : list Listing) limit k n :
  0 <= limit -> 0 <= k ->
  concat (map (fun i => page limit (i * limit) rows) (seqZ k (Z.of_nat n))) ++
    drop (Z.to_nat ((k + Z.of_nat n) * limit)) rows = drop (Z.to_nat (k * limit)) rows.
Proof.
  intros Hl. revert k. induction n as [|n IH]; intros k Hk.
  - cbn. by rewrite Z.add_0_r.
  - rewrite seqZ_cons by lia. cbn [map concat]. rewrite <-app_assoc.
    replace (k + Z.of_nat (S n)) with (Z.succ k + Z.of_nat n) by lia.
    replace (Z.pred (Z.of_nat (S n))) with (Z.of_nat n) by lia.
    rewrite IH by lia. unfold page.
    replace (Z.to_nat (Z.succ k * limit)) with (Z.to_nat (k * limit) + Z.to_nat limit)%nat by lia.
    apply take_drop_split.
Qed.

Section listings_facts.
Context `{BuildProfile} `{Hex}.

Definition decode_query_token (q : option string) : AppError + option bytes :=
  match non_empty q with
  | Some hex_str =>
      match hex_decode hex_str with inl _ => inl (BadRequest "Invalid q hex") | inr b => inr (Some b) end
  | None => inr None
  end.

Lemma list_listings_run env q w tok :
  quiet env -> decode_query_token (sq_q q) = inr tok ->
  run env (list_listings q) w =
  let rows := page (Z.max 1 (Z.min 100 (default 50 (sq_limit q)))) (Z.max 0 (default 0 (sq_offset q)))
    (hits (non_empty (sq_status q)) (non_empty (sq_currency q)) tok (map snd (map_to_list (w_listings w)))) in
  (w_tick w, Some (inr (mk_listings_response (map listing_response rows) (Z.of_nat (length rows))))).
Proof.
  intros Hq Ht. unfold list_listings. unfold decode_query_token in Ht. rewrite Ht. by step.
Qed.

(** C32. Search is complete: paging through a search with any page size from 1 to 100
    answers every listing whose status, currency and token match, each exactly
    once, newest bucket first; and no request of the search changes anything. *)
Theorem search_pages_complete env w q st cur tok limit n :
  quiet env -> decode_query_token q = inr tok -> 1 <= limit <= 100 ->
  let all := hits (non_empty st) (non_empty cur) tok (map snd (map_to_list (w_listings w))) in
  Z.of_nat (length all) <= Z.of_nat n * limit ->
  concat (map (fun i =>
    match snd (run env (list_listings (mk_search_query q cur st (Some limit) (Some (i * limit)))) w) with
    | Some (inr resp) => lrs_listings resp
    | _ => []
    end) (seqZ 0 (Z.of_nat n))) = map listing_response all /\
  Sorted newer all /\
  all ≡ₚ List.filter (matches (non_empty st) (non_empty cur) tok) (map snd (map_to_list (w_listings w))) /\
  (forall l, l ∈ all <-> (exists id, w_listings w !! id = Some l) /\
     matches (non_empty st) (non_empty cur) tok l = true).
Proof.
  intros Hq Ht Hl all Hn.
  assert (all ≡ₚ List.filter (matches (non_empty st) (non_empty cur) tok) (map snd (map_to_list (w_listings w))))
    as Hperm by apply merge_sort_Permutation.
  split_and!; [|apply (Sorted_merge_sort newer)|done|].
  - transitivity (concat (map (fun i => map listing_response (page limit (i * limit) all)) (seqZ 0 (Z.of_nat n)))).
    { f_equal. apply map_ext_in. intros i Hi. rewrite <-list_elem_of_In in Hi. apply elem_of_seqZ in Hi.
      rewrite (list_listings_run env (mk_search_query q cur st (Some limit) (Some (i * limit))) w tok Hq Ht). cbn [sq_limit sq_offset sq_status sq_currency from_option id snd
        lrs_listings].
      by rewrite Z.min_r, Z.max_r, Z.max_r by nia. }
    rewrite <-(map_map (fun i => page limit (i * limit) all) (map listing_response)), <-concat_map. f_equal.
    pose proof (pages_concat all limit 0 n ltac:(lia) ltac:(lia)) as Hp.
    rewrite drop_ge, app_nil_r in Hp by lia. exact Hp.
  - intros l. rewrite Hperm, list_elem_of_In, filter_In, <-list_elem_of_In, list_elem_of_fmap.
    split; intros [Hin Hm]; split; try done.
    + destruct Hin as ([id x] & -> & Hin%elem_of_map_to_list). by exists id.
    + destruct Hin as [id Hin]. exists (id, l). split; [done|]. by apply elem_of_map_to_list.
Qed.

(** ** Creation and update *)

Lemma decode_listing_blob_ok s blob :
  decode_listing_blob s = inr blob ->
  hex_decode s = inr blob /\ 0 < Z.of_nat (length blob) <= MAX_LISTING_BLOB_BYTES.
Proof.
  unfold decode_listing_blob. destruct (hex_decode s) as [|b]; [done|].
  destruct (Nat.eqb_spec (length b) 0); [done|].
  destruct (Z.ltb_spec MAX_LISTING_BLOB_BYTES (Z.of_nat (length b))); [done|].
  intros [= ->]. split; [done|lia].
Qed.

Definition label_ok (s : string) : Prop :=
  (1 <= String.length s)%nat /\ Z.of_nat (String.length s) <= MAX_LABEL_BYTES /\ is_ascii s = true.

Lemma validate_label_ok label field l :
  validate_label label field = inr l -> l = label /\ label_ok label.
Proof.
  unfold validate_label, label_ok. destruct (Nat.eqb_spec (String.length label) 0); [done|].
  destruct (Z.ltb_spec MAX_LABEL_BYTES (Z.of_nat (String.length label))); [done|].
  destruct (is_ascii label); [|done]. intros [= <-]. split_and!; [done|lia|done|done].
Qed.

Lemma validate_opt_ok o field l :
  validate_opt o field = inr l -> l = o /\ (forall x, o = Some x -> label_ok x).
Proof.
  unfold validate_opt. destruct o as [x|]; [|by intros [= <-]].
  destruct (validate_label x field) as [|y] eqn:E; [done|]. intros [= <-].
  apply validate_label_ok in E as [-> Hx]. split; [done|]. by intros ? [= <-].
Qed.

Lemma create_listing_ok env req w w' resp :
  run env (create_listing req) w = (w', Some (inr resp)) ->
  exists blob token status currency now id,
    decode_listing_blob (cl_client_encrypted_blob req) = inr blob /\
    decode_search_token (cl_search_token req) = inr token /\
    status = default "active" (cl_status req) /\ currency = default "XMR" (cl_currency req) /\
    label_ok status /\ label_ok currency /\
    now = floor_timestamp_6h (env_now env (S (w_time w))) /\
    w_listings w !! id = None /\
    w_listings w' = <[id := mk_listing id blob now token status currency 1]> (w_listings w) /\
    w_orders w' = w_orders w /\
    (ListingCreate, cl_nonce req) ∉ w_nonces w /\ (ListingCreate, cl_nonce req) ∈ w_nonces w' /\
    resp = mk_listing_response (hex_encode id) (cl_client_encrypted_blob req) (cl_search_token req)
             status currency now 1.
Proof.
  unfold create_listing. intros E.
  destruct (decode_listing_blob _) as [|blob] eqn:E1; [done|].
  destruct (decode_search_token _) as [|token] eqn:E2; [done|].
  destruct (validate_label _ "status") as [|status] eqn:E3; [done|].
  destruct (validate_label _ "currency") as [|currency] eqn:E4; [done|].
  apply validate_label_ok in E3 as [-> Hs], E4 as [-> Hc].
  step_in E. case_decide as Hn; [by cbn in E|]. cbn [negb] in E.
  step_in E. step_in E. step_in E. no_fault E. cbn [l_id] in E.
  destruct (w_listings w !! _) eqn:El; [done|]. cbn in E. simplify_eq.
  exists blob, token, (default "active" (cl_status req)), (default "XMR" (cl_currency req)).
  eexists _, _. split_and!; try done; [by cbn..|set_solver].
Qed.

Lemma get_listing_row env id idb l w :
  quiet env -> hex_decode id = inr idb -> w_listings w !! idb = Some l ->
  run env (get_listing id) w =
    (w_tick w, Some (inr (mk_listing_response id (hex_encode (l_encrypted_listing_blob l))
      (option_map hex_encode (l_search_token l)) (l_status l) (l_currency l) (l_day_bucket l) (l_version l)))).
Proof.
  intros Hq Hid Hl. unfold get_listing. rewrite Hid. cbn [map_err]. step. by rewrite Hl.
Qed.

(** A created listing is one new row with the blob, token, labels and 6-hour
    bucket of the request; it is read back under its id, and the search by its
    token finds it. *)
Theorem create_listing_found `{!HexLaws _} env env2 req w w' resp :
  run env (create_listing req) w = (w', Some (inr resp)) -> quiet env2 ->
  exists id l,
    w_listings w !! id = None /\ w_listings w' = <[id := l]> (w_listings w) /\
    w_orders w' = w_orders w /\
    (21600 | l_day_bucket l) /\ l_version l = 1 /\ l_status l = default "active" (cl_status req) /\
    hex_decode (cl_client_encrypted_blob req) = inr (l_encrypted_listing_blob l) /\
    decode_search_token (cl_search_token req) = inr (l_search_token l) /\
    hex_decode (lr_id resp) = inr id /\
    run env2 (get_listing (lr_id resp)) w' =
      (w_tick w', Some (inr (listing_response l))) /\
    (forall tok, l_search_token l = Some tok -> tok <> [] ->
      l ∈ hits None None (Some tok) (map snd (map_to_list (w_listings w')))).
Proof.
  intros E Hq.
  destruct (create_listing_ok _ _ _ _ _ E) as
    (blob & token & status & currency & now & id & E1 & E2 & -> & -> & Hs & Hc & Hnow & Hnone & Ew & Ho & _ & _ & ->).
  destruct (decode_listing_blob_ok _ _ E1) as [Hb _].
  set (l := mk_listing id blob now token _ _ 1) in *.
  exists id, l. split_and!; try done.
  - unfold l. cbn [l_day_bucket]. rewrite Hnow. apply Z.divide_factor_r.
  - apply hex_roundtrip.
  - rewrite (get_listing_row env2 _ id l); [done|done|apply hex_roundtrip|by rewrite Ew, lookup_insert_eq].
  - intros tok Htok Hne. unfold hits. rewrite merge_sort_Permutation.
    rewrite list_elem_of_In, filter_In, <-list_elem_of_In, list_elem_of_fmap. split.
    + exists (id, l). split; [done|]. apply elem_of_map_to_list. by rewrite Ew, lookup_insert_eq.
    + unfold matches. cbn [andb]. rewrite Htok. by apply bool_decide_eq_true.
Qed.

(** Updating a listing replaces its blob and token (an absent token clears it),
    keeps the labels the request leaves out, bumps the version and leaves the
    bucket and every other row alone; the answer carries those values, except
    that its bucket is that of the current time, not of the row. *)
Theorem update_listing_effect env id req w w' resp :
  run env (update_listing id req) w = (w', Some (inr resp)) ->
  exists idb blob token l,
    hex_decode id = inr idb /\ hex_decode (ul_client_encrypted_blob req) = inr blob /\
    0 < Z.of_nat (length blob) <= MAX_LISTING_BLOB_BYTES /\
    decode_search_token (ul_search_token req) = inr token /\
    (forall x, ul_status req = Some x \/ ul_currency req = Some x -> label_ok x) /\
    w_listings w !! idb = Some l /\
    w_listings w' = <[idb := mk_listing (l_id l) blob (l_day_bucket l) token
      (default (l_status l) (ul_status req)) (default (l_currency l) (ul_currency req))
      (l_version l + 1)]> (w_listings w) /\
    w_orders w' = w_orders w /\
    (ListingUpdate, nonce_key id (ul_nonce req)) ∉ w_nonces w /\
    (ListingUpdate, nonce_key id (ul_nonce req)) ∈ w_nonces w' /\
    lr_status resp = default (l_status l) (ul_status req) /\
    lr_currency resp = default (l_currency l) (ul_currency req) /\
    i64_op (l_version l + 1) = Some (lr_version resp) /\
    (exists t, lr_day_bucket resp = floor_timestamp_6h (env_now env t)).
Proof.
  unfold update_listing. intros E.
  destruct (hex_decode id) as [|idb] eqn:Eid; [done|]. cbn [map_err] in E.
  destruct (decode_listing_blob _) as [|blob] eqn:E1; [done|].
  destruct (decode_listing_blob_ok _ _ E1) as [Hb Hl].
  destruct (decode_search_token _) as [|token] eqn:E2; [done|].
  destruct (validate_opt _ "status") as [|status] eqn:E3; [done|].
  destruct (validate_opt _ "currency") as [|currency] eqn:E4; [done|].
  apply validate_opt_ok in E3 as [-> Hs], E4 as [-> Hc].
  step_in E. case_decide as Hn; [by cbn in E|]. cbn [negb] in E.
  step_in E. no_fault E. destruct (w_listings w !! idb) as [l|] eqn:El; [|done]. cbn [ok_or] in E.
  step_in E. no_fault E. unfold sql_update_listing in E. rewrite El, decide_True in E by done.
  cbn [map_err Nat.eqb] in E. step_in E.
  destruct (i64_op (l_version l + 1)) as [v'|] eqn:Ei; [|done]. cbn [arith run] in E. simplify_eq.
  exists idb, blob, token, l. split_and!; try done; try (by apply Hl).
  - intros x [Hx|Hx]; [by apply Hs|by apply Hc].
  - cbn. set_solver.
  - by eexists.
Qed.

(** A failed listing request changes no row. *)
Lemma listings_fail_unchanged env id creq ureq q w w' e :
  run env (create_listing creq) w = (w', Some (inl e)) \/
  run env (update_listing id ureq) w = (w', Some (inl e)) \/
  run env (get_listing id) w = (w', Some (inl e)) \/
  run env (list_listings q) w = (w', Some (inl e)) ->
  w_orders w' = w_orders w /\ w_listings w' = w_listings w.
Proof.
  intros [E|[E|[E|E]]]; revert E; apply err_unchanged;
    unfold create_listing, update_listing, get_listing, list_listings; err_paths.
Qed.
End listings_facts.

(** ** Witnesses *)

Definition sample_listing (n day : Z) (status : string) : Listing :=
  mk_listing (le_bytes 16 n) (as_bytes "blob") day (Some (as_bytes "t")) status "XMR" 1.

Definition world_with_listings (ls : list Listing) : World :=
  w_set_listings (fun m => foldr (fun l => <[l_id l := l]>) m ls) empty_world.

Lemma search_pages_complete_witness :
  let w := world_with_listings [sample_listing 1 21600 "active"; sample_listing 2 43200 "active";
                                sample_listing 3 43200 "sold"; sample_listing 4 43200 "active"] in
  let all := hits (Some "active") None (Some (as_bytes "t")) (map snd (map_to_list (w_listings w))) in
  map (fun r => lr_id r) (concat (map (fun i =>
    match snd (run sample_env (list_listings (mk_search_query (Some (hex_encode (as_bytes "t"))) None
                 (Some "active") (Some 2) (Some (i * 2)))) w) with
    | Some (inr resp) => lrs_listings resp
    | _ => []
    end) (seqZ 0 (Z.of_nat 2)))) = map (fun n => hex_encode (le_bytes 16 n)) [4; 2; 1] /\
  Sorted newer all.
Proof.
  intros w all.
  assert (Z.of_nat (length all) <= Z.of_nat 2 * 2) as Hn by (apply Z.leb_le; vm_compute; reflexivity).
  assert (decode_query_token (Some (hex_encode (as_bytes "t"))) = inr (Some (as_bytes "t"))) as Ht by reflexivity.
  destruct (search_pages_complete sample_env w (Some (hex_encode (as_bytes "t"))) (Some "active") None
    (Some (as_bytes "t")) 2 2 sample_env_quiet Ht ltac:(lia) Hn) as (Hp & Hs & _).
  split; [|exact Hs]. rewrite Hp. vm_compute. reflexivity.
Defined.

Definition sample_create_listing : CreateListingRequest :=
  mk_create_listing (hex_encode (as_bytes "sealed")) (Some (hex_encode (as_bytes "t"))) None (Some "BTC") None "n".

Lemma create_listing_found_witness :
  match run sample_env (create_listing sample_create_listing) empty_world with
  | (w', Some (inr resp)) =>
      exists l, run sample_env (get_listing (lr_id resp)) w' = (w_tick w', Some (inr (listing_response l))) /\
        l_version l = 1 /\ l_status l = "active"
  | _ => False
  end.
Proof.
  run_witness E.
  destruct (create_listing_found _ sample_env _ _ _ _ E sample_env_quiet) as
    (id & l' & _ & _ & _ & _ & Hv & Hs & _ & _ & _ & Hg & _).
  exists l'. split_and!; [exact Hg|exact Hv|exact Hs].
Defined.

Lemma update_listing_effect_witness :
  match run sample_env (@update_listing release _ (hex_encode (le_bytes 16 1))
          (mk_update_listing (hex_encode (as_bytes "new")) None (Some "sold") None "u1"))
          (world_with_listings [sample_listing 1 21600 "active"]) with
  | (w', Some (inr resp)) =>
      lr_status resp = "sold" /\ w_orders w' = w_orders empty_world
  | _ => False
  end.
Proof.
  run_witness E.
  destruct (update_listing_effect _ _ _ _ _ _ E) as
    (idb & blob & token & l' & _ & _ & _ & _ & _ & _ & _ & Ho & _ & _ & Hs & _).
  split; [exact Hs|exact Ho].
Defined.
