(* ===== verification/Blobs.v ===== *)
(** Encrypted blobs: src/crypto/oblivious.rs (order and listing blobs under the
    worker key, ECDH blobs from the browser), [EncryptedBlob] of
    src/crypto/zk.rs, the messages of src/crypto/client.rs, the domain keys of
    src/crypto/escrow.rs and src/crypto/worker_pubkey.rs, and their counterparts
    in wasm/src/ (encrypt.rs, decrypt.rs, listing.rs, auth.rs, search.rs).

    Nonces and ephemeral keys are arguments: the random bytes drawn by the
    call.  [new_from_slice] on a 32-byte key succeeds. *)
From S2P Require Import Prelude Interfaces Instances Auth.

Definition ECDH_PUBKEY_SIZE : nat := 32.
Definition ECDH_NONCE_SIZE : nat := 12.
Definition ECDH_BLOB_MIN : nat := ECDH_PUBKEY_SIZE + ECDH_NONCE_SIZE + 1.

Section blobs.
Context `{Hashing} `{Aead} `{X25519} `{Hex}.

(** ** Blobs under a key derived from a secret and a row id *)

Definition derive_blob_key (server_secret label id : bytes) : option bytes :=
  hmac_sha256 server_secret (label ++ id).

(** [nonce (12B) || ciphertext] *)
Definition seal (key nonce plaintext : bytes) : option bytes :=
  match aead_encrypt key nonce plaintext with
  | Some ciphertext => Some (nonce ++ ciphertext)
  | None => None
  end.

Definition derive_order_key (server_secret order_id : bytes) : option bytes :=
  derive_blob_key server_secret (as_bytes "oblivious-order-v1") order_id.

Definition encrypt_order_blob (nonce plaintext server_secret order_id : bytes) : option bytes :=
  match derive_order_key server_secret order_id with
  | Some key => seal key nonce plaintext
  | None => None
  end.

Definition decrypt_order_blob (blob server_secret order_id : bytes) : option bytes :=
  if Nat.ltb (length blob) 13 then None
  else
    let nonce_bytes := take 12 blob in
    let ciphertext := drop 12 blob in
    match derive_order_key server_secret order_id with
    | Some key => aead_decrypt key nonce_bytes ciphertext
    | None => None
    end.

Definition reencrypt_order_blob (nonce old_blob new_plaintext server_secret order_id : bytes) : option bytes :=
  match decrypt_order_blob old_blob server_secret order_id with
  | Some _ => encrypt_order_blob nonce new_plaintext server_secret order_id
  | None => None
  end.

Definition derive_listing_key (server_secret listing_id : bytes) : option bytes :=
  derive_blob_key server_secret (as_bytes "oblivious-listing-v1") listing_id.

Definition encrypt_listing_blob (nonce plaintext server_secret listing_id : bytes) : option bytes :=
  match derive_listing_key server_secret listing_id with
  | Some key => seal key nonce plaintext
  | None => None
  end.

Definition decrypt_listing_blob (blob server_secret listing_id : bytes) : option bytes :=
  if Nat.ltb (length blob) 13 then None
  else
    let nonce_bytes := take 12 blob in
    let ciphertext := drop 12 blob in
    match derive_listing_key server_secret listing_id with
    | Some key => aead_decrypt key nonce_bytes ciphertext
    | None => None
    end.

(** ** ECDH blobs: [ephemeral_pk (32B) || nonce (12B) || ciphertext] *)

Definition ecdh_info : bytes := as_bytes "tor-marketplace-order-key-v1".

Definition encrypt_ecdh_blob (ephemeral_sk nonce_bytes plaintext recipient_pubkey : bytes) : option bytes :=
  let shared_secret := x_dh ephemeral_sk recipient_pubkey in
  match hkdf32 shared_secret ecdh_info with
  | None => None
  | Some key =>
      match aead_encrypt key nonce_bytes plaintext with
      | None => None
      | Some ciphertext => Some (x_public ephemeral_sk ++ nonce_bytes ++ ciphertext)
      end
  end.

Definition decrypt_ecdh_blob (blob server_secret_key : bytes) : option bytes :=
  if Nat.ltb (length blob) ECDH_BLOB_MIN then None
  else
    let ephemeral_pk := take ECDH_PUBKEY_SIZE blob in
    let rest := drop ECDH_PUBKEY_SIZE blob in
    let nonce_bytes := take ECDH_NONCE_SIZE rest in
    let ciphertext := drop ECDH_NONCE_SIZE rest in
    let shared_secret := x_dh server_secret_key ephemeral_pk in
    match hkdf32 shared_secret ecdh_info with
    | None => None
    | Some key => aead_decrypt key nonce_bytes ciphertext
    end.

(** [encrypt_order] and [decrypt_order] of the WASM module; a [throw_str] or an
    [expect] is [None]. *)
Definition wasm_encrypt_order (ephemeral_sk nonce_bytes plaintext recipient_pubkey : bytes) : option bytes :=
  if negb (Nat.eqb (length recipient_pubkey) 32) then None
  else
    let shared_secret := x_dh ephemeral_sk recipient_pubkey in
    match hkdf32 shared_secret ecdh_info with
    | None => None
    | Some key =>
        match aead_encrypt key nonce_bytes plaintext with
        | None => None
        | Some ciphertext => Some (x_public ephemeral_sk ++ nonce_bytes ++ ciphertext)
        end
    end.

Definition wasm_decrypt_order (ciphertext secret_key : bytes) : string + bytes :=
  if negb (Nat.eqb (length secret_key) 32) then inl "secret_key must be 32 bytes"
  else if Nat.ltb (length ciphertext) 44 then inl "ciphertext too short"
  else
    let ephemeral_pk := take 32 ciphertext in
    let nonce := take 12 (drop 32 ciphertext) in
    let encrypted := drop 44 ciphertext in
    let shared_secret := x_dh secret_key ephemeral_pk in
    match hkdf32 shared_secret ecdh_info with
    | None => inl "HKDF expand failed"
    | Some key =>
        match aead_decrypt key nonce encrypted with
        | Some p => inr p
        | None => inl "decryption failed"
        end
    end.

(** [encrypt_listing], [decrypt_listing] of the WASM module. *)
Definition wasm_encrypt_listing (nonce_bytes plaintext content_key : bytes) : string + bytes :=
  if negb (Nat.eqb (length content_key) 32) then inl "content_key must be 32 bytes"
  else match seal content_key nonce_bytes plaintext with
       | Some out => inr out
       | None => inl "listing encryption failed"
       end.

Definition wasm_decrypt_listing (ciphertext content_key : bytes) : string + bytes :=
  if negb (Nat.eqb (length content_key) 32) then inl "content_key must be 32 bytes"
  else if Nat.ltb (length ciphertext) 13 then inl "ciphertext too short"
  else match aead_decrypt content_key (take 12 ciphertext) (drop 12 ciphertext) with
       | Some p => inr p
       | None => inl "listing decryption failed"
       end.

(** [compute_hmac_token] and [search_token] of the WASM module. *)
Definition wasm_compute_hmac_token (auth_key pubkey : bytes) (hour : Z) (path : string) (nonce : bytes)
    : option bytes :=
  hmac_sha256 auth_key (pubkey ++ le_bytes 8 hour ++ as_bytes path ++ nonce).

Definition wasm_search_token (keyword : string) (search_key : bytes) : bytes :=
  blake3 (as_bytes keyword ++ search_key).

(** [SearchToken::generate] (zk.rs). *)
Definition search_token_generate (keyword : string) (search_key : bytes) : bytes :=
  blake3 (as_bytes keyword ++ search_key).

(** ** [EncryptedBlob] (zk.rs) *)

Record EncryptedBlob := mk_encrypted_blob { eb_ciphertext : bytes; eb_nonce : bytes; eb_version : Z }.
Inductive CryptoError := InvalidKeySize | EncryptionFailed | DecryptionFailed.

Definition eb_encrypt (nonce plaintext kek : bytes) : CryptoError + EncryptedBlob :=
  match aead_encrypt kek nonce plaintext with
  | Some ciphertext => inr (mk_encrypted_blob ciphertext nonce 2)
  | None => inl EncryptionFailed
  end.

Definition eb_decrypt (b : EncryptedBlob) (kek : bytes) : CryptoError + bytes :=
  match aead_decrypt kek (eb_nonce b) (eb_ciphertext b) with
  | Some p => inr p
  | None => inl DecryptionFailed
  end.

Definition encrypt_test (nonce pt kek : bytes) : CryptoError + bytes :=
  match eb_encrypt nonce pt kek with
  | inl e => inl e
  | inr blob => inr (eb_nonce blob ++ eb_ciphertext blob)
  end.

Definition decrypt_test (data kek : bytes) : CryptoError + bytes :=
  if Nat.ltb (length data) 12 then inl DecryptionFailed
  else eb_decrypt (mk_encrypted_blob (drop 12 data) (take 12 data) 2) kek.

(** ** Messages between key pairs (client.rs): the raw shared secret is the key *)

Definition encrypt_message (nonce plaintext recipient_pubkey sender_seckey : bytes) : string + bytes :=
  match seal (x_dh sender_seckey recipient_pubkey) nonce plaintext with
  | Some out => inr out
  | None => inl "Encryption failed"
  end.

Definition decrypt_message (ciphertext_with_nonce sender_pubkey recipient_seckey : bytes) : string + bytes :=
  if Nat.ltb (length ciphertext_with_nonce) 12 then inl "Ciphertext too short"
  else match aead_decrypt (x_dh recipient_seckey sender_pubkey) (take 12 ciphertext_with_nonce)
               (drop 12 ciphertext_with_nonce) with
       | Some p => inr p
       | None => inl "Decryption failed"
       end.

(** ** Domain keys *)

(** [derive_domain_key] (escrow.rs). *)
Definition derive_domain_key (seed : bytes) (domain : string) : option bytes :=
  hmac_sha256 seed (as_bytes "domain:" ++ as_bytes domain).

Definition payment_pubkey_hex_from_worker_key (worker_key : bytes) : option string :=
  match derive_domain_key worker_key "payment-decrypt" with
  | Some payment_sk => Some (hex_encode (x_public payment_sk))
  | None => None
  end.

(** ** Round trips *)

Context `{!AeadLaws _} `{!X25519Laws _}.

Lemma seal_open key nonce p out :
  length nonce = 12%nat -> seal key nonce p = Some out ->
  (12 + 16 + length p)%nat = length out /\ aead_decrypt key (take 12 out) (drop 12 out) = Some p.
Proof.
  intros Hn E. unfold seal in E. destruct (aead_encrypt key nonce p) as [c|] eqn:Ec; [|done].
  simplify_eq. pose proof (aead_length _ _ _ _ Ec). split; [rewrite length_app; lia|].
  rewrite <-Hn, take_app_length, drop_app_length. by eapply aead_roundtrip.
Qed.

(** What the worker encrypts for a row it decrypts for that row. *)
Lemma order_blob_roundtrip nonce p secret id blob :
  length nonce = 12%nat -> encrypt_order_blob nonce p secret id = Some blob ->
  decrypt_order_blob blob secret id = Some p.
Proof.
  unfold encrypt_order_blob, decrypt_order_blob. intros Hn E.
  destruct (derive_order_key secret id) as [key|]; [|done].
  destruct (seal_open key nonce p blob Hn E) as [Hl Hd].
  rewrite (proj2 (Nat.ltb_ge _ _)) by lia. exact Hd.
Qed.

Lemma listing_blob_roundtrip nonce p secret id blob :
  length nonce = 12%nat -> encrypt_listing_blob nonce p secret id = Some blob ->
  decrypt_listing_blob blob secret id = Some p.
Proof.
  unfold encrypt_listing_blob, decrypt_listing_blob. intros Hn E.
  destruct (derive_listing_key secret id) as [key|]; [|done].
  destruct (seal_open key nonce p blob Hn E) as [Hl Hd].
  rewrite (proj2 (Nat.ltb_ge _ _)) by lia. exact Hd.
Qed.

(** The three parts of an ECDH blob. *)
Lemma ecdh_parts (pk nonce c : bytes) :
  length pk = 32%nat -> length nonce = 12%nat ->
  take 32 (pk ++ nonce ++ c) = pk /\ take 12 (drop 32 (pk ++ nonce ++ c)) = nonce /\
  drop 12 (drop 32 (pk ++ nonce ++ c)) = c /\ drop 44 (pk ++ nonce ++ c) = c.
Proof.
  intros Hp Hn. rewrite <-Hp at 1 2 3. rewrite take_app_length, drop_app_length.
  rewrite <-Hn at 1 2. rewrite take_app_length, drop_app_length. split_and!; [done..|].
  rewrite app_assoc. apply drop_app_length'. rewrite length_app. lia.
Qed.

(** Browser to worker: an order blob the WASM module encrypts to the worker's
    payment key, which [payment_pubkey_hex_from_worker_key] publishes, is what
    the payment worker decrypts with the domain key it derives; the WASM module
    and the server's own [encrypt_ecdh_blob] produce the same bytes, and each
    decrypts the other's. *)
Theorem wasm_worker_blob `{!HexLaws _} worker_key payment_sk esk nonce p pk :
  derive_domain_key worker_key "payment-decrypt" = Some payment_sk ->
  (payment_pubkey_hex_from_worker_key worker_key ≫= fun s =>
     match hex_decode s with inr b => Some b | inl _ => None end) = Some pk ->
  length nonce = 12%nat ->
  wasm_encrypt_order esk nonce p pk = encrypt_ecdh_blob esk nonce p pk /\
  forall blob, wasm_encrypt_order esk nonce p pk = Some blob ->
    length blob = (32 + 12 + 16 + length p)%nat /\
    decrypt_ecdh_blob blob payment_sk = Some p /\
    (length payment_sk = 32%nat -> wasm_decrypt_order blob payment_sk = inr p).
Proof.
  intros Hsk Hpk Hn. unfold payment_pubkey_hex_from_worker_key in Hpk. rewrite Hsk in Hpk.
  cbn in Hpk. rewrite hex_roundtrip in Hpk. injection Hpk as <-.
  unfold wasm_encrypt_order. rewrite x_public_length. cbn [negb Nat.eqb].
  split; [done|]. intros blob E.
  destruct (hkdf32 _ ecdh_info) as [key|] eqn:Ek; [|done].
  destruct (aead_encrypt key nonce p) as [c|] eqn:Ec; [|done]. simplify_eq.
  pose proof (aead_length _ _ _ _ Ec) as Hl. pose proof (x_public_length esk) as Hpl.
  destruct (ecdh_parts (x_public esk) nonce c Hpl Hn) as (P1 & P2 & P3 & P4).
  assert (length (x_public esk ++ nonce ++ c) = (32 + 12 + 16 + length p)%nat) as Hlen
    by (rewrite !length_app; lia).
  rewrite x_dh_comm in Ek. split; [done|]. split.
  - unfold decrypt_ecdh_blob, ECDH_BLOB_MIN, ECDH_PUBKEY_SIZE, ECDH_NONCE_SIZE.
    rewrite (proj2 (Nat.ltb_ge _ _)) by lia. rewrite P1, P2, P3, Ek. by eapply aead_roundtrip.
  - intros Hsl. unfold wasm_decrypt_order. rewrite Hsl. cbn [negb Nat.eqb].
    rewrite (proj2 (Nat.ltb_ge _ _)) by lia. rewrite P1, P2, P4, Ek.
    by rewrite (aead_roundtrip _ _ _ _ Ec).
Qed.

(** A message encrypted from one key pair to another is decrypted by the
    receiver with the sender's public key, whichever side derives the key. *)
Theorem message_roundtrip nonce p sk_a sk_b out :
  length nonce = 12%nat ->
  encrypt_message nonce p (x_public sk_b) sk_a = inr out ->
  decrypt_message out (x_public sk_a) sk_b = inr p /\
  decrypt_message out (x_public sk_b) sk_a = inr p.
Proof.
  unfold encrypt_message, decrypt_message. intros Hn E.
  destruct (seal _ nonce p) as [o|] eqn:Es; [|done]. simplify_eq.
  destruct (seal_open _ nonce p out Hn Es) as [Hl Hd].
  rewrite (proj2 (Nat.ltb_ge _ _)) by lia. rewrite Hd. split; [|done].
  rewrite <-x_dh_comm. by rewrite Hd.
Qed.

(** The browser's HMAC and search token are the server's. *)
Lemma wasm_hmac_agree key pk hour path nonce :
  wasm_compute_hmac_token key pk hour path nonce = compute_hmac key pk hour path nonce.
Proof. done. Qed.
End blobs.

(** ** Witnesses *)

Definition blob_nonce : bytes := take 12 (sha256 (as_bytes "nonce")).
Definition worker_key_sample : bytes := sha256 (as_bytes "worker").

Lemma wasm_worker_blob_witness :
  exists sk pk blob,
    derive_domain_key worker_key_sample "payment-decrypt" = Some sk /\
    wasm_encrypt_order auth_sk blob_nonce (as_bytes "order") pk = Some blob /\
    decrypt_ecdh_blob blob sk = Some (as_bytes "order").
Proof.
  pose (sk := default [] (derive_domain_key worker_key_sample "payment-decrypt")).
  pose (blob := default [] (wasm_encrypt_order auth_sk blob_nonce (as_bytes "order") (x_public sk))).
  exists sk, (x_public sk), blob.
  assert (wasm_encrypt_order auth_sk blob_nonce (as_bytes "order") (x_public sk) = Some blob) as E
    by (vm_compute; reflexivity).
  split; [vm_compute; reflexivity|]. split; [exact E|].
  assert (derive_domain_key worker_key_sample "payment-decrypt" = Some sk) as E1
    by (vm_compute; reflexivity).
  assert ((payment_pubkey_hex_from_worker_key worker_key_sample ≫= fun s =>
     match hex_decode s with inr b => Some b | inl _ => None end) = Some (x_public sk)) as E2
    by (vm_compute; reflexivity).
  destruct (wasm_worker_blob worker_key_sample sk auth_sk blob_nonce (as_bytes "order") (x_public sk)
              E1 E2 ltac:(vm_compute; reflexivity)) as [_ HW].
  apply (HW blob E).
Defined.

Lemma message_roundtrip_witness :
  exists out,
    encrypt_message blob_nonce (as_bytes "hello") (x_public worker_key_sample) auth_sk = inr out /\
    decrypt_message out (x_public auth_sk) worker_key_sample = inr (as_bytes "hello").
Proof.
  pose (out := match encrypt_message blob_nonce (as_bytes "hello") (x_public worker_key_sample) auth_sk
               with inr o => o | inl _ => [] end).
  exists out.
  assert (encrypt_message blob_nonce (as_bytes "hello") (x_public worker_key_sample) auth_sk = inr out)
    as E by (vm_compute; reflexivity).
  split; [exact E|].
  apply (message_roundtrip blob_nonce (as_bytes "hello") auth_sk worker_key_sample out
           ltac:(vm_compute; reflexivity) E).
Defined.
