(* ===== verification/Serde.v ===== *)
(** [serde_json::to_vec] and [from_slice] on the two structures the worker keeps
    inside encrypted blobs, [OrderData] and [ListingData] (src/db/models.rs).

    The JSON text itself is the crate's: the class only promises that what was
    written is read back; an instance for the witnesses writes the fields as
    one number. *)
From S2P Require Import Prelude Interfaces Instances Models.

Class Serde := {
  order_to_vec : OrderData -> string + bytes;
  order_from_slice : bytes -> string + OrderData;
  listing_to_vec : ListingData -> string + bytes;
  listing_from_slice : bytes -> string + ListingData
}.

Class SerdeLaws (S : Serde) := {
  order_serde_roundtrip : forall d b, order_to_vec d = inr b -> order_from_slice b = inr d;
  listing_serde_roundtrip : forall d b, listing_to_vec d = inr b -> listing_from_slice b = inr d
}.

(** ** An instance *)

(** The code of a structure is the list of the codes of its fields. *)
Program Definition fields_countable {A} `{EqDecision A} (codes : A -> list positive)
    (of_codes : list positive -> option A) (Hc : forall a, of_codes (codes a) = Some a) : Countable A :=
  {| encode a := positives_flatten (codes a);
     decode p := positives_unflatten p ≫= of_codes |}.
Next Obligation.
  intros A ? codes of_codes Hc a. cbv beta. rewrite positives_unflatten_flatten. apply Hc.
Qed.

#[global] Instance evidence_eq_dec : EqDecision DisputeEvidenceEntry.
Proof. solve_decision. Defined.
Definition evidence_codes (x : DisputeEvidenceEntry) : list positive :=
  match x with mk_evidence a b c d e => [encode a; encode b; encode c; encode d; encode e] end.
Definition evidence_of_codes (l : list positive) : option DisputeEvidenceEntry :=
  match l with
  | [a; b; c; d; e] =>
      a ← decode a; b ← decode b; c ← decode c; d ← decode d; e ← decode e;
      Some (mk_evidence a b c d e)
  | _ => None
  end.
Lemma evidence_codes_roundtrip x : evidence_of_codes (evidence_codes x) = Some x.
Proof. destruct x. cbn [evidence_codes evidence_of_codes]. by rewrite !decode_encode. Qed.
#[global] Instance evidence_countable : Countable DisputeEvidenceEntry :=
  fields_countable evidence_codes evidence_of_codes evidence_codes_roundtrip.

#[global] Instance dispute_eq_dec : EqDecision DisputeData.
Proof. solve_decision. Defined.
Definition dispute_codes (x : DisputeData) : list positive :=
  match x with mk_dispute a b c d e f g h => [encode a; encode b; encode c; encode d; encode e; encode f; encode g; encode h] end.
Definition dispute_of_codes (l : list positive) : option DisputeData :=
  match l with
  | [a; b; c; d; e; f; g; h] =>
      a ← decode a; b ← decode b; c ← decode c; d ← decode d; e ← decode e; f ← decode f; g ← decode g; h ← decode h;
      Some (mk_dispute a b c d e f g h)
  | _ => None
  end.
Lemma dispute_codes_roundtrip x : dispute_of_codes (dispute_codes x) = Some x.
Proof. destruct x. cbn [dispute_codes dispute_of_codes]. by rewrite !decode_encode. Qed.
#[global] Instance dispute_countable : Countable DisputeData :=
  fields_countable dispute_codes dispute_of_codes dispute_codes_roundtrip.

#[global] Instance chat_eq_dec : EqDecision ChatMessageData.
Proof. solve_decision. Defined.
Definition chat_codes (x : ChatMessageData) : list positive :=
  match x with mk_chat a b c d e => [encode a; encode b; encode c; encode d; encode e] end.
Definition chat_of_codes (l : list positive) : option ChatMessageData :=
  match l with
  | [a; b; c; d; e] =>
      a ← decode a; b ← decode b; c ← decode c; d ← decode d; e ← decode e;
      Some (mk_chat a b c d e)
  | _ => None
  end.
Lemma chat_codes_roundtrip x : chat_of_codes (chat_codes x) = Some x.
Proof. destruct x. cbn [chat_codes chat_of_codes]. by rewrite !decode_encode. Qed.
#[global] Instance chat_countable : Countable ChatMessageData :=
  fields_countable chat_codes chat_of_codes chat_codes_roundtrip.

(** The fields of a structure as a list of codes. *)
Definition order_codes (d : OrderData) : list positive :=
  match d with
  | mk_order_data li bh sh bp sp s cu ea em tl ca fu sa co re rf ex di dd ow fp fa ds cm st =>
    [encode li; encode bh; encode sh; encode bp; encode sp; encode s; encode cu; encode ea;
     encode em; encode tl; encode ca; encode fu; encode sa; encode co; encode re; encode rf;
     encode ex; encode di; encode dd; encode ow; encode fp; encode fa; encode ds; encode cm; encode st]
  end.

Definition order_of_codes (l : list positive) : option OrderData :=
  match l with
  | [c1; c2; c3; c4; c5; c6; c7; c8; c9; c10; c11; c12; c13; c14; c15; c16; c17; c18; c19; c20;
     c21; c22; c23; c24; c25] =>
    li ← decode c1; bh ← decode c2; sh ← decode c3; bp ← decode c4; sp ← decode c5; s ← decode c6;
    cu ← decode c7; ea ← decode c8; em ← decode c9; tl ← decode c10; ca ← decode c11; fu ← decode c12;
    sa ← decode c13; co ← decode c14; re ← decode c15; rf ← decode c16; ex ← decode c17;
    di ← decode c18; dd ← decode c19; ow ← decode c20; fp ← decode c21; fa ← decode c22;
    ds ← decode c23; cm ← decode c24; st ← decode c25;
    Some (mk_order_data li bh sh bp sp s cu ea em tl ca fu sa co re rf ex di dd ow fp fa ds cm st)
  | _ => None
  end.

Definition listing_codes (d : ListingData) : list positive :=
  match d with
  | mk_listing_data sh sp ed es cu pa st ca ex up =>
    [encode sh; encode sp; encode ed; encode es; encode cu; encode pa; encode st; encode ca;
     encode ex; encode up]
  end.

Definition listing_of_codes (l : list positive) : option ListingData :=
  match l with
  | [c1; c2; c3; c4; c5; c6; c7; c8; c9; c10] =>
    sh ← decode c1; sp ← decode c2; ed ← decode c3; es ← decode c4; cu ← decode c5; pa ← decode c6;
    st ← decode c7; ca ← decode c8; ex ← decode c9; up ← decode c10;
    Some (mk_listing_data sh sp ed es cu pa st ca ex up)
  | _ => None
  end.

Lemma order_codes_roundtrip d : order_of_codes (order_codes d) = Some d.
Proof. destruct d. cbn [order_codes order_of_codes]. by rewrite !decode_encode. Qed.

Lemma listing_codes_roundtrip d : listing_of_codes (listing_codes d) = Some d.
Proof. destruct d. cbn [listing_codes listing_of_codes]. by rewrite !decode_encode. Qed.

Definition codes_to_bytes (l : list positive) : bytes := to_bytes_be (Z.pos (positives_flatten l)).
Definition bytes_to_codes (b : bytes) : option (list positive) :=
  match from_bytes_be b with Z.pos p => positives_unflatten p | _ => None end.

Lemma codes_bytes_roundtrip l : bytes_to_codes (codes_to_bytes l) = Some l.
Proof.
  unfold bytes_to_codes, codes_to_bytes. rewrite from_to_bytes_be by lia.
  apply positives_unflatten_flatten.
Qed.

Definition read_codes {A} (f : list positive -> option A) (b : bytes) : string + A :=
  match bytes_to_codes b ≫= f with Some d => inr d | None => inl "invalid JSON" end.

#[export] Instance serde_inst : Serde := {|
  order_to_vec d := inr (codes_to_bytes (order_codes d));
  order_from_slice := read_codes order_of_codes;
  listing_to_vec d := inr (codes_to_bytes (listing_codes d));
  listing_from_slice := read_codes listing_of_codes |}.

#[export] Instance serde_inst_laws : SerdeLaws serde_inst.
Proof.
  split; cbn [order_to_vec order_from_slice listing_to_vec listing_from_slice serde_inst];
    intros d b [= <-]; unfold read_codes; rewrite codes_bytes_roundtrip; cbn [mbind option_bind].
  - by rewrite order_codes_roundtrip.
  - by rewrite listing_codes_roundtrip.
Qed.
