(* ===== verification/ListingContent.v ===== *)
(** Listing content and search tokens on the client: [KeyPair],
    [encrypt_listing_content], [decrypt_listing_content],
    [generate_search_tokens] and [generate_single_token] of
    src/crypto/client.rs, [SearchToken] of src/crypto/zk.rs and the key pairs
    of wasm/src/keygen.rs. *)
From S2P Require Import Prelude Interfaces Instances Amounts Texts Models Effects Serde Auth Blobs.

(** ** JSON values as bytes *)

(** [serde_json::to_vec] and [from_slice] at [Value]. *)
Class JsonBytes := {
  json_to_vec : Json -> string + bytes;
  json_from_slice : bytes -> string + Json
}.

(** A [Value] as the crate keeps it: the members of an object sorted by their
    distinct names, every integer an [i64] or a [u64]; no fraction, which is
    read back only approximately. *)
Definition name_lt (a b : string) : bool := String.ltb a b.

Fixpoint sorted_names (l : list string) : bool :=
  match l with
  | [] => true
  | a :: t => match t with [] => true | b :: _ => name_lt a b end && sorted_names t
  end.

Fixpoint json_value (j : Json) : bool :=
  match j with
  | JNull | JBool _ | JStr _ => true
  | JNum n => (i64_min <=? n) && (n <=? u64_max)
  | JFloat _ => false
  | JArr l => (fix all l := match l with [] => true | x :: t => json_value x && all t end) l
  | JObj l =>
      sorted_names (map fst l) &&
      (fix all l := match l with [] => true | x :: t => json_value (snd x) && all t end) l
  end.

Class JsonBytesLaws (J : JsonBytes) := {
  json_bytes_roundtrip : forall v, json_value v = true ->
    exists b, json_to_vec v = inr b /\ json_from_slice b = inr v
}.

Record KeyPair := mk_key_pair { kp_secret : bytes; kp_public : bytes }.

Section content.
Context `{Hashing} `{Aead} `{X25519} `{JsonBytes}.

(** ** Key pairs *)

Definition key_pair_from_secret (secret_bytes : bytes) : KeyPair :=
  mk_key_pair secret_bytes (x_public secret_bytes).

Definition key_pair_generate (random : bytes) : KeyPair := mk_key_pair random (x_public random).

(** [generate_keypair] of the WASM module. *)
Definition wasm_generate_keypair (random : bytes) : KeyPair := mk_key_pair random (x_public random).

(** ** Content *)

(** [json!({"title", "description", "metadata"})], members in order. *)
Definition listing_content (title description : string) (metadata : Json) : Json :=
  JObj [("description", JStr description); ("metadata", metadata); ("title", JStr title)].

Definition encrypt_listing_content (nonce : bytes) (title description : string) (metadata : Json)
    (content_key : bytes) : string + bytes :=
  match json_to_vec (listing_content title description metadata) with
  | inl _ => inl "Serialization failed"
  | inr plaintext =>
      match seal content_key nonce plaintext with
      | Some out => inr out
      | None => inl "Encryption failed"
      end
  end.

Definition decrypt_listing_content (encrypted content_key : bytes) : string + Json :=
  if Nat.ltb (length encrypted) 12 then inl "Encrypted data too short"
  else match aead_decrypt content_key (take 12 encrypted) (drop 12 encrypted) with
       | None => inl "Decryption failed"
       | Some plaintext =>
           match json_from_slice plaintext with
           | inl _ => inl "Deserialization failed"
           | inr v => inr v
           end
       end.

(** ** Search tokens *)

Definition str_bytes (s : str) : bytes := map byte_of_Z s.

(** The loop of [generate_search_tokens] over the words. *)
Fixpoint content_tokens (words : list str) (search_key : bytes) : list bytes :=
  match words with
  | [] => []
  | word :: rest =>
      if Nat.ltb (length word) 2 then content_tokens rest search_key
      else blake3 (str_bytes word ++ search_key) :: content_tokens rest search_key
  end.

Definition generate_search_tokens (content : string) (search_key : bytes) : list bytes :=
  content_tokens (split_whitespace (str_of content)) search_key.

Definition generate_single_token (keyword : string) (search_key : bytes) : bytes :=
  blake3 (as_bytes keyword ++ search_key).

(** [SearchToken::generate_from_text] (zk.rs). *)
Definition generate_from_text (text : string) (search_key : bytes) : list bytes :=
  map (fun word => search_token_generate (of_str word) search_key) (split_whitespace (str_of text)).

(** ** Content round trip *)

Lemma listing_content_value title description metadata :
  json_value metadata = true -> json_value (listing_content title description metadata) = true.
Proof. intros Hm. cbn. by rewrite Hm. Qed.

(** What a seller encrypts, a holder of the content key reads, member by member,
    for any metadata; and the same bytes open in the browser
    ([decrypt_listing]) to the JSON text of the content. *)
Theorem listing_content_roundtrip `{!AeadLaws _} `{!JsonBytesLaws _} nonce title description metadata key out :
  length nonce = 12%nat -> json_value metadata = true ->
  encrypt_listing_content nonce title description metadata key = inr out ->
  decrypt_listing_content out key = inr (listing_content title description metadata) /\
  (length key = 32%nat -> exists text,
     wasm_decrypt_listing out key = inr text /\
     json_from_slice text = inr (listing_content title description metadata)).
Proof.
  unfold encrypt_listing_content, decrypt_listing_content, wasm_decrypt_listing. intros Hn Hm E.
  destruct (json_bytes_roundtrip _ (listing_content_value title description metadata Hm)) as (p & Ep & Hp).
  rewrite Ep in E. destruct (seal key nonce p) as [o|] eqn:Es; [|done]. simplify_eq.
  destruct (seal_open key nonce p out Hn Es) as [Hl ->].
  rewrite !(proj2 (Nat.ltb_ge _ _)) by lia. rewrite Hp. split; [done|].
  intros ->. cbn [Nat.eqb negb]. exists p. done.
Qed.

(** ** What is indexed is found *)

Lemma str_bytes_of s : str_bytes (str_of s) = as_bytes s.
Proof.
  unfold str_bytes, str_of. rewrite map_map, (map_ext _ id), map_id; [done|]. intros; apply byte_of_Z_val.
Qed.

Lemma content_tokens_spec words key :
  content_tokens words key =
  map (fun w => blake3 (str_bytes w ++ key)) (List.filter (fun w => Nat.leb 2 (length w)) words).
Proof.
  induction words as [|w words IH]; cbn [content_tokens List.filter map]; [done|].
  destruct (Nat.ltb_spec (length w) 2) as [Hl|Hl].
  - by rewrite (proj2 (Nat.leb_gt _ _)).
  - rewrite (proj2 (Nat.leb_le _ _)) by done. cbn [map]. by rewrite IH.
Qed.

(** For a text of words: the tokens stored with it are, in order, exactly the
    tokens the browser computes for its words of two bytes and more, so a search
    for one of them matches; the tokens of [SearchToken::generate_from_text]
    also cover the single letters. *)
Theorem search_tokens_match (content : string) (words : list string) key :
  Forall (fun w => word (str_of w)) words -> str_of content = join_words (map str_of words) ->
  generate_search_tokens content key =
    map (fun w => wasm_search_token w key) (List.filter (fun w => Nat.leb 2 (String.length w)) words) /\
  generate_from_text content key = map (fun w => wasm_search_token w key) words.
Proof.
  intros Hw Hc. unfold generate_search_tokens, generate_from_text. rewrite Hc, split_join.
  - split.
    + rewrite content_tokens_spec. clear Hc. induction Hw as [|w words _ _ IH]; [done|].
      cbn [map List.filter]. rewrite str_of_length. destruct (Nat.leb 2 (String.length w)); [|done].
      cbn [map]. rewrite IH, str_bytes_of. done.
    + rewrite map_map. apply map_ext. intros w. by rewrite of_str_of.
  - clear Hc. induction Hw; cbn [map]; by constructor.
Qed.
End content.

(** ** Instance: values as trees of their codes *)

Definition json_leaf : Type := (unit + (bool + Z)) + string.

Fixpoint json_tree (j : Json) : gen_tree json_leaf :=
  match j with
  | JNull => GenLeaf (inl (inl tt))
  | JBool b => GenLeaf (inl (inr (inl b)))
  | JNum n => GenLeaf (inl (inr (inr n)))
  | JFloat _ => GenNode 2 []
  | JStr s => GenLeaf (inr s)
  | JArr l => GenNode 0 (map json_tree l)
  | JObj l =>
      GenNode 1 ((fix members l := match l with
                                   | [] => []
                                   | (k, v) :: t => GenLeaf (inr k) :: json_tree v :: members t
                                   end) l)
  end.

Fixpoint json_of_tree (t : gen_tree json_leaf) : Json :=
  match t with
  | GenLeaf (inl (inl _)) => JNull
  | GenLeaf (inl (inr (inl b))) => JBool b
  | GenLeaf (inl (inr (inr n))) => JNum n
  | GenLeaf (inr s) => JStr s
  | GenNode 0 l => JArr (map json_of_tree l)
  | GenNode 1 l =>
      JObj ((fix members l := match l with
                              | GenLeaf (inr k) :: v :: t => (k, json_of_tree v) :: members t
                              | _ => []
                              end) l)
  | GenNode _ _ => JNull
  end.

Lemma json_tree_roundtrip : forall j, json_value j = true -> json_of_tree (json_tree j) = j.
Proof.
  fix IH 1. intros [|b|n|x|s|l|l] Hv; try done; cbn in *.
  - f_equal. induction l as [|x l IHl]; [done|]. apply andb_true_iff in Hv as [Hx Hl].
    cbn. by rewrite (IH x Hx), (IHl Hl).
  - f_equal. apply andb_true_iff in Hv as [_ Hv]. induction l as [|[k x] l IHl]; [done|].
    apply andb_true_iff in Hv as [Hx Hl]. cbn. by rewrite (IH x Hx), (IHl Hl).
Qed.

#[export] Instance json_bytes_inst : JsonBytes := {|
  json_to_vec v := inr (codes_to_bytes [encode (json_tree v)]);
  json_from_slice b :=
    match bytes_to_codes b with
    | Some [c] => match decode c with Some t => inr (json_of_tree t) | None => inl "EOF" end
    | _ => inl "EOF"
    end |}.

#[export] Instance json_bytes_inst_laws : JsonBytesLaws json_bytes_inst.
Proof.
  split. intros v Hv. cbn [json_to_vec json_from_slice json_bytes_inst]. eexists. split; [done|].
  rewrite codes_bytes_roundtrip, decode_encode. by rewrite json_tree_roundtrip.
Qed.

(** ** Witnesses *)

Definition lamp_metadata : Json := JObj [("colors", JArr [JStr "red"; JStr "blue"]); ("weight", JNum 12)].

Lemma listing_content_roundtrip_witness :
  exists out, encrypt_listing_content blob_nonce "Lamp" "A desk lamp" lamp_metadata worker_key_sample = inr out /\
    decrypt_listing_content out worker_key_sample = inr (listing_content "Lamp" "A desk lamp" lamp_metadata).
Proof.
  eexists. split; [reflexivity|].
  apply (listing_content_roundtrip blob_nonce "Lamp" "A desk lamp" lamp_metadata worker_key_sample);
    [reflexivity|reflexivity|reflexivity].
Defined.

Lemma search_tokens_match_witness :
  generate_search_tokens "A desk lamp" worker_key_sample =
    [wasm_search_token "desk" worker_key_sample; wasm_search_token "lamp" worker_key_sample].
Proof.
  apply (search_tokens_match "A desk lamp" ["A"; "desk"; "lamp"]).
  - repeat constructor; try discriminate; vm_compute; intros; discriminate.
  - reflexivity.
Defined.
