(* ===== verification/Worker.v ===== *)
(** What the jobs of the worker process share: the key that opens order blobs
    (get_worker_key of src/background/time_lock.rs and payment_poller.rs), the
    write back of one row, and sweeps over a snapshot of the orders table.

    A sweep reads all rows first and then handles them one by one; the lemmas
    say what a sweep does to the table from what its body does to one row. *)
From stdpp Require Import relations.
From S2P Require Import Prelude Interfaces Instances TimeBuckets Models Effects Serde Auth Blobs.

(** ** Hypotheses on the outside, shared by the theorems on jobs *)

(** The random generator returns as many bytes as it is asked for. *)
Definition fair (env : Env) : Prop := forall t n, length (env_random env t n) = n.

(** Neither serialisation nor encryption of an order fails. *)
Class WorkerTotal (S : Serde) (A : Aead) (X : Hashing) := {
  wt_serde : forall d, exists b, order_to_vec d = inr b;
  wt_serde_listing : forall d, exists b, listing_to_vec d = inr b;
  wt_aead : forall k n p, length k = 32%nat -> length n = 12%nat -> is_Some (aead_encrypt k n p)
}.

#[export] Instance worker_total_inst : WorkerTotal serde_inst aead_inst hashing_inst.
Proof.
  split; intros; cbn [order_to_vec listing_to_vec serde_inst aead_encrypt aead_inst]; eauto.
Qed.

Lemma sample_env_fair : fair sample_env.
Proof. intros t n. cbn. apply repeat_length. Qed.

#[export] Hint Resolve sample_env_fair : mkt.

(** ** Rows *)

(** The row an [UPDATE orders] leaves. *)
Definition row_after (sets : list order_set) (o : Order) : Order :=
  bump_version (fold_left (fun o s => apply_set s o) sets o).

Lemma apply_set_id s o : o_id (apply_set s o) = o_id o.
Proof. by destruct o, s. Qed.

Lemma row_after_id sets o : o_id (row_after sets o) = o_id o.
Proof.
  unfold row_after. assert (forall o, o_id (bump_version o) = o_id o) as Hb by (by intros []).
  rewrite Hb. revert o. induction sets as [|s t IH]; intros o; [done|]. cbn. by rewrite IH, apply_set_id.
Qed.

(** The statement on the row it was meant for. *)
Lemma sql_update_hit (sets : list order_set) (id : bytes) (v : Z) (m : gmap bytes Order) o :
  m !! id = Some o -> o_version o = v ->
  sql_update_order sets id v m = (<[id := row_after sets o]> m, 1%nat).
Proof. intros Hm Hv. unfold sql_update_order. by rewrite Hm, decide_True. Qed.

Lemma sql_update_miss (sets : list order_set) (id : bytes) (v : Z) (m : gmap bytes Order) :
  (forall o, m !! id = Some o -> o_version o <> v) ->
  sql_update_order sets id v m = (m, 0%nat).
Proof.
  intros Hm. unfold sql_update_order. destruct (m !! id) as [o|]; [|done].
  rewrite decide_False; [done|]. by apply Hm.
Qed.

(** ** Programs that leave the tables alone *)

(** Effects that write a table of orders or listings. *)
Definition writes_table {R} (e : ev R) : bool :=
  match e with
  | EOrderInsert _ _ _ _ | EOrderUpdate _ _ _ | EListingInsert _ | EListingUpdate _ _ _ => true
  | _ => false
  end.

Lemma handle_reads env {R} (e : ev R) w w' r :
  writes_table e = false -> handle env e w = (w', r) ->
  w_orders w' = w_orders w /\ w_listings w' = w_listings w.
Proof.
  intros Hw Hh. apply (handle_quiet env e w w' r Hh). destruct e; try done.
Qed.

(** No such effect on any path. *)
Fixpoint reads_only {A} (p : prog A) : Prop :=
  match p with
  | Ret _ | Panic => True
  | Vis e k => writes_table e = false /\ forall r, reads_only (k r)
  end.

Lemma reads_run {A} (p : prog A) : reads_only p -> forall env w w' r,
  run env p w = (w', r) -> w_orders w' = w_orders w /\ w_listings w' = w_listings w.
Proof.
  induction p as [a| |R e k IH]; intros Hp env w w' r E; [by injection E as <- _..|].
  destruct Hp as [He Hk]. cbn [run] in E. destruct (handle env e w) as [w1 x] eqn:Eh.
  destruct (handle_reads env e w w1 x He Eh) as [<- <-]. by apply (IH x (Hk x) env w1 w' r).
Qed.

Lemma reads_ret {A} (a : A) : reads_only (Ret a).
Proof. done. Qed.

Lemma reads_panic {A} : reads_only (Panic : prog A).
Proof. done. Qed.

Lemma reads_vis {A R} (e : ev R) (k : R -> prog A) :
  writes_table e = false -> (forall r, reads_only (k r)) -> reads_only (Vis e k).
Proof. done. Qed.

Lemma reads_bind {A B} (p : prog A) (f : A -> prog B) :
  reads_only p -> (forall a, reads_only (f a)) -> reads_only (bind p f).
Proof.
  intros Hp Hf. induction p as [a| |R e k IH]; [apply Hf|done|]. destruct Hp as [He Hk].
  split; [done|]. intros r. by apply IH.
Qed.

(** Descends through a program, closing its read-only ends. *)
Ltac reads_only_tac :=
  repeat first
    [ apply reads_ret | apply reads_panic
    | apply reads_bind; [|intros ?]
    | apply reads_vis; [reflexivity|intros ?]
    | solve [eauto with mkt]
    | match goal with |- reads_only (match ?x with _ => _ end) => destruct x end
    | match goal with |- reads_only (bind (match ?x with _ => _ end) _) => destruct x end ].

(** ** Tables that evolve row by row *)

(** No row appears or disappears, and each goes through steps of [P]. *)
Definition evolves (P : Order -> Order -> Prop) (m m' : gmap bytes Order) : Prop :=
  forall id, match m !! id, m' !! id with
    | Some o, Some o' => rtc P o o'
    | None, None => True
    | _, _ => False
    end.

Lemma evolves_refl P m : evolves P m m.
Proof. intros id. by destruct (m !! id). Qed.

Lemma evolves_trans P m1 m2 m3 : evolves P m1 m2 -> evolves P m2 m3 -> evolves P m1 m3.
Proof.
  intros H1 H2 id. specialize (H1 id). specialize (H2 id).
  destruct (m1 !! id), (m2 !! id), (m3 !! id); try done. by etrans.
Qed.

Lemma evolves_insert (P : Order -> Order -> Prop) m id o o' :
  m !! id = Some o -> P o o' -> evolves P m (<[id := o']> m).
Proof.
  intros Hm HP id'. destruct (decide (id' = id)) as [->|Hne].
  - rewrite lookup_insert_eq, Hm. by apply rtc_once.
  - rewrite lookup_insert_ne by done. by destruct (m !! id').
Qed.

(** ** Sweeps *)

Section for_each.
Context {E R : Type}.

(** [for order in &orders { body }], [?] inside the body leaving the loop. *)
Fixpoint for_each (body : R -> prog (E + unit)) (rows : list R) : prog (E + unit) :=
  match rows with
  | [] => Ret (inr tt)
  | o :: rest => do r := body o in try _ := r in for_each body rest
  end.

(** The table of the rows and their primary key. *)
Context (tbl : World -> gmap bytes R) (rid : R -> bytes).

Definition keyed (m : gmap bytes R) : Prop := forall id o, m !! id = Some o -> rid o = id.

(** Every row of the table, each once. *)
Definition snapshot (m : gmap bytes R) : list R := map snd (map_to_list m).

Lemma snapshot_ids m : keyed m -> NoDup (map rid (snapshot m)).
Proof.
  intros Hk. unfold snapshot. rewrite map_map.
  rewrite (map_ext_in (fun x => rid x.2) fst).
  - apply NoDup_fst_map_to_list.
  - intros [id o] Hin. apply list_elem_of_In, elem_of_map_to_list in Hin. by apply Hk.
Qed.

Lemma snapshot_in m o : keyed m -> o ∈ snapshot m <-> m !! rid o = Some o.
Proof.
  intros Hk. unfold snapshot. rewrite list_elem_of_fmap. split.
  - intros ([id o'] & -> & Hin). apply elem_of_map_to_list in Hin. cbn. by rewrite (Hk _ _ Hin).
  - intros Hm. exists (rid o, o). split; [done|]. by apply elem_of_map_to_list.
Qed.

Lemma NoDup_map_filter (P : R -> bool) (l : list R) :
  NoDup (map rid l) -> NoDup (map rid (List.filter P l)).
Proof.
  induction l as [|x l IH]; cbn [List.filter map]; [done|]. intros [Hn Hd]%NoDup_cons.
  destruct (P x); [|by apply IH]. cbn [map]. apply NoDup_cons. split; [|by apply IH].
  intros (y & Hy & Hin)%list_elem_of_fmap. apply Hn. rewrite Hy. apply list_elem_of_fmap_2.
  apply list_elem_of_In in Hin. apply filter_In in Hin as [Hin _]. by apply list_elem_of_In.
Qed.

(** If the body, run while its row is the one of the snapshot, only replaces
    that row by one related by [after], so does the whole sweep. *)
Lemma for_each_rows env (body : R -> prog (E + unit)) (after : R -> R -> Prop) rows w w' r :
  (forall o, after o o) ->
  (forall o w w' r, tbl w !! rid o = Some o -> run env (body o) w = (w', r) ->
     exists o', after o o' /\ rid o' = rid o /\ tbl w' = <[rid o := o']> (tbl w)) ->
  NoDup (map rid rows) ->
  (forall o, o ∈ rows -> tbl w !! rid o = Some o) ->
  run env (for_each body rows) w = (w', r) ->
  (forall id, id ∉ map rid rows -> tbl w' !! id = tbl w !! id) /\
  (forall o, o ∈ rows -> exists o', after o o' /\ rid o' = rid o /\ tbl w' !! rid o = Some o').
Proof.
  intros Hrefl Hbody. revert w. induction rows as [|o rows IH]; intros w Hnd Hrows Hrun.
  - cbn in Hrun. simplify_eq. split; [done|]. intros o Ho. by apply elem_of_nil in Ho.
  - cbn [for_each map] in *. rewrite run_bind in Hrun.
    apply NoDup_cons in Hnd as [Hni Hnd].
    destruct (run env (body o) w) as [w1 r1] eqn:E1.
    destruct (Hbody o w w1 r1 (Hrows o ltac:(set_solver)) E1) as (o' & Hafter & Hid & Hw1).
    assert (forall x, x ∈ rows -> tbl w1 !! rid x = Some x) as Hrest.
    { intros x Hx. rewrite Hw1, lookup_insert_ne; [apply Hrows; set_solver|].
      intros Heq. apply Hni. rewrite Heq. by apply list_elem_of_fmap_2. }
    assert ((forall id, id ∉ map rid rows -> tbl w' !! id = tbl w1 !! id) /\
       (forall x, x ∈ rows -> exists x', after x x' /\ rid x' = rid x /\ tbl w' !! rid x = Some x'))
      as [Hout Hin].
    { destruct r1 as [[e|[]]|]; cbn in Hrun.
      - simplify_eq. split; [done|]. intros x Hx. exists x. by auto.
      - by apply (IH w1).
      - simplify_eq. split; [done|]. intros x Hx. exists x. by auto. }
    split.
    + intros id Hid'. rewrite Hout by set_solver. rewrite Hw1, lookup_insert_ne; set_solver.
    + intros x [->|Hx]%elem_of_cons; [|by apply Hin].
      exists o'. rewrite Hout by done. by rewrite Hw1, lookup_insert_eq.
Qed.

(** A sweep whose body always succeeds succeeds, with every row handled. *)
Lemma for_each_ok env (body : R -> prog (E + unit)) (after : R -> R -> Prop) rows w :
  (forall o w, tbl w !! rid o = Some o -> exists w' o',
     run env (body o) w = (w', Some (inr tt)) /\ after o o' /\ tbl w' = <[rid o := o']> (tbl w)) ->
  NoDup (map rid rows) ->
  (forall o, o ∈ rows -> tbl w !! rid o = Some o) ->
  exists w', run env (for_each body rows) w = (w', Some (inr tt)) /\
    (forall id, id ∉ map rid rows -> tbl w' !! id = tbl w !! id) /\
    (forall o, o ∈ rows -> exists o', after o o' /\ tbl w' !! rid o = Some o').
Proof.
  intros Hbody. revert w. induction rows as [|o rows IH]; intros w Hnd Hrows.
  - exists w. split; [done|]. split; [done|]. intros o Ho. by apply elem_of_nil in Ho.
  - cbn [for_each map] in *. apply NoDup_cons in Hnd as [Hni Hnd].
    destruct (Hbody o w (Hrows o ltac:(set_solver))) as (w1 & o' & E1 & Ha & Hw1).
    rewrite run_bind, E1.
    destruct (IH w1 Hnd) as (w' & Hr & Hout & Hin).
    { intros x Hx. rewrite Hw1, lookup_insert_ne; [apply Hrows; set_solver|].
      intros Heq. apply Hni. rewrite Heq. by apply list_elem_of_fmap_2. }
    exists w'. split; [exact Hr|]. split.
    + intros id Hid'. rewrite Hout by set_solver. rewrite Hw1, lookup_insert_ne; set_solver.
    + intros x [->|Hx]%elem_of_cons; [|by apply Hin].
      exists o'. rewrite Hout by done. by rewrite Hw1, lookup_insert_eq.
Qed.
End for_each.

(** ** The order data of a row *)

Section worker.
Context `{Hashing} `{Aead} `{Serde}.

Definition no_worker_key : string := "Worker key not configured - workers cannot decrypt".
Definition concurrent_writer : string := "order modified by concurrent writer".

(** [state.worker_key.as_ref().ok_or_else(..)] *)
Definition get_worker_key (worker_key : option bytes) : string + bytes := ok_or worker_key no_worker_key.

Definition opt_result {E A} (r : E + A) : option A :=
  match r with inl _ => None | inr a => Some a end.

(** [decrypt_order_blob] and [from_slice] of a row. *)
Definition open_order (key : bytes) (order : Order) : option OrderData :=
  decrypt_order_blob (o_encrypted_order_blob order) key (o_id order) ≫= fun raw =>
  opt_result (order_from_slice raw).

(** Serialise, encrypt and conditionally update, as both workers write it. *)
Definition write_data (key id : bytes) (data : OrderData) (version : Z) : prog (string + unit) :=
  try json := order_to_vec data in
  let! nonce := ERandom 12 in
  try blob := ok_or (encrypt_order_blob nonce json key id) "Encryption failed" in
  let expiry_bucket := option_map floor_timestamp_6h (expires_at data) in
  let! r := EOrderUpdate [SetEncryptedBlob blob; SetExpiryBucket expiry_bucket] id version in
  try rows_affected := r in
  if Nat.eqb rows_affected 0 then Ret (inl concurrent_writer) else Ret (inr tt).

(** The row [o] after its data was replaced by [d]. *)
Definition rewritten (key : bytes) (o : Order) (d : OrderData) (o' : Order) : Prop :=
  exists blob,
    o' = row_after [SetEncryptedBlob blob; SetExpiryBucket (option_map floor_timestamp_6h (expires_at d))] o /\
    open_order key o' = Some d.

Context `{!AeadLaws _} `{!SerdeLaws _}.

Lemma row_after_blob blob e o :
  o_encrypted_order_blob (row_after [SetEncryptedBlob blob; SetExpiryBucket e] o) = blob.
Proof. by destruct o. Qed.

Lemma open_rewritten key nonce d json blob e o :
  length nonce = 12%nat -> order_to_vec d = inr json ->
  encrypt_order_blob nonce json key (o_id o) = Some blob ->
  open_order key (row_after [SetEncryptedBlob blob; SetExpiryBucket e] o) = Some d.
Proof.
  intros Hn Hj Hb. unfold open_order. rewrite row_after_blob, row_after_id.
  rewrite (order_blob_roundtrip _ _ _ _ _ Hn Hb). cbn.
  by rewrite (order_serde_roundtrip _ _ Hj).
Qed.

Lemma open_rewritten_blob key nonce d json blob o :
  length nonce = 12%nat -> order_to_vec d = inr json ->
  encrypt_order_blob nonce json key (o_id o) = Some blob ->
  open_order key (row_after [SetEncryptedBlob blob] o) = Some d.
Proof.
  intros Hn Hj Hb. pose proof (open_rewritten key nonce d json blob (o_expiry_bucket o) o Hn Hj Hb) as Ho. by destruct o.
Qed.

(** Whatever happens, the row keeps its data or gets the new one. *)
Lemma write_data_run env key d o w w' r :
  fair env -> w_orders w !! o_id o = Some o ->
  run env (write_data key (o_id o) d (o_version o)) w = (w', r) ->
  exists o', (o' = o \/ rewritten key o d o') /\ o_id o' = o_id o /\
    w_orders w' = <[o_id o := o']> (w_orders w).
Proof.
  intros Hf Hw Hrun. unfold write_data in Hrun.
  assert (w_orders w = <[o_id o := o]> (w_orders w)) as Hsame by (by rewrite insert_id).
  destruct (order_to_vec d) as [e|json] eqn:Ej; [cbn in Hrun; simplify_eq; by eauto|].
  step_in Hrun. specialize (Hf (w_time w) 12%nat).
  destruct (encrypt_order_blob _ json key (o_id o)) as [blob|] eqn:Eb;
    cbn [ok_or] in Hrun; [|cbn in Hrun; simplify_eq/=; by eauto].
  step_in Hrun. destruct (env_db_fault env _); [cbn in Hrun; simplify_eq/=; by eauto|].
  rewrite (sql_update_hit _ _ _ _ o Hw eq_refl) in Hrun. cbn [Nat.eqb] in Hrun.
  cbn [run] in Hrun. apply (f_equal fst) in Hrun. cbn [fst] in Hrun. subst w'.
  eexists. split; [right; eexists; split; [done|]; by eapply open_rewritten|].
  split; [by rewrite row_after_id|]. done.
Qed.

(** Serialisation and encryption of order data succeed. *)
Lemma encrypt_order_total `{!HashingLaws _} `{!WorkerTotal _ _ _} key id d nonce :
  length nonce = 12%nat ->
  exists json blob, order_to_vec d = inr json /\ encrypt_order_blob nonce json key id = Some blob.
Proof.
  intros Hn. destruct (wt_serde d) as [json Ej].
  destruct (hmac_total key (as_bytes "oblivious-order-v1" ++ id)) as [k Ek].
  destruct (wt_aead k nonce json (hmac_length _ _ _ Ek) Hn) as [c Ec].
  exists json, (nonce ++ c). split; [done|].
  unfold encrypt_order_blob, derive_order_key, derive_blob_key, seal. by rewrite Ek, Ec.
Qed.

(** Without faults it gets the new one. *)
Lemma write_data_ok `{!HashingLaws _} `{!WorkerTotal _ _ _} env key d o w :
  fair env -> quiet env -> w_orders w !! o_id o = Some o ->
  exists w' o', run env (write_data key (o_id o) d (o_version o)) w = (w', Some (inr tt)) /\
    rewritten key o d o' /\ w_orders w' = <[o_id o := o']> (w_orders w).
Proof.
  intros Hf Hq Hw. unfold write_data.
  destruct (encrypt_order_total key (o_id o) d _ (Hf (w_time w) 12%nat)) as (json & blob & Ej & Eb).
  rewrite Ej. step. rewrite Eb. cbn [ok_or]. step.
  rewrite (sql_update_hit _ _ _ _ o Hw eq_refl). cbn [Nat.eqb run].
  eexists _, _. split; [done|]. split; [|done]. eexists. split; [done|].
  by eapply open_rewritten; [apply Hf|done|].
Qed.

(** A row that another writer changed since the snapshot fails the write. *)
Lemma write_data_conflict env key d id v w w' r :
  (forall o, w_orders w !! id = Some o -> o_version o <> v) ->
  run env (write_data key id d v) w = (w', r) ->
  w_orders w' = w_orders w /\ r <> Some (inr tt).
Proof.
  intros Hv Hrun. unfold write_data in Hrun.
  destruct (order_to_vec d) as [e|json]; [cbn in Hrun; by simplify_eq|].
  step_in Hrun. destruct (encrypt_order_blob _ json key id) as [blob|];
    cbn [ok_or] in Hrun; [|cbn in Hrun; by simplify_eq/=].
  step_in Hrun. destruct (env_db_fault env _); [cbn in Hrun; by simplify_eq/=|].
  rewrite (sql_update_miss _ _ _ _ Hv) in Hrun. cbn [Nat.eqb] in Hrun. cbn in Hrun. by simplify_eq/=.
Qed.
(** The conditional update of a row that was just read. *)
Lemma store_run env key d o sets w w' r id :
  fair env -> o_id o = id -> w_orders w !! id = Some o ->
  (forall blob, sets blob = [SetEncryptedBlob blob] \/
     sets blob = [SetEncryptedBlob blob; SetExpiryBucket (option_map floor_timestamp_6h (expires_at d))]) ->
  forall k : string + nat -> prog (string + unit), (forall x, reads_only (k x)) ->
  run env (try json := order_to_vec d in
           let! nonce := ERandom 12 in
           try blob := ok_or (encrypt_order_blob nonce json key id) "Encryption failed" in
           let! x := EOrderUpdate (sets blob) id (o_version o) in k x) w = (w', r) ->
  w_orders w' = w_orders w \/
  exists o', o_id o' = o_id o /\ o_version o' = o_version o + 1 /\ open_order key o' = Some d /\
    w_orders w' = <[id := o']> (w_orders w).
Proof.
  intros Hf Hid Hw Hsets k Hk E.
  destruct (order_to_vec d) as [e|json] eqn:Ej; [cbn in E; simplify_eq; by left|].
  step_in E. specialize (Hf (w_time w) 12%nat).
  destruct (encrypt_order_blob _ json key id) as [blob|] eqn:Eb; cbn [ok_or] in E; [|cbn in E; simplify_eq/=; by left].
  step_in E. destruct (env_db_fault env _).
  { apply (reads_run _ (Hk _)) in E as [E _]. left. by rewrite E. }
  rewrite (sql_update_hit _ _ _ _ o Hw eq_refl) in E. apply (reads_run _ (Hk _)) in E as [E _]. right. rewrite E.
  subst id. exists (row_after (sets blob) o). split; [by rewrite row_after_id|].
  destruct (Hsets blob) as [-> | ->]; (split; [by destruct o|]; split; [|done]);
    unfold open_order; rewrite row_after_id; destruct o; cbn in Eb |- *;
    rewrite (order_blob_roundtrip _ _ _ _ _ Hf Eb); cbn; by rewrite (order_serde_roundtrip _ _ Ej).
Qed.

(** The table [m'] is [m], or has the order [id] rewritten as [Q] allows. *)
Definition updated (key id : bytes) (Q : OrderData -> OrderData -> Prop) (m m' : gmap bytes Order) : Prop :=
  m' = m \/
  exists o d o' d', m !! id = Some o /\ open_order key o = Some d /\ Q d d' /\
    o_id o' = o_id o /\ o_version o' = o_version o + 1 /\ open_order key o' = Some d' /\ m' = <[id := o']> m.

Lemma updated_keyed key id Q m m' : keyed o_id m -> updated key id Q m m' -> keyed o_id m'.
Proof.
  intros Hk [->|(o & d & o' & d' & Hm & _ & _ & Hi & _ & _ & ->)]; [done|].
  intros i x. destruct (decide (i = id)) as [->|Hne].
  - rewrite lookup_insert_eq. intros [= <-]. rewrite Hi. by apply Hk.
  - rewrite lookup_insert_ne by done. by apply Hk.
Qed.

End worker.

(** ** Programs whose runs evolve the orders *)

(** A program whose runs take every row through steps of [P] only. *)
Definition evolving (env : Env) (P : Order -> Order -> Prop) {A} (p : prog A) : Prop :=
  forall w w' r, keyed o_id (w_orders w) -> run env p w = (w', r) ->
    evolves P (w_orders w) (w_orders w') /\ keyed o_id (w_orders w').

Lemma evolving_reads env P {A} (p : prog A) : reads_only p -> evolving env P p.
Proof. intros Hp w w' r Hk E. destruct (reads_run p Hp env w w' r E) as [-> _]. split; [apply evolves_refl|done]. Qed.

Lemma evolving_ret env P {A} (a : A) : evolving env P (Ret a).
Proof. apply evolving_reads, reads_ret. Qed.

Lemma evolving_bind env P {A B} (p : prog A) (f : A -> prog B) :
  evolving env P p -> (forall a, evolving env P (f a)) -> evolving env P (bind p f).
Proof.
  intros Hp Hf w w' r Hk E. rewrite run_bind in E. destruct (run env p w) as [w1 [a|]] eqn:E1.
  - destruct (Hp w w1 (Some a) Hk E1) as [He1 Hk1]. destruct (Hf a w1 w' r Hk1 E) as [He2 Hk2].
    split; [by eapply evolves_trans|done].
  - injection E as <- _. by apply (Hp w w1 None).
Qed.

Lemma evolving_vis env P {A R} (e : ev R) (k : R -> prog A) :
  writes_table e = false -> (forall x, evolving env P (k x)) -> evolving env P (Vis e k).
Proof.
  intros He Hk w w' r Hw E. cbn [run] in E. destruct (handle env e w) as [w1 x] eqn:Eh.
  destruct (handle_reads env e w w1 x He Eh) as [Ho _]. rewrite <-Ho in Hw |- *. by apply (Hk x w1 w' r).
Qed.
