(* ===== verification/ClientFlow.v ===== *)
(** Clients and services together: what a client computes, sent to the handlers.

    - wasm/src/transition.rs signs what src/services/orders.rs stores and hands
      out again.  The service only asks for a signature by the key the request
      authenticated with; nothing ties that key to the order.
    - src/crypto/blind_sig.rs on the client blinds and unblinds what the
      endpoint of src/services/admin.rs signs, and src/services/disputes.rs
      accepts the token.
    - wasm/src/auth.rs and the services of src/services/auth.rs: from the
      challenge to an authenticated request. *)
From S2P Require Import Prelude Interfaces Instances Models Effects Amounts Occ Transition Orders BlindSig Admin Disputes Auth Gateway Blobs Worker.

Section flow.
Context `{BuildProfile} `{Hex} `{Base64} `{Hashing} `{Cbor} `{Ed25519}.
Context `{!HexLaws _} `{!Base64Laws _} `{!HashingLaws _} `{!CborLaws _} `{!Ed25519Laws _}.

Lemma decode_order_blob_encoded blob :
  0 < Z.of_nat (length blob) <= MAX_ORDER_BLOB_BYTES -> decode_order_blob (b64_encode blob) = inr blob.
Proof.
  intros Hl. unfold decode_order_blob. rewrite b64_roundtrip.
  destruct (Nat.eqb_spec (length blob) 0); [lia|]. by rewrite (proj2 (Z.ltb_ge _ _)) by lia.
Qed.

(** The request a client builds for the row it has seen. *)
Definition signed_request (sig blob nonce : bytes) (hour : Z) : UpdateOrderRequest :=
  mk_update_order (b64_encode blob) (hex_encode sig) (hex_encode nonce) hour.

(** C34. Whoever authenticates may replace the data of any order: for every key pair,
    every order of the table at its current version and any new data of legal
    size, what the WASM module signs is accepted by [update_order]; the row then
    carries the new data and the next version, nothing else of the tables
    changes, and [get_order] hands the new data to every reader. *)
Theorem any_key_updates_any_order env env2 sk id o blob nonce hour w :
  quiet env -> quiet env2 -> length sk = 32%nat ->
  w_orders w !! id = Some o -> in_i64 (o_version o) -> in_i64 (o_version o + 1) ->
  0 < Z.of_nat (length blob) <= MAX_ORDER_BLOB_BYTES -> in_u64 hour ->
  (OrderUpdate, nonce_key (hex_encode id) (hex_encode nonce)) ∉ w_nonces w ->
  exists sig w' resp g,
    wasm_sign_transition sk id (o_version o) (sha256 blob) nonce hour = inr sig /\
    run env (update_order (ed_public sk) (hex_encode id) (signed_request sig blob nonce hour)) w
      = (w', Some (inr resp)) /\
    or_version resp = o_version o + 1 /\
    w_orders w' = <[id := row_after [SetEncryptedBlob blob] o]> (w_orders w) /\
    w_listings w' = w_listings w /\
    run env2 (get_order (hex_encode id)) w' = (w_tick w', Some (inr g)) /\
    or_client_encrypted_blob g = Some (b64_encode blob) /\ or_version g = o_version o + 1.
Proof.
  intros Hq Hq2 Hsk Ho Hv Hv1 Hb Hh Hn.
  destruct (wasm_signs_for_server sk id (o_version o) (sha256 blob) nonce hour) as (sig & Hs & _ & Hl & Hver);
    [done|apply sha256_length|done|done|].
  assert (Hrow : sql_update_order [SetEncryptedBlob blob] id (o_version o) (w_orders w)
                 = (<[id := row_after [SetEncryptedBlob blob] o]> (w_orders w), 1%nat))
    by (unfold sql_update_order; rewrite Ho, decide_True by done; done).
  exists sig. do 3 eexists. split; [exact Hs|]. split; [|split; [|split; [|split; [|split; [|split]]]]].
  - unfold update_order, signed_request.
    cbn [uo_client_encrypted_blob uo_transition_signature uo_nonce uo_hour_bucket].
    rewrite !hex_roundtrip. cbn [map_err]. rewrite decode_order_blob_encoded by done.
    step. rewrite decide_False by done. cbn [negb]. step. rewrite Ho. cbn [map_err ok_or].
    rewrite Hl. cbn [negb Nat.eqb]. rewrite Hver. cbn [map_err]. step. rewrite Hrow. cbn [map_err Nat.eqb].
    rewrite i64_op_in by done. cbn [arith run]. reflexivity.
  - reflexivity.
  - reflexivity.
  - reflexivity.
  - unfold get_order. rewrite hex_roundtrip. cbn [map_err]. step. rewrite lookup_insert_eq. cbn [map_err ok_or run].
    reflexivity.
  - by destruct o.
  - by destruct o.
Qed.
End flow.

(** ** Admin tokens *)

Section token.
Context `{BuildProfile} `{Hex} `{Base64} `{Hashing} `{BigInts} `{Pkcs1}.
Context `{!HexLaws _} `{!Base64Laws _} `{!HashingLaws _} `{!BigIntsLaws _}.

Lemma sha256_below_modulus m n : length m = 32%nat -> 256 ^ 32 <= n -> from_bytes_be m < n.
Proof. intros Hl Hn. pose proof (from_bytes_be_bound m) as Hb. rewrite Hl in Hb. change (Z.of_nat 32) with 32 in Hb. lia. Qed.

(** The endpoint signs every blinded message. *)
Lemma blind_sign_blinded kp rnd hash blinded factor :
  1 < rsa_n (ak_public kp) <= 256 ^ 512 -> blind_message rnd hash (ak_public kp) = Some (blinded, factor) ->
  blind_sign (Some kp) (hex_encode blinded) = inr (hex_encode (sign_blinded blinded (ak_private kp))).
Proof.
  intros Hn Hb. unfold blind_message in Hb. destruct (blinding_bytes _ rnd) as [r|]; [|done]. simplify_eq.
  unfold blind_sign. rewrite hex_roundtrip. set (z := _ mod rsa_n (ak_public kp)).
  destruct (to_bytes_be_length z) as [Hlo Hhi]; [pose proof (Z.mod_pos_bound (from_bytes_be hash * modpow (from_bytes_be r) (rsa_e (ak_public kp)) (rsa_n (ak_public kp))) (rsa_n (ak_public kp))); lia|].
  destruct (Nat.eqb_spec (length (to_bytes_be z)) 0); [lia|].
  destruct (Nat.ltb_spec 512 (length (to_bytes_be z))); [lia|]. done.
Qed.

(** The fields of a request that carries the token. *)
Definition token_fields (m sig nonce : bytes) (expiry : Z) : TokenFields :=
  mk_token_fields (Some (hex_encode sig)) (Some (hex_encode m)) (Some (hex_encode nonce)) (Some expiry).

Lemma bump_order_run env sets missing id o w :
  quiet env -> w_orders w !! id = Some o -> in_i64 (o_version o + 1) ->
  exists w', run env (bump_order sets missing id) w = (w', Some (inr (o_version o + 1))) /\
    w_orders w' = <[id := row_after sets o]> (w_orders w) /\ w_listings w' = w_listings w.
Proof.
  intros Hq Ho Hv. unfold bump_order. step. rewrite Ho. cbn [map_err ok_or]. step.
  unfold sql_update_order. rewrite Ho, decide_True by done. cbn [map_err Nat.eqb].
  rewrite i64_op_in by done. cbn [arith run]. by eexists.
Qed.

(** C24. A token obtained blindly resolves the dispute.  A client composes the token
    message of a dispute, blinds it, has the endpoint sign it and unblinds the
    answer; when the random factor is invertible and the hour is fresh,
    [resolve_dispute] accepts the token and ends the dispute with the client's
    outcome.  The endpoint learns nothing it could refuse, so every client it
    serves can end every dispute. *)
Theorem blind_token_resolves_dispute env kp rnd id o outcome nonce expiry blinded factor w :
  let m := compose_token_message "dispute:resolve" (hex_encode id) nonce (u64_wrap expiry) in
  keypair_ok kp -> 256 ^ 32 <= rsa_n (ak_public kp) <= 256 ^ 512 ->
  blind_message rnd m (ak_public kp) = Some (blinded, factor) ->
  Z.gcd (from_bytes_be factor) (rsa_n (ak_public kp)) = 1 ->
  quiet env -> token_fresh expiry (env_now env (w_time w)) = Some true ->
  (AdminTokens, nonce_key (hex_encode id) (hex_encode nonce)) ∉ w_nonces w ->
  w_orders w !! id = Some o -> in_i64 (o_version o + 1) ->
  Z.of_nat (length outcome) <= MAX_DISPUTE_BLOB_BYTES ->
  exists answer blind_sig sig w' resp,
    blind_sign (Some kp) (hex_encode blinded) = inr answer /\ hex_decode answer = inr blind_sig /\
    unblind_signature blind_sig factor (ak_public kp) = Some sig /\
    run env (resolve_dispute (Some kp) (hex_encode id)
               (mk_resolve_dispute (b64_encode outcome) "" "" (token_fields m sig nonce expiry))) w
      = (w', Some (inr resp)) /\
    dr_has_dispute resp = false /\ dr_version resp = o_version o + 1 /\
    w_orders w' = <[id := row_after [SetDisputeBlob outcome; SetHasDispute 0] o]> (w_orders w).
Proof.
  intros m [Hk Hp] Hn Hb Hg Hq Hf Hno Ho Hv Hl.
  assert (length m = 32%nat) as Hm by apply sha256_length.
  exists (hex_encode (sign_blinded blinded (ak_private kp))), (sign_blinded blinded (ak_private kp)).
  assert (blind_sign (Some kp) (hex_encode blinded) = inr (hex_encode (sign_blinded blinded (ak_private kp)))) as Hs.
  { apply (blind_sign_blinded _ rnd m _ factor); [lia|done]. }
  pose proof (blind_signature_roundtrip (ak_private kp) rnd m blinded factor Hk) as Hr. rewrite <-Hp in Hr.
  specialize (Hr (sha256_below_modulus _ _ Hm (proj1 Hn)) Hb).
  destruct (unblind_signature _ _ _) as [sig|]; [|done]. destruct Hr as [_ Hver].
  assert (check_token kp "dispute:resolve" (hex_encode id) (token_fields m sig nonce expiry)
          = inr (hex_encode nonce, expiry)) as Hc.
  { apply check_token_ok. exists sig, nonce. cbn. by rewrite !hex_roundtrip. }
  exists sig. unfold resolve_dispute. cbn [ok_or rd_token]. rewrite Hc. step. cbn [fst snd]. rewrite Hf.
  step. rewrite decide_False by done. cbn [negb]. rewrite !hex_roundtrip. cbn [map_err rd_outcome_blob].
  unfold decode_dispute_blob. rewrite b64_roundtrip, (proj2 (Z.ltb_ge _ _)) by done. rewrite run_bind.
  match goal with |- context [run env (bump_order ?s ?t ?i) ?w0] =>
    destruct (bump_order_run env s t i o w0) as (w' & Hw & Hrow & _); [done..|] end.
  rewrite Hw. cbn [run]. exists w'. eexists. by split_and!.
Qed.
End token.

(** ** Logging in *)

Section login.
Context `{BuildProfile} `{Hex} `{Hashing} `{Ed25519} `{HeaderText}.
Context `{!HexLaws _} `{!HashingLaws _} `{!Ed25519Laws _}.


End login.

(** ** Witness: a stranger replaces the data of the sample order *)

Lemma any_key_updates_any_order_witness :
  exists sig w' resp g,
    run sample_env (update_order (H := release) (ed_public (sha256 (as_bytes "mallory"))) (hex_encode (o_id sample_row))
      (signed_request sig (as_bytes "mine") (le_bytes 8 9) 485277)) (world_with_order sample_row) = (w', Some (inr resp)) /\
    run sample_env (get_order (hex_encode (o_id sample_row))) w' = (w_tick w', Some (inr g)) /\
    or_client_encrypted_blob g = Some (b64_encode (as_bytes "mine")) /\ or_version g = 2.
Proof.
  destruct (any_key_updates_any_order (H := release) sample_env sample_env (sha256 (as_bytes "mallory")) (o_id sample_row) sample_row
              (as_bytes "mine") (le_bytes 8 9) 485277 (world_with_order sample_row))
    as (sig & w' & resp & g & _ & Hu & _ & _ & _ & Hg & Hb & Hv);
    [exact sample_env_quiet|exact sample_env_quiet|apply sha256_length|apply lookup_insert_eq|by vm_compute..|
     apply not_elem_of_empty|].
  exists sig, w', resp, g. split; [exact Hu|]. split; [exact Hg|]. split; [exact Hb|exact Hv].
Defined.

(** ** Witness: a blinded token ends the dispute of the sample order *)

Definition disputed_row : Order := row_after [SetDisputeBlob (as_bytes "broken"); SetHasDispute 1] sample_row.
Definition resolve_message : bytes :=
  compose_token_message "dispute:resolve" (hex_encode (o_id disputed_row)) [] (u64_wrap 485277).
Definition blinding_randomness : bytes := replicate 32 (byte_of_Z 0) ++ [byte_of_Z 3].

Lemma blind_token_resolves_dispute_witness :
  exists blinded factor answer sig w' resp,
    blind_message blinding_randomness resolve_message (ak_public unit_pair) = Some (blinded, factor) /\
    blind_sign (Some unit_pair) (hex_encode blinded) = inr answer /\
    run sample_env (resolve_dispute (H := release) (Some unit_pair) (hex_encode (o_id disputed_row))
      (mk_resolve_dispute (b64_encode (as_bytes "refund")) "" "" (token_fields resolve_message sig [] 485277)))
      (world_with_order disputed_row) = (w', Some (inr resp)) /\
    dr_has_dispute resp = false.
Proof.
  destruct (blind_message blinding_randomness resolve_message (ak_public unit_pair)) as [[bl f]|] eqn:E;
    [|vm_compute in E; discriminate E].
  assert (from_bytes_be f = 3) as Hf.
  { assert ((fun x => from_bytes_be (snd x)) <$> blind_message blinding_randomness resolve_message (ak_public unit_pair) = Some 3)
      as E2 by (vm_compute; reflexivity).
    rewrite E in E2. by injection E2. }
  destruct (blind_token_resolves_dispute (H := release) sample_env unit_pair blinding_randomness (o_id disputed_row)
              disputed_row (as_bytes "refund") [] 485277 bl f (world_with_order disputed_row))
    as (a & bs & sig & w' & resp & Ha & _ & _ & Hr & Hd & _);
    [exact unit_pair_ok|split; done|exact E|by rewrite Hf|exact sample_env_quiet|by vm_compute|
     apply not_elem_of_empty|apply lookup_insert_eq|by vm_compute|by vm_compute|].
  exists bl, f, a, sig, w', resp. split; [done|]. split; [exact Ha|]. split; [exact Hr|exact Hd].
Defined.

(** ** Witness: Bob logs in and reads an order *)


