(* ===== verification/TimeLock.v ===== *)
(** The time-lock worker, src/background/time_lock.rs: the periodic sweep over
    all orders that disputes abandoned orders and refunds expired disputes. *)
From S2P Require Import Prelude Interfaces Instances TimeBuckets Models Effects Serde Auth Blobs Worker.

Section time_lock.
Context `{Hashing} `{Aead} `{Hex} `{Serde} `{UuidText}.

(** ** The job *)

Definition has_active_dispute (data : OrderData) : bool :=
  match dispute data with Some d => bool_decide (dd_resolved_at d = None) | None => false end.

(** [worker_key] is [state.worker_key]. *)
Definition write_order (worker_key : option bytes) (id : bytes) (data : OrderData) (version : Z)
    : prog (string + unit) :=
  try key := get_worker_key worker_key in
  write_data key id data version.

Definition handle_shipped (wk : option bytes) (id : bytes) (data : OrderData) (now version : Z)
    : prog (string + unit) :=
  if has_active_dispute data then Ret (inr tt)
  else if negb (can_transition_to data "released") then Ret (inr tt)
  else
    let shipped_at := default (created_at data) (shipped_at data) in
    let release_time := i64_sat_add shipped_at (time_lock_seconds data) in
    if release_time <=? now
    then write_order wk id (set_released_at (Some now) (set_state "released" data)) version
    else Ret (inr tt).

(** The dispute [handle_funded] opens. *)
Definition auto_dispute (dispute_id : string) (data : OrderData) (now : Z) : DisputeData :=
  mk_dispute dispute_id (hex_encode (buyer_pubkey_hash data))
    "Auto-dispute: seller timeout after 2x time lock" None None None now [].

Definition handle_funded (wk : option bytes) (id : bytes) (data : OrderData) (now version : Z)
    : prog (string + unit) :=
  if has_active_dispute data then Ret (inr tt)
  else if negb (can_transition_to data "disputed") then Ret (inr tt)
  else
    let funded_at := default (created_at data) (funded_at data) in
    let ship_window := i64_sat_mul (time_lock_seconds data) 2 in
    let abandon_time := i64_sat_add funded_at ship_window in
    if abandon_time <=? now then
      let data := set_state "disputed" data in
      let data := set_disputed_at (Some now) data in
      let data := set_expires_at (Some (i64_sat_add now (time_lock_seconds data))) data in
      let! uuid := EUuid in
      let dispute := auto_dispute (uuid_to_string uuid) data now in
      write_order wk id (set_dispute (Some (dd_id dispute)) (Some dispute) data) version
    else Ret (inr tt).

Definition auto_refund (now : Z) (d : DisputeData) : DisputeData :=
  match dd_resolved_at d with
  | None => mk_dispute (dd_id d) (dd_opened_by d) (dd_reason d) (Some "refund") (Some "auto_system")
              (Some now) (dd_created_at d) (dd_evidence d)
  | Some _ => d
  end.

Definition handle_disputed (wk : option bytes) (id : bytes) (data : OrderData) (now version : Z)
    : prog (string + unit) :=
  if negb (can_transition_to data "refunded") then Ret (inr tt)
  else
    let expires_at :=
      default (i64_sat_add (created_at data) (time_lock_seconds data)) (expires_at data) in
    if expires_at <=? now then
      let data := set_dispute (dispute_id data) (option_map (auto_refund now) (dispute data)) data in
      let data := set_refunded_at (Some now) (set_state "refunded" data) in
      write_order wk id data version
    else Ret (inr tt).

(** The body of the loop for data that opened. *)
Definition sweep_order (wk : option bytes) (id : bytes) (data : OrderData) (now version : Z)
    : prog (string + unit) :=
  if bool_decide (state data = "shipped") then handle_shipped wk id data now version
  else if bool_decide (state data = "funded") then handle_funded wk id data now version
  else if bool_decide (state data = "disputed") then handle_disputed wk id data now version
  else Ret (inr tt).

(** The body of the loop; a row that does not open is skipped. *)
Definition sweep_row (key : bytes) (now : Z) (order : Order) : prog (string + unit) :=
  match open_order key order with
  | None => Ret (inr tt)
  | Some data => sweep_order (Some key) (o_id order) data now (o_version order)
  end.

Definition check_time_locks (worker_key : option bytes) : prog (string + unit) :=
  let! ts := ENow in
  let now := floor_timestamp_6h ts in
  try key := get_worker_key worker_key in
  let! r := EOrderAll in
  try orders := r in
  for_each (sweep_row key now) orders.

(** ** What a sweep does to one order *)

(** The new data of an order at [now], [u] being the id of a new dispute;
    [None] when the sweep has nothing to do. *)
Definition next_data (now : Z) (d : OrderData) : option (string -> OrderData) :=
  if bool_decide (state d = "funded") then
    if has_active_dispute d then None
    else if i64_sat_add (default (created_at d) (funded_at d)) (i64_sat_mul (time_lock_seconds d) 2) <=? now
    then Some (fun u =>
           let dd := set_expires_at (Some (i64_sat_add now (time_lock_seconds d)))
                       (set_disputed_at (Some now) (set_state "disputed" d)) in
           set_dispute (Some u) (Some (auto_dispute u dd now)) dd)
    else None
  else if bool_decide (state d = "disputed") then
    if default (i64_sat_add (created_at d) (time_lock_seconds d)) (expires_at d) <=? now
    then Some (fun _ => set_refunded_at (Some now) (set_state "refunded"
           (set_dispute (dispute_id d) (option_map (auto_refund now) (dispute d)) d)))
    else None
  else None.

Lemma can_transition_eq d s t :
  state d = s -> can_transition_to d t = bool_decide (t ∈ state_transitions (sample_order s)).
Proof. intros E. unfold can_transition_to, state_transitions. by rewrite E. Qed.

Lemma sweep_order_cases wk id d now v :
  match next_data now d with
  | None => sweep_order wk id d now v = Ret (inr tt)
  | Some f =>
      (sweep_order wk id d now v = write_order wk id (f "") v /\ forall u, f u = f "") \/
      sweep_order wk id d now v = Vis EUuid (fun u => write_order wk id (f (uuid_to_string u)) v)
  end.
Proof.
  unfold next_data, sweep_order, handle_shipped, handle_funded, handle_disputed.
  destruct (bool_decide_reflect (state d = "shipped")) as [Hs|Hs].
  - rewrite !bool_decide_eq_false_2 by (rewrite Hs; done).
    destruct (has_active_dispute d); [done|]. by rewrite (can_transition_eq d "shipped" "released" Hs).
  - destruct (bool_decide_reflect (state d = "funded")) as [Hf|Hf].
    + destruct (has_active_dispute d); [done|].
      rewrite (can_transition_eq d "funded" "disputed" Hf). cbn -[i64_sat_add i64_sat_mul].
      destruct (_ <=? now); [|done]. right. by destruct d.
    + destruct (bool_decide_reflect (state d = "disputed")) as [Hd|Hd]; [|done].
      rewrite (can_transition_eq d "disputed" "refunded" Hd). cbn -[i64_sat_add].
      destruct (_ <=? now); [|done]. by left.
Qed.

Lemma next_data_lifecycle now d f u :
  next_data now d = Some f ->
  can_transition_to d (state (f u)) = true /\
  (state d, state (f u)) ∈ [("funded", "disputed"); ("disputed", "refunded")].
Proof.
  unfold next_data. intros E.
  destruct (bool_decide_reflect (state d = "funded")) as [Hs|Hs];
    [|destruct (bool_decide_reflect (state d = "disputed")) as [Hs'|Hs']; [|done]].
  - destruct (has_active_dispute d); [done|]. destruct (_ <=? now); [|done]. simplify_eq.
    rewrite (can_transition_eq d "funded" _ Hs). rewrite Hs. destruct d; cbn. split; [done|set_solver].
  - destruct (_ <=? now); [|done]. simplify_eq.
    rewrite (can_transition_eq d "disputed" _ Hs'). rewrite Hs'. destruct d; cbn. split; [done|set_solver].
Qed.

(** The row [o] after a sweep at [now]. *)
Definition swept (key : bytes) (now : Z) (o o' : Order) : Prop :=
  match open_order key o ≫= next_data now with
  | Some f => exists u, rewritten key o (f u) o'
  | None => o' = o
  end.

Context `{!AeadLaws _} `{!SerdeLaws _}.

Lemma sweep_row_run env key now o w w' r :
  fair env -> w_orders w !! o_id o = Some o ->
  run env (sweep_row key now o) w = (w', r) ->
  exists o', (o' = o \/ swept key now o o') /\ o_id o' = o_id o /\
    w_orders w' = <[o_id o := o']> (w_orders w).
Proof.
  intros Hf Hw Hrun. unfold sweep_row, swept in *.
  assert (w_orders w = <[o_id o := o]> (w_orders w)) as Hsame by (by rewrite insert_id).
  destruct (open_order key o) as [d|]; [|cbn in Hrun; simplify_eq; by eauto].
  pose proof (sweep_order_cases (Some key) (o_id o) d now (o_version o)) as Hc. cbn [mbind option_bind].
  destruct (next_data now d) as [f|]; [|rewrite Hc in Hrun; cbn in Hrun; simplify_eq; by eauto].
  destruct Hc as [[Hc _]|Hc]; rewrite Hc in Hrun; unfold write_order in Hrun; cbn [get_worker_key ok_or] in Hrun.
  - destruct (write_data_run env key _ o w w' r Hf Hw Hrun) as (o' & [->|Ho] & Hi & Hm); eauto 10.
  - step_in Hrun.
    destruct (write_data_run env key _ o (w_tick w) w' r Hf Hw Hrun) as (o' & [->|Ho] & Hi & Hm); eauto 10.
Qed.

Lemma sweep_row_ok `{!HashingLaws _} `{!WorkerTotal _ _ _} env key now o w :
  fair env -> quiet env -> w_orders w !! o_id o = Some o ->
  exists w' o', run env (sweep_row key now o) w = (w', Some (inr tt)) /\
    swept key now o o' /\ w_orders w' = <[o_id o := o']> (w_orders w).
Proof.
  intros Hf Hq Hw. unfold sweep_row, swept.
  assert (w_orders w = <[o_id o := o]> (w_orders w)) as Hsame by (by rewrite insert_id).
  destruct (open_order key o) as [d|]; [|by exists w, o].
  pose proof (sweep_order_cases (Some key) (o_id o) d now (o_version o)) as Hc. cbn [mbind option_bind].
  destruct (next_data now d) as [f|]; [|rewrite Hc; by exists w, o].
  destruct Hc as [[Hc _]|Hc]; rewrite Hc; unfold write_order; cbn [get_worker_key ok_or].
  - destruct (write_data_ok env key (f "") o w Hf Hq Hw) as (w' & o' & Hr & Ho & Hm). eauto 10.
  - step. destruct (write_data_ok env key (f (uuid_to_string (env_uuid env (w_time w)))) o (w_tick w) Hf Hq Hw)
      as (w' & o' & Hr & Ho & Hm). eauto 10.
Qed.

(** A sweep under any database faults leaves every row as it was or takes its
    order from "funded" to "disputed" or from "disputed" to "refunded", a
    transition the state machine allows, once its deadline is past; it neither
    adds nor removes rows and releases no order. *)
Theorem time_lock_safe env key w w' r :
  fair env -> keyed o_id (w_orders w) ->
  run env (check_time_locks (Some key)) w = (w', r) ->
  forall id, match w_orders w !! id with
    | None => w_orders w' !! id = None
    | Some o => exists o', w_orders w' !! id = Some o' /\
        (o' = o \/ exists d f u,
           open_order key o = Some d /\ next_data (floor_timestamp_6h (env_now env (w_time w))) d = Some f /\
           rewritten key o (f u) o' /\ can_transition_to d (state (f u)) = true /\
           (state d, state (f u)) ∈ [("funded", "disputed"); ("disputed", "refunded")])
    end.
Proof.
  intros Hf Hk Hrun id. unfold check_time_locks in Hrun.
  step_in Hrun. cbn [get_worker_key ok_or] in Hrun. step_in Hrun.
  destruct (env_db_fault env _).
  { cbn in Hrun. simplify_eq/=. destruct (w_orders w !! id); [by eauto|done]. }
  set (w1 := w_tick (w_tick w)) in *. set (now := floor_timestamp_6h (env_now env (w_time w))) in *.
  change (map snd (map_to_list (w_orders w))) with (snapshot (w_orders w1)) in Hrun.
  destruct (for_each_rows w_orders o_id env (sweep_row key now) (fun o o' => o' = o \/ swept key now o o')
              (snapshot (w_orders w1)) w1 w' r) as [Hout Hin]; [by left| | | |exact Hrun|].
  { intros o v v' r' Ho Hr. by apply (sweep_row_run env key now o v v' r'). }
  { by apply snapshot_ids. }
  { intros o Ho. by apply (snapshot_in o_id). }
  destruct (w_orders w !! id) as [o|] eqn:Eo.
  - pose proof (Hk _ _ Eo) as Hid. destruct (Hin o) as (o' & Hs & Hi & Hl).
    { apply (snapshot_in o_id); [done|]. by rewrite Hid. }
    rewrite Hid in Hl. exists o'. split; [done|]. destruct Hs as [->|Hs]; [by left|].
    unfold swept in Hs. destruct (open_order key o) as [d|] eqn:Ed; cbn [mbind option_bind] in Hs; [|by left].
    destruct (next_data now d) as [f|] eqn:En; [|by left]. destruct Hs as [u Hu]. right.
    destruct (next_data_lifecycle now d f u En). by exists d, f, u.
  - rewrite Hout; [done|]. intros Hni. apply list_elem_of_fmap in Hni as (o & -> & Ho).
    apply (snapshot_in o_id) in Ho; [|done]. change (w_orders w1) with (w_orders w) in Ho. by rewrite Eo in Ho.
Qed.

(** The order carries a dispute, and that one has no time of resolution. *)
Definition disputed_open (d : OrderData) : bool :=
  bool_decide (is_Some (dispute d) /\ dispute d ≫= dd_resolved_at = None).

Lemma has_active_dispute_spec d : has_active_dispute d = disputed_open d.
Proof.
  unfold has_active_dispute, disputed_open. case_bool_decide as Hs.
  - destruct Hs as [[x ->] Hr]. by apply bool_decide_eq_true_2.
  - destruct (dispute d) as [x|]; [|done]. apply bool_decide_eq_false_2. intros Hr. by apply Hs.
Qed.

(** The deadlines as the code means them: an order funded for twice its time
    lock without an active dispute becomes disputed, with a new dispute opened
    for the buyer that expires one time lock later; an order disputed past its
    expiry is refunded. *)
Definition due (now : Z) (d : OrderData) : bool :=
  (bool_decide (state d = "funded") && negb (disputed_open d) &&
   (i64_sat_add (default (created_at d) (funded_at d)) (i64_sat_mul (time_lock_seconds d) 2) <=? now)) ||
  (bool_decide (state d = "disputed") &&
   (default (i64_sat_add (created_at d) (time_lock_seconds d)) (expires_at d) <=? now)).

Lemma next_data_due now d : is_Some (next_data now d) <-> due now d = true.
Proof.
  unfold next_data, due. rewrite has_active_dispute_spec. destruct (bool_decide_reflect (state d = "funded")) as [E|E]; cbn [andb orb].
  - rewrite (bool_decide_eq_false_2 (state d = "disputed")) by (rewrite E; done).
    destruct (disputed_open d); cbn [andb orb negb].
    + split; [by intros [??]|done].
    + destruct (_ <=? now); cbn; split; try done; by intros [??].
  - destruct (bool_decide_reflect (state d = "disputed")); cbn [andb].
    + destruct (_ <=? now); split; try done; by intros [??].
    + split; [by intros [??]|done].
Qed.

(** What [swept] says of an order that opens. *)
Definition sweep_result (key : bytes) (now : Z) (o : Order) (d : OrderData) (o' : Order) : Prop :=
  if due now d then
    exists d', open_order key o' = Some d' /\ o_version o' = o_version o + 1 /\
      o_expiry_bucket o' = option_map floor_timestamp_6h (expires_at d') /\
      ((state d = "funded" /\ state d' = "disputed" /\ disputed_at d' = Some now /\
        expires_at d' = Some (i64_sat_add now (time_lock_seconds d)) /\
        exists u, dispute_id d' = Some u /\ dispute d' = Some (auto_dispute u d now)) \/
       (state d = "disputed" /\ state d' = "refunded" /\ refunded_at d' = Some now /\
        dispute d' = option_map (auto_refund now) (dispute d)))
  else o' = o.

Lemma swept_due key now o d o' :
  match next_data now d with Some f => exists u, rewritten key o (f u) o' | None => o' = o end ->
  sweep_result key now o d o'.
Proof.
  unfold sweep_result. pose proof (next_data_due now d) as Hdue. intros Hs.
  destruct (next_data now d) as [f|] eqn:En.
  - rewrite (proj1 Hdue) by eauto. destruct Hs as (u & blob & -> & Hopen). exists (f u).
    split; [done|]. split; [by destruct o|]. split; [by destruct o|].
    unfold next_data in En. destruct (bool_decide_reflect (state d = "funded")) as [Es|_];
      [|destruct (bool_decide_reflect (state d = "disputed")) as [Es|_]; [|done]].
    + left. destruct (has_active_dispute d); [done|]. destruct (_ <=? now); [|done]. simplify_eq.
      split; [done|]. destruct d; cbn. eauto 10.
    + right. destruct (_ <=? now); [|done]. simplify_eq. split; [done|]. by destruct d.
  - destruct (due now d); [|done]. by destruct (proj2 Hdue eq_refl).
Qed.

(** C6. Without faults a sweep finishes, and the orders it changes are exactly those
    that open and are due; each due one gets a row that opens to its new data,
    disputed when it was funded and refunded when it was disputed, stamped with
    the sweep's time. *)
Theorem time_lock_sweep `{!HashingLaws _} `{!WorkerTotal _ _ _} env key w :
  fair env -> quiet env -> keyed o_id (w_orders w) ->
  let now := floor_timestamp_6h (env_now env (w_time w)) in
  exists w', run env (check_time_locks (Some key)) w = (w', Some (inr tt)) /\
  forall id o, w_orders w !! id = Some o ->
    exists o', w_orders w' !! id = Some o' /\
    match open_order key o with Some d => sweep_result key now o d o' | None => o' = o end.
Proof.
  intros Hf Hq Hk now. unfold check_time_locks. step. cbn [get_worker_key ok_or]. step.
  set (w1 := w_tick (w_tick w)).
  change (map snd (map_to_list (w_orders w))) with (snapshot (w_orders w1)).
  fold now. assert (keyed o_id (w_orders w1)) as Hk1 by exact Hk.
  destruct (for_each_ok w_orders o_id env (sweep_row key now) (swept key now) (snapshot (w_orders w1)) w1)
    as (w' & Hrun & _ & Hin).
  { intros o v Ho. by apply sweep_row_ok. }
  { by apply snapshot_ids. }
  { intros o Ho. by apply (snapshot_in o_id). }
  exists w'. split; [exact Hrun|]. intros id o Ho. pose proof (Hk _ _ Ho) as <-.
  destruct (Hin o) as (o' & Hs & Hl); [by apply (snapshot_in o_id)|]. exists o'. split; [done|].
  unfold swept in Hs. destruct (open_order key o) as [d|] eqn:Ed; cbn [mbind option_bind] in Hs; [|done].
  by apply swept_due.
Qed.

(** A sweep stops at the first due order that another request has changed since
    the snapshot: that order and all later ones of the snapshot keep their rows,
    however overdue they are, until the next sweep. *)
Theorem time_lock_abort env key now o rest d w w' r :
  open_order key o = Some d -> due now d = true ->
  (forall row, w_orders w !! o_id o = Some row -> o_version row <> o_version o) ->
  run env (for_each (sweep_row key now) (o :: rest)) w = (w', r) ->
  w_orders w' = w_orders w /\ r <> Some (inr tt).
Proof.
  intros Ho Hd Hv Hrun. apply next_data_due in Hd as [f Hf].
  cbn [for_each] in Hrun. rewrite run_bind in Hrun. unfold sweep_row at 1 in Hrun. rewrite Ho in Hrun.
  pose proof (sweep_order_cases (Some key) (o_id o) d now (o_version o)) as Hc. rewrite Hf in Hc.
  destruct (run env (sweep_order _ _ _ _ _) w) as [w1 r1] eqn:E1.
  assert (w_orders w1 = w_orders w /\ r1 <> Some (inr tt)) as [Hw Hr].
  { destruct Hc as [[Hc _]|Hc]; rewrite Hc in E1; unfold write_order in E1;
      cbn [get_worker_key ok_or] in E1; [|step_in E1];
      refine (write_data_conflict _ _ _ _ _ _ _ _ _ E1); exact Hv. }
  destruct r1 as [[e|[]]|]; cbn in Hrun; simplify_eq; done.
Qed.

(** A shipped order is never released by the sweep, whatever its deadline: the
    transition table has no edge from "shipped" to "released". *)
Lemma shipped_never_released wk id d now v :
  state d = "shipped" -> handle_shipped wk id d now v = Ret (inr tt).
Proof.
  intros E. unfold handle_shipped. destruct (has_active_dispute d); [done|].
  by rewrite (can_transition_eq d "shipped" "released" E).
Qed.
End time_lock.

(** ** Witnesses *)

Definition worker_key : bytes := sha256 (as_bytes "worker").

(** A row whose blob opens to [d] under [worker_key]. *)
Definition row_of (id : bytes) (d : OrderData) (v : Z) : Order :=
  mk_order id
    (default [] (encrypt_order_blob (replicate 12 Byte.x00)
       (match order_to_vec d with inr j => j | inl _ => [] end) worker_key id))
    0 None v 0 None None None.

Definition funded_order : OrderData := set_funded_at (Some 1745000000) (sample_order "funded").
Definition lock_row : Order := row_of (le_bytes 16 7) funded_order 1.
Definition lock_world : World := world_with_order lock_row.

Lemma world_with_order_keyed o : keyed o_id (w_orders (world_with_order o)).
Proof. intros id o' Hl. cbn in Hl. by apply lookup_singleton_Some in Hl as [<- <-]. Qed.

Definition lock_now : Z := floor_timestamp_6h (env_now sample_env (w_time lock_world)).

Lemma time_lock_safe_witness :
  exists o', w_orders (fst (run sample_env (check_time_locks (Some worker_key)) lock_world)) !! o_id lock_row
    = Some o' /\ o' <> lock_row.
Proof.
  destruct (run sample_env (check_time_locks (Some worker_key)) lock_world) as [w' r] eqn:E.
  pose proof (time_lock_safe sample_env worker_key lock_world w' r sample_env_fair
                (world_with_order_keyed lock_row) E (o_id lock_row)) as Hs.
  assert (w_orders lock_world !! o_id lock_row = Some lock_row) as El by (vm_compute; reflexivity).
  rewrite El in Hs. destruct Hs as (o' & Ho & _). exists o'. cbn [fst]. split; [exact Ho|].
  assert (o_version <$> w_orders w' !! o_id lock_row = Some 2) as E2.
  { apply (f_equal fst) in E. cbn [fst] in E. rewrite <-E. vm_compute. reflexivity. }
  rewrite Ho in E2. intros ->. vm_compute in E2. discriminate.
Defined.

Lemma time_lock_sweep_witness :
  exists w' o', run sample_env (check_time_locks (Some worker_key)) lock_world = (w', Some (inr tt)) /\
    w_orders w' !! o_id lock_row = Some o' /\
    sweep_result worker_key lock_now lock_row funded_order o' /\ due lock_now funded_order = true.
Proof.
  destruct (time_lock_sweep sample_env worker_key lock_world sample_env_fair sample_env_quiet
              (world_with_order_keyed lock_row)) as (w' & Hr & Hs).
  assert (w_orders lock_world !! o_id lock_row = Some lock_row) as El by (vm_compute; reflexivity).
  destruct (Hs _ _ El) as (o' & Ho & Hd). exists w', o'.
  assert (open_order worker_key lock_row = Some funded_order) as Eo by (vm_compute; reflexivity).
  rewrite Eo in Hd. split; [exact Hr|]. split; [exact Ho|]. split; [exact Hd|vm_compute; reflexivity].
Defined.

Lemma time_lock_abort_witness :
  let changed := world_with_order (bump_version lock_row) in
  snd (run sample_env (for_each (sweep_row worker_key lock_now) [lock_row]) changed) <> Some (inr tt).
Proof.
  intros changed.
  destruct (run sample_env (for_each (sweep_row worker_key lock_now) [lock_row]) changed) as [w' r] eqn:E.
  refine (proj2 (time_lock_abort sample_env worker_key lock_now lock_row [] funded_order changed w' r _ _ _ E)).
  - vm_compute. reflexivity.
  - vm_compute. reflexivity.
  - intros row Hrow. vm_compute in Hrow. injection Hrow as <-. vm_compute. discriminate.
Defined.
