(* ===== verification/ListingExpiry.v ===== *)
(** The listing-expiry worker, src/background/listing_expiry.rs: the periodic
    sweep that marks active listings past their expiry as expired. *)
From S2P Require Import Prelude Interfaces Instances TimeBuckets Models Effects Serde Auth Blobs Worker.

Section listing_expiry.
Context `{Hashing} `{Aead} `{Serde}.

Definition set_ld_status (v : string) (d : ListingData) : ListingData :=
  match d with
  | mk_listing_data sh sp ed es cu pa _ ca ex up => mk_listing_data sh sp ed es cu pa v ca ex up
  end.
Definition set_ld_updated_at (v : Z) (d : ListingData) : ListingData :=
  match d with
  | mk_listing_data sh sp ed es cu pa st ca ex _ => mk_listing_data sh sp ed es cu pa st ca ex v
  end.

(** [SET encrypted_listing_blob = ?1, status = ?2, version = version + 1] *)
Definition expire_row (blob : bytes) (l : Listing) : Listing :=
  mk_listing (l_id l) blob (l_day_bucket l) (l_search_token l) "expired" (l_currency l) (l_version l + 1).

Definition open_listing (key : bytes) (l : Listing) : option ListingData :=
  decrypt_listing_blob (l_encrypted_listing_blob l) key (l_id l) ≫= fun raw =>
  opt_result (listing_from_slice raw).

Definition expired_at (now : Z) (data : ListingData) : bool :=
  match ld_expires_at data with Some exp => exp <=? now | None => false end.

(** The body of the loop; a [continue] is [Ret (inr tt)]. *)
Definition expire_listing (key : bytes) (now : Z) (listing : Listing) : prog (string + unit) :=
  match open_listing key listing with
  | None => Ret (inr tt)
  | Some data =>
      if negb (expired_at now data) then Ret (inr tt)
      else
        let data := set_ld_updated_at now (set_ld_status "expired" data) in
        match listing_to_vec data with
        | inl _ => Ret (inr tt)
        | inr json =>
            let! nonce := ERandom 12 in
            match encrypt_listing_blob nonce json key (l_id listing) with
            | None => Ret (inr tt)
            | Some blob =>
                let! r := EListingUpdate (expire_row blob) (l_id listing) (l_version listing) in
                try _ := r in
                Ret (inr tt)
            end
        end
  end.

Definition active_rows (rows : list Listing) : list Listing :=
  List.filter (fun l => bool_decide (l_status l = "active")) rows.

Definition check_listing_expiry (worker_key : option bytes) : prog (string + unit) :=
  match worker_key with
  | None => Ret (inr tt)
  | Some key =>
      let! ts := ENow in
      let now := floor_timestamp_6h ts in
      let! r := EListingAll in
      try rows := r in
      for_each (expire_listing key now) (active_rows rows)
  end.

Context `{!AeadLaws _} `{!SerdeLaws _} `{!HashingLaws _} `{!WorkerTotal _ _ _}.

(** The listing has an expiry and it is not in the future. *)
Definition past_expiry (now : Z) (d : ListingData) : Prop :=
  from_option (fun exp => exp <= now) False (ld_expires_at d).

#[global] Instance past_expiry_dec now d : Decision (past_expiry now d).
Proof. unfold past_expiry. destruct (ld_expires_at d); cbn; apply _. Defined.

Lemma expired_at_spec now d : expired_at now d = bool_decide (past_expiry now d).
Proof.
  destruct (bool_decide_reflect (past_expiry now d)) as [Hp|Hp]; unfold expired_at, past_expiry in *;
    destruct (ld_expires_at d) as [e|]; cbn in *; try done.
  - by apply Z.leb_le.
  - apply Z.leb_gt. lia.
Qed.

(** The row [l] after a sweep at [now]. *)
Definition expiry_result (key : bytes) (now : Z) (l l' : Listing) : Prop :=
  match open_listing key l with
  | Some d =>
      if decide (past_expiry now d)
      then (exists blob, l' = expire_row blob l) /\
           open_listing key l' = Some (set_ld_updated_at now (set_ld_status "expired" d))
      else l' = l
  | None => l' = l
  end.

Lemma expire_listing_ok env key now l w :
  fair env -> quiet env -> w_listings w !! l_id l = Some l ->
  exists w' l', run env (expire_listing key now l) w = (w', Some (inr tt)) /\
    expiry_result key now l l' /\ w_listings w' = <[l_id l := l']> (w_listings w).
Proof.
  intros Hf Hq Hw. unfold expire_listing, expiry_result.
  assert (w_listings w = <[l_id l := l]> (w_listings w)) as Hsame by (by rewrite insert_id).
  destruct (open_listing key l) as [d|] eqn:Ed; [|by exists w, l].
  rewrite expired_at_spec. destruct (decide (past_expiry now d)) as [Hp|Hp];
    [rewrite bool_decide_true by done|rewrite bool_decide_false by done; by exists w, l]. cbn [negb].
  set (d' := set_ld_updated_at now (set_ld_status "expired" d)).
  destruct (wt_serde_listing d') as [json Ej]. rewrite Ej. step. specialize (Hf (w_time w) 12%nat).
  set (nonce := env_random env (w_time w) 12) in *.
  destruct (hmac_total key (as_bytes "oblivious-listing-v1" ++ l_id l)) as [k Ek].
  destruct (wt_aead k nonce json (hmac_length _ _ _ Ek) Hf) as [c Ec].
  assert (encrypt_listing_blob nonce json key (l_id l) = Some (nonce ++ c)) as Eb.
  { unfold encrypt_listing_blob, derive_listing_key, derive_blob_key, seal. by rewrite Ek, Ec. }
  rewrite Eb. step. unfold sql_update_listing. rewrite Hw, decide_True by done. cbn [run].
  eexists _, _. split; [done|]. split; [|done]. split; [by eexists|].
  unfold open_listing. cbn [expire_row l_encrypted_listing_blob l_id].
  rewrite (listing_blob_roundtrip _ _ _ _ _ Hf Eb). cbn. by rewrite (listing_serde_roundtrip _ _ Ej).
Qed.

(** C35. A sweep without faults finishes; of the active listings, those whose data
    opens and is past its expiry get the status "expired" in the column and in
    the data, with one more version, and every other listing keeps its row. *)
Theorem listing_expiry_sweep env key w :
  fair env -> quiet env -> keyed l_id (w_listings w) ->
  let now := floor_timestamp_6h (env_now env (w_time w)) in
  exists w', run env (check_listing_expiry (Some key)) w = (w', Some (inr tt)) /\
  forall id l, w_listings w !! id = Some l ->
    exists l', w_listings w' !! id = Some l' /\
    if bool_decide (l_status l = "active") then expiry_result key now l l' else l' = l.
Proof.
  intros Hf Hq Hk now. unfold check_listing_expiry. step. step.
  set (w1 := w_tick (w_tick w)).
  change (map snd (map_to_list (w_listings w))) with (snapshot (w_listings w1)).
  assert (keyed l_id (w_listings w1)) as Hk1 by exact Hk.
  assert (forall l, l ∈ active_rows (snapshot (w_listings w1)) <->
            w_listings w !! l_id l = Some l /\ l_status l = "active") as Hin.
  { intros l. unfold active_rows. rewrite list_elem_of_In, filter_In, <-list_elem_of_In.
    rewrite (snapshot_in l_id) by done. by rewrite bool_decide_eq_true. }
  destruct (for_each_ok w_listings l_id env (expire_listing key now) (expiry_result key now)
              (active_rows (snapshot (w_listings w1))) w1) as (w' & Hrun & Hout & Hrow).
  { intros l v Hl. by apply expire_listing_ok. }
  { by apply NoDup_map_filter, snapshot_ids. }
  { intros l Hl. by apply Hin in Hl as [Hl _]. }
  exists w'. split; [exact Hrun|]. intros id l Hl. pose proof (Hk _ _ Hl) as <-.
  destruct (bool_decide_reflect (l_status l = "active")) as [Ha|Ha].
  - destruct (Hrow l) as (l' & Hr & Hl'); [by apply Hin|]. by exists l'.
  - exists l. split; [|done]. rewrite Hout; [done|].
    intros (l2 & Hid & Hl2)%list_elem_of_fmap. apply Hin in Hl2 as [Hl2 Ha2].
    rewrite <-Hid, Hl in Hl2. by simplify_eq.
Qed.
End listing_expiry.

(** ** Witness *)

Definition expiring_key : bytes := sha256 (as_bytes "worker").
Definition expiring_data : ListingData :=
  mk_listing_data [] None [] None "XMR" "1.0" "active" 1740000000 (Some 1746000000) 1740000000.
Definition expiring_listing : Listing :=
  let id := le_bytes 16 3 in
  mk_listing id
    (default [] (encrypt_listing_blob (replicate 12 Byte.x00)
       (match listing_to_vec expiring_data with inr j => j | inl _ => [] end) expiring_key id))
    1740009600 None "active" "XMR" 1.
Definition expiring_world : World := w_set_listings (<[l_id expiring_listing := expiring_listing]>) empty_world.

Lemma listing_expiry_sweep_witness :
  exists w' l', run sample_env (check_listing_expiry (Some expiring_key)) expiring_world = (w', Some (inr tt)) /\
    w_listings w' !! l_id expiring_listing = Some l' /\ l_status l' = "expired".
Proof.
  destruct (listing_expiry_sweep sample_env expiring_key expiring_world sample_env_fair sample_env_quiet)
    as (w' & Hr & Hs).
  { intros id l Hl. cbn in Hl. by apply lookup_singleton_Some in Hl as [<- <-]. }
  assert (w_listings expiring_world !! l_id expiring_listing = Some expiring_listing) as El
    by (vm_compute; reflexivity).
  destruct (Hs _ _ El) as (l' & Hl & Hd). exists w', l'. split; [exact Hr|]. split; [exact Hl|].
  change (bool_decide (l_status expiring_listing = "active")) with true in Hd. cbv iota in Hd.
  unfold expiry_result in Hd.
  assert (open_listing expiring_key expiring_listing = Some expiring_data) as Eo by (vm_compute; reflexivity).
  rewrite Eo in Hd.
  rewrite decide_True in Hd by (cbn; vm_compute; discriminate). destruct Hd as [[blob ->] _]. reflexivity.
Defined.
