(* ===== verification/Rpc.v ===== *)
(** JSON-RPC to the two wallet nodes: what MoneroViewOnlyClient
    (src/services/payments/xmr.rs) and BitcoinClient
    (src/services/payments/btc.rs) share.

    A method of a client is a state and error monad over [prog]: the client's
    mutex-guarded fields are the state, an [anyhow::Error] is its text.  The
    timing jitter around a request is not modelled. *)
From S2P Require Import Prelude Interfaces Models Effects.

(** ** The monad of client methods *)

Definition client (S A : Type) : Type := S -> prog (S * (string + A)).

#[global] Instance client_ret S : MRet (client S) := fun A a s => Ret (s, inr a).
#[global] Instance client_bind S : MBind (client S) := fun A B f m s =>
  do p := m s in
  match p with
  | (s', inl e) => Ret (s', inl e)
  | (s', inr a) => f a s'
  end.

Definition cfail {S A} (e : string) : client S A := fun s => Ret (s, inl e).
Definition cget {S} : client S S := fun s => Ret (s, inr s).
Definition cmodify {S} (f : S -> S) : client S unit := fun s => Ret (f s, inr tt).
(** The [Result] of a call as a value, for [if let Ok(..)]. *)
Definition ctry {S A} (m : client S A) : client S (string + A) := fun s =>
  do p := m s in Ret (fst p, inr (snd p)).
Definition cev {S R} (e : ev R) : client S R := fun s => Vis e (fun r => Ret (s, inr r)).
Definition cresult {S A} (r : string + A) : client S A := fun s => Ret (s, r).
Definition cpanic {S A} : client S A := fun _ => Panic.

Lemma run_cbind env {S A B} (m : client S A) (f : A -> client S B) s w :
  run env ((m ≫= f) s) w =
  let '(w', o) := run env (m s) w in
  match o with
  | Some (s', inr a) => run env (f a s') w'
  | Some (s', inl e) => (w', Some (s', inl e))
  | None => (w', None)
  end.
Proof.
  unfold mbind, client_bind. rewrite run_bind.
  destruct (run env (m s) w) as [w' [[s' [e|a]]|]]; done.
Qed.

Lemma run_ctry env {S A} (m : client S A) s w :
  run env (ctry m s) w =
  let '(w', o) := run env (m s) w in
  match o with Some (s', r) => (w', Some (s', inr r)) | None => (w', None) end.
Proof. unfold ctry. rewrite run_bind. destruct (run env (m s) w) as [w' [[s' r]|]]; done. Qed.

(** ** [serde_json::Value] *)

Definition jget (j : Json) (k : string) : option Json :=
  match j with
  | JObj l => (fix find l := match l with
                             | [] => None
                             | (k', v) :: t => if decide (k' = k) then Some v else find t
                             end) l
  | _ => None
  end.

(** [value["k"]] *)
Definition jindex (j : Json) (k : string) : Json := default JNull (jget j k).

Definition as_u64 (j : Json) : option Z :=
  match j with JNum n => if decide (in_u64 n) then Some n else None | _ => None end.
Definition as_str (j : Json) : option string := match j with JStr s => Some s | _ => None end.
Definition as_array (j : Json) : option (list Json) := match j with JArr l => Some l | _ => None end.
Definition is_null (j : Json) : bool := match j with JNull => true | _ => false end.

Lemma as_u64_num n : in_u64 n -> as_u64 (JNum n) = Some n.
Proof. intros H. unfold as_u64. by rewrite decide_True. Qed.

Lemma as_u64_range j n : as_u64 j = Some n -> in_u64 n.
Proof. destruct j; cbn; try done. case_decide; by intros [= <-]. Qed.

(** [serde_json::to_string], also the [Display] of a value. *)
Class JsonText := { json_to_string : Json -> string }.

(** ** Requests *)

Definition PADDED_BODY_SIZE : nat := Z.to_nat 4096.

Section rpc.
Context `{BuildProfile} `{JsonText}.

(** [pad_json_body]; [None] is the panic of a [debug_assert!], compiled in
    together with the overflow checks, or of the slice. *)
Definition pad_json_body (body : Json) : option bytes :=
  let body_str := as_bytes (json_to_string body) in
  let close := as_bytes "}" in
  if Nat.eqb (length body_str) 0 then None
  else if overflow_checks && negb (bool_decide (drop (length body_str - 1) body_str = close)) then None
  else
    let without_close := take (length body_str - 1) body_str in
    let remaining := (PADDED_BODY_SIZE - (length without_close + 1))%nat in
    let padded := without_close ++ replicate remaining (byte_of_Z 32) ++ close in
    if overflow_checks && negb (Nat.eqb (length padded) PADDED_BODY_SIZE) then None
    else Some padded.

(** The body of a request. *)
Definition rpc_body (id : Z) (method : string) (params : Json) : Json :=
  JObj [("jsonrpc", JStr "2.0"); ("id", JNum id); ("method", JStr method); ("params", params)].

(** The [error] and [result] members of an answer. *)
Definition rpc_result (label : string) (resp : string + Json) : string + Json :=
  match resp with
  | inl e => inl e
  | inr json =>
      match jget json "error" with
      | Some error =>
          if negb (is_null error) then inl (label +:+ " RPC error: " +:+ json_to_string error)
          else inr (jindex json "result")
      | None => inr (jindex json "result")
      end
  end.

(** One request: the next id, the padded body, the node's answer. *)
Definition rpc_request {S} (get_nonce : S -> Z) (set_nonce : Z -> S -> S) (c : chain) (label : string)
    (method : string) (params : Json) : client S Json := fun s =>
  arith (u64_op (get_nonce s + 1)) (fun nonce =>
  let s := set_nonce nonce s in
  match pad_json_body (rpc_body nonce method params) with
  | None => Panic
  | Some wire =>
      let! resp := ERpc c method params wire in
      Ret (s, rpc_result label resp)
  end).

(** No request body panics. *)
Definition pads : Prop := forall id method params, is_Some (pad_json_body (rpc_body id method params)).

Lemma rpc_request_run {S} (get_nonce : S -> Z) (set_nonce : Z -> S -> S) c label method params env s w :
  pads -> 0 <= get_nonce s < u64_max ->
  run env (rpc_request get_nonce set_nonce c label method params s) w =
  (w_tick w, Some (set_nonce (get_nonce s + 1) s, rpc_result label (env_rpc env (w_time w) c method params))).
Proof.
  intros Hp Hn. unfold rpc_request. rewrite u64_op_in by zlia. cbn [arith].
  destruct (Hp (get_nonce s + 1) method params) as [wire ->]. done.
Qed.

(** Without the hypotheses: a request that returns made this one exchange. *)
Lemma rpc_request_inv {S} (get_nonce : S -> Z) (set_nonce : Z -> S -> S) c label method params env s w w' s' r :
  run env (rpc_request get_nonce set_nonce c label method params s) w = (w', Some (s', r)) ->
  w' = w_tick w /\ (exists n, s' = set_nonce n s) /\
  r = rpc_result label (env_rpc env (w_time w) c method params).
Proof.
  unfold rpc_request. destruct (u64_op _) as [n|]; cbn [arith]; [|done].
  destruct (pad_json_body _) as [wire|]; [|done]. cbn. intros [= <- <- <-]. eauto.
Qed.

(** A request body of at most 4096 bytes that ends in a brace goes out as
    exactly 4096 bytes: itself, with spaces before the brace. *)
Lemma pad_json_body_exact body text :
  as_bytes (json_to_string body) = text ++ as_bytes "}" ->
  (length text < PADDED_BODY_SIZE)%nat ->
  exists n, pad_json_body body = Some (text ++ replicate n (byte_of_Z 32) ++ as_bytes "}") /\
    length (text ++ replicate n (byte_of_Z 32) ++ as_bytes "}") = PADDED_BODY_SIZE.
Proof.
  intros Ht Hl. unfold pad_json_body. rewrite Ht. rewrite length_app.
  change (length (as_bytes "}")) with 1%nat.
  replace (length text + 1 - 1)%nat with (length text) by lia.
  rewrite (proj2 (Nat.eqb_neq _ 0)) by lia. rewrite drop_app_length, take_app_length.
  rewrite bool_decide_eq_true_2 by done. rewrite andb_false_r.
  set (n := (PADDED_BODY_SIZE - (length text + 1))%nat). exists n.
  assert (length (text ++ replicate n (byte_of_Z 32) ++ as_bytes "}") = PADDED_BODY_SIZE) as Hlen.
  { rewrite !length_app, length_replicate. change (length (as_bytes "}")) with 1%nat. lia. }
  split; [|done]. rewrite Hlen, Nat.eqb_refl. by rewrite andb_false_r.
Qed.
End rpc.
