(* ===== verification/XmrClient.v ===== *)
(** The view-only Monero client, src/services/payments/xmr.rs: fork detection,
    payment verification by address, amount and confirmations, and the audit
    list of credited payments. *)
From S2P Require Import Prelude Interfaces Instances TimeBuckets Models Effects Auth Rpc.

Definition MIN_PAYMENT_PICONERO : Z := 1000000000.

Record IncomingTransfer := mk_transfer {
  it_tx_hash : string; it_address : string; it_amount : Z; it_confirmations : Z;
  it_timestamp : Z; it_block_height : Z }.

Record PaymentStatus := mk_payment_status {
  ps_received : bool; ps_amount : Z; ps_confirmations : Z;
  ps_tx_hash : option string; ps_address : option string; ps_fork_detected : bool }.

Record PaymentAuditRecord := mk_audit {
  pa_order_id : string; pa_tx_hash : string; pa_address : string; pa_amount : Z;
  pa_credited_height : Z; pa_credited_at : Z; pa_verified : bool; pa_rollback_at : option Z }.

(** The fields behind the mutexes; clones of a client share them. *)
Record MoneroViewOnlyClient := mk_xmr {
  xc_nonce : Z;
  xc_last_block_height : Z;
  xc_last_block_hash : string;
  xc_fork_detected : bool;
  xc_pending_audits : list PaymentAuditRecord }.

Definition xmr_new : MoneroViewOnlyClient := mk_xmr 0 0 "" false [].

Definition xc_set_nonce (n : Z) (c : MoneroViewOnlyClient) : MoneroViewOnlyClient :=
  mk_xmr n (xc_last_block_height c) (xc_last_block_hash c) (xc_fork_detected c) (xc_pending_audits c).
Definition xc_set_last (h : Z) (hash : string) (c : MoneroViewOnlyClient) : MoneroViewOnlyClient :=
  mk_xmr (xc_nonce c) h hash (xc_fork_detected c) (xc_pending_audits c).
Definition xc_set_fork (b : bool) (c : MoneroViewOnlyClient) : MoneroViewOnlyClient :=
  mk_xmr (xc_nonce c) (xc_last_block_height c) (xc_last_block_hash c) b (xc_pending_audits c).
Definition xc_set_audits (f : list PaymentAuditRecord -> list PaymentAuditRecord)
    (c : MoneroViewOnlyClient) : MoneroViewOnlyClient :=
  mk_xmr (xc_nonce c) (xc_last_block_height c) (xc_last_block_hash c) (xc_fork_detected c)
    (f (xc_pending_audits c)).

Abbreviation xmr := (client MoneroViewOnlyClient).

(** [constant_time_eq_str]; [ct_eq] on equal lengths is equality. *)
Definition constant_time_eq_str (a b : string) : bool :=
  if negb (Nat.eqb (String.length a) (String.length b)) then false else bool_decide (as_bytes a = as_bytes b).

Lemma constant_time_eq_str_spec a b : constant_time_eq_str a b = bool_decide (a = b).
Proof.
  unfold constant_time_eq_str. destruct (Nat.eqb_spec (String.length a) (String.length b)) as [|Hl]; cbn [negb].
  - apply bool_decide_ext. split; [apply as_bytes_inj|by intros ->].
  - rewrite bool_decide_eq_false_2; [done|]. by intros ->.
Qed.

Section xmr_client.
Context `{BuildProfile} `{JsonText}.

Definition xmr_rpc_call (method : string) (params : Json) : xmr Json :=
  rpc_request xc_nonce xc_set_nonce Xmr "XMR" method params.

Definition xmr_get_height : xmr Z :=
  result ← xmr_rpc_call "get_height" JNull;
  cresult (ok_or (as_u64 (jindex result "height")) "Missing height in response").

Definition xmr_get_block_hash (height : Z) : xmr string :=
  result ← xmr_rpc_call "get_block_hash" (JObj [("height", JNum height)]);
  cresult (ok_or (as_str result) "Missing block hash").

Definition xmr_check_for_fork : xmr bool :=
  current_height ← xmr_get_height;
  current_hash ← xmr_get_block_hash current_height;
  st ← cget;
  let last_height := xc_last_block_height st in
  let last_hash := xc_last_block_hash st in
  if last_height =? 0 then
    _ ← cmodify (xc_set_last current_height current_hash); mret false
  else if current_height <? last_height then
    _ ← cmodify (fun c => xc_set_last current_height current_hash (xc_set_fork true c)); mret true
  else if (last_height <? current_height) && negb (bool_decide (last_hash = "")) then
    known ← ctry (xmr_get_block_hash last_height);
    match known with
    | inr current_known_hash =>
        if negb (constant_time_eq_str current_known_hash last_hash) then
          _ ← cmodify (fun c => xc_set_last last_height current_hash (xc_set_fork true c)); mret true
        else
          _ ← cmodify (xc_set_last current_height current_hash); mret false
    | inl _ => _ ← cmodify (xc_set_last current_height current_hash); mret false
    end
  else
    _ ← cmodify (xc_set_last current_height current_hash); mret false.

Definition fork_resolved : xmr unit :=
  cmodify (fun c => if xc_fork_detected c then xc_set_fork false c else c).

Definition is_fork_detected (c : MoneroViewOnlyClient) : bool := xc_fork_detected c.

Definition create_subaddress (order_id : string) : xmr string :=
  result ← xmr_rpc_call "create_address"
    (JObj [("account_index", JNum 0); ("label", JStr ("order:" +:+ order_id))]);
  cresult (ok_or (as_str (jindex result "address")) "Missing address in response").

(** [s.contains("in")] *)
Definition contains_in (s : string) : bool :=
  match String.index 0 "in" s with Some _ => true | None => false end.

(** One entry of the answer, when it counts. *)
Definition parse_transfer (subaddress : string) (current_height : Z) (tx : Json) : option IncomingTransfer :=
  let tx_type := default "" (as_str (jindex tx "type")) in
  if negb (contains_in tx_type) && negb (bool_decide (tx_type = "in")) then None
  else
    let amount := default 0 (as_u64 (jindex tx "amount")) in
    if amount <? MIN_PAYMENT_PICONERO then None
    else
      let tx_hash := default "" (as_str (jindex tx "txid")) in
      let timestamp := default 0 (as_u64 (jindex tx "timestamp")) in
      let block_height := default current_height (as_u64 (jindex tx "height")) in
      let confirmations := u64_sat_sub current_height block_height in
      Some (mk_transfer tx_hash subaddress amount confirmations timestamp block_height).

Definition get_incoming_transfers (subaddress : string) : xmr (list IncomingTransfer) :=
  current_height ← xmr_get_height;
  result ← xmr_rpc_call "get_address_txs"
    (JObj [("address", JStr subaddress); ("account_index", JNum 0)]);
  let txs := match jget result "transactions" with Some t => Some t | None => jget result "txs" end in
  mret (match txs ≫= as_array with
        | Some arr => omap (parse_transfer subaddress current_height) arr
        | None => []
        end).

(** The first transfer that matches address and amount. *)
Fixpoint match_transfer (subaddress : string) (expected_amount : Z) (l : list IncomingTransfer)
    : option IncomingTransfer :=
  match l with
  | [] => None
  | t :: rest =>
      if negb (constant_time_eq_str (it_address t) subaddress) then match_transfer subaddress expected_amount rest
      else if it_amount t <? MIN_PAYMENT_PICONERO then match_transfer subaddress expected_amount rest
      else if (expected_amount <=? it_amount t) && (0 <? expected_amount) then Some t
      else match_transfer subaddress expected_amount rest
  end.

Definition status_of (t : IncomingTransfer) : PaymentStatus :=
  mk_payment_status true (it_amount t) (it_confirmations t) (Some (it_tx_hash t)) (Some (it_address t)) false.

(** Both arms of the confirmation test return the same status. *)
Definition xmr_check_payment_with_confirmations (subaddress : string)
    (expected_amount required_confirmations : Z) : xmr PaymentStatus :=
  fork ← xmr_check_for_fork;
  if (fork : bool) then mret (mk_payment_status false 0 0 None None true)
  else
    transfers ← get_incoming_transfers subaddress;
    match match_transfer subaddress expected_amount transfers with
    | Some transfer =>
        if required_confirmations <=? it_confirmations transfer
        then mret (status_of transfer) else mret (status_of transfer)
    | None => mret (mk_payment_status false 0 0 None None false)
    end.

(** ** Audits *)

Definition record_payment_audit (record : PaymentAuditRecord) : xmr unit :=
  cmodify (xc_set_audits (fun audits => audits ++ [record])).

Definition get_pending_audits : xmr (list PaymentAuditRecord) :=
  c ← cget; mret (xc_pending_audits c).

Definition clear_verified_audits : xmr unit :=
  cmodify (xc_set_audits (List.filter (fun a =>
    negb (pa_verified a) && bool_decide (pa_rollback_at a = None)))).

Definition set_verified (a : PaymentAuditRecord) : PaymentAuditRecord :=
  mk_audit (pa_order_id a) (pa_tx_hash a) (pa_address a) (pa_amount a) (pa_credited_height a)
    (pa_credited_at a) true (pa_rollback_at a).
Definition set_rollback (at_ : Z) (a : PaymentAuditRecord) : PaymentAuditRecord :=
  mk_audit (pa_order_id a) (pa_tx_hash a) (pa_address a) (pa_amount a) (pa_credited_height a)
    (pa_credited_at a) (pa_verified a) (Some at_).

Definition verify_audit (tx_hash : string) : xmr unit :=
  cmodify (xc_set_audits (map (fun a =>
    if constant_time_eq_str (pa_tx_hash a) tx_hash then set_verified a else a))).

(** The clock is read for every matching audit. *)
Fixpoint rollback_all (tx_hash : string) (audits : list PaymentAuditRecord) : prog (list PaymentAuditRecord) :=
  match audits with
  | [] => Ret []
  | a :: t =>
      if constant_time_eq_str (pa_tx_hash a) tx_hash then
        let! ts := ENow in
        do t' := rollback_all tx_hash t in
        Ret (set_rollback (floor_timestamp_6h ts) a :: t')
      else
        do t' := rollback_all tx_hash t in Ret (a :: t')
  end.

Definition rollback_payment (tx_hash : string) : xmr unit := fun c =>
  do audits := rollback_all tx_hash (xc_pending_audits c) in
  Ret (xc_set_audits (fun _ => audits) c, inr tt).

Definition xmr_get_balance (subaddress : string) : xmr (Z * Z) :=
  result ← xmr_rpc_call "get_balance"
    (JObj [("account_index", JNum 0); ("address", JStr subaddress)]);
  mret (default 0 (as_u64 (jindex result "balance")), default 0 (as_u64 (jindex result "unlocked_balance"))).

(** ** Fork detection against a node that serves a chain *)

(** A block chain: its height and the hash of the block at each height. *)
Record Chain := mk_chain { ch_height : Z; ch_hash : Z -> string }.

(** Which answers of the node at effect [t] are those of the chain [ch]. *)
Definition serves (env : Env) (t : nat) (ch : Chain) : Prop :=
  rpc_result "XMR" (env_rpc env t Xmr "get_height" JNull)
    = inr (JObj [("height", JNum (ch_height ch))]) /\
  forall h, 0 <= h <= ch_height ch ->
    rpc_result "XMR" (env_rpc env t Xmr "get_block_hash" (JObj [("height", JNum h)])) = inr (JStr (ch_hash ch h)).

(** The node serves [ch] for the [n] effects from [t] on. *)
Definition serves_for (env : Env) (t n : nat) (ch : Chain) : Prop :=
  forall i, (i < n)%nat -> serves env (t + i) ch.

Lemma get_height_run env st w ch :
  pads -> 0 <= xc_nonce st < u64_max -> in_u64 (ch_height ch) -> serves env (w_time w) ch ->
  run env (xmr_get_height st) w = (w_tick w, Some (xc_set_nonce (xc_nonce st + 1) st, inr (ch_height ch))).
Proof.
  intros Hp Hn Hh [Hs _]. unfold xmr_get_height, xmr_rpc_call. rewrite run_cbind, rpc_request_run by done.
  rewrite Hs. unfold cresult. change (jindex (JObj [("height", JNum (ch_height ch))]) "height")
    with (JNum (ch_height ch)). by rewrite as_u64_num.
Qed.

Lemma get_block_hash_run env st w ch h :
  pads -> 0 <= xc_nonce st < u64_max -> 0 <= h <= ch_height ch -> serves env (w_time w) ch ->
  run env (xmr_get_block_hash h st) w = (w_tick w, Some (xc_set_nonce (xc_nonce st + 1) st, inr (ch_hash ch h))).
Proof.
  intros Hp Hn Hh [_ Hs]. unfold xmr_get_block_hash, xmr_rpc_call. rewrite run_cbind, rpc_request_run by done.
  by rewrite Hs.
Qed.

(** The client remembers the tip of [ch]. *)
Definition synced (st : MoneroViewOnlyClient) (ch : Chain) : Prop :=
  xc_last_block_height st = ch_height ch /\ xc_last_block_hash st = ch_hash ch (ch_height ch) /\
  0 < ch_height ch /\ ch_hash ch (ch_height ch) <> "".

(** What a check does, from what the client remembers. *)
Lemma check_for_fork_run env st w ch :
  pads -> 0 <= xc_nonce st <= u64_max - 3 -> in_u64 (ch_height ch) ->
  0 < xc_last_block_height st -> xc_last_block_hash st <> "" ->
  serves_for env (w_time w) 3 ch ->
  let lh := xc_last_block_height st in
  exists w' st', run env (xmr_check_for_fork st) w =
      (w', Some (st', inr ((ch_height ch <? lh) ||
         ((lh <? ch_height ch) && negb (bool_decide (ch_hash ch lh = xc_last_block_hash st)))))) /\
    xc_last_block_hash st' = ch_hash ch (ch_height ch) /\
    xc_last_block_height st' =
      (if (lh <? ch_height ch) && negb (bool_decide (ch_hash ch lh = xc_last_block_hash st)) then lh
       else ch_height ch) /\
    xc_nonce st < xc_nonce st' <= xc_nonce st + 3 /\ 
    w_time w' = (w_time w + (if (lh <? ch_height ch)%Z then 3 else 2))%nat /\ w_orders w' = w_orders w /\
    w_published w' = w_published w.
Proof.
  intros Hp Hn Hh Hlh Hne Hs lh.
  assert (serves env (w_time w) ch) as Hs0 by (specialize (Hs 0%nat); rewrite Nat.add_0_r in Hs; apply Hs; lia).
  assert (serves env (w_time (w_tick w)) ch) as Hs1 by (specialize (Hs 1%nat); rewrite Nat.add_1_r in Hs; apply Hs; lia).
  assert (serves env (w_time (w_tick (w_tick w))) ch) as Hs2 by
    (replace (w_time (w_tick (w_tick w))) with (w_time w + 2)%nat by (cbn; lia); apply Hs; lia).
  unfold xmr_check_for_fork.
  rewrite run_cbind, (get_height_run env st w ch Hp ltac:(lia) Hh Hs0).
  set (st1 := xc_set_nonce (xc_nonce st + 1) st).
  rewrite run_cbind, (get_block_hash_run env st1 (w_tick w) ch (ch_height ch) Hp ltac:(cbn; lia) ltac:(zlia) Hs1).
  set (st2 := xc_set_nonce (xc_nonce st1 + 1) st1).
  rewrite run_cbind. cbn [cget run]. change (xc_last_block_height st2) with lh.
  change (xc_last_block_hash st2) with (xc_last_block_hash st).
  rewrite (proj2 (Z.eqb_neq lh 0)) by (subst lh; lia).
  destruct (Z.ltb_spec (ch_height ch) lh) as [Hlt|Hge].
  { rewrite (proj2 (Z.ltb_ge lh _)) by lia. cbn [orb andb].
    eexists _, _. split; [reflexivity|]. cbn [w_time w_tick]. cbn. repeat split; lia. }
  cbn [orb]. destruct (Z.ltb_spec lh (ch_height ch)) as [Hgt|Hle]; cbn [andb].
  - rewrite bool_decide_eq_false_2 by done. cbn [negb].
    rewrite run_cbind, run_ctry,
      (get_block_hash_run env st2 (w_tick (w_tick w)) ch lh Hp ltac:(cbn; lia) ltac:(lia) Hs2).
    rewrite constant_time_eq_str_spec.
    destruct (bool_decide_reflect (ch_hash ch lh = xc_last_block_hash st)); cbn [negb];
      (eexists _, _; split; [reflexivity|]; cbn; repeat split; lia).
  - eexists _, _. split; [reflexivity|]. cbn. repeat split; lia.
Qed.

(** C31. A client that remembers the tip of one chain, checking a node that serves
    another, reports a fork exactly when the new chain is shorter, or is longer
    with another block at the remembered height.  When it reports none it
    remembers the new tip, although a block of the same height may have been
    replaced unnoticed. *)
Theorem fork_detection env st w c0 c1 :
  pads -> 0 <= xc_nonce st <= u64_max - 3 -> in_u64 (ch_height c1) ->
  synced st c0 -> serves_for env (w_time w) 3 c1 ->
  exists w' st' b, run env (xmr_check_for_fork st) w = (w', Some (st', inr b)) /\
    (b = true <-> ch_height c1 < ch_height c0 \/
       (ch_height c0 < ch_height c1 /\ ch_hash c1 (ch_height c0) <> ch_hash c0 (ch_height c0))) /\
    (b = false -> xc_last_block_height st' = ch_height c1 /\
                  xc_last_block_hash st' = ch_hash c1 (ch_height c1)).
Proof.
  intros Hp Hn Hh (Hlh & Hlx & Hpos & Hne) Hs.
  destruct (check_for_fork_run env st w c1 Hp Hn Hh ltac:(lia) ltac:(congruence) Hs)
    as (w' & st' & Hr & Hx & Hl & _).
  rewrite Hlh, Hlx in *. exists w', st'. eexists. split; [exact Hr|]. split.
  - rewrite orb_true_iff, andb_true_iff, !Z.ltb_lt, negb_true_iff, bool_decide_eq_false. done.
  - intros Hb. split; [|done]. apply orb_false_iff in Hb as [_ Hb]. by rewrite Hl, Hb.
Qed.

Fixpoint fork_checks (n : nat) : xmr (list bool) :=
  match n with
  | O => mret []
  | S n => b ← xmr_check_for_fork; bs ← fork_checks n; mret (b :: bs)
  end.

(** After a reorganisation that replaced the remembered block, every later check
    reports a fork again, however many there are and however the new chain
    grows: the remembered height stays behind while the remembered hash becomes
    that of the tip. *)
Theorem fork_never_clears env n st w (cs : nat -> Chain) block :
  pads -> 0 <= xc_nonce st <= u64_max - 3 * Z.of_nat n ->
  0 < xc_last_block_height st -> xc_last_block_hash st <> "" -> xc_last_block_hash st <> block ->
  (forall i, (i < n)%nat -> serves_for env (w_time w + 3 * i) 3 (cs i) /\
     in_u64 (ch_height (cs i)) /\ xc_last_block_height st < ch_height (cs i) /\
     ch_hash (cs i) (xc_last_block_height st) = block /\
     ch_hash (cs i) (ch_height (cs i)) <> block /\ ch_hash (cs i) (ch_height (cs i)) <> "") ->
  exists w' st', run env (fork_checks n st) w = (w', Some (st', inr (replicate n true))).
Proof.
  intros Hp. revert st w cs. induction n as [|n IH]; intros st w cs Hn Hlh Hne Hb Hc.
  { by exists w, st. }
  cbn [fork_checks replicate]. destruct (Hc 0%nat ltac:(lia)) as (Hs & Hh & Hgt & Hblk & Htip & Htip0).
  rewrite Nat.add_0_r in Hs.
  destruct (check_for_fork_run env st w (cs 0%nat) Hp ltac:(lia) Hh Hlh Hne Hs)
    as (w1 & st1 & Hr & Hx & Hl & Hn1 & Ht & _).
  rewrite (proj2 (Z.ltb_lt _ _) Hgt), Hblk in *. rewrite (bool_decide_eq_false_2 (block = _)) in * by congruence.
  cbn [negb andb orb] in *. rewrite orb_true_r in Hr. rewrite run_cbind, Hr.
  destruct (IH st1 w1 (fun i => cs (S i))) as (w2 & st2 & Hr2); rewrite ?Hl, ?Hx; try done; [lia| |].
  - intros i Hi. destruct (Hc (S i) ltac:(lia)) as (Hsi & Hrest). split; [|exact Hrest].
    replace (w_time w1 + 3 * i)%nat with (w_time w + 3 * S i)%nat by lia. done.
  - exists w2, st2. by rewrite run_cbind, Hr2.
Qed.

(** ** Payments *)

Lemma get_height_inv env st w w' st' h :
  run env (xmr_get_height st) w = (w', Some (st', inr h)) ->
  w' = w_tick w /\ exists result,
    rpc_result "XMR" (env_rpc env (w_time w) Xmr "get_height" JNull) = inr result /\
    as_u64 (jindex result "height") = Some h.
Proof.
  unfold xmr_get_height, xmr_rpc_call. rewrite run_cbind.
  destruct (run env (rpc_request _ _ _ _ _ _ st) w) as [w1 [[s1 r]|]] eqn:E; [|done].
  apply rpc_request_inv in E as (-> & _ & ->). intros Hr.
  destruct (rpc_result _ _) as [e|result]; [done|]. cbn in Hr.
  destruct (as_u64 _) eqn:Eh; cbn in Hr; [|done]. simplify_eq. split; [done|]. by exists result.
Qed.

Lemma match_transfer_spec addr amount l t :
  match_transfer addr amount l = Some t ->
  t ∈ l /\ it_address t = addr /\ MIN_PAYMENT_PICONERO <= it_amount t /\ amount <= it_amount t /\ 0 < amount.
Proof.
  induction l as [|x l IH]; cbn [match_transfer]; [done|].
  rewrite constant_time_eq_str_spec.
  destruct (bool_decide_reflect (it_address x = addr)); cbn [negb]; [|intros E; by destruct (IH E); split; [right|]].
  destruct (Z.ltb_spec (it_amount x) MIN_PAYMENT_PICONERO); [intros E; by destruct (IH E); split; [right|]|].
  destruct (Z.leb_spec amount (it_amount x)); cbn [andb]; [|intros E; by destruct (IH E); split; [right|]].
  destruct (Z.ltb_spec 0 amount); [|intros E; by destruct (IH E); split; [right|]].
  intros [= ->]. split; [left|]; done.
Qed.

(** What the node has to say for a payment to count. *)
Definition node_reports (env : Env) (t : nat) (addr : string) (tx : Json) (height : Z) : Prop :=
  (exists result, rpc_result "XMR" (env_rpc env t Xmr "get_height" JNull) = inr result /\
     as_u64 (jindex result "height") = Some height) /\
  exists result arr,
    rpc_result "XMR" (env_rpc env (S t) Xmr "get_address_txs"
      (JObj [("address", JStr addr); ("account_index", JNum 0)])) = inr result /\
    (jget result "transactions" = Some (JArr arr) \/
     (jget result "transactions" = None /\ jget result "txs" = Some (JArr arr))) /\ tx ∈ arr.

Lemma get_incoming_transfers_inv env addr st w w' st' l t :
  run env (get_incoming_transfers addr st) w = (w', Some (st', inr l)) -> t ∈ l ->
  exists tx height, node_reports env (w_time w) addr tx height /\ parse_transfer addr height tx = Some t.
Proof.
  unfold get_incoming_transfers. rewrite run_cbind.
  destruct (run env (xmr_get_height st) w) as [w1 [[s1 [e|h]]|]] eqn:E; [done| |done].
  apply get_height_inv in E as [-> (res & Hres & Hh)]. rewrite run_cbind. unfold xmr_rpc_call.
  destruct (run env (rpc_request _ _ _ _ _ _ s1) _) as [w2 [[s2 r]|]] eqn:E; [|done].
  apply rpc_request_inv in E as (-> & _ & ->). intros Hr Ht.
  destruct (rpc_result "XMR" (env_rpc env (w_time (w_tick w)) _ _ _)) as [e|result] eqn:Er; [done|].
  cbn in Hr. apply (f_equal snd) in Hr. cbn in Hr. injection Hr as Hs Hl.
  destruct (match jget result "transactions" with Some t => Some t | None => jget result "txs" end
            ≫= as_array) as [arr|] eqn:Ea; [|rewrite <-Hl in Ht; by apply elem_of_nil in Ht].
  rewrite <-Hl in Ht. apply list_elem_of_omap in Ht as (tx & Htx & Hp).
  exists tx, h. split; [|done]. split; [by exists res|]. exists result, arr. split; [done|]. split; [|done].
  destruct (jget result "transactions") as [j|]; cbn in Ea.
  - left. by destruct j; cbn in Ea; simplify_eq.
  - right. destruct (jget result "txs") as [j|]; cbn in Ea; [|done].
    by destruct j; cbn in Ea; simplify_eq.
Qed.

Lemma parse_transfer_spec addr height tx t :
  parse_transfer addr height tx = Some t ->
  it_address t = addr /\ contains_in (default "" (as_str (jindex tx "type"))) = true /\
  as_u64 (jindex tx "amount") = Some (it_amount t) /\ MIN_PAYMENT_PICONERO <= it_amount t /\
  it_confirmations t = u64_sat_sub height (default height (as_u64 (jindex tx "height"))) /\
  it_tx_hash t = default "" (as_str (jindex tx "txid")).
Proof.
  unfold parse_transfer. destruct (contains_in _) eqn:Ec; cbn [negb andb].
  - destruct (Z.ltb_spec (default 0 (as_u64 (jindex tx "amount"))) MIN_PAYMENT_PICONERO) as [|Ha]; [done|].
    intros [= <-]. cbn. destruct (as_u64 (jindex tx "amount")); [done|]. cbn in Ha.
    unfold MIN_PAYMENT_PICONERO in Ha. lia.
  - destruct (bool_decide_reflect (default "" (as_str (jindex tx "type")) = "in")) as [E|]; cbn [negb]; [|done].
    by rewrite E in Ec.
Qed.

(** A payment is reported as received only after a check that saw no fork, and
    only for an entry the node listed for that very address: of an incoming
    type, of at least the expected amount and not dust; the confirmations are
    the node's height less the entry's. *)
Lemma payment_reported env addr amount required st w w' st' s :
  run env (xmr_check_payment_with_confirmations addr amount required st) w = (w', Some (st', inr s)) ->
  ps_received s = true ->
  ps_fork_detected s = false /\ ps_address s = Some addr /\
  0 < amount <= ps_amount s /\ MIN_PAYMENT_PICONERO <= ps_amount s /\
  exists t tx height, node_reports env t addr tx height /\
    contains_in (default "" (as_str (jindex tx "type"))) = true /\
    as_u64 (jindex tx "amount") = Some (ps_amount s) /\
    ps_tx_hash s = Some (default "" (as_str (jindex tx "txid"))) /\
    ps_confirmations s = u64_sat_sub height (default height (as_u64 (jindex tx "height"))).
Proof.
  unfold xmr_check_payment_with_confirmations. rewrite run_cbind.
  destruct (run env (xmr_check_for_fork st) w) as [w1 [[s1 [e|[|]]]|]]; [done| | |done].
  { cbn. intros E. by simplify_eq/=. }
  rewrite run_cbind.
  destruct (run env (get_incoming_transfers addr s1) w1) as [w2 [[s2 [e|l]]|]] eqn:El; [done| |done].
  destruct (match_transfer addr amount l) as [t|] eqn:Em; [|cbn; intros E; by simplify_eq/=].
  assert (forall (b : bool), (if b then mret (status_of t) else mret (status_of t) : xmr PaymentStatus) =
            mret (status_of t)) as Hb by (by intros []).
  rewrite Hb. cbn. intros E _. apply (f_equal snd) in E. cbn in E. injection E as _ <-.
  apply match_transfer_spec in Em as (Hin & Haddr & Hmin & Hge & Hpos).
  destruct (get_incoming_transfers_inv _ _ _ _ _ _ _ _ El Hin) as (tx & h & Hn & Hp).
  apply parse_transfer_spec in Hp as (_ & Hc & Ha & _ & Hconf & Hhash). cbn.
  split; [done|]. split; [by rewrite Haddr|]. split; [lia|]. split; [done|].
  exists (w_time w1), tx, h. by rewrite Hhash.
Qed.

(** *** A payment that is found *)

(** The node lists [arr] for the address. *)
Definition lists (env : Env) (t : nat) (addr : string) (arr : list Json) : Prop :=
  exists result,
    rpc_result "XMR" (env_rpc env t Xmr "get_address_txs"
      (JObj [("address", JStr addr); ("account_index", JNum 0)])) = inr result /\
    (jget result "transactions" = Some (JArr arr) \/
     (jget result "transactions" = None /\ jget result "txs" = Some (JArr arr))).

(** An incoming entry of at least the expected amount, and no dust. *)
Definition pays (expected : Z) (tx : Json) : Prop :=
  contains_in (default "" (as_str (jindex tx "type"))) = true /\
  exists amount, as_u64 (jindex tx "amount") = Some amount /\ MIN_PAYMENT_PICONERO <= amount /\ expected <= amount.

(** The blocks on top of the entry at the height. *)
Definition depth (height : Z) (tx : Json) : Z :=
  u64_sat_sub height (default height (as_u64 (jindex tx "height"))).

Lemma parse_pays addr height expected tx :
  pays expected tx -> exists t, parse_transfer addr height tx = Some t.
Proof.
  intros (Hc & amount & Ha & Hm & _). unfold parse_transfer. rewrite Hc, Ha. cbn [negb andb default].
  change (default 0 (Some amount)) with amount. rewrite (proj2 (Z.ltb_ge _ _)) by done. by eexists.
Qed.

Lemma match_transfer_skip addr expected height tx arr :
  0 < expected -> ~ pays expected tx ->
  match_transfer addr expected (omap (parse_transfer addr height) (tx :: arr)) =
  match_transfer addr expected (omap (parse_transfer addr height) arr).
Proof.
  intros He Hn. cbn [omap list_omap]. destruct (parse_transfer addr height tx) as [t|] eqn:Ep; [|done].
  destruct (parse_transfer_spec _ _ _ _ Ep) as (Haddr & Hc & Ha & Hm & _). cbn [match_transfer].
  rewrite constant_time_eq_str_spec, bool_decide_eq_true_2 by done. cbn [negb].
  rewrite (proj2 (Z.ltb_ge _ _)) by done.
  destruct (Z.leb_spec expected (it_amount t)); [|done]. destruct Hn. by split; [|exists (it_amount t)].
Qed.

Lemma match_transfer_pays addr expected height tx arr :
  0 < expected -> pays expected tx ->
  exists t, match_transfer addr expected (omap (parse_transfer addr height) (tx :: arr)) = Some t /\
    it_address t = addr /\ it_confirmations t = depth height tx.
Proof.
  intros He Hp. destruct (parse_pays addr height expected tx Hp) as [t Ep]. destruct Hp as (_ & amount & Ha & Hm & Hge).
  cbn [omap list_omap]. rewrite Ep. cbn [match_transfer].
  destruct (parse_transfer_spec _ _ _ _ Ep) as (Haddr & _ & Ha' & _ & Hconf & _). simplify_eq.
  rewrite constant_time_eq_str_spec, bool_decide_eq_true_2 by done. cbn [negb].
  rewrite (proj2 (Z.ltb_ge _ _)), (proj2 (Z.leb_le _ _)), (proj2 (Z.ltb_lt _ _)) by lia. by exists t.
Qed.

(** The first entry that pays decides. *)
Lemma match_transfer_first addr expected height pre tx post :
  0 < expected -> Forall (fun x => ~ pays expected x) pre -> pays expected tx ->
  exists t, match_transfer addr expected (omap (parse_transfer addr height) (pre ++ tx :: post)) = Some t /\
    it_address t = addr /\ it_confirmations t = depth height tx.
Proof.
  intros He Hpre Hp. induction Hpre as [|x pre Hx _ IH]; [by apply match_transfer_pays|].
  cbn [app]. by rewrite match_transfer_skip.
Qed.

Lemma match_transfer_none addr expected height arr :
  0 < expected -> Forall (fun x => ~ pays expected x) arr ->
  match_transfer addr expected (omap (parse_transfer addr height) arr) = None.
Proof. intros He Ha. induction Ha as [|x arr Hx _ IH]; [done|]. by rewrite match_transfer_skip. Qed.

Lemma get_incoming_transfers_run env addr st w ch arr :
  pads -> 0 <= xc_nonce st <= u64_max - 2 -> in_u64 (ch_height ch) ->
  serves env (w_time w) ch -> lists env (S (w_time w)) addr arr ->
  exists st', run env (get_incoming_transfers addr st) w
      = (w_tick (w_tick w), Some (st', inr (omap (parse_transfer addr (ch_height ch)) arr))) /\
    xc_last_block_height st' = xc_last_block_height st /\ xc_last_block_hash st' = xc_last_block_hash st /\
    xc_nonce st' = xc_nonce st + 2.
Proof.
  intros Hp Hn Hh Hs (result & Hres & Hl). unfold get_incoming_transfers.
  rewrite run_cbind, (get_height_run env st w ch Hp ltac:(lia) Hh Hs). rewrite run_cbind.
  unfold xmr_rpc_call. rewrite rpc_request_run by (cbn; first [done|lia]).
  cbn [w_time w_tick]. rewrite Hres. eexists.
  split; [destruct Hl as [-> |[-> ->]]; reflexivity|]. cbn. repeat split; lia.
Qed.

(** The chain the node serves grew on top of the one the client knows. *)
Definition extends (c0 c1 : Chain) : Prop :=
  ch_height c0 <= ch_height c1 /\ ch_hash c1 (ch_height c0) = ch_hash c0 (ch_height c0).

(** A client that knows the chain sees no fork and knows the new tip. *)
Lemma grown_chain_run env st w c0 c1 :
  pads -> 0 <= xc_nonce st <= u64_max - 3 -> in_u64 (ch_height c1) -> ch_hash c1 (ch_height c1) <> "" ->
  synced st c0 -> extends c0 c1 -> serves_for env (w_time w) 3 c1 ->
  exists w' st' i, run env (xmr_check_for_fork st) w = (w', Some (st', inr false)) /\
    synced st' c1 /\ xc_nonce st < xc_nonce st' <= xc_nonce st + 3 /\
    w_time w' = (w_time w + i)%nat /\ (i <= 3)%nat /\ w_orders w' = w_orders w /\ w_published w' = w_published w.
Proof.
  intros Hp Hn Hh Htip (Hlh & Hlx & Hpos & Hne) [Hge Hsame] Hs.
  destruct (check_for_fork_run env st w c1 Hp Hn Hh ltac:(lia) ltac:(congruence) Hs)
    as (w1 & st1 & Hr & Hx1 & Hl1 & Hn1 & Ht & Ho & Hpub).
  rewrite Hlh, Hlx, Hsame, (bool_decide_eq_true_2 (ch_hash c0 (ch_height c0) = _)) in * by done.
  cbn [negb] in *. rewrite andb_false_r in *. rewrite (proj2 (Z.ltb_ge _ _)) in Hr by done. cbn [orb] in Hr.
  eexists w1, st1, _. split; [exact Hr|]. split; [split_and!; (done || lia)|]. split; [done|]. split; [exact Ht|].
  split; [destruct (_ <? _); lia|done].
Qed.

(** What a check reports of the transfer it found. *)
Definition status_found (found : option IncomingTransfer) : PaymentStatus :=
  match found with Some t => status_of t | None => mk_payment_status false 0 0 None None false end.

(** Against a node that serves a grown chain and lists [arr], a check returns,
    knows the new tip, and reports the match in [arr]. *)
Lemma payment_check_run env addr expected required st w c0 c1 arr :
  pads -> 0 <= xc_nonce st <= u64_max - 5 -> in_u64 (ch_height c1) -> ch_hash c1 (ch_height c1) <> "" ->
  synced st c0 -> extends c0 c1 ->
  (forall i, (i < 5)%nat -> serves env (w_time w + i) c1 /\ lists env (w_time w + i) addr arr) ->
  exists w' st', run env (xmr_check_payment_with_confirmations addr expected required st) w
      = (w', Some (st', inr (status_found (match_transfer addr expected (omap (parse_transfer addr (ch_height c1)) arr))))) /\
    synced st' c1 /\ xc_nonce st < xc_nonce st' <= xc_nonce st + 5 /\
    w_orders w' = w_orders w /\ w_published w' = w_published w.
Proof.
  intros Hp Hn Hh Htip Hsy Hext Hs.
  destruct (grown_chain_run env st w c0 c1 Hp ltac:(lia) Hh Htip Hsy Hext)
    as (w1 & st1 & i & Hr & (Hl1 & Hx1 & Hpos & _) & Hn1 & Hi & Hi3 & Ho & Hpub); [intros i Hi; apply Hs; lia|].
  destruct (get_incoming_transfers_run env addr st1 w1 c1 arr Hp ltac:(lia) Hh) as (st2 & Hg & Hl2 & Hx2 & Hn2).
  { rewrite Hi. apply Hs. lia. }
  { rewrite Hi, <-Nat.add_succ_r. apply Hs. lia. }
  unfold xmr_check_payment_with_confirmations. rewrite run_cbind, Hr, run_cbind, Hg.
  do 2 eexists. split; [by destruct (match_transfer _ _ _) as [t|]; [destruct (_ <=? _)|]|].
  unfold synced. rewrite Hl2, Hx2, Hn2. split_and!; (done || lia).
Qed.

(** *** Audits *)

(** A cleared list keeps exactly the audits that are neither verified nor rolled
    back, and rolling a transaction back marks its audits and no others. *)
Lemma clear_verified_audits_keeps env st w :
  run env (clear_verified_audits st) w =
  (w, Some (xc_set_audits (List.filter (fun a => negb (pa_verified a) && bool_decide (pa_rollback_at a = None))) st,
            inr tt)).
Proof. done. Qed.

Lemma rollback_all_spec env tx l w :
  exists w' l', run env (rollback_all tx l) w = (w', Some l') /\
    Forall2 (fun a a' => if bool_decide (pa_tx_hash a = tx)
                         then exists t, a' = set_rollback (floor_timestamp_6h t) a else a' = a) l l'.
Proof.
  revert w. induction l as [|a l IH]; intros w; cbn [rollback_all].
  { exists w, []. split; [done|constructor]. }
  rewrite constant_time_eq_str_spec. destruct (bool_decide_reflect (pa_tx_hash a = tx)) as [E|E].
  - step. rewrite run_bind. destruct (IH (w_tick w)) as (w' & l' & -> & Hl). cbn.
    eexists _, _. split; [done|]. constructor; [|done]. rewrite bool_decide_eq_true_2 by done. eauto.
  - rewrite run_bind. destruct (IH w) as (w' & l' & -> & Hl). cbn. eexists _, _. split; [done|].
    constructor; [|done]. by rewrite bool_decide_eq_false_2.
Qed.
End xmr_client.

(** ** Witnesses *)

#[export] Instance json_text_inst : JsonText := {| json_to_string _ := "{}" |}.

Lemma release_pads : @pads release json_text_inst.
Proof. intros id m ps. vm_compute. eauto. Qed.

(** A node whose chain at effect [t] is [f t] and that lists one transfer. *)
Definition node_env (f : nat -> Chain) (tx : Json) : Env :=
  mk_env (fun n => 1747000000 + Z.of_nat n) (fun t n => repeat (byte_of_Z (Z.of_nat t)) n)
    (fun t => le_bytes 16 (Z.of_nat t)) (fun _ => None) (fun _ => None)
    (fun t _ m ps => inr (JObj [("result",
       if bool_decide (m = "get_height") then JObj [("height", JNum (ch_height (f t)))]
       else if bool_decide (m = "get_block_hash") then
         match jindex ps "height" with JNum h => JStr (ch_hash (f t) h) | _ => JNull end
       else JObj [("txs", JArr [tx])])])).

Definition chain_of (h : Z) (tag : string) : Chain :=
  mk_chain h (fun k => if k <? 90 then "common" else tag +:+ of_utf8 (le_bytes 2 k)).

Lemma node_env_serves f tx t : serves (node_env f tx) t (f t).
Proof. split; done. Qed.

Definition synced_client : MoneroViewOnlyClient := mk_xmr 7 100 (ch_hash (chain_of 100 "a") 100) false [].
Definition reorg_env : Env := node_env (fun _ => chain_of 105 "b") JNull.

Lemma fork_detection_witness :
  exists w' st', run reorg_env (@xmr_check_for_fork release json_text_inst synced_client) empty_world
    = (w', Some (st', inr true)).
Proof.
  destruct (@fork_detection release json_text_inst reorg_env synced_client empty_world
              (chain_of 100 "a") (chain_of 105 "b") release_pads) as (w' & st' & b & Hr & Hb & _).
  - vm_compute. split; discriminate.
  - vm_compute. split; discriminate.
  - vm_compute. repeat split; discriminate.
  - intros i _. apply (node_env_serves (fun _ => chain_of 105 "b")).
  - exists w', st'. rewrite (proj2 Hb) in Hr; [exact Hr|]. right. split; [reflexivity|].
    vm_compute. discriminate.
Defined.

Lemma fork_never_clears_witness :
  exists w' st', run reorg_env (@fork_checks release json_text_inst 4 synced_client) empty_world
    = (w', Some (st', inr [true; true; true; true])).
Proof.
  apply (@fork_never_clears release json_text_inst reorg_env 4 synced_client empty_world
           (fun _ => chain_of 105 "b") (ch_hash (chain_of 105 "b") 100) release_pads).
  - vm_compute. split; discriminate.
  - vm_compute. reflexivity.
  - vm_compute. discriminate.
  - vm_compute. discriminate.
  - intros i _. split; [|vm_compute; repeat split; discriminate].
    intros j _. apply (node_env_serves (fun _ => chain_of 105 "b")).
Defined.

Definition paid_env : Env :=
  node_env (fun _ => chain_of 105 "a")
    (JObj [("type", JStr "in"); ("amount", JNum 2000000000000); ("txid", JStr "t1"); ("height", JNum 90)]).

Lemma payment_reported_witness :
  let r := run paid_env (@xmr_check_payment_with_confirmations release json_text_inst "addr"
                           1000000000000 10 synced_client) empty_world in
  exists s, option_map snd (snd r) = Some (inr s) /\ ps_address s = Some "addr" /\ ps_confirmations s = 15.
Proof.
  intros r. destruct r as [w' [[st' [e|s]]|]] eqn:E.
  - exfalso. apply (f_equal (fun p => option_map snd (snd p))) in E. vm_compute in E. discriminate.
  - exists s. split; [reflexivity|].
    assert (ps_received s = true /\ ps_confirmations s = 15) as [Hrec Hc].
    { apply (f_equal (fun p => option_map snd (snd p))) in E. vm_compute in E. injection E as <-. done. }
    split; [|exact Hc].
    apply (@payment_reported release json_text_inst paid_env "addr" 1000000000000 10 synced_client
             empty_world w' st' s E Hrec).
  - exfalso. apply (f_equal (fun p => option_map snd (snd p))) in E. vm_compute in E. discriminate.
Defined.

(** The first matching transfer decides: an unconfirmed one hides a confirmed
    one behind it. *)
Example unconfirmed_hides_confirmed :
  let old := mk_transfer "t1" "addr" 2000000000000 15 0 90 in
  let new := mk_transfer "t2" "addr" 2000000000000 0 0 105 in
  match_transfer "addr" 1000000000000 [new; old] = Some new.
Proof. reflexivity. Qed.
