(* ===== verification/BtcClient.v ===== *)
(** The Bitcoin Core client, src/services/payments/btc.rs, and the payment
    verification on top of it, src/services/payments/btc_client.rs.

    An [f64] is a [spec_float] of the Standard Library, with the operations of
    IEEE 754 binary64 ([prec] = 53, [emax] = 1024). *)
From Stdlib Require Import Floats.SpecFloat.
From S2P Require Import Prelude Interfaces Instances TimeBuckets Models Effects Auth Rpc XmrClient.

Definition SATOSHIS_PER_BTC : Z := 100000000.
Definition DUST_THRESHOLD_SATS : Z := 546.

(** ** [f64] *)

Definition f64_of_Z (n : Z) : spec_float := binary_normalize 53 1024 n 0 false.
Definition f64_mul : spec_float -> spec_float -> spec_float := SFmul 53 1024.
Definition f64_div : spec_float -> spec_float -> spec_float := SFdiv 53 1024.

(** [x.round() as u64]: half away from zero, then saturating; [NaN] is 0. *)
Definition f64_round_u64 (x : spec_float) : Z :=
  match x with
  | S754_finite false m e =>
      if 0 <=? e then u64_sat (Z.pos m * 2 ^ e)
      else u64_sat ((2 * Z.pos m + 2 ^ (- e)) / (2 * 2 ^ (- e)))
  | S754_infinity false => u64_max
  | _ => 0
  end.

Definition btc_f64_to_sats (amount : spec_float) : Z :=
  f64_round_u64 (f64_mul amount (f64_of_Z SATOSHIS_PER_BTC)).
Definition sats_to_btc_f64 (sats : Z) : spec_float := f64_div (f64_of_Z sats) (f64_of_Z SATOSHIS_PER_BTC).

(** [x <= 0.0] *)
Definition f64_le_zero (x : spec_float) : bool := SFleb x (S754_zero false).

(** ** [parse_btc_amount] *)

(** [str::parse::<f64>] *)
Class F64Text := f64_from_str : string -> option spec_float.

Definition parse_btc_amount `{F64Text} (amount_str : string) : string + Z :=
  if bool_decide (amount_str = "") then inl "Empty amount"
  else match f64_from_str amount_str with
       | None => inl "Invalid BTC amount"
       | Some amount =>
           if f64_le_zero amount then inl "Amount must be positive"
           else
             let sats := btc_f64_to_sats amount in
             if sats <? DUST_THRESHOLD_SATS then inl "Amount below dust threshold" else inr sats
       end.

(** An accepted amount is a [u64] above the dust; [NaN] is refused as dust. *)
Lemma parse_btc_amount_range `{F64Text} s sats :
  parse_btc_amount s = inr sats -> DUST_THRESHOLD_SATS <= sats <= u64_max.
Proof.
  unfold parse_btc_amount. intros E. repeat case_match; simplify_eq.
  match goal with X : (_ <? _) = false |- _ => apply Z.ltb_ge in X end. split; [done|].
  unfold btc_f64_to_sats, f64_round_u64. repeat case_match; unfold u64_sat; zlia.
Qed.

(** ** Derived [Deserialize] of the structs, from a [serde_json::Value] *)

(** A struct is read from an object by field names or from an array by
    position; the result looks a field up. *)
Definition de_struct (fields : list string) (j : Json) : string + (string -> option Json) :=
  match j with
  | JObj _ => inr (jget j)
  | JArr l =>
      if Nat.eqb (length l) (length fields)
      then inr (fun k => jget (JObj (combine fields l)) k)
      else inl "invalid length"
  | _ => inl "invalid type"
  end.

Definition de_field {A} (get : string -> option Json) (k : string) (de : Json -> option A) : string + A :=
  match get k with
  | None => inl ("missing field `" +:+ k +:+ "`")
  | Some j => ok_or (de j) "invalid type"
  end.

(** An [Option] field: absent and [null] are [None]. *)
Definition de_option {A} (get : string -> option Json) (k : string) (de : Json -> option A)
    : string + option A :=
  match get k with
  | None => inr None
  | Some JNull => inr None
  | Some j => match de j with Some a => inr (Some a) | None => inl "invalid type" end
  end.

Definition de_int (lo hi : Z) (j : Json) : option Z :=
  match j with JNum n => if decide (lo <= n <= hi) then Some n else None | _ => None end.
Definition de_u64 : Json -> option Z := de_int 0 u64_max.
Definition de_u32 : Json -> option Z := de_int 0 (2 ^ 32 - 1).
Definition de_i32 : Json -> option Z := de_int (- 2 ^ 31) (2 ^ 31 - 1).
Definition de_i64 : Json -> option Z := de_int i64_min i64_max.
Definition de_f64 (j : Json) : option spec_float :=
  match j with JNum n => Some (f64_of_Z n) | JFloat x => Some x | _ => None end.

Fixpoint de_all {A} (de : Json -> string + A) (l : list Json) : string + list A :=
  match l with
  | [] => inr []
  | j :: t =>
      match de j with
      | inl e => inl e
      | inr a => match de_all de t with inl e => inl e | inr r => inr (a :: r) end
      end
  end.
Definition de_vec {A} (de : Json -> string + A) (j : Json) : string + list A :=
  match j with JArr l => de_all de l | _ => inl "invalid type" end.

Definition eopt {A} (r : string + A) : option A := match r with inl _ => None | inr a => Some a end.

Record TransactionDetail := mk_detail {
  td_txid : string; td_address : option string; td_amount : spec_float; td_fee : option spec_float;
  td_confirmations : Z; td_time : Z; td_label : option string }.

Definition de_detail (j : Json) : string + TransactionDetail :=
  match de_struct ["txid"; "address"; "amount"; "fee"; "confirmations"; "time"; "label"] j with
  | inl e => inl e
  | inr get =>
      match de_field get "txid" as_str with inl e => inl e | inr txid =>
      match de_option get "address" as_str with inl e => inl e | inr address =>
      match de_field get "amount" de_f64 with inl e => inl e | inr amount =>
      match de_option get "fee" de_f64 with inl e => inl e | inr fee =>
      match de_field get "confirmations" de_i32 with inl e => inl e | inr confirmations =>
      match de_field get "time" de_i64 with inl e => inl e | inr time =>
      match de_option get "label" as_str with inl e => inl e | inr label =>
      inr (mk_detail txid address amount fee confirmations time label)
      end end end end end end end
  end.

Record ListUnspentEntry := mk_unspent {
  lu_txid : string; lu_vout : Z; lu_address : string; lu_amount : spec_float; lu_confirmations : Z }.

Definition de_unspent (j : Json) : string + ListUnspentEntry :=
  match de_struct ["txid"; "vout"; "address"; "amount"; "confirmations"] j with
  | inl e => inl e
  | inr get =>
      match de_field get "txid" as_str with inl e => inl e | inr txid =>
      match de_field get "vout" de_u32 with inl e => inl e | inr vout =>
      match de_field get "address" as_str with inl e => inl e | inr address =>
      match de_field get "amount" de_f64 with inl e => inl e | inr amount =>
      match de_field get "confirmations" de_i64 with inl e => inl e | inr confirmations =>
      inr (mk_unspent txid vout address amount confirmations)
      end end end end end
  end.

Record ListSinceBlockEntry := mk_since_entry {
  se_txid : string; se_address : option string; se_amount : spec_float; se_confirmations : Z }.

Definition de_since_entry (j : Json) : string + ListSinceBlockEntry :=
  match de_struct ["txid"; "address"; "amount"; "confirmations"] j with
  | inl e => inl e
  | inr get =>
      match de_field get "txid" as_str with inl e => inl e | inr txid =>
      match de_option get "address" as_str with inl e => inl e | inr address =>
      match de_field get "amount" de_f64 with inl e => inl e | inr amount =>
      match de_field get "confirmations" de_i64 with inl e => inl e | inr confirmations =>
      inr (mk_since_entry txid address amount confirmations)
      end end end end
  end.

Record DecodedScriptPubKey := mk_script {
  sp_asm : option string; sp_hex : string; sp_type : option string }.

Definition de_script (j : Json) : string + DecodedScriptPubKey :=
  match de_struct ["asm"; "hex"; "type"] j with
  | inl e => inl e
  | inr get =>
      match de_option get "asm" as_str with inl e => inl e | inr asm =>
      match de_field get "hex" as_str with inl e => inl e | inr hex =>
      match de_option get "type" as_str with inl e => inl e | inr ty =>
      inr (mk_script asm hex ty)
      end end end
  end.

Record DecodedVout := mk_vout { vo_value : spec_float; vo_n : Z; vo_script_pub_key : DecodedScriptPubKey }.

(** A field that is itself a struct. *)
Definition de_member {A} (get : string -> option Json) (k : string) (de : Json -> string + A) : string + A :=
  match get k with None => inl ("missing field `" +:+ k +:+ "`") | Some j => de j end.

Definition de_vout (j : Json) : string + DecodedVout :=
  match de_struct ["value"; "n"; "script_pub_key"] j with
  | inl e => inl e
  | inr get =>
      match de_field get "value" de_f64 with inl e => inl e | inr value =>
      match de_field get "n" de_u32 with inl e => inl e | inr n =>
      match de_member get "script_pub_key" de_script with inl e => inl e | inr script =>
      inr (mk_vout value n script)
      end end end
  end.

Record DecodedTx := mk_decoded {
  dt_txid : string; dt_hash : string; dt_version : Z; dt_size : Z; dt_vout : list DecodedVout }.

Definition de_decoded (j : Json) : string + DecodedTx :=
  match de_struct ["txid"; "hash"; "version"; "size"; "vout"] j with
  | inl e => inl e
  | inr get =>
      match de_field get "txid" as_str with inl e => inl e | inr txid =>
      match de_field get "hash" as_str with inl e => inl e | inr hash =>
      match de_field get "version" de_i64 with inl e => inl e | inr version =>
      match de_field get "size" de_i64 with inl e => inl e | inr size =>
      match de_member get "vout" (de_vec de_vout) with inl e => inl e | inr vout =>
      inr (mk_decoded txid hash version size vout)
      end end end end end
  end.

(** [struct R { result: T }], declared in each method. *)
Definition de_r {A} (de : Json -> string + A) (j : Json) : string + A :=
  match de_struct ["result"] j with
  | inl e => inl e
  | inr get => match get "result" with None => inl "missing field `result`" | Some v => de v end
  end.

(** ** The client *)

Record BitcoinClient := mk_btc {
  bc_nonce : Z;
  bc_last_block_hash : option (Z * string) }.

Definition btc_new : BitcoinClient := mk_btc 0 None.
Definition bc_set_nonce (n : Z) (c : BitcoinClient) : BitcoinClient := mk_btc n (bc_last_block_hash c).
Definition bc_set_last (l : option (Z * string)) (c : BitcoinClient) : BitcoinClient := mk_btc (bc_nonce c) l.

Abbreviation btc := (client BitcoinClient).

Section btc_client.
Context `{BuildProfile} `{JsonText}.

(** [rpc_call::<R>]: [from_value] of the answer's [result]. *)
Definition btc_rpc_call {A} (method : string) (params : Json) (de : Json -> string + A) : btc A :=
  result ← rpc_request bc_nonce bc_set_nonce Btc "BTC" method params;
  cresult (de result).

Definition wallet_is_ready : btc bool :=
  _ ← btc_rpc_call "getwalletinfo" (JArr []) (fun j =>
        match de_struct ["wallet_name"] j with
        | inl e => inl e
        | inr get => de_option get "wallet_name" as_str
        end);
  mret true.

Definition get_block_height : btc Z :=
  btc_rpc_call "getblockcount" JNull (de_r (fun j => ok_or (de_u64 j) "invalid type")).

Definition get_block_hash (height : Z) : btc string :=
  btc_rpc_call "getblockhash" (JArr [JNum height]) (de_r (fun j => ok_or (as_str j) "invalid type")).

Definition btc_check_for_fork : btc bool :=
  current_height ← get_block_height;
  current_hash ← get_block_hash current_height;
  st ← cget;
  match bc_last_block_hash st with
  | Some (cached_height, cached_hash) =>
      if cached_height =? current_height then
        if negb (constant_time_compare (as_bytes cached_hash) (as_bytes current_hash)) then
          _ ← cmodify (bc_set_last (Some (current_height, current_hash))); mret true
        else mret false
      else _ ← cmodify (bc_set_last (Some (current_height, current_hash))); mret false
  | None => _ ← cmodify (bc_set_last (Some (current_height, current_hash))); mret false
  end.

(** [address_type] is the configured type. *)
Definition create_address (address_type order_id : string) : btc string :=
  btc_rpc_call "getnewaddress" (JArr [JStr ("order:" +:+ order_id); JStr address_type])
    (de_r (fun j => ok_or (as_str j) "invalid type")).

Definition list_transactions_for_address (address : string) : btc (list TransactionDetail) :=
  txs ← btc_rpc_call "listtransactions" (JArr [JStr "order:*"; JNum 10000; JNum 0; JBool true])
          (de_r (de_vec de_detail));
  mret (List.filter (fun tx => match td_address tx with
                               | Some a => constant_time_compare (as_bytes a) (as_bytes address)
                               | None => false
                               end) txs).

Definition get_transaction (tx_hash : string) : btc TransactionDetail :=
  btc_rpc_call "gettransaction" (JArr [JStr tx_hash; JBool true]) (de_r de_detail).

Definition get_address_balance (address : string) : btc (Z * Z) :=
  txs ← list_transactions_for_address address;
  mret (fold_left (fun '(total_sats, max_confirmations) tx =>
          if 0 <? td_confirmations tx
          then (u64_sat_add total_sats (btc_f64_to_sats (td_amount tx)),
                Z.max max_confirmations (td_confirmations tx))
          else (total_sats, max_confirmations)) txs (0, 0)).

Definition get_transaction_confirmations (tx_hash : string) : btc Z :=
  tx ← get_transaction tx_hash; mret (Z.max 0 (td_confirmations tx)).

Definition list_unspent (addresses : list string) : btc (list ListUnspentEntry) :=
  btc_rpc_call "listunspent" (JArr [JNum 0; JNum 9999999; JArr (map JStr addresses)])
    (de_r (de_vec de_unspent)).

(** ** [BtcPaymentClient] *)

(** [RawTransaction] is its [hex] field. *)
Definition get_raw_transaction (tx_hash : string) : btc string :=
  btc_rpc_call "gettransaction" (JArr [JStr tx_hash; JBool true])
    (de_r (fun j => match de_struct ["hex"] j with
                    | inl e => inl e
                    | inr get => de_field get "hex" as_str
                    end)).

Definition list_since_block (block_hash : string) : btc (list ListSinceBlockEntry * string) :=
  btc_rpc_call "listsinceblock" (JArr [JStr block_hash])
    (de_r (fun j =>
       match de_struct ["transactions"; "lastblock"] j with
       | inl e => inl e
       | inr get =>
           match de_member get "transactions" (de_vec de_since_entry) with inl e => inl e | inr txs =>
           match de_field get "lastblock" as_str with inl e => inl e | inr last =>
           inr (txs, last)
           end end
       end)).

Definition decode_raw_transaction (hex : string) : btc DecodedTx :=
  btc_rpc_call "decoderawtransaction" (JArr [JStr hex]) (de_r de_decoded).

Record BtcTransfer := mk_btc_transfer {
  bt_address : string; bt_amount : Z; bt_confirmations : Z; bt_tx_hash : string }.

Record BtcPaymentStatus := mk_btc_status {
  bs_received : bool; bs_amount : Z; bs_confirmations : Z;
  bs_tx_hash : option string; bs_address : option string; bs_fork_detected : bool }.

Definition not_received : BtcPaymentStatus := mk_btc_status false 0 0 None None false.
Definition funded (amount confirmations : Z) (tx_hash address : string) : BtcPaymentStatus :=
  mk_btc_status true amount confirmations (Some tx_hash) (Some address) false.

(** The body of the loop of [get_incoming_transfers]. *)
Definition btc_transfer (tx : TransactionDetail) : option BtcTransfer :=
  if td_confirmations tx <=? 0 then None
  else if f64_le_zero (td_amount tx) then None
  else
    let sats := f64_round_u64 (f64_mul (td_amount tx) (f64_of_Z 100000000)) in
    if sats <? DUST_THRESHOLD_SATS then None
    else match td_address tx with
         | Some addr => Some (mk_btc_transfer addr sats (Z.max 0 (td_confirmations tx)) (td_txid tx))
         | None => None
         end.

Definition btc_incoming_transfers (address : string) : btc (list BtcTransfer) :=
  txs ← list_transactions_for_address address;
  mret (omap btc_transfer txs).

Fixpoint btc_match (address : string) (expected required : Z) (l : list BtcTransfer) : BtcPaymentStatus :=
  match l with
  | [] => not_received
  | t :: rest =>
      if negb (bool_decide (as_bytes (bt_address t) = as_bytes address)) then btc_match address expected required rest
      else if bt_amount t <? DUST_THRESHOLD_SATS then btc_match address expected required rest
      else if (expected <=? bt_amount t) && (0 <? expected) && (required <=? bt_confirmations t)
      then funded (bt_amount t) (bt_confirmations t) (bt_tx_hash t) address
      else btc_match address expected required rest
  end.

Definition btc_check_payment_with_confirmations (address : string)
    (expected_satoshis required_confirmations : Z) : btc BtcPaymentStatus :=
  fork ← btc_check_for_fork;
  if (fork : bool) then mret (mk_btc_status false 0 0 None None true)
  else
    transfers ← btc_incoming_transfers address;
    mret (btc_match address expected_satoshis required_confirmations transfers).

(** ** What verification says *)

Lemma btc_rpc_call_inv {A} env method params (de : Json -> string + A) st w w' st' r :
  run env (btc_rpc_call method params de st) w = (w', Some (st', r)) ->
  w' = w_tick w /\ r = match rpc_result "BTC" (env_rpc env (w_time w) Btc method params) with
                       | inl e => inl e
                       | inr j => de j
                       end.
Proof.
  unfold btc_rpc_call. rewrite run_cbind.
  destruct (run env (rpc_request _ _ _ _ _ _ st) w) as [w1 [[s1 x]|]] eqn:E; [|done].
  apply rpc_request_inv in E as (-> & _ & ->).
  destruct (rpc_result _ _) as [e|j]; cbn; intros [= <- <- <-]; done.
Qed.

(** [struct R { result }] expects an object inside the [result] member; a node
    that answers a plain number, as Bitcoin Core does, is never understood, so
    no fork check and no payment check succeeds against it. *)
Theorem btc_node_not_understood env st w n address expected required :
  pads -> 0 <= bc_nonce st < u64_max ->
  rpc_result "BTC" (env_rpc env (w_time w) Btc "getblockcount" JNull) = inr (JNum n) ->
  run env (btc_check_for_fork st) w =
    (w_tick w, Some (bc_set_nonce (bc_nonce st + 1) st, inl "invalid type")) /\
  run env (btc_check_payment_with_confirmations address expected required st) w =
    (w_tick w, Some (bc_set_nonce (bc_nonce st + 1) st, inl "invalid type")).
Proof.
  intros Hp Hn Hr.
  assert (run env (btc_check_for_fork st) w =
    (w_tick w, Some (bc_set_nonce (bc_nonce st + 1) st, inl "invalid type"))) as Hf.
  { unfold btc_check_for_fork, get_block_height, btc_rpc_call. rewrite run_cbind, run_cbind.
    by rewrite rpc_request_run, Hr by done. }
  split; [done|]. unfold btc_check_payment_with_confirmations. by rewrite run_cbind, Hf.
Qed.

Lemma btc_match_spec address expected required l :
  bs_received (btc_match address expected required l) = true ->
  exists t, t ∈ l /\ bt_address t = address /\ DUST_THRESHOLD_SATS <= bt_amount t /\
    0 < expected <= bt_amount t /\ required <= bt_confirmations t /\
    btc_match address expected required l = funded (bt_amount t) (bt_confirmations t) (bt_tx_hash t) address.
Proof.
  induction l as [|x l IH]; cbn [btc_match]; [done|].
  destruct (bool_decide_reflect (as_bytes (bt_address x) = as_bytes address)) as [Ha|]; cbn [negb];
    [|intros Hr; destruct (IH Hr) as (t & ? & ?); exists t; split; [by right|done]].
  destruct (Z.ltb_spec (bt_amount x) DUST_THRESHOLD_SATS);
    [intros Hr; destruct (IH Hr) as (t & ? & ?); exists t; split; [by right|done]|].
  destruct ((expected <=? bt_amount x) && (0 <? expected) && (required <=? bt_confirmations x)) eqn:E;
    [|intros Hr; destruct (IH Hr) as (t & ? & ?); exists t; split; [by right|done]].
  intros _. apply andb_true_iff in E as [E E3]. apply andb_true_iff in E as [E1 E2].
  apply Z.leb_le in E1, E3. apply Z.ltb_lt in E2. exists x.
  split; [left|]. split; [by apply as_bytes_inj|]. split; [done|]. split; [lia|]. done.
Qed.

(** A Bitcoin payment is reported as received only for a transaction the node
    listed for that very address, with at least the expected amount, not dust,
    and with enough confirmations. *)
Lemma btc_payment_reported env address expected required st w w' st' s :
  run env (btc_check_payment_with_confirmations address expected required st) w = (w', Some (st', inr s)) ->
  bs_received s = true ->
  bs_fork_detected s = false /\ bs_address s = Some address /\
  0 < expected <= bs_amount s /\ required <= bs_confirmations s /\
  exists t txs tx,
    match rpc_result "BTC" (env_rpc env t Btc "listtransactions"
            (JArr [JStr "order:*"; JNum 10000; JNum 0; JBool true])) with
    | inl _ => False
    | inr j => de_r (de_vec de_detail) j = inr txs
    end /\ tx ∈ txs /\ td_address tx = Some address /\ bs_tx_hash s = Some (td_txid tx) /\
    bs_amount s = btc_f64_to_sats (td_amount tx) /\ DUST_THRESHOLD_SATS <= bs_amount s /\
    bs_confirmations s = td_confirmations tx.
Proof.
  unfold btc_check_payment_with_confirmations. rewrite run_cbind.
  destruct (run env (btc_check_for_fork st) w) as [w1 [[s1 [e|[|]]]|]]; [done| | |done].
  { cbn. intros E. by simplify_eq/=. }
  unfold btc_incoming_transfers, list_transactions_for_address. rewrite run_cbind, run_cbind, run_cbind.
  destruct (run env (btc_rpc_call _ _ _ s1) w1) as [w2 [[s2 [e|txs]]|]] eqn:El; [done| |done].
  cbn [run mret client_ret]. intros E Hrec. apply (f_equal snd) in E. cbn [snd] in E. injection E as _ <-.
  destruct (btc_match_spec _ _ _ _ Hrec) as (t & Hin & Haddr & Hd & Hge & Hreq & ->).
  apply btc_rpc_call_inv in El as [_ El]. cbn [funded bs_fork_detected bs_address bs_amount bs_confirmations bs_tx_hash].
  split; [done|]. split; [done|]. split; [lia|]. split; [done|].
  apply list_elem_of_omap in Hin as (tx & Htx & Ht).
  apply list_elem_of_In, filter_In in Htx as [Htx _].
  exists (w_time w1), txs, tx. split; [by destruct (rpc_result _ _)|].
  split; [by apply list_elem_of_In|]. unfold btc_transfer in Ht.
  destruct (Z.leb_spec (td_confirmations tx) 0); [done|].
  destruct (f64_le_zero (td_amount tx)); [done|]. destruct (_ <? _); [done|].
  destruct (td_address tx) as [a|] eqn:Ea; [|done]. injection Ht as <-.
  cbn [bt_address bt_amount bt_confirmations bt_tx_hash] in *. subst a.
  split; [done|]. split; [done|]. split; [done|]. split; [done|]. lia.
Qed.
End btc_client.

(** ** Witnesses *)

(** Bitcoin Core's answer to [getblockcount]. *)
Definition core_env : Env :=
  mk_env (fun n => 1747000000 + Z.of_nat n) (fun t n => repeat (byte_of_Z (Z.of_nat t)) n)
    (fun t => le_bytes 16 (Z.of_nat t)) (fun _ => None) (fun _ => None)
    (fun _ _ _ _ => inr (JObj [("result", JNum 840000); ("error", JNull); ("id", JNum 1)])).

Lemma btc_node_not_understood_witness :
  exists st', run core_env (@btc_check_payment_with_confirmations release json_text_inst "addr" 1000 6 btc_new)
    empty_world = (w_tick empty_world, Some (st', inl "invalid type")).
Proof.
  eexists. apply (@btc_node_not_understood release json_text_inst core_env btc_new empty_world 840000 "addr" 1000 6
             release_pads).
  - vm_compute. split; [discriminate|reflexivity].
  - reflexivity.
Defined.

(** A proxy that wraps its results, as the client expects. *)
Definition wrapped_env : Env :=
  mk_env (fun n => 1747000000 + Z.of_nat n) (fun t n => repeat (byte_of_Z (Z.of_nat t)) n)
    (fun t => le_bytes 16 (Z.of_nat t)) (fun _ => None) (fun _ => None)
    (fun _ _ m _ => inr (JObj [("result", JObj [("result",
       if bool_decide (m = "getblockcount") then JNum 840000
       else if bool_decide (m = "getblockhash") then JStr "00ab"
       else JArr [JObj [("txid", JStr "t1"); ("address", JStr "addr"); ("amount", JNum 1);
                        ("confirmations", JNum 7); ("time", JNum 0)]])])])).

Lemma btc_payment_reported_witness :
  let r := run wrapped_env (@btc_check_payment_with_confirmations release json_text_inst "addr" 100000000 6 btc_new)
             empty_world in
  exists s, option_map snd (snd r) = Some (inr s) /\ bs_amount s = 100000000 /\ bs_address s = Some "addr".
Proof.
  intros r. destruct r as [w' [[st' [e|s]]|]] eqn:E.
  - exfalso. apply (f_equal (fun p => option_map snd (snd p))) in E. vm_compute in E. discriminate.
  - exists s. split; [reflexivity|].
    assert (bs_received s = true /\ bs_amount s = 100000000) as [Hrec Ha].
    { apply (f_equal (fun p => option_map snd (snd p))) in E. vm_compute in E. injection E as <-. done. }
    split; [exact Ha|].
    apply (@btc_payment_reported release json_text_inst wrapped_env "addr" 100000000 6 btc_new empty_world
             w' st' s E Hrec).
  - exfalso. apply (f_equal (fun p => option_map snd (snd p))) in E. vm_compute in E. discriminate.
Defined.
