(* ===== verification/Noise.v ===== *)
(** Differential privacy of timestamps, src/crypto/differential_privacy.rs, in
    binary64: the Laplace sample made of one uniform draw, its rounding to an
    [i64] offset, and the buckets computed with it.

    The uniform draw of [rng.gen::<f64>()] is an argument; [f64::ln], which the
    standard library takes from the platform's libm, is a parameter. *)
From Stdlib Require Import Floats.SpecFloat.
From S2P Require Import Prelude Interfaces TimeBuckets BtcClient.

Class LibM := f64_ln : spec_float -> spec_float.

Definition f64_zero : spec_float := S754_zero false.
Definition f64_half : spec_float := f64_div (f64_of_Z 1) (f64_of_Z 2).
Definition f64_neg : spec_float -> spec_float := SFopp.
Definition f64_sub : spec_float -> spec_float -> spec_float := SFsub 53 1024.
(** [f64::MIN_POSITIVE], 2^-1022 *)
Definition f64_min_positive : spec_float := S754_finite false 4503599627370496 (-1074).

(** [x.max(y)]: the other one when one is [NaN]. *)
Definition f64_max (x y : spec_float) : spec_float :=
  match x, y with
  | S754_nan, _ => y
  | _, S754_nan => x
  | _, _ => if SFleb x y then y else x
  end.

(** [x.round() as i64]: half away from zero, then saturating; [NaN] is 0. *)
Definition f64_round_i64 (x : spec_float) : Z :=
  match x with
  | S754_finite s m e =>
      let r := if 0 <=? e then Z.pos m * 2 ^ e else (2 * Z.pos m + 2 ^ (- e)) / (2 * 2 ^ (- e)) in
      i64_sat (if s then - r else r)
  | S754_infinity s => if s then i64_min else i64_max
  | _ => 0
  end.

Definition BUCKET_SENSITIVITY : spec_float := f64_of_Z 21600.

Section noise.
Context `{LibM}.

(** [u] is [rng.gen()], drawn only for a positive scale. *)
Definition laplace_noise (u scale : spec_float) : spec_float :=
  if SFleb scale f64_zero then f64_zero
  else
    let s := f64_sub u f64_half in
    let log_arg := f64_max (f64_sub (f64_of_Z 1) (f64_mul (f64_of_Z 2) (SFabs s))) f64_min_positive in
    let sign := if SFleb f64_zero s then f64_of_Z 1 else f64_neg (f64_of_Z 1) in
    f64_mul (f64_mul (f64_neg scale) sign) (f64_ln log_arg).

Definition noisy_offset (u epsilon sensitivity : spec_float) : Z :=
  if SFleb epsilon f64_zero then 0
  else f64_round_i64 (laplace_noise u (f64_div sensitivity epsilon)).

Definition dp_timestamp (u : spec_float) (timestamp : Z) (epsilon sensitivity : spec_float) : Z :=
  noisy_timestamp timestamp (noisy_offset u epsilon sensitivity).

Definition dp_bucket (u : spec_float) (timestamp : Z) (epsilon : spec_float) : Z :=
  noisy_bucket timestamp (noisy_offset u epsilon BUCKET_SENSITIVITY).

Lemma f64_round_i64_range x : in_i64 (f64_round_i64 x).
Proof. destruct x as [| [] | |]; cbn; first [apply i64_sat_range|zlia]. Qed.

(** Whatever is drawn, even a sample that is not a number: the offset fits an
    [i64], the noisy timestamp does not overflow, and its bucket is a multiple
    of six hours; without a privacy budget there is no noise at all. *)
Theorem dp_bucket_range u ts epsilon :
  in_i64 (noisy_offset u epsilon BUCKET_SENSITIVITY) /\
  in_i64 (dp_timestamp u ts epsilon BUCKET_SENSITIVITY) /\
  in_i64 (dp_bucket u ts epsilon) /\ Z.rem (dp_bucket u ts epsilon) 21600 = 0 /\
  (SFleb epsilon f64_zero = true -> in_i64 ts -> dp_bucket u ts epsilon = floor_timestamp_6h ts).
Proof.
  assert (in_i64 (noisy_offset u epsilon BUCKET_SENSITIVITY)) as Ho.
  { unfold noisy_offset. destruct (SFleb _ _); [zlia|apply f64_round_i64_range]. }
  assert (in_i64 (dp_timestamp u ts epsilon BUCKET_SENSITIVITY)) as Ht by apply i64_sat_range.
  split; [done|]. split; [done|]. split; [|split].
  - by apply (floor_6h_range (dp_timestamp u ts epsilon BUCKET_SENSITIVITY)).
  - unfold dp_bucket, noisy_bucket, floor_to_bucket. apply Z.rem_mul. lia.
  - intros He Hi. unfold dp_bucket, noisy_bucket, noisy_timestamp, noisy_offset. rewrite He.
    unfold i64_sat_add. rewrite Z.add_0_r. unfold floor_to_bucket, floor_timestamp_6h, i64_sat. do 2 f_equal. zlia.
Qed.
End noise.
