(* ===== verification/Escrow.v ===== *)
(** Stealth escrow of Bitcoin orders: key derivation (src/crypto/stealth.rs,
    derive_order_key and order_public_key of src/crypto/escrow.rs), the
    settlement transaction (src/services/escrow/btc.rs) and its use
    (src/services/payments/stealth_escrow.rs).

    The elliptic curve, addresses, transaction encoding and signature hashes of
    the [secp256k1] and [bitcoin] crates are parameters; the public structs of
    [bitcoin] the code fills in are records of the fields it uses.  Keys are
    their serialised bytes. *)
From S2P Require Import Prelude Interfaces Instances TimeBuckets Models Effects Texts Auth Rpc XmrClient BtcClient.

Inductive Network := Bitcoin | Testnet | Signet | Regtest.
#[global] Instance network_eq_dec : EqDecision Network.
Proof. solve_decision. Defined.

(** ** The crates *)

Class Secp256k1 := {
  sk_from_slice : bytes -> option bytes;
  pk_from_slice : bytes -> option bytes;
  pk_from_secret_key : bytes -> bytes;
  (** [SharedSecret::new(pk, sk)] *)
  shared_secret : bytes -> bytes -> bytes;
  sign_ecdsa : bytes -> bytes -> bytes
}.

Class Secp256k1Laws (S : Secp256k1) := {
  pk_from_own_slice : forall sk, pk_from_slice (pk_from_secret_key sk) = Some (pk_from_secret_key sk);
  shared_secret_comm : forall a b,
    shared_secret (pk_from_secret_key a) b = shared_secret (pk_from_secret_key b) a
}.

(** [bitcoin]'s [TxIn] (its outpoint), [TxOut], [Transaction], [psbt::Input]
    and [Psbt]. *)
Record TxIn := mk_txin { ti_txid : bytes; ti_vout : Z }.
Record TxOut := mk_txout { to_value : Z; to_script : bytes }.
Record Transaction := mk_tx { tx_input : list TxIn; tx_output : list TxOut }.
Record PsbtInput := mk_psbt_input {
  pi_witness_utxo : option TxOut; pi_partial_sigs : list (bytes * bytes);
  pi_witness_script : option bytes; pi_final_script_witness : option (list bytes) }.
Record Psbt := mk_psbt { psbt_tx : Transaction; psbt_inputs : list PsbtInput }.

Definition blank_input : PsbtInput := mk_psbt_input None [] None None.

Class BitcoinLib := {
  (** [Address::from_str] *)
  addr_from_str : string -> option string;
  (** [require_network] and [script_pubkey] *)
  addr_script : string -> Network -> option bytes;
  p2pkh_address : bytes -> Network -> string;
  p2wpkh_address : bytes -> Network -> string;
  is_p2wpkh : bytes -> bool;
  txid_from_str : string -> option bytes;
  psbt_from_unsigned_tx : Transaction -> option Psbt;
  (** [p2wpkh_signature_hash(index, script, value, All)] *)
  p2wpkh_signature_hash : Transaction -> nat -> bytes -> Z -> option bytes;
  (** [ecdsa::Signature::to_vec] with sighash type [All] *)
  sig_to_vec : bytes -> bytes;
  (** [extract_tx], then [serialize_hex] *)
  extract_tx_hex : Psbt -> option string
}.

Class BitcoinLibLaws (B : BitcoinLib) := {
  (** a transaction without script sigs makes a PSBT with blank inputs *)
  psbt_from_tx : forall tx, psbt_from_unsigned_tx tx =
    Some (mk_psbt tx (replicate (length (tx_input tx)) blank_input))
}.

Section escrow.
Context `{BuildProfile} `{JsonText} `{Hashing} `{Hex} `{Secp256k1} `{BitcoinLib}.

(** ** Keys *)

(** [escrow::derive_order_key] *)
Definition derive_escrow_key (master_seed order_id : bytes) : string + bytes :=
  match hmac_sha256 master_seed (as_bytes "order:" ++ order_id) with
  | None => inl "HMAC init failed"
  | Some result => ok_or (sk_from_slice result) "Invalid derived key"
  end.

Definition order_public_key (sk : bytes) : bytes := pk_from_secret_key sk.

Definition derive_stealth_private_key (their_pk our_sk order_id : bytes) : string + bytes :=
  let shared := shared_secret their_pk our_sk in
  let tweak := sha256 (shared ++ as_bytes "stealth-key-v1" ++ order_id) in
  ok_or (sk_from_slice tweak) "invalid stealth key derivation".

Definition derive_stealth_private_key_seller (their_pk our_sk order_id : bytes) : string + bytes :=
  derive_stealth_private_key their_pk our_sk order_id.

Definition stealth_public_key (stealth_sk : bytes) : bytes := pk_from_secret_key stealth_sk.

Definition stealth_p2wpkh_address (stealth_pk : bytes) (network : Network) : string :=
  p2wpkh_address stealth_pk network.

Definition parse_secp_pubkey (hex_str : string) : string + bytes :=
  match hex_decode hex_str with
  | inl _ => inl "Invalid hex pubkey"
  | inr b => ok_or (pk_from_slice b) "Invalid secp256k1 pubkey"
  end.

Definition stealth_address_from_hex (buyer_pk_hex seller_sk_hex : string) (order_id : bytes)
    (network : Network) : string + string :=
  match parse_secp_pubkey buyer_pk_hex with inl e => inl e | inr buyer_pk =>
  match hex_decode seller_sk_hex with inl _ => inl "invalid seller sk hex" | inr seller_sk_bytes =>
  match sk_from_slice seller_sk_bytes with None => inl "invalid seller secret key" | Some seller_sk =>
  match derive_stealth_private_key buyer_pk seller_sk order_id with inl e => inl e | inr stealth_sk =>
  inr (stealth_p2wpkh_address (stealth_public_key stealth_sk) network)
  end end end end.

(** ** The settlement transaction *)

(** [utxos.iter().map(..).sum()] *)
Fixpoint sum_sats (l : list Z) : option Z :=
  match l with
  | [] => Some 0
  | a :: t => s ← sum_sats t; u64_op (a + s)
  end.

(** [seller_sats] and [fee_sats]; [None] is an overflow panic. *)
Definition split_settlement (total_sats fee_percent : Z) : option (Z * Z) :=
  keep ← u64_op (100 - fee_percent);
  product ← u64_op (total_sats * keep);
  let seller_sats := product / 100 in
  fee_sats ← u64_op (total_sats - seller_sats);
  Some (seller_sats, fee_sats).

Definition address_of (what addr : string) (network : Network) : string + bytes :=
  match addr_from_str addr with
  | None => inl ("Invalid " +:+ what +:+ " address")
  | Some a => ok_or (addr_script a network) (what +:+ " address wrong network")
  end.

Fixpoint settlement_inputs (utxos : list (string * Z * Z)) : string + list TxIn :=
  match utxos with
  | [] => inr []
  | (txid_str, vout, _) :: t =>
      match txid_from_str txid_str with
      | None => inl ("Invalid txid " +:+ txid_str)
      | Some txid =>
          match settlement_inputs t with inl e => inl e | inr l => inr (mk_txin txid vout :: l) end
      end
  end.

(** The loop that sets [witness_utxo] of every input. *)
Fixpoint set_witness_utxos (script : bytes) (amounts : list Z) (inputs : list PsbtInput) : list PsbtInput :=
  match amounts, inputs with
  | a :: amounts', i :: inputs' =>
      mk_psbt_input (Some (mk_txout a script)) (pi_partial_sigs i) (pi_witness_script i)
        (pi_final_script_witness i) :: set_witness_utxos script amounts' inputs'
  | _, _ => inputs
  end.

(** [None] is a panic. *)
Definition build_multi_utxo_settlement_psbt (utxos : list (string * Z * Z))
    (stealth_address seller_address fee_address : string) (fee_percent : Z) (network : Network)
    : option (string + Psbt) :=
  if Nat.eqb (length utxos) 0 then Some (inl "At least one UTXO required") else
  match address_of "stealth" stealth_address network with inl e => Some (inl e) | inr script =>
  match address_of "seller" seller_address network with inl e => Some (inl e) | inr seller_script =>
  match address_of "fee" fee_address network with inl e => Some (inl e) | inr fee_script =>
  match sum_sats (map snd utxos) with None => None | Some total_sats =>
  match split_settlement total_sats fee_percent with None => None | Some (seller_sats, fee_sats) =>
  match settlement_inputs utxos with inl e => Some (inl e) | inr inputs =>
  let unsigned_tx := mk_tx inputs [mk_txout seller_sats seller_script; mk_txout fee_sats fee_script] in
  match psbt_from_unsigned_tx unsigned_tx with
  | None => Some (inl "Failed to create PSBT")
  | Some psbt => Some (inr (mk_psbt (psbt_tx psbt) (set_witness_utxos script (map snd utxos) (psbt_inputs psbt))))
  end end end end end end end.

Definition build_stealth_settlement_psbt (prev_txid : string) (prev_vout amount_sats : Z)
    (stealth_address seller_address fee_address : string) (fee_percent : Z) (network : Network)
    : option (string + Psbt) :=
  build_multi_utxo_settlement_psbt [(prev_txid, prev_vout, amount_sats)] stealth_address seller_address
    fee_address fee_percent network.

(** [partial_sigs.insert]: a [BTreeMap], kept in the order of its keys, which for
    the compressed keys used here is the order of their serialization. *)
Fixpoint sigs_insert (pk sig : bytes) (l : list (bytes * bytes)) : list (bytes * bytes) :=
  match l with
  | [] => [(pk, sig)]
  | (k, v) :: t =>
      if decide (k = pk) then (pk, sig) :: t
      else if blob_leb pk k then (pk, sig) :: (k, v) :: t
      else (k, v) :: sigs_insert pk sig t
  end.

Definition sign_stealth_input (psbt : Psbt) (input_index : nat) (stealth_sk stealth_pk : bytes)
    (amount_sats : Z) : string + Psbt :=
  match psbt_inputs psbt !! input_index with
  | None => inl "Input index out of bounds"
  | Some input =>
      if negb (bool_decide (pk_from_secret_key stealth_sk = stealth_pk))
      then inl "Stealth secret key does not match the provided public key" else
      match pi_witness_utxo input with
      | None => inl "PSBT input has no witness_utxo"
      | Some utxo =>
          if negb (is_p2wpkh (to_script utxo)) then inl "UTXO script is not P2WPKH" else
          match p2wpkh_signature_hash (psbt_tx psbt) input_index (to_script utxo) amount_sats with
          | None => inl "Failed to compute P2WPKH sighash"
          | Some sighash =>
              let input := mk_psbt_input (pi_witness_utxo input)
                (sigs_insert stealth_pk (sig_to_vec (sign_ecdsa sighash stealth_sk)) (pi_partial_sigs input))
                (pi_witness_script input) (pi_final_script_witness input) in
              inr (mk_psbt (psbt_tx psbt) (<[input_index := input]> (psbt_inputs psbt)))
          end
      end
  end.

(** One step of the loop of [finalize_stealth_psbt]. *)
Definition finalize_input (input : PsbtInput) : string + PsbtInput :=
  match pi_witness_script input with
  | Some _ => inl "P2WPKH must not have witness_script set"
  | None =>
      match pi_partial_sigs input with
      | [] => inl "Input has no signatures"
      | (pk, sig) :: _ =>
          inr (mk_psbt_input (pi_witness_utxo input) (pi_partial_sigs input) None (Some [sig; pk]))
      end
  end.

Fixpoint finalize_inputs (l : list PsbtInput) : string + list PsbtInput :=
  match l with
  | [] => inr []
  | i :: t =>
      match finalize_input i with
      | inl e => inl e
      | inr i' => match finalize_inputs t with inl e => inl e | inr t' => inr (i' :: t') end
      end
  end.

Definition finalize_stealth_psbt (psbt : Psbt) : string + string :=
  if Nat.eqb (length (psbt_inputs psbt)) 0 then inl "PSBT has no inputs" else
  match finalize_inputs (psbt_inputs psbt) with
  | inl e => inl e
  | inr inputs => ok_or (extract_tx_hex (mk_psbt (psbt_tx psbt) inputs)) "PSBT extract failed"
  end.

Definition broadcast_psbt (tx_hex : string) : btc string :=
  result ← btc_rpc_call "sendrawtransaction" (JArr [JStr tx_hex]) (fun j => inr j);
  cresult (ok_or (as_str result) "sendrawtransaction returned non-string").

Definition import_params (descriptor : list (string * Json)) (label : string) : Json :=
  JArr [JObj (descriptor ++ [("label", JStr label); ("watchonly", JBool true); ("internal", JBool false);
                             ("timestamp", JStr "now")]);
        JObj [("rescan", JBool false)]].

Definition import_address_watchonly (address label : string) : btc unit :=
  _ ← btc_rpc_call "importmulti"
        (import_params [("scriptPubKey", JObj [("address", JStr address)])] label) (fun j => inr j);
  mret tt.

Definition import_multisig_watchonly (address witness_script_hex label : string) : btc unit :=
  _ ← btc_rpc_call "importmulti"
        (import_params [("scriptPubKey", JObj [("address", JStr address)]);
                        ("witnessscript", JStr witness_script_hex)] label) (fun j => inr j);
  mret tt.

(** ** Orders (stealth_escrow.rs) *)

(** No other character lowers to a letter of these names. *)
Definition btc_network (network : string) : string + Network :=
  let n := to_lowercase network in
  if bool_decide (n = "mainnet") then inr Bitcoin
  else if bool_decide (n = "testnet") then inr Testnet
  else if bool_decide (n = "signet") then inr Signet
  else if bool_decide (n = "regtest") then inr Regtest
  else inl "Invalid bitcoin.network".

(** The part of [Config] the settlement reads. *)
Record EscrowConfig := mk_escrow_config {
  ec_network : string; ec_fee_address_btc : option string; ec_fee_percent : Z }.

Definition create_stealth_address_for_order (buyer_pk_hex : string) (master_seed order_id : bytes)
    (network : Network) : client BitcoinClient (AppError + string) := fun rpc =>
  match parse_secp_pubkey buyer_pk_hex with
  | inl _ => Ret (rpc, inr (inl (BadRequest "Invalid buyer pubkey")))
  | inr buyer_pk =>
  match derive_escrow_key master_seed order_id with
  | inl e => Ret (rpc, inr (inl (Internal ("Owner key derivation: " +:+ e))))
  | inr owner_sk =>
  match derive_stealth_private_key buyer_pk owner_sk order_id with
  | inl e => Ret (rpc, inr (inl (Internal ("Stealth key derivation: " +:+ e))))
  | inr stealth_sk =>
      let stealth_addr := stealth_p2wpkh_address (stealth_public_key stealth_sk) network in
      let label := "order:" +:+ hex_encode order_id in
      do p := import_address_watchonly stealth_addr label rpc in
      match p with
      | (rpc, inl e) => Ret (rpc, inr (inl (Internal ("BTC import: " +:+ e))))
      | (rpc, inr _) => Ret (rpc, inr (inr stealth_addr))
      end
  end end end.

(** The loop that signs input [i] and all later ones. *)
Fixpoint sign_inputs (psbt : Psbt) (i : nat) (stealth_sk stealth_pk : bytes) (amounts : list Z) : string + Psbt :=
  match amounts with
  | [] => inr psbt
  | amt :: t =>
      match sign_stealth_input psbt i stealth_sk stealth_pk amt with
      | inl e => inl e
      | inr psbt => sign_inputs psbt (S i) stealth_sk stealth_pk t
      end
  end.

(** The confirmed outputs as (txid, vout, satoshis). *)
Definition settlement_entries (utxos : list ListUnspentEntry) : list (string * Z * Z) :=
  map (fun u => (lu_txid u, lu_vout u, btc_f64_to_sats (lu_amount u)))
    (List.filter (fun u => 0 <? lu_confirmations u) utxos).

(** The key that controls the order's stealth address. *)
Definition settlement_key (worker_key : option bytes) (order_id : bytes) (data : OrderData)
    : AppError + bytes :=
  match worker_key with
  | None => inl (Internal "Worker key not set")
  | Some key =>
      match derive_escrow_key key order_id with
      | inl e => inl (Internal ("Owner key derivation: " +:+ e))
      | inr owner_sk =>
          match buyer_pubkey data with
          | None => inl (Internal "Missing buyer pubkey")
          | Some buyer_pk_hex =>
              match parse_secp_pubkey buyer_pk_hex with
              | inl _ => inl (Internal "Invalid buyer pubkey")
              | inr buyer_pk =>
                  map_err (fun e => Internal ("Stealth key derivation: " +:+ e))
                    (derive_stealth_private_key buyer_pk owner_sk order_id)
              end
          end
      end
  end.

Definition internal {A} (what : string) (r : string + A) : AppError + A :=
  map_err (fun e => Internal (what +:+ ": " +:+ e)) r.

(** The new order data, or the error that leaves it alone. *)
Definition settle_stealth_order (cfg : EscrowConfig) (worker_key : option bytes) (order_id : bytes)
    (data : OrderData) : prog (AppError + OrderData) :=
  if negb (bool_decide (currency data = "BTC")) || bool_decide (is_Some (settlement_txid data))
  then Ret (inr data) else
  try network := internal "Config error" (btc_network (ec_network cfg)) in
  try stealth_address := ok_or (escrow_address data) (Internal "No escrow address for BTC order") in
  do p := list_unspent [stealth_address] btc_new in
  let '(rpc, r) := p in
  try utxos := internal "list_unspent" r in
  if Nat.eqb (length utxos) 0 then Ret (inl (Internal "No UTXOs at stealth address")) else
  try seller_pk_hex := ok_or (seller_pubkey data) (Internal "Missing seller pubkey") in
  try seller_pk := map_err (fun _ => Internal "Invalid seller pubkey") (parse_secp_pubkey seller_pk_hex) in
  let seller_address := p2pkh_address seller_pk network in
  try fee_address := ok_or (ec_fee_address_btc cfg) (Internal "No fee address configured") in
  let entries := settlement_entries utxos in
  if Nat.eqb (length entries) 0 then Ret (inl (Internal "No confirmed UTXOs at stealth address")) else
  match build_multi_utxo_settlement_psbt entries stealth_address seller_address fee_address
          (ec_fee_percent cfg) network with
  | None => Panic
  | Some built =>
  try psbt := internal "PSBT build" built in
  try stealth_sk := settlement_key worker_key order_id data in
  let stealth_pk := stealth_public_key stealth_sk in
  try psbt := internal "PSBT signing input" (sign_inputs psbt 0 stealth_sk stealth_pk (map snd entries)) in
  try tx_hex := internal "PSBT finalize" (finalize_stealth_psbt psbt) in
  do p := broadcast_psbt tx_hex rpc in
  try txid := internal "Broadcast" (snd p) in
  Ret (inr (set_settlement_txid (Some txid) data))
  end.

(** ** The split *)

Lemma sum_sats_exact l :
  Forall (fun a => 0 <= a) l -> fold_right Z.add 0 l <= u64_max -> sum_sats l = Some (fold_right Z.add 0 l).
Proof.
  induction l as [|a t IH]; cbn [sum_sats fold_right]; [done|].
  intros [Ha Ht]%Forall_cons Hs.
  assert (0 <= fold_right Z.add 0 t) by (clear -Ht; induction Ht; cbn; lia).
  rewrite IH by (done || lia). cbn [mbind option_bind]. apply u64_op_in. zlia.
Qed.

(** With a fee of at most 100 percent and amounts that do not overflow, the
    split gives the seller the rounded-down share and the fee address the rest,
    so the two outputs are all of the inputs. *)
Lemma split_settlement_exact total fee :
  0 <= fee <= 100 -> 0 <= total -> total * 100 <= u64_max ->
  split_settlement total fee = Some (total * (100 - fee) / 100, total - total * (100 - fee) / 100) /\
  0 <= total * (100 - fee) / 100 <= total.
Proof.
  intros Hf Ht Hm.
  assert (0 <= total * (100 - fee) <= total * 100) by nia.
  assert (0 <= total * (100 - fee) / 100) by (apply Z.div_pos; lia).
  assert (total * (100 - fee) / 100 <= total) by (apply Z.div_le_upper_bound; lia).
  split; [|done]. unfold split_settlement. rewrite u64_op_in by zlia. cbn [mbind option_bind].
  rewrite u64_op_in by zlia. cbn [mbind option_bind]. by rewrite u64_op_in by zlia.
Qed.

Lemma set_witness_utxos_length script amounts inputs :
  length (set_witness_utxos script amounts inputs) = length inputs.
Proof. revert inputs. induction amounts as [|a t IH]; intros [|i l]; cbn; [done..|]. by rewrite IH. Qed.

Lemma set_witness_utxos_lookup script amounts inputs i a p :
  amounts !! i = Some a -> inputs !! i = Some p ->
  set_witness_utxos script amounts inputs !! i =
  Some (mk_psbt_input (Some (mk_txout a script)) (pi_partial_sigs p) (pi_witness_script p)
          (pi_final_script_witness p)).
Proof.
  revert amounts inputs. induction i as [|i IH]; intros [|b t] [|q l]; cbn; try done.
  - by intros [= ->] [= ->].
  - apply IH.
Qed.

Lemma settlement_inputs_lookup utxos l :
  settlement_inputs utxos = inr l ->
  length l = length utxos /\
  forall i txid_str vout amt, utxos !! i = Some (txid_str, vout, amt) ->
    exists txid, txid_from_str txid_str = Some txid /\ l !! i = Some (mk_txin txid vout).
Proof.
  revert l. induction utxos as [|[[t v] a] u IH]; intros l; cbn [settlement_inputs].
  - intros [= <-]. split; [done|]. intros i t v a Hu. by rewrite lookup_nil in Hu.
  - destruct (txid_from_str t) as [txid|] eqn:Et; [|done].
    destruct (settlement_inputs u) as [e|l'] eqn:El; [done|]. intros [= <-].
    destruct (IH l' eq_refl) as [Hl Hi]. split; [cbn; by rewrite Hl|].
    intros [|i] t' v' a'; cbn [lookup list_lookup]; [intros [= -> -> ->]; by exists txid|by apply Hi].
Qed.

(** What a built settlement is made of. *)
Lemma build_inv `{!BitcoinLibLaws _} utxos stealth seller fee_addr fee network psbt :
  build_multi_utxo_settlement_psbt utxos stealth seller fee_addr fee network = Some (inr psbt) ->
  exists script seller_script fee_script total s f inputs,
    address_of "stealth" stealth network = inr script /\
    address_of "seller" seller network = inr seller_script /\
    address_of "fee" fee_addr network = inr fee_script /\
    sum_sats (map snd utxos) = Some total /\ split_settlement total fee = Some (s, f) /\
    settlement_inputs utxos = inr inputs /\
    psbt = mk_psbt (mk_tx inputs [mk_txout s seller_script; mk_txout f fee_script])
             (set_witness_utxos script (map snd utxos) (replicate (length inputs) blank_input)).
Proof.
  intros E. unfold build_multi_utxo_settlement_psbt in E.
  destruct (Nat.eqb (length utxos) 0); [done|].
  destruct (address_of "stealth" stealth network) as [|script]; [done|].
  destruct (address_of "seller" seller network) as [|seller_script]; [done|].
  destruct (address_of "fee" fee_addr network) as [|fee_script]; [done|].
  destruct (sum_sats _) as [total|]; [|done].
  destruct (split_settlement total fee) as [[x f]|] eqn:Esp; [|done].
  destruct (settlement_inputs utxos) as [|inputs] eqn:Ei; [done|].
  rewrite psbt_from_tx in E. cbn [psbt_tx psbt_inputs tx_input] in E. injection E as <-.
  exists script, seller_script, fee_script, total, x, f, inputs. split_and!; done.
Qed.

(** The input the [i]-th output becomes. *)
Lemma built_input script (utxos : list (string * Z * Z)) (inputs : list TxIn) i txid_str vout amt :
  length inputs = length utxos -> utxos !! i = Some (txid_str, vout, amt) ->
  set_witness_utxos script (map snd utxos) (replicate (length inputs) blank_input) !! i =
    Some (mk_psbt_input (Some (mk_txout amt script)) [] None None).
Proof.
  intros Hlen Hu. rewrite (set_witness_utxos_lookup _ _ _ i amt blank_input); [done| |].
  - by rewrite list_lookup_fmap, Hu.
  - apply lookup_replicate_2. rewrite Hlen. by apply lookup_lt_Some in Hu.
Qed.

(** C12. The settlement transaction spends every given output, in order, each input
    recording the amount it spends; it pays the seller the share that remains
    after the fee, rounded down, and the fee address the rest: nothing is left
    for the miners. *)
Theorem settlement_split `{!BitcoinLibLaws _} utxos stealth seller fee_addr fee network psbt :
  let total := fold_right Z.add 0 (map snd utxos) in
  Forall (fun a => 0 <= a) (map snd utxos) -> 0 <= fee <= 100 -> total * 100 <= u64_max ->
  build_multi_utxo_settlement_psbt utxos stealth seller fee_addr fee network = Some (inr psbt) ->
  exists seller_script fee_script script,
    address_of "seller" seller network = inr seller_script /\
    address_of "fee" fee_addr network = inr fee_script /\
    address_of "stealth" stealth network = inr script /\
    tx_output (psbt_tx psbt) =
      [mk_txout (total * (100 - fee) / 100) seller_script;
       mk_txout (total - total * (100 - fee) / 100) fee_script] /\
    fold_right Z.add 0 (map to_value (tx_output (psbt_tx psbt))) = total /\
    length (tx_input (psbt_tx psbt)) = length utxos /\ length (psbt_inputs psbt) = length utxos /\
    forall i txid_str vout amt, utxos !! i = Some (txid_str, vout, amt) ->
      exists txid, txid_from_str txid_str = Some txid /\
        tx_input (psbt_tx psbt) !! i = Some (mk_txin txid vout) /\
        psbt_inputs psbt !! i = Some (mk_psbt_input (Some (mk_txout amt script)) [] None None).
Proof.
  intros total Hpos Hfee Hmax E.
  apply build_inv in E as (script & ss & fs & tot & x & f & inputs & Hs & Hse & Hf & Hsum & Hsplit & Hin & ->).
  assert (0 <= total) by (subst total; clear -Hpos; induction Hpos; cbn; lia).
  rewrite sum_sats_exact in Hsum by (done || (fold total; lia)). fold total in Hsum. injection Hsum as <-.
  destruct (split_settlement_exact total fee Hfee ltac:(done) Hmax) as [Hx Hle].
  rewrite Hx in Hsplit. injection Hsplit as <- <-.
  destruct (settlement_inputs_lookup _ _ Hin) as [Hlen Hi].
  exists ss, fs, script. cbn [psbt_tx tx_output tx_input psbt_inputs map to_value fold_right].
  rewrite set_witness_utxos_length, length_replicate. do 4 (split; [done|]). split; [lia|].
  split; [done|]. split; [done|]. intros i t v a Hu. destruct (Hi i t v a Hu) as (txid & Ht & Hl).
  exists txid. split; [done|]. split; [done|]. by eapply built_input.
Qed.

(** ** Signatures *)

Definition key_le (a b : bytes * bytes) : Prop := blob_leb (fst a) (fst b) = true.

Lemma sigs_insert_keys pk sig l x :
  x ∈ sigs_insert pk sig l -> x = (pk, sig) \/ x ∈ l.
Proof.
  induction l as [|[k v] t IH]; cbn [sigs_insert]; [set_solver|].
  case_decide; [set_solver|]. destruct (blob_leb pk k); set_solver.
Qed.

(** Inserting keeps the keys in order, and the new signature is found under its key. *)
Lemma sigs_insert_sorted pk sig l :
  StronglySorted key_le l ->
  StronglySorted key_le (sigs_insert pk sig l) /\ (pk, sig) ∈ sigs_insert pk sig l.
Proof.
  induction 1 as [|[k v] t Ht IH Hk]; cbn [sigs_insert]; [split; [by repeat constructor | set_solver]|].
  case_decide as Heq; [subst; split; [by constructor | set_solver]|].
  destruct (blob_leb pk k) eqn:Hle; split; try set_solver.
  - constructor; [by constructor|]. constructor; [done|].
    eapply Forall_impl; [exact Hk|]. intros [k' v'] Hx. by eapply blob_leb_trans.
  - constructor; [apply IH|]. rewrite Forall_forall in *. intros x [->|Hx]%sigs_insert_keys; [|by apply Hk].
    unfold key_le. cbn [fst]. destruct (blob_leb_total pk k); congruence.
Qed.

Lemma sign_stealth_input_spec psbt i sk pk amt psbt' :
  sign_stealth_input psbt i sk pk amt = inr psbt' ->
  exists input utxo h,
    psbt_inputs psbt !! i = Some input /\ pk = pk_from_secret_key sk /\
    pi_witness_utxo input = Some utxo /\ is_p2wpkh (to_script utxo) = true /\
    p2wpkh_signature_hash (psbt_tx psbt) i (to_script utxo) amt = Some h /\
    psbt' = mk_psbt (psbt_tx psbt) (<[i := mk_psbt_input (Some utxo)
      (sigs_insert pk (sig_to_vec (sign_ecdsa h sk)) (pi_partial_sigs input))
      (pi_witness_script input) (pi_final_script_witness input)]> (psbt_inputs psbt)).
Proof.
  unfold sign_stealth_input. destruct (psbt_inputs psbt !! i) as [input|]; [|done].
  destruct (bool_decide_reflect (pk_from_secret_key sk = pk)) as [<-|]; cbn [negb]; [|done].
  destruct (pi_witness_utxo input) as [utxo|] eqn:Eu; [|done].
  destruct (is_p2wpkh (to_script utxo)) eqn:Ep; cbn [negb]; [|done].
  destruct (p2wpkh_signature_hash _ _ _ _) as [h|] eqn:Eh; [|done]. intros [= <-].
  exists input, utxo, h. done.
Qed.

(** The signing loop signs input [i + k] for the [k]-th amount. *)
Lemma sign_inputs_spec psbt i sk pk amounts psbt' :
  sign_inputs psbt i sk pk amounts = inr psbt' ->
  psbt_tx psbt' = psbt_tx psbt /\ length (psbt_inputs psbt') = length (psbt_inputs psbt) /\
  (forall j, (j < i)%nat -> psbt_inputs psbt' !! j = psbt_inputs psbt !! j) /\
  forall k amt, amounts !! k = Some amt -> exists input utxo h,
    psbt_inputs psbt !! (i + k)%nat = Some input /\ pi_witness_utxo input = Some utxo /\
    p2wpkh_signature_hash (psbt_tx psbt) (i + k) (to_script utxo) amt = Some h /\
    psbt_inputs psbt' !! (i + k)%nat = Some (mk_psbt_input (Some utxo)
      (sigs_insert pk (sig_to_vec (sign_ecdsa h sk)) (pi_partial_sigs input))
      (pi_witness_script input) (pi_final_script_witness input)).
Proof.
  revert psbt i. induction amounts as [|a t IH]; intros psbt i; cbn [sign_inputs].
  { intros [= <-]. split_and!; [done..|]. intros k amt Hk. by rewrite lookup_nil in Hk. }
  destruct (sign_stealth_input psbt i sk pk a) as [e|p1] eqn:E1; [done|].
  apply sign_stealth_input_spec in E1 as (input & utxo & h & Hi & Hpk & Hu & _ & Hh & ->).
  intros E. apply IH in E as (Htx & Hlen & Hlow & Hk). cbn [psbt_tx psbt_inputs] in *.
  rewrite length_insert in Hlen. split; [done|]. split; [done|]. split.
  { intros j Hj. rewrite Hlow by lia. apply list_lookup_insert_ne. lia. }
  intros [|k] amt Hl; cbn [lookup list_lookup] in Hl.
  - simplify_eq. exists input, utxo, h. rewrite Nat.add_0_r. split; [done|]. split; [done|]. split; [done|].
    rewrite Hlow by lia. apply list_lookup_insert_eq. by eapply lookup_lt_Some.
  - destruct (Hk k amt Hl) as (input' & utxo' & h' & Hi' & Hu' & Hh' & Hp').
    replace (i + S k)%nat with (S i + k)%nat by lia.
    rewrite list_lookup_insert_ne in Hi' by lia. by exists input', utxo', h'.
Qed.

Lemma finalize_inputs_lookup l l' i input :
  finalize_inputs l = inr l' -> l !! i = Some input ->
  exists input', l' !! i = Some input' /\ finalize_input input = inr input'.
Proof.
  revert l' i. induction l as [|x t IH]; intros l' i; [by rewrite lookup_nil|]. cbn [finalize_inputs].
  destruct (finalize_input x) as [|x'] eqn:Ex; [done|].
  destruct (finalize_inputs t) as [|t'] eqn:Et; [done|]. intros [= <-].
  destruct i as [|i]; cbn [lookup list_lookup]; [intros [= ->]; by exists x'|].
  intros Hi. by apply (IH t' i eq_refl).
Qed.

(** C13. Every input of a settlement that was built, signed and finalised carries the
    witness of a pay-to-witness-key-hash spend: the signature of the
    transaction's own hash for that input and its amount, and the public key of
    the signing key. *)
Theorem settlement_signed `{!BitcoinLibLaws _} utxos stealth seller fee_addr fee network psbt sk psbt' inputs :
  build_multi_utxo_settlement_psbt utxos stealth seller fee_addr fee network = Some (inr psbt) ->
  sign_inputs psbt 0 sk (stealth_public_key sk) (map snd utxos) = inr psbt' ->
  finalize_inputs (psbt_inputs psbt') = inr inputs ->
  psbt_tx psbt' = psbt_tx psbt /\
  exists script, address_of "stealth" stealth network = inr script /\
  forall i txid_str vout amt, utxos !! i = Some (txid_str, vout, amt) -> exists h input,
    p2wpkh_signature_hash (psbt_tx psbt) i script amt = Some h /\
    inputs !! i = Some input /\
    pi_final_script_witness input = Some [sig_to_vec (sign_ecdsa h sk); stealth_public_key sk].
Proof.
  intros Hbuild Hsign Hfin.
  apply build_inv in Hbuild as (script & ss & fs & tot & x & f & ins & Hscript & _ & _ & _ & _ & Hin & ->).
  destruct (settlement_inputs_lookup _ _ Hin) as [Hlen _].
  destruct (sign_inputs_spec _ _ _ _ _ _ Hsign) as (Htx & _ & _ & Hk).
  split; [done|]. exists script. split; [done|]. intros i t v amt Hu.
  pose proof (built_input script utxos ins i t v amt Hlen Hu) as Hi.
  destruct (Hk i amt) as (input & utxo & h & Hi' & Hw & Hh & Hp); [by rewrite list_lookup_fmap, Hu|].
  cbn [Nat.add psbt_inputs] in *. rewrite Hi in Hi'. simplify_eq. cbn [pi_witness_utxo] in Hw. simplify_eq.
  cbn [pi_partial_sigs pi_witness_script pi_final_script_witness to_script sigs_insert] in *.
  destruct (finalize_inputs_lookup _ _ _ _ Hfin Hp) as (input' & Hl & Hf). cbn in Hf. simplify_eq.
  exists h. eexists. split; [done|]. split; [done|]. done.
Qed.

(** ** The address of an order and the key that settles it *)

Lemma stealth_address_key env seed order_id buyer_hex network rpc w w' rpc' addr data :
  run env (create_stealth_address_for_order buyer_hex seed order_id network rpc) w
    = (w', Some (rpc', inr (inr addr))) ->
  buyer_pubkey data = Some buyer_hex ->
  exists buyer_pk owner_sk sk, parse_secp_pubkey buyer_hex = inr buyer_pk /\
    derive_escrow_key seed order_id = inr owner_sk /\
    derive_stealth_private_key buyer_pk owner_sk order_id = inr sk /\
    settlement_key (Some seed) order_id data = inr sk /\
    addr = stealth_p2wpkh_address (stealth_public_key sk) network.
Proof.
  unfold create_stealth_address_for_order, settlement_key. intros Hr Hb.
  destruct (parse_secp_pubkey buyer_hex) as [|buyer_pk] eqn:Epk; [done|].
  destruct (derive_escrow_key seed order_id) as [|owner_sk] eqn:Eo; [done|].
  destruct (derive_stealth_private_key buyer_pk owner_sk order_id) as [|sk] eqn:Es; [done|].
  rewrite run_bind in Hr.
  destruct (run env (import_address_watchonly _ _ rpc) w) as [w1 [[rpc1 [e|[]]]|]]; cbn in Hr; [done| |done].
  exists buyer_pk, owner_sk, sk. rewrite Hb, Epk, Es. by simplify_eq.
Qed.

(** C15. An address the worker made for an order pays the key it later settles that
    order with; the buyer derives the same key from its own secret and the
    owner's public key. *)
Theorem stealth_address_controlled `{!Secp256k1Laws _} env seed order_id buyer_hex network rpc w w' rpc' addr data :
  run env (create_stealth_address_for_order buyer_hex seed order_id network rpc) w
    = (w', Some (rpc', inr (inr addr))) ->
  buyer_pubkey data = Some buyer_hex ->
  exists owner_sk sk, derive_escrow_key seed order_id = inr owner_sk /\
    settlement_key (Some seed) order_id data = inr sk /\
    addr = stealth_p2wpkh_address (stealth_public_key sk) network /\
    forall buyer_sk, parse_secp_pubkey buyer_hex = inr (pk_from_secret_key buyer_sk) ->
      derive_stealth_private_key (order_public_key owner_sk) buyer_sk order_id = inr sk.
Proof.
  intros Hr Hb.
  destruct (stealth_address_key env seed order_id buyer_hex network rpc w w' rpc' addr data Hr Hb)
    as (buyer_pk & owner_sk & sk & Hpk & Ho & Hs & Hk & ->).
  exists owner_sk, sk. split_and!; try done. intros buyer_sk Hbs.
  rewrite Hbs in Hpk. injection Hpk as <-. unfold derive_stealth_private_key, order_public_key in *.
  by rewrite shared_secret_comm.
Qed.

(** A settlement changes nothing of the order but its settlement id. *)
Lemma settle_only_txid env cfg wk order_id data w w' d' :
  run env (settle_stealth_order cfg wk order_id data) w = (w', Some (inr d')) ->
  d' = data \/ exists txid, d' = set_settlement_txid (Some txid) data.
Proof.
  unfold settle_stealth_order, internal. intros E.
  destruct (_ || _); [cbn in E; simplify_eq; by left|].
  destruct (btc_network _) as [|network]; [done|]. cbn [map_err] in E.
  destruct (escrow_address data) as [addr|]; cbn [ok_or] in E; [|done].
  rewrite run_bind in E. destruct (run env (list_unspent _ _) w) as [w1 [[rpc r]|]]; [|done].
  destruct r as [|utxos]; cbn [map_err] in E; [done|].
  destruct (Nat.eqb _ 0); [done|].
  destruct (seller_pubkey data) as [hex|]; cbn [ok_or] in E; [|done].
  destruct (parse_secp_pubkey hex); cbn [map_err] in E; [done|].
  destruct (ec_fee_address_btc cfg); cbn [ok_or] in E; [|done].
  destruct (Nat.eqb _ 0); [done|].
  destruct (build_multi_utxo_settlement_psbt _ _ _ _ _ _) as [[|psbt]|]; cbn [map_err] in E; [done| |done].
  destruct (settlement_key _ _ _); [done|].
  destruct (sign_inputs _ _ _ _ _); cbn [map_err] in E; [done|].
  destruct (finalize_stealth_psbt _); cbn [map_err] in E; [done|].
  rewrite run_bind in E. destruct (run env (broadcast_psbt _ _) w1) as [w2 [[rpc2 r]|]]; [|done].
  destruct r as [|txid]; cbn [snd map_err] in E; [done|]. cbn in E. simplify_eq. right. by exists txid.
Qed.
End escrow.

(** ** Instances and witnesses *)

#[export] Instance secp_inst : Secp256k1 := {|
  sk_from_slice b := if Nat.eqb (length b) 32 then Some b else None;
  pk_from_slice b := if Nat.eqb (length b) 32 then Some b else None;
  pk_from_secret_key := x_public;
  shared_secret pk sk := x_dh sk pk;
  sign_ecdsa h sk := h ++ sk |}.

#[export] Instance secp_inst_laws : Secp256k1Laws secp_inst.
Proof.
  split; cbn [pk_from_slice pk_from_secret_key shared_secret secp_inst].
  - intros sk. by rewrite x_public_length.
  - intros a b. symmetry. apply x_dh_comm.
Qed.

#[export] Instance bitcoin_inst : BitcoinLib := {|
  addr_from_str s := if bool_decide (s = "") then None else Some s;
  addr_script a _ := Some (as_bytes a);
  p2pkh_address pk _ := hex_encode pk;
  p2wpkh_address pk _ := "bc1" +:+ hex_encode pk;
  is_p2wpkh _ := true;
  txid_from_str s := match hex_decode s with inr b => Some b | inl _ => None end;
  psbt_from_unsigned_tx tx := Some (mk_psbt tx (replicate (length (tx_input tx)) blank_input));
  p2wpkh_signature_hash _ i script v := Some (sha256 (le_bytes 8 (Z.of_nat i) ++ le_bytes 8 v ++ script));
  sig_to_vec s := s;
  extract_tx_hex _ := Some "00" |}.

#[export] Instance bitcoin_inst_laws : BitcoinLibLaws bitcoin_inst.
Proof. by split. Qed.

Definition sample_utxos : list (string * Z * Z) := [("0a", 0, 100000000); ("0b", 1, 12345)].
Definition sample_psbt : Psbt :=
  match @build_multi_utxo_settlement_psbt release bitcoin_inst sample_utxos "stealth" "seller" "fee" 4 Bitcoin with
  | Some (inr p) => p
  | _ => mk_psbt (mk_tx [] []) []
  end.

Lemma settlement_split_witness :
  map to_value (tx_output (psbt_tx sample_psbt)) = [96011851; 4000494] /\
  exists seller_script fee_script,
    tx_output (psbt_tx sample_psbt) = [mk_txout 96011851 seller_script; mk_txout 4000494 fee_script].
Proof.
  split; [vm_compute; reflexivity|].
  destruct (@settlement_split release bitcoin_inst bitcoin_inst_laws sample_utxos "stealth" "seller" "fee" 4 Bitcoin
              sample_psbt) as (ss & fs & script & _ & _ & _ & Ho & _).
  - repeat constructor; vm_compute; discriminate.
  - lia.
  - vm_compute. discriminate.
  - vm_compute. reflexivity.
  - exists ss, fs. rewrite Ho. reflexivity.
Defined.

Definition signing_key : bytes := sha256 (as_bytes "stealth").
Definition signed_psbt : Psbt :=
  match sign_inputs sample_psbt 0 signing_key (stealth_public_key signing_key) (map snd sample_utxos) with
  | inr p => p
  | inl _ => sample_psbt
  end.
Definition final_inputs : list PsbtInput :=
  match finalize_inputs (psbt_inputs signed_psbt) with inr l => l | inl _ => [] end.

Lemma settlement_signed_witness :
  exists h input, final_inputs !! 1%nat = Some input /\
    pi_final_script_witness input = Some [sig_to_vec (sign_ecdsa h signing_key); stealth_public_key signing_key].
Proof.
  destruct (@settlement_signed release secp_inst bitcoin_inst bitcoin_inst_laws sample_utxos "stealth" "seller" "fee" 4
              Bitcoin sample_psbt signing_key signed_psbt final_inputs) as (_ & script & _ & Hs).
  - vm_compute. reflexivity.
  - vm_compute. reflexivity.
  - vm_compute. reflexivity.
  - destruct (Hs 1%nat "0b" 1 12345 eq_refl) as (h & input & _ & Hi & Hw). exists h, input.
    split; [exact Hi|exact Hw].
Defined.

Definition escrow_seed : bytes := sha256 (as_bytes "seed").
Definition escrow_buyer : bytes := sha256 (as_bytes "buyer").
Definition escrow_order : OrderData :=
  set_buyer_pubkey (Some (hex_encode (x_public escrow_buyer))) (sample_order "released").

Lemma stealth_address_controlled_witness :
  let r := run core_env (@create_stealth_address_for_order release json_text_inst hashing_inst hex_inst secp_inst
             bitcoin_inst (hex_encode (x_public escrow_buyer)) escrow_seed [] Bitcoin btc_new) empty_world in
  exists addr sk, option_map snd (snd r) = Some (inr (inr addr)) /\
    settlement_key (Some escrow_seed) [] escrow_order = inr sk /\
    addr = stealth_p2wpkh_address (stealth_public_key sk) Bitcoin.
Proof.
  intros r. destruct r as [w' [[rpc' [e|[e|addr]]]|]] eqn:E.
  - exfalso. apply (f_equal (fun p => option_map snd (snd p))) in E. vm_compute in E. discriminate.
  - exfalso. apply (f_equal (fun p => option_map snd (snd p))) in E. vm_compute in E. discriminate.
  - destruct (@stealth_address_controlled release json_text_inst hashing_inst hex_inst secp_inst bitcoin_inst
                secp_inst_laws core_env escrow_seed [] (hex_encode (x_public escrow_buyer)) Bitcoin btc_new
                empty_world w' rpc' addr escrow_order E eq_refl) as (osk & sk & _ & Hk & Ha & _).
    exists addr, sk. split; [reflexivity|]. split; [exact Hk|exact Ha].
  - exfalso. apply (f_equal (fun p => option_map snd (snd p))) in E. vm_compute in E. discriminate.
Defined.

(** Above 100 percent the release build wraps and pays the seller more than the
    inputs hold. *)
Example fee_above_100_wraps :
  @split_settlement release 1000 101 = Some (184467440737095506, 18262276632972457110) /\
  @split_settlement dev 1000 101 = None.
Proof. split; vm_compute; reflexivity. Qed.
