(* ===== verification/KeyStorage.v ===== *)
(** Keys at rest and wallet signatures: [KeyEncryptionKey] and [ContentKey] of
    src/crypto/zk.rs, the encrypted owner keys and master seed of
    src/crypto/escrow.rs, [WalletVerifier] of src/crypto/wallet.rs.

    Random keys and nonces are arguments; PBKDF2, the JSON text of an
    [EncryptedBlob] and the ECDSA of [k256] are parameters. *)
From S2P Require Import Prelude Interfaces Instances Models Effects Auth Blobs Rpc Escrow.

(** ** The crates *)

(** [serde_json::to_vec] and [from_slice] at [EncryptedBlob]. *)
Class BlobJson := {
  blob_to_vec : EncryptedBlob -> string + bytes;
  blob_from_slice : bytes -> string + EncryptedBlob
}.

Class BlobJsonLaws (J : BlobJson) := {
  blob_json_roundtrip : forall b, length (eb_nonce b) = 12%nat -> 0 <= eb_version b < 256 ->
    exists j, blob_to_vec b = inr j /\ blob_from_slice j = inr b
}.

(** [pbkdf2_hmac::<Sha256>(password, salt, rounds, &mut [u8; 32])] *)
Class Pbkdf2 := pbkdf2_sha256 : bytes -> bytes -> Z -> bytes.
Class Pbkdf2Laws (P : Pbkdf2) := pbkdf2_length : forall p s n, length (pbkdf2_sha256 p s n) = 32%nat.

(** [k256::ecdsa] *)
Class K256 := {
  k256_key : Type;
  from_sec1_bytes : bytes -> option k256_key;
  k256_sig_from_slice : bytes -> option bytes;
  k256_verify : k256_key -> bytes -> bytes -> bool
}.

(** ** Key encryption keys and content keys *)

Record KeyEncryptionKey := mk_kek { kek_key : bytes }.
Record ContentKey := mk_content_key { ck_key : bytes }.

Section keys.
Context `{Hashing} `{Hex} `{Aead} `{BlobJson} `{Pbkdf2} `{Secp256k1}.

Definition kek_new (random : bytes) : KeyEncryptionKey := mk_kek random.
Definition kek_from_bytes (b : bytes) : KeyEncryptionKey := mk_kek b.
Definition kek_from_password (password : string) (salt : bytes) : KeyEncryptionKey :=
  mk_kek (pbkdf2_sha256 (as_bytes password) salt 600000).

Definition content_key_new (random : bytes) : ContentKey := mk_content_key random.
Definition content_key_from_bytes (b : bytes) : ContentKey := mk_content_key b.

Definition hash_pubkey_for_id (pubkey : bytes) : bytes := blake3 pubkey.

(** The [Display] of a [CryptoError]. *)
Definition crypto_error (e : CryptoError) : string :=
  match e with
  | InvalidKeySize => "Invalid key size"
  | EncryptionFailed => "Encryption failed"
  | DecryptionFailed => "Decryption failed"
  end.

(** ** Keys under the key encryption key *)

Definition generate_master_seed (random : bytes) : bytes := random.

Definition encrypt_owner_key (nonce sk : bytes) (kek : KeyEncryptionKey) : string + bytes :=
  match eb_encrypt nonce sk (kek_key kek) with
  | inl e => inl (crypto_error e)
  | inr blob => map_err (fun e => "Serialize failed: " +:+ e) (blob_to_vec blob)
  end.

Definition decrypt_owner_key (encrypted : bytes) (kek : KeyEncryptionKey) : string + bytes :=
  match blob_from_slice encrypted with
  | inl e => inl ("Deserialize failed: " +:+ e)
  | inr blob =>
      match eb_decrypt blob (kek_key kek) with
      | inl e => inl (crypto_error e)
      | inr plaintext => ok_or (sk_from_slice plaintext) "Invalid key"
      end
  end.

Definition encrypt_master_seed (nonce seed : bytes) (kek : KeyEncryptionKey) : string + string :=
  match eb_encrypt nonce seed (kek_key kek) with
  | inl e => inl ("Master seed encrypt failed: " +:+ crypto_error e)
  | inr blob =>
      match blob_to_vec blob with
      | inl e => inl ("Serialize failed: " +:+ e)
      | inr json => inr (hex_encode json)
      end
  end.

Definition decrypt_master_seed (hex_str : string) (kek : KeyEncryptionKey) : string + bytes :=
  match hex_decode hex_str with
  | inl e => inl ("Master seed hex decode failed: " +:+ e)
  | inr data =>
      match blob_from_slice data with
      | inl e => inl ("Deserialize master seed failed: " +:+ e)
      | inr blob =>
          match eb_decrypt blob (kek_key kek) with
          | inl e => inl (crypto_error e)
          | inr plaintext =>
              if negb (Nat.eqb (length plaintext) 32) then inl "Master seed wrong length"
              else inr plaintext
          end
      end
  end.

(** ** What is stored is read back *)

Context `{!AeadLaws _} `{!BlobJsonLaws _}.

(** The JSON of a blob opens to the plaintext with the same key. *)
Lemma stored_blob_opens nonce p kek blob j :
  length nonce = 12%nat -> eb_encrypt nonce p kek = inr blob -> blob_to_vec blob = inr j ->
  blob_from_slice j = inr blob /\ eb_decrypt blob kek = inr p.
Proof.
  intros Hn E Ej. unfold eb_encrypt in E. destruct (aead_encrypt kek nonce p) as [c|] eqn:Ec; [|done].
  simplify_eq. destruct (blob_json_roundtrip (mk_encrypted_blob c nonce 2)) as (j' & Ej' & Hj); [done|cbn; lia|].
  rewrite Ej in Ej'. simplify_eq. split; [done|]. unfold eb_decrypt. cbn. by rewrite (aead_roundtrip _ _ _ _ Ec).
Qed.

Lemma owner_key_roundtrip nonce sk kek enc :
  length nonce = 12%nat -> sk_from_slice sk = Some sk ->
  encrypt_owner_key nonce sk kek = inr enc -> decrypt_owner_key enc kek = inr sk.
Proof.
  unfold encrypt_owner_key, decrypt_owner_key. intros Hn Hsk E.
  destruct (eb_encrypt nonce sk (kek_key kek)) as [|blob] eqn:Eb; [done|].
  destruct (blob_to_vec blob) as [|j] eqn:Ej; [done|]. simplify_eq/=.
  destruct (stored_blob_opens _ _ _ _ _ Hn Eb Ej) as [-> ->]. by rewrite Hsk.
Qed.

Lemma master_seed_reads_back `{!HexLaws _} nonce seed kek s :
  length nonce = 12%nat -> length seed = 32%nat ->
  encrypt_master_seed nonce seed kek = inr s -> decrypt_master_seed s kek = inr seed.
Proof.
  unfold encrypt_master_seed, decrypt_master_seed. intros Hn Hl E.
  destruct (eb_encrypt nonce seed (kek_key kek)) as [|blob] eqn:Eb; [done|].
  destruct (blob_to_vec blob) as [|j] eqn:Ej; [done|]. simplify_eq. rewrite hex_roundtrip.
  destruct (stored_blob_opens _ _ _ _ _ Hn Eb Ej) as [-> ->]. by rewrite Hl.
Qed.

(** Whatever the stored text, a seed that comes out has 32 bytes. *)
Lemma decrypt_master_seed_length s kek seed :
  decrypt_master_seed s kek = inr seed -> length seed = 32%nat.
Proof.
  unfold decrypt_master_seed. intros E. repeat case_match; simplify_eq.
  match goal with X : negb _ = false |- _ => apply negb_false_iff, Nat.eqb_eq in X end. done.
Qed.
End keys.

(** ** Wallet signatures *)

Inductive WalletAlgorithm := WalletEd25519 | WalletSecp256k1.

Section wallet.
Context `{Ed25519} `{K256}.

Definition generate_challenge (random : bytes) : bytes := random.

Definition verify_ed25519 (pubkey message signature : bytes) : string + unit :=
  if negb (Nat.eqb (length pubkey) 32) then inl "Invalid pubkey length"
  else match vk_from_bytes pubkey with
  | None => inl "Invalid public key"
  | Some verifying_key =>
  match sig_from_slice signature with
  | None => inl "Invalid signature"
  | Some sig => if ed_verify verifying_key message sig then inr tt else inl "Signature verification failed"
  end end.

Definition verify_secp256k1 (pubkey message signature : bytes) : string + unit :=
  match from_sec1_bytes pubkey with
  | None => inl "Invalid public key"
  | Some verifying_key =>
  match k256_sig_from_slice signature with
  | None => inl "Invalid signature"
  | Some sig => if k256_verify verifying_key message sig then inr tt else inl "Signature verification failed"
  end end.

Definition wallet_verify (algorithm : WalletAlgorithm) (pubkey message signature : bytes) : string + unit :=
  match algorithm with
  | WalletEd25519 => verify_ed25519 pubkey message signature
  | WalletSecp256k1 => verify_secp256k1 pubkey message signature
  end.

Definition wallet_constant_time_compare (a b : bytes) : bool :=
  if negb (Nat.eqb (length a) (length b)) then false else bool_decide (a = b).

(** A wallet's own signature is accepted. *)
Lemma wallet_own_signature `{!Ed25519Laws _} sk message :
  wallet_verify WalletEd25519 (ed_public sk) message (ed_sign sk message) = inr tt.
Proof.
  cbn [wallet_verify]. unfold verify_ed25519. rewrite ed_public_length. cbn [Nat.eqb negb].
  destruct (ed_sign_verify sk) as (k & -> & Hv).
  rewrite sig_from_slice_64 by apply ed_sign_length. by rewrite Hv.
Qed.

Lemma wallet_compare a b : wallet_constant_time_compare a b = constant_time_compare a b.
Proof.
  unfold wallet_constant_time_compare, constant_time_compare. done.
Qed.
End wallet.

(** ** Instances *)

#[export] Instance blob_json_inst : BlobJson := {|
  blob_to_vec b := inr (byte_of_Z (eb_version b) :: eb_nonce b ++ eb_ciphertext b);
  blob_from_slice j :=
    match j with
    | [] => inl "EOF"
    | v :: rest => inr (mk_encrypted_blob (drop 12 rest) (take 12 rest) (byte_val v))
    end |}.

#[export] Instance blob_json_inst_laws : BlobJsonLaws blob_json_inst.
Proof.
  split. intros [c n v] Hn Hv. cbn in *. eexists. split; [done|]. cbn.
  rewrite byte_val_of_Z, Z.mod_small by done. rewrite <-Hn, take_app_length, drop_app_length. done.
Qed.

#[export] Instance pbkdf2_inst : Pbkdf2 := fun p s n => sha256 (p ++ s).
#[export] Instance pbkdf2_inst_laws : Pbkdf2Laws pbkdf2_inst.
Proof. intros p s n. apply sha256_length. Qed.
