(* ===== verification/AppConfig.v ===== *)
(** The configuration, src/config.rs: its sections with their defaults, loading
    from a TOML file, the environment overrides and saving.

    A machine is what a starting process sees: its environment variables, the
    files both processes share, and which paths the operating system refuses.
    The TOML crate is a parameter. *)
From Stdlib Require Import Floats.SpecFloat.
From S2P Require Import Prelude Interfaces Instances Models Effects Auth Rpc XmrClient BtcClient.

(** ** The machine *)

Record Machine := mk_machine {
  m_env : gmap string string;
  m_files : gmap string string;
  (** an operation on this path fails *)
  m_refused : string -> bool }.

(** [std::env::var(k)] of a variable that is set and UTF-8. *)
Definition env_var (m : Machine) (k : string) : option string := m_env m !! k.

Definition read_to_string (m : Machine) (path : string) : string + string :=
  if m_refused m path then inl "Permission denied"
  else ok_or (m_files m !! path) "No such file or directory".

(** [std::fs::write]: a path is either refused or written in full; a disk that fills up
    in the middle of a write is not modelled here (it is in Effects.v). *)
Definition write_file (m : Machine) (path contents : string) : Machine * (string + unit) :=
  if m_refused m path then (m, inl "Permission denied")
  else (mk_machine (m_env m) (<[path := contents]> (m_files m)) (m_refused m), inr tt).

Definition create_dir_all (m : Machine) (dir : string) : string + unit :=
  if m_refused m dir then inl "Permission denied" else inr tt.

(** [path.exists()]: an error is [false]. *)
Definition file_exists (m : Machine) (path : string) : bool :=
  negb (m_refused m path) && bool_decide (is_Some (m_files m !! path)).

(** [dir.join(name)] for a relative name. *)
Definition path_join (dir name : string) : string :=
  if bool_decide (dir = "") then name else dir +:+ "/" +:+ name.

(** ** The sections *)

Inductive DatabaseConfig :=
| Sqlite (path : string)
| Postgres (url : string).

Record ServerConfig := mk_server_config {
  listen_addr : string; data_dir : string; server_secret : string;
  rate_limit_per_minute : Z; default_lock_days : Z }.

Record TorConfig := mk_tor_config {
  tor_enabled : bool; service_dir : string; tor_port : Z; onion_address : option string;
  socks5_addr : string; socks5_pool_size : nat }.

Record MoneroConfig := mk_monero_config {
  wallet_rpc_url : string; wallet_rpc_user : option string; wallet_rpc_password : option string;
  xmr_confirmations_required : Z }.

Record BitcoinConfig := mk_bitcoin_config {
  rpc_url : string; rpc_user : option string; rpc_password : option string;
  btc_confirmations_required : Z; wallet_name : string; address_type : string; network : string }.

Record SecurityConfig := mk_security_config {
  max_order_value_xmr : spec_float; max_order_value_btc : spec_float; kek_rotation_days : Z;
  kek_hex : option string; kek_version : Z; last_kek_rotation : option Z; btc_min_payment_sats : Z;
  master_seed_hex : option string; worker_key_hex : option string; admin_privkey_hex : option string;
  admin_pubkey_hex : option string; worker_payment_pubkey_hex : option string }.

Record EscrowConfig := mk_escrow_section {
  fee_percent : Z; fee_address_btc : option string; fee_address_xmr : option string }.

Record Config := mk_config {
  database : DatabaseConfig; server : ServerConfig; tor : TorConfig; monero : MoneroConfig;
  bitcoin : BitcoinConfig; security : SecurityConfig; escrow : EscrowConfig }.

(** ** Defaults *)

Definition database_default : DatabaseConfig := Sqlite "data/marketplace.db".
Definition server_default : ServerConfig := mk_server_config "127.0.0.1:9080" "data" "" 30 7.
Definition default_socks5_addr : string := "127.0.0.1:9050".
Definition default_socks5_pool_size : nat := 8.
Definition tor_default : TorConfig :=
  mk_tor_config true "data/tor" 80 None default_socks5_addr default_socks5_pool_size.
Definition monero_default : MoneroConfig :=
  mk_monero_config "http://127.0.0.1:18089/json_rpc" None None 10.
Definition default_btc_network : string := "mainnet".
Definition bitcoin_default : BitcoinConfig :=
  mk_bitcoin_config "http://127.0.0.1:8332" None None 6 "tor-marketplace" "p2sh-segwit" default_btc_network.
Definition security_default : SecurityConfig :=
  mk_security_config (f64_of_Z 100) (f64_of_Z 1) 30 None 1 None 546 None None None None None.
Definition escrow_default : EscrowConfig := mk_escrow_section 4 None None.
Definition config_default : Config :=
  mk_config database_default server_default tor_default monero_default bitcoin_default
    security_default escrow_default.

(** ** Environment overrides *)

Definition set_listen_addr (v : string) (c : Config) : Config :=
  mk_config (database c)
    (mk_server_config v (data_dir (server c)) (server_secret (server c))
       (rate_limit_per_minute (server c)) (default_lock_days (server c)))
    (tor c) (monero c) (bitcoin c) (security c) (escrow c).
Definition set_server_secret (v : string) (c : Config) : Config :=
  mk_config (database c)
    (mk_server_config (listen_addr (server c)) (data_dir (server c)) v
       (rate_limit_per_minute (server c)) (default_lock_days (server c)))
    (tor c) (monero c) (bitcoin c) (security c) (escrow c).
Definition set_database (d : DatabaseConfig) (c : Config) : Config :=
  mk_config d (server c) (tor c) (monero c) (bitcoin c) (security c) (escrow c).
Definition set_wallet_rpc_url (v : string) (c : Config) : Config :=
  mk_config (database c) (server c) (tor c)
    (mk_monero_config v (wallet_rpc_user (monero c)) (wallet_rpc_password (monero c))
       (xmr_confirmations_required (monero c)))
    (bitcoin c) (security c) (escrow c).
Definition set_rpc_url (v : string) (c : Config) : Config :=
  mk_config (database c) (server c) (tor c) (monero c)
    (mk_bitcoin_config v (rpc_user (bitcoin c)) (rpc_password (bitcoin c))
       (btc_confirmations_required (bitcoin c)) (wallet_name (bitcoin c)) (address_type (bitcoin c))
       (network (bitcoin c)))
    (security c) (escrow c).

(** [if let Ok(v) = std::env::var(k) { .. }] *)
Definition override (m : Machine) (k : string) (set : string -> Config -> Config) (c : Config) : Config :=
  match env_var m k with Some v => set v c | None => c end.

Definition apply_env_overrides (m : Machine) (c : Config) : Config :=
  let c := override m "LISTEN_ADDR" set_listen_addr c in
  let c := override m "DB_PATH" (fun v => set_database (Sqlite v)) c in
  let c := override m "DATABASE_URL" (fun v => set_database (Postgres v)) c in
  let c := override m "MONERO_RPC_URL" set_wallet_rpc_url c in
  let c := override m "BITCOIN_RPC_URL" set_rpc_url c in
  override m "SERVER_SECRET" set_server_secret c.

(** ** Loading and saving *)

Class Toml := {
  toml_from_str : string -> string + Config;
  toml_to_string_pretty : Config -> string + string
}.

Class TomlLaws (T : Toml) := {
  toml_roundtrip : forall c s, toml_to_string_pretty c = inr s -> toml_from_str s = inr c
}.

Definition config_path (m : Machine) : string := default "config.toml" (env_var m "CONFIG_PATH").

Definition db_path (c : Config) : option string :=
  match database c with Sqlite path => Some path | Postgres _ => None end.
Definition db_url (c : Config) : option string :=
  match database c with Sqlite _ => None | Postgres url => Some url end.

Section load.
Context `{Toml}.

Definition load (m : Machine) : string + Config :=
  if file_exists m (config_path m) then
    match read_to_string m (config_path m) with
    | inl e => inl e
    | inr data =>
        match toml_from_str data with
        | inl e => inl e
        | inr config => inr (apply_env_overrides m config)
        end
    end
  else inr config_default.

Definition save (m : Machine) (c : Config) : Machine * (string + unit) :=
  match toml_to_string_pretty c with
  | inl e => (m, inl ("Failed to serialize config: " +:+ e))
  | inr toml_string =>
      let '(m, r) := write_file m (config_path m) toml_string in
      (m, map_err (fun e => "Failed to write config file: " +:+ e) r)
  end.

(** ** What the overrides do *)

(** Each overridable field is the variable when it is set and the file's
    otherwise; [DATABASE_URL] wins over [DB_PATH], and nothing else changes. *)
Lemma overrides_fields m c :
  let c' := apply_env_overrides m c in
  listen_addr (server c') = default (listen_addr (server c)) (env_var m "LISTEN_ADDR") /\
  server_secret (server c') = default (server_secret (server c)) (env_var m "SERVER_SECRET") /\
  wallet_rpc_url (monero c') = default (wallet_rpc_url (monero c)) (env_var m "MONERO_RPC_URL") /\
  rpc_url (bitcoin c') = default (rpc_url (bitcoin c)) (env_var m "BITCOIN_RPC_URL") /\
  database c' = match env_var m "DATABASE_URL" with
                | Some url => Postgres url
                | None => match env_var m "DB_PATH" with Some p => Sqlite p | None => database c end
                end /\
  data_dir (server c') = data_dir (server c) /\ tor c' = tor c /\ security c' = security c /\
  escrow c' = escrow c /\ network (bitcoin c') = network (bitcoin c).
Proof.
  destruct c as [d [] t [] [] s e]. unfold apply_env_overrides, override.
  destruct (env_var m "LISTEN_ADDR"), (env_var m "DB_PATH"), (env_var m "DATABASE_URL"),
    (env_var m "MONERO_RPC_URL"), (env_var m "BITCOIN_RPC_URL"), (env_var m "SERVER_SECRET");
    cbn; by split_and!.
Qed.

Lemma overrides_idempotent m c : apply_env_overrides m (apply_env_overrides m c) = apply_env_overrides m c.
Proof.
  destruct c as [d [] t [] [] s e]. unfold apply_env_overrides, override.
  destruct (env_var m "LISTEN_ADDR"), (env_var m "DB_PATH"), (env_var m "DATABASE_URL"),
    (env_var m "MONERO_RPC_URL"), (env_var m "BITCOIN_RPC_URL"), (env_var m "SERVER_SECRET"); done.
Qed.

Lemma load_missing m : file_exists m (config_path m) = false -> load m = inr config_default.
Proof. unfold load. by intros ->. Qed.

(** C36. A configuration that was saved is what the next start loads, under the
    overrides of its environment; saving a loaded one therefore makes the
    overrides permanent and loading it again changes nothing. *)
Theorem config_saved_loads `{!TomlLaws _} m m' c :
  save m c = (m', inr tt) ->
  load m' = inr (apply_env_overrides m c) /\
  (forall c0, c = apply_env_overrides m c0 -> load m' = inr c) /\
  forall p, p <> config_path m -> m_files m' !! p = m_files m !! p.
Proof.
  unfold save, write_file. intros E. destruct (toml_to_string_pretty c) as [|s] eqn:Es; [done|].
  destruct (m_refused m (config_path m)) eqn:Er; simplify_eq/=.
  assert (load (mk_machine (m_env m) (<[config_path m := s]> (m_files m)) (m_refused m))
          = inr (apply_env_overrides m c)) as Hl.
  { unfold load, file_exists, read_to_string.
    change (config_path (mk_machine _ _ _)) with (config_path m). cbn [m_refused m_files].
    rewrite Er, lookup_insert_eq. cbn [negb andb ok_or].
    rewrite bool_decide_eq_true_2 by eauto. by rewrite (toml_roundtrip _ _ Es). }
  split; [done|]. split.
  - intros c0 Hc. rewrite Hl. by rewrite Hc, overrides_idempotent.
  - intros p Hp. by rewrite lookup_insert_ne.
Qed.
End load.

(** ** Instances: a crate that knows one file *)

#[global] Instance spec_float_eq_dec : EqDecision spec_float.
Proof. solve_decision. Defined.
#[global] Instance database_eq_dec : EqDecision DatabaseConfig.
Proof. solve_decision. Defined.
#[global] Instance server_eq_dec : EqDecision ServerConfig.
Proof. solve_decision. Defined.
#[global] Instance tor_eq_dec : EqDecision TorConfig.
Proof. solve_decision. Defined.
#[global] Instance monero_eq_dec : EqDecision MoneroConfig.
Proof. solve_decision. Defined.
#[global] Instance bitcoin_eq_dec : EqDecision BitcoinConfig.
Proof. solve_decision. Defined.
#[global] Instance security_eq_dec : EqDecision SecurityConfig.
Proof. solve_decision. Defined.
#[global] Instance escrow_section_eq_dec : EqDecision EscrowConfig.
Proof. solve_decision. Defined.
#[global] Instance config_eq_dec : EqDecision Config.
Proof. solve_decision. Defined.

Definition toml_of (known : Config) : Toml := {|
  toml_from_str s := if bool_decide (s = "config") then inr known else inl "expected a table";
  toml_to_string_pretty c := if bool_decide (c = known) then inr "config" else inl "unsupported" |}.

Lemma toml_of_laws c : TomlLaws (toml_of c).
Proof.
  split. intros c' s. cbn [toml_to_string_pretty toml_from_str toml_of]. case_bool_decide; [|done].
  intros [= <-]. by rewrite bool_decide_eq_true_2 by done; subst.
Qed.

(** ** Witness *)

Definition sample_secret : string := "0123456789abcdef0123456789abcdef".
Definition sample_machine : Machine :=
  mk_machine (<["SERVER_SECRET" := sample_secret]> (<["LISTEN_ADDR" := "127.0.0.1:9000"]> ∅)) ∅ (fun _ => false).

Lemma config_saved_loads_witness :
  exists m', save (H := toml_of config_default) sample_machine config_default = (m', inr tt) /\
    load (H := toml_of config_default) m' = inr (apply_env_overrides sample_machine config_default) /\
    server_secret (server (apply_env_overrides sample_machine config_default)) = sample_secret.
Proof.
  eexists. split; [reflexivity|]. split; [|reflexivity].
  apply (@config_saved_loads (toml_of config_default) (toml_of_laws config_default) sample_machine _ config_default eq_refl).
Defined.
