(* ===== verification/NodeClients.v ===== *)
(** The clients of the two nodes as the worker holds them: the credentials they
    send (services/payments/xmr.rs, btc.rs) and their creation on first use
    (background/payment_poller.rs).

    The state keeps each client in a slot behind a mutex.  A clone shares the
    fields of the client in the slot, so the client is its state; the job gets
    the clients as an argument (Poller.v) and this file says which those are. *)
From S2P Require Import Prelude Interfaces Instances Models Effects Rpc XmrClient BtcClient AppConfig Tor.

Section credentials.
Context `{Base64}.

(** [format!("Basic {}", base64(user:password))], with both of them set. *)
Definition basic_auth (user pass : string) : string := "Basic " +:+ b64_encode (as_bytes (user +:+ ":" +:+ pass)).

Definition xmr_auth_header (config : MoneroConfig) : option string :=
  match wallet_rpc_user config, wallet_rpc_password config with
  | Some user, Some pass => Some (basic_auth user pass)
  | _, _ => None
  end.

Definition btc_auth_header (config : BitcoinConfig) : option string :=
  match rpc_user config, rpc_password config with
  | Some user, Some pass => Some (basic_auth user pass)
  | _, _ => None
  end.

(** The node reads back user and password, unless the user has a colon. *)
Lemma basic_auth_inj `{!Base64Laws _} user pass user' pass' :
  byte_of_Z 58 ∉ as_bytes user -> byte_of_Z 58 ∉ as_bytes user' ->
  basic_auth user pass = basic_auth user' pass' -> user = user' /\ pass = pass'.
Proof.
  unfold basic_auth. intros Hu Hu' E. apply (f_equal as_bytes) in E. rewrite !as_bytes_app in E.
  apply app_inv_head, as_bytes_inj, (f_equal b64_decode) in E. rewrite !b64_roundtrip in E. apply (inj inr) in E.
  change (as_bytes ":") with [byte_of_Z 58] in E. cbn [app] in E.
  apply sep_inj in E as [E1 E2]; [|done..]. by apply as_bytes_inj in E1, E2.
Qed.
End credentials.

Section clients.
Context `{JsonText} `{BuildProfile} `{Hashing} `{Reqwest}.

(** The fields [xmr_client] and [btc_client] of the state. *)
Record NodeClients := mk_node_clients {
  nc_xmr : option MoneroViewOnlyClient; nc_btc : option BitcoinClient }.

Definition no_clients : NodeClients := mk_node_clients None None.

(** [None] is the panic of a pool without slots. *)
Definition get_or_init_xmr_client (pool : Socks5Pool) (st : NodeClients) : option (NodeClients * MoneroViewOnlyClient) :=
  match nc_xmr st with
  | Some client => Some (st, client)
  | None =>
      _ ← get_client pool (as_bytes "xmr-payment-worker");
      Some (mk_node_clients (Some xmr_new) (nc_btc st), xmr_new)
  end.

Definition get_or_init_btc_client (pool : Socks5Pool) (st : NodeClients) : option (NodeClients * BitcoinClient) :=
  match nc_btc st with
  | Some client => Some (st, client)
  | None =>
      _ ← get_client pool (as_bytes "btc-payment-worker");
      Some (mk_node_clients (nc_xmr st) (Some btc_new), btc_new)
  end.

(** The subaddress of an order, from the shared client. *)
Definition create_escrow_address (pool : Socks5Pool) (st : NodeClients) (order_id : string)
    : prog (NodeClients * (string + string)) :=
  match get_or_init_xmr_client pool st with
  | None => Panic
  | Some (st, client) =>
      do p := create_subaddress order_id client in
      Ret (mk_node_clients (Some (fst p)) (nc_btc st), snd p)
  end.

(** A pool with slots serves the first use; later uses get the same client. *)
Lemma get_or_init_ready pool st :
  (0 < pool_size pool)%nat ->
  exists st1 st2, get_or_init_xmr_client pool st = Some (st1, default xmr_new (nc_xmr st)) /\
    get_or_init_btc_client pool st1 = Some (st2, default btc_new (nc_btc st)) /\
    nc_xmr st2 = Some (default xmr_new (nc_xmr st)) /\ nc_btc st2 = Some (default btc_new (nc_btc st)).
Proof.
  intros Hp. assert (forall key, exists c, get_client pool key = Some c) as Hc.
  { intros key. unfold get_client. destruct (lookup_lt_is_Some_2 (slots pool) (slot_index pool key)) as [s ->];
      [by apply slot_index_range|by eexists]. }
  unfold get_or_init_xmr_client, get_or_init_btc_client. destruct st as [[x|] [b|]]; cbn [nc_xmr nc_btc].
  - by do 2 eexists.
  - destruct (Hc (as_bytes "btc-payment-worker")) as [c ->]. by do 2 eexists.
  - destruct (Hc (as_bytes "xmr-payment-worker")) as [c ->]. by do 2 eexists.
  - destruct (Hc (as_bytes "xmr-payment-worker")) as [c ->], (Hc (as_bytes "btc-payment-worker")) as [c' ->].
    by do 2 eexists.
Qed.
End clients.
