(* ===== verification/Startup.v ===== *)
(** Starting the two processes: src/main.rs, src/bin/worker.rs, the state built
    by src/gateway/mod.rs, [assert_worker_state] of src/worker/mod.rs, the
    publication of the worker's payment key (src/crypto/worker_pubkey.rs,
    src/services/public.rs).

    A start is a program in a state and error monad over the machine and the
    database; [None] is a panic.  Waiting for Tor's hostname and serving
    requests change neither and are left out. *)
From S2P Require Import Prelude Interfaces Instances Models Effects Amounts Texts BlindSig Admin Auth RateLimit Blobs Rpc XmrClient BtcClient Escrow KeyStorage AppConfig Tor Sql SqlCheck Migrations.

(** ** The monad of a start *)

Definition start (A : Type) : Type := Machine * state -> (Machine * state) * option (string + A).

#[global] Instance start_ret : MRet start := fun A a s => (s, Some (inr a)).
#[global] Instance start_bind : MBind start := fun A B f m s =>
  match m s with
  | (s', Some (inr a)) => f a s'
  | (s', Some (inl e)) => (s', Some (inl e))
  | (s', None) => (s', None)
  end.

Definition pure {A} (r : string + A) : start A := fun s => (s, Some r).
Definition fail {A} (e : string) : start A := pure (inl e).
Definition panic {A} : start A := fun s => (s, None).
Definition machine : start Machine := fun s => (s, Some (inr (fst s))).
(** An operation on the machine, its error passed on or dropped. *)
Definition on_machine (f : Machine -> Machine * (string + unit)) : start unit := fun s =>
  let '(m, r) := f (fst s) in ((m, snd s), Some r).
Definition on_machine_logged (f : Machine -> Machine * (string + unit)) : start unit := fun s =>
  ((fst (f (fst s)), snd s), Some (inr tt)).
Definition on_database (f : state -> (db_error + unit) * state) : start unit := fun s =>
  let '(r, d) := f (snd s) in
  ((fst s, d), Some (match r with inl _ => inl "database error" | inr _ => inr tt end)).
(** [if bad { return Err(anyhow!(msg)) }] *)
Definition refuse (bad : bool) (msg : string) : start unit := if bad then fail msg else mret tt.

(** ** Reading a successful start backwards *)

Lemma bind_ok {A B} (p : start A) (f : A -> start B) s s' b :
  (p ≫= f) s = (s', Some (inr b)) -> exists s1 a, p s = (s1, Some (inr a)) /\ f a s1 = (s', Some (inr b)).
Proof.
  unfold mbind, start_bind. destruct (p s) as [s1 [[e|a]|]] eqn:E; intros E'; [done| |done]. by exists s1, a.
Qed.

Lemma pure_ok {A} (r : string + A) s s' a : pure r s = (s', Some (inr a)) -> s' = s /\ r = inr a.
Proof. unfold pure. by intros [= <- ->]. Qed.

Lemma refuse_ok bad msg s s' u : refuse bad msg s = (s', Some (inr u)) -> s' = s /\ bad = false.
Proof. unfold refuse. destruct bad; [done|]. by intros [= <- _]. Qed.

Lemma machine_ok s s' m : machine s = (s', Some (inr m)) -> s' = s /\ m = fst s.
Proof. unfold machine. by intros [= <- <-]. Qed.

Ltac start_inv E :=
  repeat match type of E with
  | (_ ≫= _) _ = (_, Some (inr _)) =>
      let s := fresh "s" in let a := fresh "x" in let E1 := fresh "E" in
      apply bind_ok in E as (s & a & E1 & E);
      first [ apply machine_ok in E1 as [-> ->] | apply pure_ok in E1 as [-> E1]
            | apply refuse_ok in E1 as [-> E1] | idtac ]
  end.

(** ** The state of a process *)

Inductive process := ApiProcess | WorkerProcess.

(** The broadcast channel is named by the process that made it. *)
Record AppState `{Reqwest} := mk_app_state {
  as_config : Config; as_rate_limiter : RateLimiter; as_kek : KeyEncryptionKey;
  as_worker_key : option bytes; as_admin_keypair : option AdminKeypair;
  as_socks_pool : Socks5Pool; as_payment_tx : process }.

(** What else decides a start. *)
Record Outside := mk_outside {
  os_host : host;                                  (** around the migrations *)
  os_connect : string -> string + unit;            (** [SqlitePool::connect] *)
  os_spawn : string -> string + unit;              (** the [tor -f] process *)
  os_random : bytes;                               (** 32 random bytes *)
  os_rsa_new : Z -> option RsaPrivateKey }.        (** the RSA key generator *)

Definition env_is (m : Machine) (k v : string) : bool := bool_decide (env_var m k = Some v).

(** ** The payment key file *)

Definition DEV_PUBKEY_FILENAME : string := "dev_worker_payment_pubkey.hex".
Definition dev_pubkey_path (dir : string) : string := path_join dir DEV_PUBKEY_FILENAME.

Definition write_dev_pubkey_file (dir pubkey_hex : string) (m : Machine) : Machine * (string + unit) :=
  match create_dir_all m dir with
  | inl e => (m, inl e)
  | inr _ => write_file m (dev_pubkey_path dir) (trim_text pubkey_hex)
  end.

Definition read_dev_pubkey_file (dir : string) (m : Machine) : option string :=
  match read_to_string m (dev_pubkey_path dir) with
  | inl _ => None
  | inr contents =>
      let trimmed := trim_text contents in
      if Nat.eqb (String.length trimmed) 64 && forallb is_ascii_hexdigit (str_of trimmed)
      then Some (to_lowercase trimmed) else None
  end.

Definition non_blank (o : option string) : option string :=
  v ← o; let t := trim_text v in if bool_decide (t = "") then None else Some t.

Definition resolve_worker_payment_pubkey (dir : string) (config_hex : option string) (m : Machine)
    : option string :=
  match non_blank (env_var m "WORKER_PAYMENT_PUBKEY_HEX") with
  | Some t => Some t
  | None =>
      match non_blank config_hex with
      | Some t => Some t
      | None => read_dev_pubkey_file dir m
      end
  end.

Section startup.
Context `{Hashing} `{Hex} `{Aead} `{X25519} `{BigInts} `{Pkcs1} `{BlobJson} `{Toml} `{Reqwest} `{Sqlx}.

(** [worker_pubkey] of services/public.rs. *)
Definition worker_pubkey (st : AppState) (m : Machine) : option string :=
  resolve_worker_payment_pubkey (data_dir (server (as_config st)))
    (worker_payment_pubkey_hex (security (as_config st))) m.

(** ** Keys *)

Definition kek_of_hex (kek_hex : string) : string + KeyEncryptionKey :=
  match hex_decode kek_hex with
  | inl e => inl ("Invalid KEK_HEX env: " +:+ e)
  | inr key_bytes =>
      if negb (Nat.eqb (length key_bytes) 32) then inl "KEK_HEX must be exactly 32 bytes (64 hex chars)"
      else inr (kek_from_bytes key_bytes)
  end.

(** [load_kek] of main.rs. *)
Definition load_kek (m : Machine) (random : bytes) : string + KeyEncryptionKey :=
  match env_var m "KEK_HEX" with
  | Some kek_hex => kek_of_hex kek_hex
  | None =>
      if env_is m "EPHEMERAL_KEK" "1" then inr (kek_new random)
      else inl "KEK not configured. Set KEK_HEX env var (production) or EPHEMERAL_KEK=1 (dev)."
  end.

(** [load_kek] of bin/worker.rs. *)
Definition worker_load_kek (m : Machine) : string + KeyEncryptionKey :=
  match env_var m "KEK_HEX" with
  | Some kek_hex => kek_of_hex kek_hex
  | None => inl "No KEK configured. Set KEK_HEX env var to decrypt worker_key_hex from config."
  end.

Definition init_worker_key (m : Machine) (kek : KeyEncryptionKey) (config : Config) (random : bytes)
    : string + bytes :=
  match worker_key_hex (security config) with
  | Some hex_str => map_err (fun e => "Failed to decrypt worker_key_hex: " +:+ e) (decrypt_master_seed hex_str kek)
  | None =>
      if env_is m "EPHEMERAL_WORKER_KEY" "1" then inr (generate_master_seed random)
      else inl "worker_key_hex not set in config."
  end.

(** ** What both processes do first *)

Definition tor_required (m : Machine) (config : Config) : bool :=
  negb (tor_enabled (tor config)) && env_is m "RUST_ENV" "production".

(** The checks of main.rs. *)
Definition validate_api (config : Config) : start unit :=
  _ ← refuse (bool_decide (server_secret (server config) = "")) "SERVER_SECRET must be set via env or config file";
  _ ← refuse (Nat.ltb (String.length (server_secret (server config))) 32) "SERVER_SECRET must be at least 32 characters";
  _ ← refuse (bool_decide (listen_addr (server config) = "")) "listen_addr must not be empty";
  _ ← refuse (rate_limit_per_minute (server config) =? 0) "rate_limit_per_minute must be > 0";
  _ ← refuse (bool_decide (wallet_rpc_url (monero config) = "")) "monero.wallet_rpc_url must not be empty";
  _ ← refuse (bool_decide (rpc_url (bitcoin config) = "")) "bitcoin.rpc_url must not be empty";
  _ ← refuse (kek_rotation_days (security config) =? 0) "kek_rotation_days must be > 0";
  m ← machine;
  refuse (tor_required m config) "tor.enabled = false with RUST_ENV=production.".

(** The checks of bin/worker.rs. *)
Definition validate_worker (config : Config) : start unit :=
  _ ← refuse (bool_decide (wallet_rpc_url (monero config) = "")) "monero.wallet_rpc_url must not be empty";
  _ ← refuse (bool_decide (rpc_url (bitcoin config) = "")) "bitcoin.rpc_url must not be empty";
  m ← machine;
  refuse (tor_required m config) "tor.enabled = false with RUST_ENV=production.".

Definition start_tor (o : Outside) (config : TorConfig) : start unit :=
  if tor_enabled config then
    _ ← on_machine (fun m => bootstrap m config);
    _ ← on_machine (fun m => cleanup_old_keys m config);
    pure (os_spawn o (path_join (service_dir config) "torrc"))
  else mret tt.

(** [path.parent()] of a path without a trailing slash. *)
Fixpoint last_slash (s : string) : option string :=
  match s with
  | EmptyString => None
  | String c t =>
      match last_slash t with
      | Some d => Some (String c d)
      | None => if Ascii.eqb c "/" then Some "" else None
      end
  end.
Definition path_parent (path : string) : option string :=
  if bool_decide (path = "") then None else Some (default "" (last_slash path)).

Definition open_database (o : Outside) (config : Config) : start unit :=
  match database config with
  | Sqlite path =>
      m ← machine;
      _ ← pure (match path_parent path with Some parent => create_dir_all m parent | None => inr tt end);
      _ ← pure (os_connect o ("sqlite:" +:+ path));
      on_database (run_sqlite_migrations (os_host o))
  | Postgres _ => fail "PostgreSQL support coming soon - use SQLite for now"
  end.

(** ** The API process *)

(** The admin key pair of [build_router]: a configured key that does not parse
    disables the endpoints, no key makes an ephemeral one. *)
Definition admin_keypair (o : Outside) (config : Config) : start (option AdminKeypair) :=
  match admin_privkey_hex (security config) with
  | Some hex_str => mret (match keypair_from_hex hex_str with inr kp => Some kp | inl _ => None end)
  | None => match generate_admin_keypair (os_rsa_new o) 2048 with Some kp => mret (Some kp) | None => panic end
  end.

Definition api_main (o : Outside) : start AppState :=
  m ← machine;
  config ← pure (load m);
  _ ← validate_api config;
  _ ← start_tor o (tor config);
  pool ← pure (pool_new (socks5_addr (tor config)) (socks5_pool_size (tor config)) (tor_enabled (tor config)));
  _ ← open_database o config;
  kek ← pure (load_kek m (os_random o));
  keypair ← admin_keypair o config;
  mret (mk_app_state _ config (new_limiter (rate_limit_per_minute (server config)) 60) kek None keypair pool ApiProcess).

(** ** The worker process *)

Definition publish_key (config : Config) (worker_key : bytes) : start unit :=
  m ← machine;
  match payment_pubkey_hex_from_worker_key worker_key with
  | None => panic
  | Some pubkey_hex =>
      if env_is m "EPHEMERAL_WORKER_KEY" "1"
      then on_machine_logged (write_dev_pubkey_file (data_dir (server config)) pubkey_hex)
      else mret tt
  end.

Definition assert_worker_state (m : Machine) (st : AppState) : string + unit :=
  match as_worker_key st with
  | Some _ => inr tt
  | None =>
      if env_is m "EPHEMERAL_WORKER_KEY" "1"
      then inl "EPHEMERAL_WORKER_KEY=1 requires mutable state; this code path is unreachable"
      else inl "Worker key not configured."
  end.

Definition worker_main (o : Outside) : start AppState :=
  m ← machine;
  config ← pure (load m);
  _ ← validate_worker config;
  _ ← start_tor o (tor config);
  pool ← pure (pool_new (socks5_addr (tor config)) (socks5_pool_size (tor config)) (tor_enabled (tor config)));
  _ ← open_database o config;
  kek ← pure (worker_load_kek m);
  worker_key ← pure (init_worker_key m kek config (os_random o));
  _ ← publish_key config worker_key;
  mret (mk_app_state _ config (new_limiter 1000 60) kek (Some worker_key) None pool WorkerProcess).

(** ** What a successful start has checked *)

Lemma validate_api_ok c s s' u :
  validate_api c s = (s', Some (inr u)) ->
  s' = s /\ (32 <= String.length (server_secret (server c)))%nat /\ listen_addr (server c) <> "" /\
  rate_limit_per_minute (server c) <> 0 /\ wallet_rpc_url (monero c) <> "" /\ rpc_url (bitcoin c) <> "" /\
  kek_rotation_days (security c) <> 0 /\ tor_required (fst s) c = false.
Proof.
  intros E. unfold validate_api in E. start_inv E. apply refuse_ok in E as [-> E].
  repeat match goal with X : bool_decide _ = false |- _ => apply bool_decide_eq_false in X end.
  repeat match goal with X : (_ =? _) = false |- _ => apply Z.eqb_neq in X end.
  match goal with X : Nat.ltb _ _ = false |- _ => apply Nat.ltb_ge in X end. done.
Qed.

Lemma validate_worker_ok c s s' u :
  validate_worker c s = (s', Some (inr u)) ->
  s' = s /\ wallet_rpc_url (monero c) <> "" /\ rpc_url (bitcoin c) <> "" /\ tor_required (fst s) c = false.
Proof.
  intros E. unfold validate_worker in E. start_inv E. apply refuse_ok in E as [-> E].
  repeat match goal with X : bool_decide _ = false |- _ => apply bool_decide_eq_false in X end. done.
Qed.

Lemma write_file_same m p c : m_env (write_file m p c).1 = m_env m /\ m_refused (write_file m p c).1 = m_refused m.
Proof. unfold write_file. by destruct (m_refused m p). Qed.

Lemma bootstrap_same m c : m_env (bootstrap m c).1 = m_env m /\ m_refused (bootstrap m c).1 = m_refused m.
Proof.
  unfold bootstrap. repeat (case_match; try done). apply write_file_same.
Qed.

Lemma cleanup_same m c : m_env (cleanup_old_keys m c).1 = m_env m /\ m_refused (cleanup_old_keys m c).1 = m_refused m.
Proof. unfold cleanup_old_keys. by case_match. Qed.

Lemma on_machine_ok f s s' u :
  on_machine f s = (s', Some (inr u)) -> (f (fst s)).2 = inr u /\ s' = ((f (fst s)).1, snd s).
Proof. unfold on_machine. destruct (f (fst s)) as [m r]. by intros [= <- ->]. Qed.

(** Only files change, and only below the service directory. *)
Lemma start_tor_machine o c s s' u :
  start_tor o c s = (s', Some (inr u)) ->
  m_env (fst s') = m_env (fst s) /\ m_refused (fst s') = m_refused (fst s).
Proof.
  unfold start_tor. destruct (tor_enabled c); [|by intros [= <- _]]. intros E. start_inv E.
  apply pure_ok in E as [-> _].
  repeat match goal with X : on_machine _ _ = _ |- _ => apply on_machine_ok in X as (_ & ->) end.
  cbn [fst]. destruct (cleanup_same (bootstrap (fst s) c).1 c) as [-> ->]. apply bootstrap_same.
Qed.

Lemma open_database_machine o c s s' u :
  open_database o c s = (s', Some (inr u)) -> fst s' = fst s /\ exists path, database c = Sqlite path.
Proof.
  unfold open_database. destruct (database c) as [path|]; [|done]. intros E. start_inv E.
  unfold on_database in E. destruct (run_sqlite_migrations _ _). simplify_eq/=. eauto.
Qed.

Lemma tor_required_production m c :
  tor_required m c = false -> env_var m "RUST_ENV" = Some "production" -> tor_enabled (tor c) = true.
Proof.
  unfold tor_required, env_is. intros Ht He. rewrite bool_decide_eq_true_2 in Ht by done.
  by destruct (tor_enabled (tor c)).
Qed.

Lemma kek_of_hex_length h k : kek_of_hex h = inr k -> length (kek_key k) = 32%nat.
Proof.
  unfold kek_of_hex. destruct (hex_decode h) as [|b]; [done|]. destruct (Nat.eqb_spec (length b) 32); cbn; [|done].
  by intros [= <-].
Qed.

Lemma init_worker_key_length m kek c random k :
  length random = 32%nat -> init_worker_key m kek c random = inr k -> length k = 32%nat.
Proof.
  unfold init_worker_key. intros Hr E. destruct (worker_key_hex (security c)) as [h|].
  - destruct (decrypt_master_seed h kek) eqn:Ed; cbn in E; simplify_eq. by eapply decrypt_master_seed_length.
  - destruct (env_is m "EPHEMERAL_WORKER_KEY" "1"); by simplify_eq.
Qed.

(** C17. A process that starts runs with a configuration that was loaded and checked,
    on SQLite, with Tor in production and a 32-byte key encryption key.  The
    worker holds a 32-byte worker key and no admin key; the API holds no worker
    key, so its state is not one the jobs accept. *)
Theorem startup_sound o s s' st :
  length (os_random o) = 32%nat ->
  api_main o s = (s', Some (inr st)) \/ worker_main o s = (s', Some (inr st)) ->
  let c := as_config st in
  load (fst s) = inr c /\ wallet_rpc_url (monero c) <> "" /\ rpc_url (bitcoin c) <> "" /\
  (exists path, database c = Sqlite path) /\
  (env_var (fst s) "RUST_ENV" = Some "production" -> tor_enabled (tor c) = true) /\
  length (kek_key (as_kek st)) = 32%nat /\
  match as_payment_tx st with
  | ApiProcess =>
      (32 <= String.length (server_secret (server c)))%nat /\ rate_limit_per_minute (server c) <> 0 /\
      as_worker_key st = None /\ forall m, assert_worker_state m st <> inr tt
  | WorkerProcess =>
      as_admin_keypair st = None /\ (exists key, as_worker_key st = Some key /\ length key = 32%nat) /\
      forall m, assert_worker_state m st = inr tt
  end.
Proof.
  intros Hrnd Hst. cbv zeta. destruct Hst as [E|E].
  - unfold api_main in E. start_inv E. injection E as <- <-. cbn [as_config as_kek as_worker_key as_payment_tx].
    match goal with X : validate_api _ _ = _ |- _ => apply validate_api_ok in X as (-> & ? & ? & ? & ? & ? & ? & Ht) end.
    match goal with X : open_database _ _ _ = _ |- _ => apply open_database_machine in X as (_ & ?) end.
    split_and!; try done.
    + by apply tor_required_production.
    + match goal with X : load_kek _ _ = _ |- _ => unfold load_kek in X; repeat case_match; simplify_eq end; [|done].
      by eapply kek_of_hex_length.
    + intros m. unfold assert_worker_state. cbn. by case_match.
  - unfold worker_main in E. start_inv E. injection E as <- <-.
    cbn [as_config as_kek as_worker_key as_payment_tx as_admin_keypair].
    match goal with X : validate_worker _ _ = _ |- _ => apply validate_worker_ok in X as (-> & ? & ? & Ht) end.
    match goal with X : open_database _ _ _ = _ |- _ => apply open_database_machine in X as (_ & ?) end.
    split_and!; try done.
    + by apply tor_required_production.
    + match goal with X : worker_load_kek _ = _ |- _ => unfold worker_load_kek in X; case_match; simplify_eq end.
      by eapply kek_of_hex_length.
    + eexists. split; [done|]. by eapply init_worker_key_length.
Qed.

(** ** What does not start *)

(** Without a configuration file the API does not start, whatever the
    environment says, [SERVER_SECRET] included; without [KEK_HEX] the worker
    does not start, not even with an ephemeral worker key. *)
Theorem startup_refusals o m d :
  (file_exists m (config_path m) = false ->
   api_main o (m, d) = ((m, d), Some (inl "SERVER_SECRET must be set via env or config file"))) /\
  (env_var m "KEK_HEX" = None -> forall s' st, worker_main o (m, d) <> (s', Some (inr st))).
Proof.
  split.
  - intros Hf. unfold api_main, mbind, start_bind, machine, pure. cbn [fst]. by rewrite (load_missing m Hf).
  - intros Hk s' st E. unfold worker_main in E. start_inv E.
    match goal with X : worker_load_kek _ = _ |- _ => unfold worker_load_kek in X end.
    cbn [fst] in *. by rewrite Hk in *.
Qed.
End startup.

(** ** Starting on a working machine *)

Section working.
Context `{Hashing} `{Hex} `{Aead} `{X25519} `{BigInts} `{Pkcs1} `{BlobJson} `{Toml} `{Reqwest} `{Sqlx}.
Context `{!HexLaws _} `{!AeadLaws _} `{!BlobJsonLaws _} `{!HashingLaws _} `{!X25519Laws _} `{!SqlxLaws}.

(** Nothing outside fails, the configuration passes the checks and names a
    database, the KEK is in the environment, and the worker key of the
    configuration was sealed under it. *)
Record working (o : Outside) (m : Machine) (c : Config) (kek wk : bytes) := {
  wk_host : quiet (os_host o);
  wk_connect : forall url, os_connect o url = inr tt;
  wk_spawn : forall path, os_spawn o path = inr tt;
  wk_rsa : forall bits, is_Some (os_rsa_new o bits);
  wk_paths : forall path, m_refused m path = false;
  wk_load : load m = inr c;
  wk_secret : (32 <= String.length (server_secret (server c)))%nat;
  wk_listen : listen_addr (server c) <> "";
  wk_rate : rate_limit_per_minute (server c) <> 0;
  wk_xmr : wallet_rpc_url (monero c) <> "";
  wk_btc : rpc_url (bitcoin c) <> "";
  wk_rotation : kek_rotation_days (security c) <> 0;
  wk_tor : tor_required m c = false;
  wk_pool : exists pool, pool_new (socks5_addr (tor c)) (socks5_pool_size (tor c)) (tor_enabled (tor c)) = inr pool;
  wk_database : exists path, database c = Sqlite path;
  wk_kek : env_var m "KEK_HEX" = Some (hex_encode kek) /\ length kek = 32%nat;
  wk_key : exists nonce hs, length nonce = 12%nat /\ length wk = 32%nat /\
    encrypt_master_seed nonce wk (kek_from_bytes kek) = inr hs /\ worker_key_hex (security c) = Some hs }.

Lemma bind_eval {A B} (p : start A) (f : A -> start B) s s1 a r :
  p s = (s1, Some (inr a)) -> f a s1 = r -> (p ≫= f) s = r.
Proof. unfold mbind, start_bind. by intros ->. Qed.

Lemma refuse_no bad msg s : bad = false -> refuse bad msg s = (s, Some (inr tt)).
Proof. by intros ->. Qed.

Ltac checks := repeat (eapply bind_eval;
  [apply refuse_no; first [apply bool_decide_eq_false_2|apply Z.eqb_neq|apply Nat.ltb_ge];
   solve [assumption | eauto using wk_secret, wk_listen, wk_rate, wk_xmr, wk_btc, wk_rotation]|cbv beta]).

Lemma working_start_tor o m c kek wk d :
  working o m c kek wk -> exists m1, start_tor o (tor c) (m, d) = ((m1, d), Some (inr tt)) /\
    m_env m1 = m_env m /\ forall path, m_refused m1 path = false.
Proof.
  intros W. unfold start_tor. destruct (tor_enabled (tor c)) eqn:Et.
  - destruct (bootstrap m (tor c)) as [m1 r1] eqn:E1.
    assert (r1 = inr tt) as ->.
    { unfold bootstrap, create_dir_all, write_file in E1. rewrite Et, !(wk_paths _ _ _ _ _ W) in E1.
      cbn [negb] in E1. case_match; by simplify_eq. }
    pose proof (bootstrap_same m (tor c)) as [He Hr]. rewrite E1 in He, Hr. cbn [fst] in He, Hr.
    destruct (cleanup_old_keys m1 (tor c)) as [m2 r2] eqn:E2.
    assert (r2 = inr tt) as -> by (unfold cleanup_old_keys in E2; case_match; by simplify_eq).
    pose proof (cleanup_same m1 (tor c)) as [He2 Hr2]. rewrite E2 in He2, Hr2. cbn [fst] in He2, Hr2.
    exists m2. split; [|split; [congruence|intros p; rewrite Hr2, Hr; apply W]].
    eapply bind_eval; [unfold on_machine; cbn [fst snd]; by rewrite E1|].
    eapply bind_eval; [unfold on_machine; cbn [fst snd]; by rewrite E2|].
    unfold pure. by rewrite (wk_spawn _ _ _ _ _ W).
  - exists m. split; [done|]. split; [done|apply W].
Qed.

Lemma working_database o m c kek wk m1 d n :
  working o m c kek wk -> (forall path, m_refused m1 path = false) ->
  d = empty_db \/ (exists k, (k <= 18)%nat /\ at_version k d) ->
  exists d' n', open_database o c (m1, (d, n)) = ((m1, (d', n')), Some (inr tt)) /\ describes d' (stage 18).
Proof.
  intros W Hr Hd. destruct (wk_database _ _ _ _ _ W) as [path Hp].
  destruct (migrations_complete (os_host o) d n (wk_host _ _ _ _ _ W) Hd) as (d' & n' & Hm & Hd').
  exists d', n'. split; [|done]. unfold open_database. rewrite Hp.
  eapply bind_eval; [reflexivity|]. cbn [fst].
  eapply (bind_eval _ _ _ (m1, (d, n)) tt).
  { unfold pure, create_dir_all. destruct (path_parent path); [by rewrite Hr|done]. }
  eapply bind_eval; [unfold pure; by rewrite (wk_connect _ _ _ _ _ W)|].
  unfold on_database. cbn [fst snd]. by rewrite Hm.
Qed.

Lemma working_kek o m c kek wk : working o m c kek wk -> kek_of_hex (hex_encode kek) = inr (kek_from_bytes kek).
Proof.
  intros W. destruct (wk_kek _ _ _ _ _ W) as [_ Hl]. unfold kek_of_hex. by rewrite hex_roundtrip, Hl.
Qed.

Lemma working_keypair o m c kek wk s : working o m c kek wk -> exists kp, admin_keypair o c s = (s, Some (inr kp)).
Proof.
  intros W. unfold admin_keypair, generate_admin_keypair. destruct (admin_privkey_hex (security c)); [by eexists|].
  destruct (wk_rsa _ _ _ _ _ W (Z.max BLIND_SIG_MIN_BITS (Z.min BLIND_SIG_MAX_BITS 2048))) as [k ->]. by eexists.
Qed.

Lemma working_worker_key o m c kek wk : working o m c kek wk ->
  init_worker_key m (kek_from_bytes kek) c (os_random o) = inr wk /\ length wk = 32%nat.
Proof.
  intros W. destruct (wk_key _ _ _ _ _ W) as (nonce & hs & Hn & Hl & He & Hh). split; [|done].
  unfold init_worker_key. rewrite Hh. by rewrite (master_seed_reads_back nonce wk _ hs Hn Hl He).
Qed.

(** C30. On a working machine, from an empty database or one at any version of the
    schema, whatever rows its tables hold, the API process starts; and on the database it leaves, so does the
    worker, with the worker key that was sealed in the configuration.  Both
    leave the schema the services read. *)
Theorem processes_start o m c kek wk d n :
  working o m c kek wk ->
  d = empty_db \/ (exists k, (k <= 18)%nat /\ at_version k d) ->
  exists m1 d1 n1 api m2 d2 n2 worker,
    api_main o (m, (d, n)) = ((m1, (d1, n1)), Some (inr api)) /\
    worker_main o (m, (d1, n1)) = ((m2, (d2, n2)), Some (inr worker)) /\
    as_config api = c /\ as_config worker = c /\
    as_worker_key api = None /\ as_worker_key worker = Some wk /\
    as_kek api = as_kek worker /\ names <$> tables d1 = service_schema /\ names <$> tables d2 = service_schema.
Proof.
  intros W Hd. destruct (wk_pool _ _ _ _ _ W) as [pool Hp]. destruct (wk_kek _ _ _ _ _ W) as [Hk _].
  destruct (working_start_tor o m c kek wk (d, n) W) as (m1 & T1 & _ & R1).
  destruct (working_database o m c kek wk m1 d n W R1 Hd) as (d1 & n1 & D1 & S1).
  destruct (working_start_tor o m c kek wk (d1, n1) W) as (m2 & T2 & V2 & R2).
  destruct (working_database o m c kek wk m2 d1 n1 W R2 ltac:(right; exists 18%nat; split; [lia | by apply at_version_describes])) as (d2 & n2 & D2 & S2).
  destruct (working_keypair o m c kek wk (m1, (d1, n1)) W) as [kp K1].
  destruct (working_worker_key o m c kek wk W) as [I2 Hwl].
  assert (exists s2, publish_key c wk (m2, (d2, n2)) = ((s2, (d2, n2)), Some (inr tt))) as [m3 P2].
  { unfold publish_key, payment_pubkey_hex_from_worker_key, derive_domain_key.
    destruct (hmac_total wk (as_bytes "domain:" ++ as_bytes "payment-decrypt")) as [sk ->].
    unfold mbind, start_bind, machine. cbn [fst]. case_match; by eexists. }
  eexists m1, d1, n1, _, m3, d2, n2, _. split_and!.
  - unfold api_main. eapply bind_eval; [reflexivity|]. cbn [fst].
    eapply bind_eval; [unfold pure; by rewrite (wk_load _ _ _ _ _ W)|].
    eapply bind_eval.
    { assert (server_secret (server c) <> "") as Hne.
      { pose proof (wk_secret _ _ _ _ _ W) as Hs. intros He. rewrite He in Hs. cbn in Hs. lia. }
      unfold validate_api. checks. eapply bind_eval; [reflexivity|]. apply refuse_no, (wk_tor _ _ _ _ _ W). }
    eapply bind_eval; [exact T1|]. eapply bind_eval; [unfold pure; by rewrite Hp|].
    eapply bind_eval; [exact D1|].
    eapply bind_eval; [unfold pure, load_kek; rewrite Hk; by rewrite (working_kek _ _ _ _ _ W)|].
    eapply bind_eval; [exact K1|]. reflexivity.
  - unfold worker_main. eapply bind_eval; [reflexivity|]. cbn [fst].
    eapply bind_eval; [unfold pure; by rewrite (wk_load _ _ _ _ _ W)|].
    eapply bind_eval.
    { unfold validate_worker. checks. eapply bind_eval; [reflexivity|]. apply refuse_no, (wk_tor _ _ _ _ _ W). }
    eapply bind_eval; [exact T2|]. eapply bind_eval; [unfold pure; by rewrite Hp|].
    eapply bind_eval; [exact D2|].
    eapply bind_eval; [unfold pure, worker_load_kek; rewrite Hk; by rewrite (working_kek _ _ _ _ _ W)|].
    eapply bind_eval; [unfold pure; by rewrite I2|].
    eapply bind_eval; [exact P2|]. reflexivity.
  - reflexivity.
  - reflexivity.
  - reflexivity.
  - reflexivity.
  - reflexivity.
  - apply final_schema, S1.
  - apply final_schema, S2.
Qed.
End working.

(** ** The payment key reaches the browser *)

Section published.
Context `{Hashing} `{Hex} `{Aead} `{X25519} `{BigInts} `{Pkcs1} `{BlobJson} `{Toml} `{Reqwest} `{Sqlx}.
Context `{!HexLaws _} `{!HexText _} `{!AeadLaws _} `{!X25519Laws _}.

(** A hexadecimal key that was written to the file is read back. *)
Lemma pubkey_file_reads dir pk m :
  length pk = 32%nat -> m_refused m (dev_pubkey_path dir) = false ->
  m_files m !! dev_pubkey_path dir = Some (trim_text (hex_encode pk)) ->
  read_dev_pubkey_file dir m = Some (hex_encode pk).
Proof.
  intros Hl Hr Hf. unfold read_dev_pubkey_file, read_to_string. rewrite Hr, Hf. cbn [ok_or].
  rewrite (trim_text_graphic (hex_encode pk)) by apply hex_graphic.
  rewrite trim_text_graphic by apply hex_graphic. rewrite hex_encode_length, Hl. cbn [Nat.mul Nat.add Nat.eqb andb].
  pose proof (hex_lower pk) as Hx. rewrite (proj2 (forallb_forall _ _)).
  - by rewrite to_lowercase_hex.
  - intros b Hb. apply lower_hex_digit. rewrite Forall_forall in Hx. by apply Hx, list_elem_of_In.
Qed.

Lemma publish_key_effect c wk s s' u :
  publish_key c wk s = (s', Some (inr u)) -> env_is (fst s) "EPHEMERAL_WORKER_KEY" "1" = true ->
  let dir := data_dir (server c) in
  m_refused (fst s) dir = false -> m_refused (fst s) (dev_pubkey_path dir) = false ->
  exists sk, derive_domain_key wk "payment-decrypt" = Some sk /\
    m_files (fst s') !! dev_pubkey_path dir = Some (trim_text (hex_encode (x_public sk))).
Proof.
  intros E He. cbv zeta. intros Hd Hp. unfold publish_key in E. start_inv E. cbn [fst] in E.
  unfold payment_pubkey_hex_from_worker_key in E.
  destruct (derive_domain_key wk "payment-decrypt") as [sk|]; [|done]. rewrite He in E.
  unfold on_machine_logged, write_dev_pubkey_file, create_dir_all, write_file in E. rewrite Hd, Hp in E.
  injection E as <- _. exists sk. split; [done|]. cbn. apply lookup_insert_eq.
Qed.

(** C20. The worker, the API and the browser agree on the payment key: a worker that
    starts with an ephemeral key publishes it through the shared data directory;
    an API process with that directory, and no key of its own configured, answers
    the browser with it; what the WASM module encrypts for the answer is what
    the jobs of the worker decrypt with the domain key they derive. *)
Theorem payment_key_sync o s s' wst ma ast :
  worker_main o s = (s', Some (inr wst)) -> env_is (fst s) "EPHEMERAL_WORKER_KEY" "1" = true ->
  let dir := data_dir (server (as_config wst)) in
  m_refused (fst s) dir = false -> m_refused (fst s) (dev_pubkey_path dir) = false ->
  m_files ma !! dev_pubkey_path dir = m_files (fst s') !! dev_pubkey_path dir ->
  m_refused ma (dev_pubkey_path dir) = false ->
  data_dir (server (as_config ast)) = dir ->
  non_blank (env_var ma "WORKER_PAYMENT_PUBKEY_HEX") = None ->
  non_blank (worker_payment_pubkey_hex (security (as_config ast))) = None ->
  exists wk sk answer pk,
    as_worker_key wst = Some wk /\ derive_domain_key wk "payment-decrypt" = Some sk /\
    worker_pubkey ast ma = Some answer /\ hex_decode answer = inr pk /\
    forall esk nonce p blob, length nonce = 12%nat -> wasm_encrypt_order esk nonce p pk = Some blob ->
      decrypt_ecdh_blob blob sk = Some p.
Proof.
  intros E He. cbv zeta. intros Hd Hp Hf Hr Hda Henv Hcfg. unfold worker_main in E. start_inv E.
  injection E as <- <-. cbn [as_config as_worker_key] in *.
  match goal with X : validate_worker _ _ = _ |- _ => apply validate_worker_ok in X as (-> & _) end.
  match goal with X : start_tor _ _ _ = _ |- _ => apply start_tor_machine in X as (Hme & Hmr) end.
  match goal with X : open_database _ _ _ = _ |- _ => apply open_database_machine in X as (Hdb & _) end.
  rewrite <-Hdb in Hme, Hmr.
  match goal with X : publish_key _ ?k _ = _ |- _ => rename k into wk; apply publish_key_effect in X as (sk & Hsk & Hfile) end.
  2: { unfold env_is, env_var in *. by rewrite Hme. }
  2-3: by rewrite Hmr.
  exists wk, sk, (hex_encode (x_public sk)), (x_public sk). split; [done|]. split; [done|].
  split; [|split; [apply hex_roundtrip|]].
  - unfold worker_pubkey, resolve_worker_payment_pubkey. rewrite Henv, Hcfg, Hda.
    apply pubkey_file_reads; [apply x_public_length|done|]. by rewrite Hf.
  - intros esk nonce p blob Hn Hb.
    destruct (wasm_worker_blob wk sk esk nonce p (x_public sk) Hsk) as [_ Hw]; [|done|by apply (Hw blob Hb)].
    unfold payment_pubkey_hex_from_worker_key. rewrite Hsk. cbn. by rewrite hex_roundtrip.
Qed.

(** ** Rotating the KEK *)

Definition with_files (files : gmap string string) (m : Machine) : Machine :=
  mk_machine (m_env m) files (m_refused m).

(** C40. After an administrator rotated the KEK and was told so, the new key lies in
    a file of the data directory, and the next start of either process loads
    the same key as before, or fails as before. *)
Theorem kek_rotation_ineffective `{BuildProfile} env keypair dir req w w' resp m random :
  run env (rotate_kek keypair dir req) w = (w', Some (inr resp)) ->
  rk_kek_rotated resp = true /\
  (exists new_kek, w_files w' !! (dir +:+ "/kek.hex") = Some (hex_encode new_kek)) /\
  load_kek (with_files (w_files w') m) random = load_kek (with_files (w_files w) m) random /\
  worker_load_kek (with_files (w_files w') m) = worker_load_kek (with_files (w_files w) m).
Proof.
  unfold rotate_kek. intros E. destruct keypair as [kp|]; cbn [ok_or] in E; [|done].
  destruct (check_token _ _ _ _) as [|[nh x]]; [done|]. step_in E. cbn [snd] in E.
  destruct (token_fresh x _) as [[]|]; [|done..]. step_in E. step_in E.
  destruct (env_io_fault env _) as [[]|]; cbn [negb run] in E; simplify_eq. split; [done|]. split; [|done].
  eexists. cbn [w_files w_write w_tick]. by rewrite lookup_insert_eq.
Qed.
End published.

(** ** Witnesses *)

Definition sealed_worker_key : bytes := sha256 (as_bytes "worker").
Definition sample_kek : bytes := sha256 (as_bytes "kek").
Definition sealed_hex : string :=
  match encrypt_master_seed blob_nonce sealed_worker_key (kek_from_bytes sample_kek) with inr s => s | inl _ => "" end.

(** A development configuration without Tor; the worker key sealed or not. *)
Definition site_config (worker_key_hex : option string) : Config :=
  mk_config database_default (mk_server_config "127.0.0.1:9080" "data" sample_secret 30 7)
    (mk_tor_config false "data/tor" 80 None default_socks5_addr default_socks5_pool_size)
    monero_default bitcoin_default
    (mk_security_config (f64_of_Z 100) (f64_of_Z 1) 30 None 1 None 546 None worker_key_hex
       (Some "not a key") None None)
    escrow_default.

Definition site_machine (ephemeral : bool) : Machine :=
  mk_machine ((if ephemeral then <["EPHEMERAL_WORKER_KEY" := "1"]> else id) {[ "KEK_HEX" := hex_encode sample_kek ]})
    {[ "config.toml" := "config" ]} (fun _ => false).

Definition site : Outside :=
  mk_outside quiet_host (fun _ => inr tt) (fun _ => inr tt) (sha256 (as_bytes "random")) (fun _ => Some unit_key).

Definition dev_worker : (Machine * state) * option (string + AppState) :=
  worker_main (H6 := toml_of (site_config None)) (H8 := zero_sqlx) site (site_machine true, (empty_db, 0%nat)).

Definition dev_worker_state : AppState :=
  match snd dev_worker with
  | Some (inr st) => st
  | _ => mk_app_state _ config_default (new_limiter 0 0) (mk_kek []) None None (mk_pool [] "" false) ApiProcess
  end.

Lemma dev_worker_runs :
  worker_main (H6 := toml_of (site_config None)) (H8 := zero_sqlx) site (site_machine true, (empty_db, 0%nat)) =
  (fst dev_worker, Some (inr dev_worker_state)).
Proof.
  unfold dev_worker_state. change (worker_main _ _) with dev_worker. destruct dev_worker as [s [[e|st]|]] eqn:E; [|done|];
    apply (f_equal snd) in E; vm_compute in E; discriminate E.
Qed.

Lemma startup_sound_witness :
  (exists key, as_worker_key dev_worker_state = Some key /\ length key = 32%nat) /\
  length (kek_key (as_kek dev_worker_state)) = 32%nat.
Proof.
  pose proof dev_worker_runs as Hrun. generalize dependent (fst dev_worker). intros s' Hrun.
  destruct (startup_sound (H6 := toml_of (site_config None)) (H8 := zero_sqlx) site
              (site_machine true, (empty_db, 0%nat)) s' dev_worker_state eq_refl
              (or_intror Hrun)) as (_ & _ & _ & _ & _ & Hk & Hp).
  split; [|exact Hk].
  assert (as_payment_tx dev_worker_state = WorkerProcess) as Hw by (vm_compute; reflexivity).
  rewrite Hw in Hp. apply Hp.
Defined.

Lemma startup_refusals_witness :
  api_main (H6 := toml_of (site_config None)) (H8 := zero_sqlx) site (sample_machine, (empty_db, 0%nat)) =
    ((sample_machine, (empty_db, 0%nat)), Some (inl "SERVER_SECRET must be set via env or config file")) /\
  env_var sample_machine "SERVER_SECRET" = Some sample_secret.
Proof.
  split; [|reflexivity].
  apply (startup_refusals (H6 := toml_of (site_config None)) (H8 := zero_sqlx) site sample_machine (empty_db, 0%nat)).
  reflexivity.
Defined.

Lemma site_working :
  working (H6 := toml_of (site_config (Some sealed_hex))) site (site_machine false)
    (site_config (Some sealed_hex)) sample_kek sealed_worker_key.
Proof.
  split; try (intros; reflexivity); try discriminate.
  - apply quiet_host_quiet.
  - intros bits. by exists unit_key.
  - eexists. vm_compute. reflexivity.
  - eexists. reflexivity.
  - split; reflexivity.
  - exists blob_nonce, sealed_hex. split_and!; vm_compute; reflexivity.
Qed.

(** On a database of version 9 with two orders. *)
Lemma processes_start_witness :
  length (rows_of version_9 "orders") = 2%nat /\
  exists m1 d1 n1 api,
    api_main (H6 := toml_of (site_config (Some sealed_hex))) (H8 := zero_sqlx) site
      (site_machine false, (version_9, 0%nat)) = ((m1, (d1, n1)), Some (inr api)) /\
    names <$> tables d1 = service_schema.
Proof.
  split; [vm_compute; reflexivity|].
  destruct (processes_start (H6 := toml_of (site_config (Some sealed_hex))) (H8 := zero_sqlx)
              (H9 := eq_refl) site (site_machine false)
              (site_config (Some sealed_hex)) sample_kek sealed_worker_key version_9 0 site_working
              (or_intror version_9_known))
    as (m1 & d1 & n1 & api & _ & _ & _ & _ & Ha & _ & _ & _ & _ & _ & _ & Hs & _).
  exists m1, d1, n1, api. by split.
Defined.

Lemma payment_key_sync_witness :
  exists answer pk sk,
    worker_pubkey dev_worker_state (fst (fst dev_worker)) = Some answer /\ hex_decode answer = inr pk /\
    forall esk nonce p blob, length nonce = 12%nat -> wasm_encrypt_order esk nonce p pk = Some blob ->
      decrypt_ecdh_blob blob sk = Some p.
Proof.
  pose proof dev_worker_runs as Hrun.
  assert (m_refused (fst (fst dev_worker)) (dev_pubkey_path "data") = false) as Hr by (vm_compute; reflexivity).
  assert (non_blank (env_var (fst (fst dev_worker)) "WORKER_PAYMENT_PUBKEY_HEX") = None) as He by (vm_compute; reflexivity).
  assert (non_blank (worker_payment_pubkey_hex (security (as_config dev_worker_state))) = None) as Hc by (vm_compute; reflexivity).
  assert (data_dir (server (as_config dev_worker_state)) = "data") as Hd by (vm_compute; reflexivity).
  revert Hrun Hr He Hc Hd. generalize (fst dev_worker) dev_worker_state. intros s' st Hrun Hr He Hc Hd.
  destruct (payment_key_sync (H6 := toml_of (site_config None)) (H8 := zero_sqlx) site
              (site_machine true, (empty_db, 0%nat)) s' st (fst s') st Hrun)
    as (wk & sk & answer & pk & _ & _ & Ha & Hk & Hb);
    [reflexivity|reflexivity|reflexivity|reflexivity|by rewrite Hd|reflexivity|exact He|exact Hc|].
  exists answer, pk, sk. split; [exact Ha|]. split; [exact Hk|exact Hb].
Defined.

Lemma kek_rotation_ineffective_witness :
  match run sample_env (@rotate_kek release _ _ _ (Some unit_pair) "data" sample_rotate) empty_world with
  | (w', Some (inr resp)) =>
      rk_kek_rotated resp = true /\
      load_kek (with_files (w_files w') (site_machine false)) [] = inr (kek_from_bytes sample_kek)
  | _ => False
  end.
Proof.
  destruct (run sample_env (@rotate_kek release _ _ _ (Some unit_pair) "data" sample_rotate) empty_world)
    as [w' [[e|resp]|]] eqn:E; try (apply (f_equal snd) in E; vm_compute in E; discriminate E).
  destruct (kek_rotation_ineffective _ _ _ _ _ _ _ (site_machine false) [] E) as (Hr & _ & Hl & _).
  split; [exact Hr|]. rewrite Hl. reflexivity.
Defined.
