(* ===== verification/NodeReads.v ===== *)
(** The clients of the nodes leave the database alone: every method of
    XmrClient.v, BtcClient.v and Escrow.v only makes requests. *)
From S2P Require Import Prelude Interfaces Models Effects Serde Worker Rpc XmrClient BtcClient Escrow.

Section requests.
Context `{BuildProfile} `{JsonText}.

Lemma reads_rpc {S} (gn : S -> Z) (sn : Z -> S -> S) c label m ps s :
  reads_only (rpc_request gn sn c label m ps s).
Proof. unfold rpc_request, arith. reads_only_tac. Qed.

Lemma reads_cbind {S A B} (m : client S A) (f : A -> client S B) s :
  (forall s, reads_only (m s)) -> (forall a s, reads_only (f a s)) -> reads_only ((m ≫= f) s).
Proof. intros Hm Hf. unfold mbind, client_bind. apply reads_bind; [done|]. intros [s' [e|a]]; reads_only_tac; done. Qed.

Lemma reads_ctry {S A} (m : client S A) s : reads_only (m s) -> reads_only (ctry m s).
Proof. intros Hm. apply reads_bind; [done|]. intros; apply reads_ret. Qed.

Lemma reads_xmr_height s : reads_only (xmr_get_height s).
Proof. apply reads_cbind; [intros; apply reads_rpc|]. intros; apply reads_ret. Qed.

Lemma reads_xmr_hash h s : reads_only (xmr_get_block_hash h s).
Proof. apply reads_cbind; [intros; apply reads_rpc|]. intros; apply reads_ret. Qed.
End requests.

Ltac reads_client :=
  repeat first
    [ progress intros | apply reads_xmr_height | apply reads_xmr_hash | apply reads_rpc | apply reads_ret
    | apply reads_ctry
    | apply reads_cbind; intros
    | match goal with |- reads_only ((match ?x with _ => _ end) _) => destruct x end ].

Section nodes.
Context `{BuildProfile} `{JsonText} `{Hashing} `{Hex} `{Secp256k1} `{BitcoinLib}.

Lemma reads_xmr_fork s : reads_only (xmr_check_for_fork s).
Proof. unfold xmr_check_for_fork. reads_client. Qed.

Lemma reads_xmr_check addr a n s : reads_only (xmr_check_payment_with_confirmations addr a n s).
Proof.
  unfold xmr_check_payment_with_confirmations, get_incoming_transfers.
  apply reads_cbind; [apply reads_xmr_fork|]. reads_client.
Qed.

Lemma reads_btc_call {A} m ps (de : Json -> string + A) s : reads_only (btc_rpc_call m ps de s).
Proof. unfold btc_rpc_call. reads_client. Qed.

Lemma reads_btc_fork s : reads_only (btc_check_for_fork s).
Proof.
  unfold btc_check_for_fork, get_block_height, get_block_hash.
  repeat first [apply reads_btc_call|progress reads_client].
Qed.

Lemma reads_btc_check addr a n s : reads_only (btc_check_payment_with_confirmations addr a n s).
Proof.
  unfold btc_check_payment_with_confirmations, btc_incoming_transfers, list_transactions_for_address.
  apply reads_cbind; [apply reads_btc_fork|]. repeat first [apply reads_btc_call|progress reads_client].
Qed.

Lemma reads_settle cfg wk id d : reads_only (settle_stealth_order cfg wk id d).
Proof.
  unfold settle_stealth_order, list_unspent, broadcast_psbt.
  repeat first [ apply reads_btc_call | apply reads_rpc | progress reads_only_tac ].
Qed.

Lemma reads_create_address pk seed id network rpc :
  reads_only (create_stealth_address_for_order pk seed id network rpc).
Proof.
  unfold create_stealth_address_for_order, import_address_watchonly.
  repeat first [ apply reads_btc_call | apply reads_rpc | progress reads_client | progress reads_only_tac ].
Qed.
End nodes.
