(* ===== verification/Poller.v ===== *)
(** The payment poller, src/background/payment_poller.rs: funding and cancelling
    of pending orders, and settlement of released Bitcoin orders.

    The dummy checks only sleep and are left out.  The clients are created on
    first use and shared afterwards: they are the state the job passes along. *)
From stdpp Require Import relations.
From S2P Require Import Prelude Interfaces Instances TimeBuckets Models Effects Serde Auth Blobs Worker Amounts Rpc XmrClient BtcClient Escrow NodeReads.

Definition REQUIRED_CONFIRMATIONS_XMR : Z := 10.
Definition REQUIRED_CONFIRMATIONS_BTC : Z := 6.

Section poller.
Context `{BuildProfile} `{JsonText} `{Hashing} `{Hex} `{Aead} `{X25519} `{Serde} `{Secp256k1} `{BitcoinLib}.

(** ** The three updates of an order *)

(** [SELECT], decrypt, parse: the start of all three. *)
Definition load_order (worker_key : option bytes) (order_id : bytes)
    : prog (string + bytes * Order * OrderData) :=
  try key := ok_or worker_key "worker_key not set" in
  let! r := EOrderSelect order_id in
  try row := r in
  try order := ok_or row "order not found" in
  try raw := ok_or (decrypt_order_blob (o_encrypted_order_blob order) key (o_id order)) "decrypt failed" in
  try data := map_err (fun e => "parse failed: " +:+ e) (order_from_slice raw) in
  Ret (inr (key, order, data)).

Definition mark_order_funded (worker_key : option bytes) (order_id : bytes) (now : Z) : prog (string + unit) :=
  do l := load_order worker_key order_id in
  try x := l in
  let '(key, order, data) := x in
  if negb (bool_decide (state data = "pending")) then Ret (inl "order not in pending state") else
  let data := set_funded_at (Some now) (set_state "funded" data) in
  let! _ := EPublish (hex_encode order_id) in
  write_data key order_id data (o_version order).

Definition mark_order_cancelled (worker_key : option bytes) (order_id : bytes) : prog (string + unit) :=
  do l := load_order worker_key order_id in
  try x := l in
  let '(key, order, data) := x in
  if negb (bool_decide (state data = "pending")) then Ret (inl "order not in pending state") else
  let data := set_state "cancelled" data in
  try json := order_to_vec data in
  let! nonce := ERandom 12 in
  try new_blob := ok_or (encrypt_order_blob nonce json key order_id) "Encryption failed" in
  let! r := EOrderUpdate [SetEncryptedBlob new_blob] order_id (o_version order) in
  try rows_affected := r in
  if Nat.eqb rows_affected 0 then Ret (inl concurrent_writer) else Ret (inr tt).

Definition retry_btc_settlement (cfg : EscrowConfig) (worker_key : option bytes) (order_id : bytes)
    : prog (string + unit) :=
  do l := load_order worker_key order_id in
  try x := l in
  let '(key, order, data) := x in
  if negb (bool_decide (state data = "released")) || bool_decide (is_Some (settlement_txid data))
  then Ret (inr tt) else
  do s := settle_stealth_order cfg worker_key order_id data in
  match s with
  | inl _ => Ret (inr tt)
  | inr data =>
      if bool_decide (is_Some (settlement_txid data)) then
        try json := order_to_vec data in
        let! nonce := ERandom 12 in
        try new_blob := ok_or (encrypt_order_blob nonce json key order_id) "Encryption failed" in
        let expiry_bucket := option_map floor_timestamp_6h (expires_at data) in
        let! r := EOrderUpdate [SetEncryptedBlob new_blob; SetExpiryBucket expiry_bucket] order_id (o_version order) in
        try _ := r in
        Ret (inr tt)
      else Ret (inr tt)
  end.

(** ** The payment checks of one order *)

(** [data.expires_at.unwrap_or(now + 86400)]: the default is always computed. *)
Definition with_expiry {A} (data : OrderData) (now : Z) (k : Z -> prog A) : prog A :=
  arith (i64_op (now + 86400)) (fun d => k (default d (expires_at data))).

Definition address_matches (returned : option string) (escrow_addr : string) : bool :=
  match returned with
  | Some a => constant_time_compare (as_bytes a) (as_bytes escrow_addr)
  | None => true
  end.

Definition check_xmr_payment (wk : option bytes) (now : Z) (xc : MoneroViewOnlyClient)
    (row_id : bytes) (data : OrderData) : prog MoneroViewOnlyClient :=
  match escrow_address data with
  | None => Ret xc
  | Some escrow_addr =>
      arith (parse_xmr_amount_safe (str_of (default "0" (escrow_amount data)))) (fun expected_piconero =>
      if expected_piconero =? 0 then Ret xc else
      do p := xmr_check_payment_with_confirmations escrow_addr expected_piconero REQUIRED_CONFIRMATIONS_XMR xc in
      let '(xc, r) := p in
      match r with
      | inl _ => Ret xc
      | inr status =>
          if ps_fork_detected status then Ret xc
          else if ps_received status && (REQUIRED_CONFIRMATIONS_XMR <=? ps_confirmations status) then
            if negb (address_matches (ps_address status) escrow_addr) then Ret xc
            else
              let audit := mk_audit (hex_encode row_id) (default "" (ps_tx_hash status)) escrow_addr
                             (ps_amount status) 0 now true None in
              let xc := xc_set_audits (fun audits => audits ++ [audit]) xc in
              do _ := mark_order_funded wk row_id now in Ret xc
          else if ps_received status then Ret xc
          else with_expiry data now (fun expiry =>
            if expiry <? now then do _ := mark_order_cancelled wk row_id in Ret xc else Ret xc)
      end)
  end.

Definition check_btc_payment (wk : option bytes) (now : Z) (bc : BitcoinClient)
    (row_id : bytes) (data : OrderData) : prog BitcoinClient :=
  match escrow_address data with
  | None => Ret bc
  | Some escrow_addr =>
      arith (parse_btc_amount_safe (str_of (default "0" (escrow_amount data)))) (fun expected_sats =>
      if expected_sats =? 0 then Ret bc else
      do p := btc_check_payment_with_confirmations escrow_addr expected_sats REQUIRED_CONFIRMATIONS_BTC bc in
      let '(bc, r) := p in
      match r with
      | inl _ => Ret bc
      | inr status =>
          if bs_fork_detected status then Ret bc
          else if bs_received status && (REQUIRED_CONFIRMATIONS_BTC <=? bs_confirmations status) then
            if negb (address_matches (bs_address status) escrow_addr) then Ret bc
            else do _ := mark_order_funded wk row_id now in Ret bc
          else if bs_received status then Ret bc
          else with_expiry data now (fun expiry =>
            if expiry <? now then do _ := mark_order_cancelled wk row_id in Ret bc else Ret bc)
      end)
  end.

(** The loops over the orders of one currency; neither leaves early. *)
Fixpoint check_payments {C} (check : C -> bytes -> OrderData -> prog C) (c : C)
    (orders : list (bytes * OrderData)) : prog C :=
  match orders with
  | [] => Ret c
  | (row_id, data) :: rest => do c := check c row_id data in check_payments check c rest
  end.

Definition check_xmr_payments (wk : option bytes) (now : Z) :=
  check_payments (check_xmr_payment wk now).
Definition check_btc_payments (wk : option bytes) (now : Z) :=
  check_payments (check_btc_payment wk now).

(** ** The job *)

Inductive bucket := ToXmr | ToBtc | ToSettle | Skip.
#[global] Instance bucket_eq_dec : EqDecision bucket.
Proof. solve_decision. Defined.

(** What the poll does with an order it opened. *)
Definition classify (data : OrderData) : bucket :=
  if bool_decide (escrow_address data = None) then Skip
  else if bool_decide (state data = "pending") then
    if bool_decide (currency data = "XMR") then ToXmr
    else if bool_decide (currency data = "BTC") then ToBtc else Skip
  else if bool_decide (state data = "released") then
    if bool_decide (currency data = "BTC") && bool_decide (settlement_txid data = None) then ToSettle else Skip
  else Skip.

(** [decrypt_ecdh_blob(..).or_else(|| decrypt_order_blob(..))], then parse. *)
Definition open_polled (key payment_decrypt_sk : bytes) (order : Order) : option OrderData :=
  raw ← match decrypt_ecdh_blob (o_encrypted_order_blob order) payment_decrypt_sk with
        | Some raw => Some raw
        | None => decrypt_order_blob (o_encrypted_order_blob order) key (o_id order)
        end;
  opt_result (order_from_slice raw).

Definition polled (key payment_decrypt_sk : bytes) (b : bucket) (orders : list Order)
    : list (bytes * OrderData) :=
  omap (fun order =>
          data ← open_polled key payment_decrypt_sk order;
          if bool_decide (classify data = b) then Some (o_id order, data) else None) orders.

Fixpoint settle_all (cfg : EscrowConfig) (wk : option bytes) (ids : list bytes) : prog unit :=
  match ids with
  | [] => Ret tt
  | order_id :: rest => do _ := retry_btc_settlement cfg wk order_id in settle_all cfg wk rest
  end.

(** [hash_order] is the order in which the [HashMap] gives its keys. *)
Definition check_pending_payments (cfg : EscrowConfig) (worker_key : option bytes)
    (hash_order : list bytes -> list bytes) (clients : MoneroViewOnlyClient * BitcoinClient)
    : prog ((MoneroViewOnlyClient * BitcoinClient) * (string + unit)) :=
  let '(xc, bc) := clients in
  let! ts := ENow in
  let now := floor_timestamp_6h ts in
  match get_worker_key worker_key with
  | inl e => Ret ((xc, bc), inl e)
  | inr key =>
      let! r := EOrderAll in
      match r with
      | inl e => Ret ((xc, bc), inl e)
      | inr orders =>
          match derive_domain_key key "payment-decrypt" with
          | None => Panic
          | Some payment_decrypt_sk =>
              let xmr_orders := polled key payment_decrypt_sk ToXmr orders in
              let btc_orders := polled key payment_decrypt_sk ToBtc orders in
              let settle_ids := map fst (polled key payment_decrypt_sk ToSettle orders) in
              do cs :=
                (if Nat.eqb (length xmr_orders) 0 && Nat.eqb (length btc_orders) 0 then Ret (xc, bc) else
                 do p := xmr_check_for_fork xc in
                 let '(xc, f) := p in
                 do xc := match f with
                          | inr false => check_xmr_payments worker_key now xc xmr_orders
                          | _ => Ret xc
                          end in
                 do p := btc_check_for_fork bc in
                 let '(bc, f) := p in
                 do bc := match f with
                          | inr false => check_btc_payments worker_key now bc btc_orders
                          | _ => Ret bc
                          end in
                 Ret (xc, bc)) in
              do _ := settle_all cfg worker_key (hash_order settle_ids) in
              Ret (cs, inr tt)
          end
      end
  end.

(** ** What a poll may do to an order *)

(** One update: of a pending order that becomes funded or cancelled, or of a
    released one that gets its settlement id. *)
Definition poll_step (key : bytes) (o o' : Order) : Prop :=
  o_id o' = o_id o /\ o_version o' = o_version o + 1 /\
  exists d d', open_order key o = Some d /\ open_order key o' = Some d' /\
    ((state d = "pending" /\
       ((exists now, d' = set_funded_at (Some now) (set_state "funded" d)) \/ d' = set_state "cancelled" d)) \/
     (state d = "released" /\ settlement_txid d = None /\ exists txid, d' = set_settlement_txid (Some txid) d)).

(** *** The updates *)

Context `{!AeadLaws _} `{!SerdeLaws _}.

Lemma load_order_run env wk id w w' r :
  run env (load_order wk id) w = (w', r) ->
  w_orders w' = w_orders w /\
  match r with
  | Some (inr (key, o, d)) => wk = Some key /\ w_orders w !! id = Some o /\ open_order key o = Some d
  | _ => True
  end.
Proof.
  unfold load_order. intros E. destruct wk as [key|]; cbn [ok_or] in E; [|cbn in E; by simplify_eq].
  step_in E. destruct (env_db_fault env _); [cbn in E; by simplify_eq/=|].
  destruct (w_orders w !! id) as [o|] eqn:Eo; cbn [ok_or] in E; [|cbn in E; by simplify_eq/=].
  destruct (decrypt_order_blob _ key _) as [raw|] eqn:Ed; cbn [ok_or] in E; [|cbn in E; by simplify_eq/=].
  destruct (order_from_slice raw) as [e|d] eqn:Es; cbn [map_err] in E; cbn in E; simplify_eq/=; [done|].
  split; [done|]. split; [done|]. split; [done|]. unfold open_order. rewrite Ed. cbn. by rewrite Es.
Qed.

Lemma updated_evolves key id Q m m' :
  (forall d d', Q d d' ->
    (state d = "pending" /\
       ((exists now, d' = set_funded_at (Some now) (set_state "funded" d)) \/ d' = set_state "cancelled" d)) \/
    (state d = "released" /\ settlement_txid d = None /\ exists txid, d' = set_settlement_txid (Some txid) d)) ->
  updated key id Q m m' -> evolves (poll_step key) m m'.
Proof.
  intros HQ [->|(o & d & o' & d' & Hm & Hd & Hq & Hi & Hv & Hd' & ->)]; [apply evolves_refl|].
  apply (evolves_insert _ _ _ o); [done|]. split; [done|]. split; [done|]. exists d, d'. eauto.
Qed.

Definition funding (now : Z) (d d' : OrderData) : Prop :=
  state d = "pending" /\ d' = set_funded_at (Some now) (set_state "funded" d).
Definition cancelling (d d' : OrderData) : Prop :=
  state d = "pending" /\ d' = set_state "cancelled" d.
Definition settling (d d' : OrderData) : Prop :=
  state d = "released" /\ settlement_txid d = None /\ exists txid, d' = set_settlement_txid (Some txid) d.

Lemma affected_reads (x : string + nat) :
  reads_only (try n := x in if Nat.eqb n 0 then Ret (inl concurrent_writer) else Ret (inr tt) : prog (string + unit)).
Proof. reads_only_tac. Qed.

Lemma mark_funded_run env key id now w w' r :
  fair env -> keyed o_id (w_orders w) ->
  run env (mark_order_funded (Some key) id now) w = (w', r) ->
  updated key id (funding now) (w_orders w) (w_orders w').
Proof.
  intros Hf Hk E. unfold mark_order_funded in E. rewrite run_bind in E.
  destruct (run env (load_order (Some key) id) w) as [w1 l] eqn:El.
  apply load_order_run in El as [Ho Hl].
  destruct l as [[e|[[key' o] d]]|]; [cbn in E; simplify_eq; by left| |simplify_eq; by left].
  destruct Hl as ([= <-] & Hm & Hd).
  destruct (bool_decide_reflect (state d = "pending")) as [Hp|]; cbn [negb] in E; [|cbn in E; simplify_eq; by left].
  step_in E. rewrite <-Ho in Hm.
  eapply (store_run env key _ o (fun blob => [SetEncryptedBlob blob; SetExpiryBucket _])) in E;
    [|exact Hf|rewrite Ho in Hm; by apply Hk|exact Hm|by right|by intros; apply affected_reads].
  cbn [w_orders w_publish w_tick] in E. rewrite Ho in *. destruct E as [E|(o' & Hi & Hv & Hd' & E)]; [by left|].
  right. exists o, d, o'. eexists. do 3 (split; [done|]). done.
Qed.

Lemma mark_cancelled_run env key id w w' r :
  fair env -> keyed o_id (w_orders w) ->
  run env (mark_order_cancelled (Some key) id) w = (w', r) ->
  updated key id cancelling (w_orders w) (w_orders w').
Proof.
  intros Hf Hk E. unfold mark_order_cancelled in E. rewrite run_bind in E.
  destruct (run env (load_order (Some key) id) w) as [w1 l] eqn:El.
  apply load_order_run in El as [Ho Hl].
  destruct l as [[e|[[key' o] d]]|]; [cbn in E; simplify_eq; by left| |simplify_eq; by left].
  destruct Hl as ([= <-] & Hm & Hd).
  destruct (bool_decide_reflect (state d = "pending")) as [Hp|]; cbn [negb] in E; [|cbn in E; simplify_eq; by left].
  rewrite <-Ho in Hm.
  eapply (store_run env key _ o (fun blob => [SetEncryptedBlob blob])) in E;
    [|exact Hf|rewrite Ho in Hm; by apply Hk|exact Hm|by left|by intros; apply affected_reads].
  rewrite Ho in *. destruct E as [E|(o' & Hi & Hv & Hd' & E)]; [by left|].
  right. exists o, d, o'. eexists. do 3 (split; [done|]). done.
Qed.

Lemma retry_settlement_run env cfg key id w w' r :
  fair env -> keyed o_id (w_orders w) ->
  run env (retry_btc_settlement cfg (Some key) id) w = (w', r) ->
  updated key id settling (w_orders w) (w_orders w').
Proof.
  intros Hf Hk E. unfold retry_btc_settlement in E. rewrite run_bind in E.
  destruct (run env (load_order (Some key) id) w) as [w1 l] eqn:El.
  apply load_order_run in El as [Ho Hl].
  destruct l as [[e|[[key' o] d]]|]; [cbn in E; simplify_eq; by left| |simplify_eq; by left].
  destruct Hl as ([= <-] & Hm & Hd).
  destruct (bool_decide_reflect (state d = "released")) as [Hp|]; cbn [negb orb] in E; [|cbn in E; simplify_eq; by left].
  destruct (bool_decide_reflect (is_Some (settlement_txid d))) as [|Hn]; [cbn in E; simplify_eq; by left|].
  apply eq_None_not_Some in Hn. rewrite run_bind in E.
  destruct (run env (settle_stealth_order cfg (Some key) id d) w1) as [w2 [[e|d']|]] eqn:Es;
    destruct (reads_run _ (reads_settle cfg (Some key) id d) env w1 w2 _ Es) as [Ho2 _];
    [cbn in E; simplify_eq; left; congruence| |simplify_eq; left; congruence].
  destruct (bool_decide_reflect (is_Some (settlement_txid d'))) as [Hs|];
    [|cbn in E; simplify_eq; left; congruence].
  apply settle_only_txid in Es as [->|[txid ->]]; [rewrite Hn in Hs; by destruct Hs|].
  rewrite <-Ho, <-Ho2 in Hm.
  eapply (store_run env key _ o (fun blob => [SetEncryptedBlob blob; SetExpiryBucket _])) in E;
    [|exact Hf|rewrite Ho2, Ho in Hm; by apply Hk|exact Hm|by right|intros; reads_only_tac].
  rewrite Ho2, Ho in *. destruct E as [E|(o' & Hi & Hv & Hd' & E)]; [by left|].
  right. exists o, d, o'. eexists. do 2 (split; [done|]).
  split; [split; [done|]; split; [done|]; by eexists|]. done.
Qed.

(** ** What a check requires *)

(** The Monero node listed a payment of at least the amount to the address, at
    least ten blocks deep. *)
Definition xmr_paid (env : Env) (addr : string) (expected : Z) : Prop :=
  exists t tx height amount,
    node_reports env t addr tx height /\ as_u64 (jindex tx "amount") = Some amount /\
    contains_in (default "" (as_str (jindex tx "type"))) = true /\
    0 < expected <= amount /\
    REQUIRED_CONFIRMATIONS_XMR <= u64_sat_sub height (default height (as_u64 (jindex tx "height"))).

(** The Bitcoin node listed a transaction to the address of at least the amount
    with at least six confirmations. *)
Definition btc_paid (env : Env) (addr : string) (expected : Z) : Prop :=
  exists t txs tx,
    match rpc_result "BTC" (env_rpc env t Btc "listtransactions"
            (JArr [JStr "order:*"; JNum 10000; JNum 0; JBool true])) with
    | inl _ => False
    | inr j => de_r (de_vec de_detail) j = inr txs
    end /\ tx ∈ txs /\ td_address tx = Some addr /\
    0 < expected <= btc_f64_to_sats (td_amount tx) /\ REQUIRED_CONFIRMATIONS_BTC <= td_confirmations tx.

(** The change a check may make, [paid] being the node's evidence. *)
Definition check_step (now : Z) (data : OrderData) (paid : Prop) (d d' : OrderData) : Prop :=
  (funding now d d' /\ paid) \/
  (cancelling d d' /\ exists limit, i64_op (now + 86400) = Some limit /\ default limit (expires_at data) < now).

Lemma updated_mono key id (Q Q' : OrderData -> OrderData -> Prop) m m' :
  (forall d d', Q d d' -> Q' d d') -> updated key id Q m m' -> updated key id Q' m m'.
Proof.
  intros HQ [->|(o & d & o' & d' & Hm & Hd & Hq & Hrest)]; [by left|]. right. exists o, d, o', d'. eauto.
Qed.

Lemma expiry_branch env key id now data paid {C} (c : C) w w' r :
  fair env -> keyed o_id (w_orders w) ->
  run env (with_expiry data now (fun expiry =>
    if expiry <? now then do _ := mark_order_cancelled (Some key) id in Ret c else Ret c)) w = (w', r) ->
  updated key id (check_step now data paid) (w_orders w) (w_orders w').
Proof.
  intros Hf Hk E. unfold with_expiry, arith in E.
  destruct (i64_op (now + 86400)) as [limit|] eqn:El; [|cbn in E; simplify_eq; by left].
  destruct (Z.ltb_spec (default limit (expires_at data)) now); [|cbn in E; simplify_eq; by left].
  rewrite run_bind in E. destruct (run env (mark_order_cancelled _ _) w) as [w1 x] eqn:Em.
  apply mark_cancelled_run in Em; [|done..].
  assert (w_orders w' = w_orders w1) as -> by (destruct x as [[|]|]; cbn in E; by simplify_eq).
  eapply updated_mono; [|exact Em]. intros d d' Hd. right. split; [done|]. by exists limit.
Qed.

Lemma mark_funded_branch env key id now data (paid : Prop) {C} (c : C) w w' r :
  fair env -> keyed o_id (w_orders w) -> paid ->
  run env (do _ := mark_order_funded (Some key) id now in Ret c) w = (w', r) ->
  updated key id (check_step now data paid) (w_orders w) (w_orders w').
Proof.
  intros Hf Hk Hp E. rewrite run_bind in E.
  destruct (run env (mark_order_funded _ _ _) w) as [w1 x] eqn:Em. apply mark_funded_run in Em; [|done..].
  assert (w_orders w' = w_orders w1) as -> by (destruct x as [[|]|]; cbn in E; by simplify_eq).
  eapply updated_mono; [|exact Em]. intros d d' Hd. by left.
Qed.

Lemma check_xmr_run env key now xc id data w w' r addr expected :
  fair env -> keyed o_id (w_orders w) ->
  escrow_address data = Some addr ->
  parse_xmr_amount_safe (str_of (default "0" (escrow_amount data))) = Some expected ->
  run env (check_xmr_payment (Some key) now xc id data) w = (w', r) ->
  updated key id (check_step now data (xmr_paid env addr expected)) (w_orders w) (w_orders w').
Proof.
  intros Hf Hk Ha He E. unfold check_xmr_payment in E. rewrite Ha, He in E. cbn [arith] in E.
  destruct (Z.eqb_spec expected 0); [cbn in E; simplify_eq; by left|]. rewrite run_bind in E.
  destruct (run env (xmr_check_payment_with_confirmations _ _ _ xc) w) as [w1 [[xc1 x]|]] eqn:Ec;
    destruct (reads_run _ (reads_xmr_check _ _ _ _) env w w1 _ Ec) as [Ho _]; [|simplify_eq; by left].
  destruct x as [e|s]; [cbn in E; simplify_eq; by left|].
  destruct (ps_fork_detected s) eqn:Efork; [cbn in E; simplify_eq; by left|].
  rewrite <-Ho in Hk |- *. destruct (ps_received s) eqn:Er; cbn [andb] in E.
  - destruct (Z.leb_spec REQUIRED_CONFIRMATIONS_XMR (ps_confirmations s)) as [Hc|];
      [|cbn in E; simplify_eq; by left].
    destruct (address_matches _ _); cbn [negb] in E; [|cbn in E; simplify_eq; by left].
    refine (mark_funded_branch env key id now data _ _ w1 w' r Hf Hk _ E).
    destruct (payment_reported _ _ _ _ _ _ _ _ _ Ec Er) as (_ & _ & Hamt & _ & t & tx & h & Hn & Hin & Hj & _ & Hconf).
    exists t, tx, h, (ps_amount s). rewrite Hconf in Hc. done.
  - by refine (expiry_branch env key id now data _ _ w1 w' r Hf Hk E).
Qed.

Lemma check_btc_run env key now bc id data w w' r addr expected :
  fair env -> keyed o_id (w_orders w) ->
  escrow_address data = Some addr ->
  parse_btc_amount_safe (str_of (default "0" (escrow_amount data))) = Some expected ->
  run env (check_btc_payment (Some key) now bc id data) w = (w', r) ->
  updated key id (check_step now data (btc_paid env addr expected)) (w_orders w) (w_orders w').
Proof.
  intros Hf Hk Ha He E. unfold check_btc_payment in E. rewrite Ha, He in E. cbn [arith] in E.
  destruct (Z.eqb_spec expected 0); [cbn in E; simplify_eq; by left|]. rewrite run_bind in E.
  destruct (run env (btc_check_payment_with_confirmations _ _ _ bc) w) as [w1 [[bc1 x]|]] eqn:Ec;
    destruct (reads_run _ (reads_btc_check _ _ _ _) env w w1 _ Ec) as [Ho _]; [|simplify_eq; by left].
  destruct x as [e|s]; [cbn in E; simplify_eq; by left|].
  destruct (bs_fork_detected s) eqn:Efork; [cbn in E; simplify_eq; by left|].
  rewrite <-Ho in Hk |- *. destruct (bs_received s) eqn:Er; cbn [andb] in E.
  - destruct (Z.leb_spec REQUIRED_CONFIRMATIONS_BTC (bs_confirmations s)) as [Hc|];
      [|cbn in E; simplify_eq; by left].
    destruct (address_matches _ _); cbn [negb] in E; [|cbn in E; simplify_eq; by left].
    refine (mark_funded_branch env key id now data _ _ w1 w' r Hf Hk _ E).
    destruct (btc_payment_reported _ _ _ _ _ _ _ _ _ Ec Er)
      as (_ & _ & Hamt & _ & t & txs & tx & Hl & Htx & Haddr & _ & Hsat & _ & Hconf).
    exists t, txs, tx. rewrite Hsat in Hamt. rewrite Hconf in Hc. done.
  - by refine (expiry_branch env key id now data _ _ w1 w' r Hf Hk E).
Qed.

(** C3. The check of an order changes no other row, and its own only while it is
    pending: to funded, when the node of its currency reported a payment to its
    escrow address of at least the parsed amount, deep enough; or to cancelled,
    when the deadline the poll read for it is past. *)
Theorem funded_only_when_paid env key now xc bc id data w w' :
  fair env -> keyed o_id (w_orders w) ->
  ((exists r, run env (check_xmr_payment (Some key) now xc id data) w = (w', r)) \/
   (exists r, run env (check_btc_payment (Some key) now bc id data) w = (w', r))) ->
  (forall id', id' <> id -> w_orders w' !! id' = w_orders w !! id') /\
  forall o', w_orders w' !! id = Some o' -> w_orders w !! id <> Some o' ->
    exists o d d', w_orders w !! id = Some o /\ open_order key o = Some d /\ open_order key o' = Some d' /\
      state d = "pending" /\ o_version o' = o_version o + 1 /\
      ((d' = set_funded_at (Some now) (set_state "funded" d) /\
        exists addr expected, escrow_address data = Some addr /\
          ((parse_xmr_amount_safe (str_of (default "0" (escrow_amount data))) = Some expected /\
            xmr_paid env addr expected) \/
           (parse_btc_amount_safe (str_of (default "0" (escrow_amount data))) = Some expected /\
            btc_paid env addr expected))) \/
       (d' = set_state "cancelled" d /\
        exists limit, i64_op (now + 86400) = Some limit /\ default limit (expires_at data) < now)).
Proof.
  intros Hf Hk Hrun.
  set (paid := exists addr expected, escrow_address data = Some addr /\
     ((parse_xmr_amount_safe (str_of (default "0" (escrow_amount data))) = Some expected /\ xmr_paid env addr expected) \/
      (parse_btc_amount_safe (str_of (default "0" (escrow_amount data))) = Some expected /\ btc_paid env addr expected))).
  assert (updated key id (check_step now data paid) (w_orders w) (w_orders w')) as [Hu|Hu].
  { destruct (escrow_address data) as [addr|] eqn:Ea.
    2: { left. destruct Hrun as [[r E]|[r E]]; [unfold check_xmr_payment in E|unfold check_btc_payment in E];
           rewrite Ea in E; cbn in E; by simplify_eq. }
    destruct Hrun as [[r E]|[r E]].
    - destruct (parse_xmr_amount_safe (str_of (default "0" (escrow_amount data)))) as [x|] eqn:Ep.
      + eapply updated_mono; [|by eapply check_xmr_run].
        intros d d' [[? ?]|?]; [|by right]. left. split; [done|]. exists addr, x. split; [done|by left].
      + left. unfold check_xmr_payment in E. rewrite Ea, Ep in E. cbn in E. by simplify_eq.
    - destruct (parse_btc_amount_safe (str_of (default "0" (escrow_amount data)))) as [x|] eqn:Ep.
      + eapply updated_mono; [|by eapply check_btc_run].
        intros d d' [[? ?]|?]; [|by right]. left. split; [done|]. exists addr, x. split; [done|by right].
      + left. unfold check_btc_payment in E. rewrite Ea, Ep in E. cbn in E. by simplify_eq. }
  - rewrite Hu. split; [done|]. intros o' Hx Hne. done.
  - destruct Hu as (o & d & o' & d' & Hm & Hd & Hq & _ & Hv & Hd' & ->). split.
    { intros id' Hne. by rewrite lookup_insert_ne. }
    intros x Hx _. rewrite lookup_insert_eq in Hx. simplify_eq. exists o, d, d'.
    destruct Hq as [[[Hp ->] Hpaid]|[[Hp ->] Hl]]; (split_and!; [done..|]); [by left|by right].
Qed.

(** ** The whole job *)

(** A program whose runs only make steps of a poll. *)
Abbreviation polls env key := (evolving env (poll_step key)).

Lemma polls_updated env key id (Q : OrderData -> OrderData -> Prop) {A} (p : prog A) :
  (forall d d', Q d d' -> (exists now, funding now d d') \/ cancelling d d' \/ settling d d') ->
  (forall w w' r, keyed o_id (w_orders w) -> run env p w = (w', r) ->
     updated key id Q (w_orders w) (w_orders w')) ->
  polls env key p.
Proof.
  intros HQ Hp w w' r Hk E. specialize (Hp w w' r Hk E). split; [|by eapply updated_keyed].
  eapply updated_evolves; [|exact Hp]. intros d d' Hd.
  destruct (HQ d d' Hd) as [[now [Hs ->]]|[[Hs ->]|Hs]]; [left|left|right; exact Hs].
  - split; [done|]. left. by exists now.
  - split; [done|]. by right.
Qed.

Lemma polls_xmr env key now c id data : fair env -> polls env key (check_xmr_payment (Some key) now c id data).
Proof.
  intros Hf. destruct (escrow_address data) as [addr|] eqn:Ea.
  2: { unfold check_xmr_payment. rewrite Ea. apply evolving_ret. }
  destruct (parse_xmr_amount_safe (str_of (default "0" (escrow_amount data)))) as [x|] eqn:Ep.
  2: { unfold check_xmr_payment. rewrite Ea, Ep. apply evolving_reads, reads_panic. }
  apply (polls_updated env key id (check_step now data (xmr_paid env addr x))).
  - intros d d' [[? _]|[? _]]; eauto.
  - intros w w' r Hk E. by eapply check_xmr_run.
Qed.

Lemma polls_btc env key now c id data : fair env -> polls env key (check_btc_payment (Some key) now c id data).
Proof.
  intros Hf. destruct (escrow_address data) as [addr|] eqn:Ea.
  2: { unfold check_btc_payment. rewrite Ea. apply evolving_ret. }
  destruct (parse_btc_amount_safe (str_of (default "0" (escrow_amount data)))) as [x|] eqn:Ep.
  2: { unfold check_btc_payment. rewrite Ea, Ep. apply evolving_reads, reads_panic. }
  apply (polls_updated env key id (check_step now data (btc_paid env addr x))).
  - intros d d' [[? _]|[? _]]; eauto.
  - intros w w' r Hk E. by eapply check_btc_run.
Qed.

Lemma polls_loop env key {C} (check : C -> bytes -> OrderData -> prog C) c orders :
  (forall c id d, polls env key (check c id d)) -> polls env key (check_payments check c orders).
Proof.
  intros Hc. revert c. induction orders as [|[id d] t IH]; intros c; cbn [check_payments]; [apply evolving_ret|].
  apply evolving_bind; [done|]. intros c'. apply IH.
Qed.

Lemma polls_settle env cfg key ids : fair env -> polls env key (settle_all cfg (Some key) ids).
Proof.
  intros Hf. induction ids as [|id t IH]; cbn [settle_all]; [apply evolving_ret|].
  apply evolving_bind; [|by intros]. apply (polls_updated env key id settling); [by auto|].
  intros w w' r Hk E. by eapply retry_settlement_run.
Qed.

(** A poll, whatever the nodes and the database answer and even if it panics,
    neither adds nor removes an order, and takes each through a sequence of
    single-version updates: a pending order becomes funded or cancelled, a
    released one without a settlement gets its settlement id. *)
Theorem poll_transitions env cfg key hash_order clients w w' r :
  fair env -> keyed o_id (w_orders w) ->
  run env (check_pending_payments cfg (Some key) hash_order clients) w = (w', r) ->
  forall id, match w_orders w !! id, w_orders w' !! id with
    | Some o, Some o' => rtc (poll_step key) o o'
    | None, None => True
    | _, _ => False
    end.
Proof.
  intros Hf Hk Hrun. apply (proj1 (B := keyed o_id (w_orders w'))). revert w w' r Hk Hrun.
  change (polls env key (check_pending_payments cfg (Some key) hash_order clients)).
  destruct clients as [xc bc]. unfold check_pending_payments. cbn [get_worker_key ok_or].
  apply evolving_vis; [done|]. intros ts. apply evolving_vis; [done|]. intros [e|orders]; [apply evolving_ret|].
  destruct (derive_domain_key key "payment-decrypt") as [sk|]; [|apply evolving_reads, reads_panic].
  apply evolving_bind; [|intros cs; apply evolving_bind; [by apply polls_settle|intros; apply evolving_ret]].
  destruct (_ && _); [apply evolving_ret|].
  apply evolving_bind; [apply evolving_reads, reads_xmr_fork|]. intros [xc' f].
  apply evolving_bind.
  { destruct f as [|[]]; try apply evolving_ret. apply polls_loop. intros. by apply polls_xmr. }
  intros xc2. apply evolving_bind; [apply evolving_reads, reads_btc_fork|]. intros [bc' g].
  apply evolving_bind; [|intros; apply evolving_ret].
  destruct g as [|[]]; try apply evolving_ret. apply polls_loop. intros. by apply polls_btc.
Qed.
End poller.

(** ** Funding *)

Section funding.
Context `{BuildProfile} `{Hashing} `{Hex} `{Aead} `{Serde} `{!AeadLaws _} `{!SerdeLaws _} `{!HashingLaws _}
  `{!WorkerTotal _ _ _}.

Lemma load_order_ok env key id o d w :
  quiet env -> w_orders w !! id = Some o -> open_order key o = Some d ->
  run env (load_order (Some key) id) w = (w_tick w, Some (inr (key, o, d))).
Proof.
  intros Hq Hm Hd. unfold load_order. cbn [ok_or]. step. rewrite Hm. cbn [ok_or].
  unfold open_order in Hd. destruct (decrypt_order_blob _ key _) as [raw|]; cbn in Hd; [|done]. cbn [ok_or].
  destruct (order_from_slice raw) as [e|d0]; cbn in Hd; [done|]. by simplify_eq.
Qed.

(** Without faults, marking a pending order whose data opens funds it: the row
    opens to the same data in state "funded" with the time of the poll, its
    version grows by one, and the subscribers of the order are notified once. *)
Theorem mark_order_funded_effect env key id now o d w :
  fair env -> quiet env -> keyed o_id (w_orders w) ->
  w_orders w !! id = Some o -> open_order key o = Some d -> state d = "pending" ->
  exists w' o', run env (mark_order_funded (Some key) id now) w = (w', Some (inr tt)) /\
    w_orders w' = <[id := o']> (w_orders w) /\
    open_order key o' = Some (set_funded_at (Some now) (set_state "funded" d)) /\
    o_version o' = o_version o + 1 /\
    w_published w' = w_published w ++ [hex_encode id].
Proof.
  intros Hf Hq Hk Hm Hd Hp. pose proof (Hk _ _ Hm) as <-. unfold mark_order_funded.
  rewrite run_bind, (load_order_ok env key _ o d w Hq Hm Hd). rewrite bool_decide_eq_true_2 by done.
  cbn [negb]. step. unfold write_data.
  match goal with |- context [order_to_vec ?x] => set (d' := x) end.
  destruct (encrypt_order_total key (o_id o) d' _ (Hf (S (S (w_time w))) 12%nat)) as (json & blob & Ej & Eb).
  rewrite Ej. step. rewrite Eb. cbn [ok_or]. step.
  rewrite (sql_update_hit _ _ _ _ o Hm eq_refl). cbn [Nat.eqb run]. eexists _, _. split; [done|].
  split; [done|]. split; [by eapply open_rewritten; [apply Hf|done|]|]. split; [by destruct o|]. done.
Qed.

(** Likewise for cancelling, which notifies nobody. *)
Lemma mark_order_cancelled_effect env key id o d w :
  fair env -> quiet env -> keyed o_id (w_orders w) ->
  w_orders w !! id = Some o -> open_order key o = Some d -> state d = "pending" ->
  exists w' o', run env (mark_order_cancelled (Some key) id) w = (w', Some (inr tt)) /\
    w_orders w' = <[id := o']> (w_orders w) /\
    open_order key o' = Some (set_state "cancelled" d) /\ o_version o' = o_version o + 1.
Proof.
  intros Hf Hq Hk Hm Hd Hp. pose proof (Hk _ _ Hm) as <-. unfold mark_order_cancelled.
  rewrite run_bind, (load_order_ok env key _ o d w Hq Hm Hd). rewrite bool_decide_eq_true_2 by done. cbn [negb].
  match goal with |- context [order_to_vec ?x] => set (d' := x) end.
  destruct (encrypt_order_total key (o_id o) d' _ (Hf (S (w_time w)) 12%nat)) as (json & blob & Ej & Eb).
  rewrite Ej. step. rewrite Eb. cbn [ok_or]. step.
  rewrite (sql_update_hit _ _ _ _ o Hm eq_refl). cbn [Nat.eqb run]. eexists _, _. split; [done|].
  split; [done|]. split; [by eapply open_rewritten_blob; [apply Hf|done|]|by destruct o].
Qed.
End funding.

(** ** Witnesses *)

Definition poll_data : OrderData :=
  mk_order_data [] [] [] None None "pending" "XMR" (Some "addr") (Some "1.0") 604800 0
    None None None None None None None None None None None None [] None.
Definition poll_key : bytes := sha256 (as_bytes "worker").
Definition poll_row (b : bytes) : Order := mk_order (le_bytes 16 9) b 0 None 1 0 None None None.
Definition json_of (d : OrderData) : bytes := match order_to_vec d with inr j => j | inl _ => [] end.
Definition poll_order : Order :=
  poll_row (default [] (encrypt_order_blob (replicate 12 Byte.x00) (json_of poll_data) poll_key (le_bytes 16 9))).
Definition poll_world : World := world_with_order poll_order.

Lemma poll_world_keyed o : keyed o_id (w_orders (world_with_order o)).
Proof. intros id o' Hl. cbn in Hl. by apply lookup_singleton_Some in Hl as [<- <-]. Qed.

Lemma paid_env_fair : fair paid_env.
Proof. intros t n. apply repeat_length. Qed.

#[local] Existing Instance release.

Lemma mark_order_funded_effect_witness :
  exists w' o', run sample_env (mark_order_funded (Some poll_key) (o_id poll_order) 5) poll_world
      = (w', Some (inr tt)) /\
    open_order poll_key o' = Some (set_funded_at (Some 5) (set_state "funded" poll_data)) /\
    w_published w' = [hex_encode (o_id poll_order)].
Proof.
  destruct (mark_order_funded_effect sample_env poll_key (o_id poll_order) 5 poll_order poll_data poll_world
              sample_env_fair sample_env_quiet (poll_world_keyed poll_order)) as (w' & o' & Hr & _ & Ho & _ & Hp).
  - vm_compute. reflexivity.
  - vm_compute. reflexivity.
  - reflexivity.
  - exists w', o'. split; [exact Hr|]. split; [exact Ho|exact Hp].
Defined.

Lemma funded_only_when_paid_witness :
  exists d', option_map state
      (w_orders (fst (run paid_env (check_xmr_payment (Some poll_key) 1746986400 synced_client (o_id poll_order) poll_data)
                        poll_world)) !! o_id poll_order ≫= open_order poll_key) = Some (state d') /\
    state d' = "funded".
Proof.
  destruct (run paid_env (check_xmr_payment (Some poll_key) 1746986400 synced_client (o_id poll_order) poll_data)
              poll_world) as [w' r] eqn:E.
  destruct (funded_only_when_paid paid_env poll_key 1746986400 synced_client btc_new (o_id poll_order) poll_data
              poll_world w' paid_env_fair (poll_world_keyed poll_order)) as [_ Hc].
  { left. exists r. exact E. }
  assert (exists o', w_orders w' !! o_id poll_order = Some o' /\ o_version o' = 2 /\
            option_map state (open_order poll_key o') = Some "funded") as (o' & Ho & Hv & Hs).
  { apply (f_equal fst) in E. cbn [fst] in E. rewrite <-E. eexists. split; [vm_compute; reflexivity|].
    split; vm_compute; reflexivity. }
  destruct (Hc o' Ho) as (o & d & d' & _ & _ & Hd' & _).
  { intros Hw. assert (o_version <$> w_orders poll_world !! o_id poll_order = Some 1) as E1
      by (vm_compute; reflexivity). rewrite Hw in E1. cbn in E1. rewrite Hv in E1. discriminate. }
  exists d'. cbn [fst]. rewrite Ho. cbn [mbind option_bind]. rewrite Hd' in Hs |- *. cbn in Hs.
  split; [reflexivity|]. injection Hs as ->. reflexivity.
Defined.

Definition poll_config : EscrowConfig := mk_escrow_config "mainnet" (Some "fee") 4.

Lemma poll_transitions_witness :
  let w' := fst (run paid_env (check_pending_payments poll_config (Some poll_key) id (synced_client, btc_new)) poll_world) in
  exists o', w_orders w' !! o_id poll_order = Some o' /\ o_version o' = 2 /\ rtc (poll_step poll_key) poll_order o'.
Proof.
  intros w'. destruct (run paid_env (check_pending_payments poll_config (Some poll_key) id (synced_client, btc_new))
                         poll_world) as [w1 r] eqn:E.
  pose proof (poll_transitions paid_env poll_config poll_key id (synced_client, btc_new) poll_world w1 r
                paid_env_fair (poll_world_keyed poll_order) E (o_id poll_order)) as Hp.
  assert (w_orders poll_world !! o_id poll_order = Some poll_order) as El by (vm_compute; reflexivity).
  rewrite El in Hp.
  assert (o_version <$> w_orders w1 !! o_id poll_order = Some 2) as Ev.
  { apply (f_equal fst) in E. cbn [fst] in E. rewrite <-E. vm_compute. reflexivity. }
  subst w'. cbn [fst]. destruct (w_orders w1 !! o_id poll_order) as [o'|]; [|done].
  exists o'. split; [reflexivity|]. split; [by injection Ev|exact Hp].
Defined.

(** An order the browser encrypted to the worker is polled, but cannot be marked:
    [mark_order_funded] only opens blobs of the worker's own form. *)
Definition ecdh_order : Order :=
  let sk := default [] (derive_domain_key poll_key "payment-decrypt") in
  poll_row (default [] (encrypt_ecdh_blob auth_sk (replicate 12 Byte.x00) (json_of poll_data) (x_public sk))).

Example ecdh_order_never_funded :
  let sk := default [] (derive_domain_key poll_key "payment-decrypt") in
  option_map state (open_polled poll_key sk ecdh_order) = Some "pending" /\
  classify poll_data = ToXmr /\
  snd (run sample_env (mark_order_funded (Some poll_key) (o_id ecdh_order) 5) (world_with_order ecdh_order))
    = Some (inl "decrypt failed").
Proof. split_and!; vm_compute; reflexivity. Qed.
