(* ===== verification/PollSpec.v ===== *)
(** What a whole poll does to the Monero orders, src/background/payment_poller.rs:
    a specification of its verdicts and the refinement theorem.

    The orders polled before and after an order, the Bitcoin phase and the
    settlements do not touch its row, whatever they do and even if they panic. *)
From S2P Require Import Prelude Interfaces Instances TimeBuckets Models Effects Serde Auth Blobs Worker Amounts Rpc XmrClient BtcClient Escrow NodeReads Poller.

(** ** Programs that always return *)

(** No path ends in a panic. *)
Fixpoint returns {A} (p : prog A) : Prop :=
  match p with
  | Ret _ => True
  | Panic => False
  | Vis e k => forall r, returns (k r)
  end.

Lemma returns_run {A} (p : prog A) env w : returns p -> exists w' a, run env p w = (w', Some a).
Proof.
  revert w. induction p as [a| |R e k IH]; intros w Hp; [by exists w, a|done|].
  cbn [run]. destruct (handle env e w) as [w1 x]. by apply IH.
Qed.

Lemma returns_bind {A B} (p : prog A) (f : A -> prog B) :
  returns p -> (forall a, returns (f a)) -> returns (bind p f).
Proof. intros Hp Hf. induction p as [a| |R e k IH]; [apply Hf|done|]. intros r. by apply IH. Qed.

Lemma returns_vis {A R} (e : ev R) (k : R -> prog A) : (forall r, returns (k r)) -> returns (Vis e k).
Proof. done. Qed.

Ltac returns_tac :=
  repeat first
    [ exact I
    | apply returns_bind; [|intros ?]
    | apply returns_vis; intros ?
    | match goal with |- returns (match ?x with _ => _ end) => destruct x end
    | match goal with |- returns (bind (match ?x with _ => _ end) _) => destruct x end ].

(** What is published stays published. *)
Lemma published_grows {A} (p : prog A) env w w' r :
  run env p w = (w', r) -> forall s, s ∈ w_published w -> s ∈ w_published w'.
Proof.
  revert w. induction p as [a| |R e k IH]; intros w E s Hs; [by injection E as <- _..|].
  cbn [run] in E. destruct (handle env e w) as [w1 x] eqn:Eh. eapply IH; [exact E|].
  assert (exists l, w_published w1 = w_published w ++ l) as [l ->]; [|apply elem_of_app; by left].
  destruct e; unfold handle, guarded in Eh; repeat case_match; simplify_eq/=;
    first [by exists []; rewrite app_nil_r | by eexists].
Qed.

(** ** Programs that leave one row alone *)

Definition keeps (env : Env) (id : bytes) {A} (p : prog A) : Prop :=
  forall w w' r, keyed o_id (w_orders w) -> run env p w = (w', r) ->
    w_orders w' !! id = w_orders w !! id /\ keyed o_id (w_orders w').

Lemma keeps_reads env id {A} (p : prog A) : reads_only p -> keeps env id p.
Proof. intros Hp w w' r Hk E. by destruct (reads_run p Hp env w w' r E) as [-> _]. Qed.

Lemma keeps_ret env id {A} (a : A) : keeps env id (Ret a).
Proof. apply keeps_reads, reads_ret. Qed.

Lemma keeps_bind env id {A B} (p : prog A) (f : A -> prog B) :
  keeps env id p -> (forall a, keeps env id (f a)) -> keeps env id (bind p f).
Proof.
  intros Hp Hf w w' r Hk E. rewrite run_bind in E. destruct (run env p w) as [w1 [a|]] eqn:E1.
  - destruct (Hp w w1 _ Hk E1) as [<- Hk1]. by apply (Hf a w1 w' r).
  - injection E as <- _. by apply (Hp w w1 None).
Qed.

(** A run whose first part is known, and whose rest leaves the row alone. *)
Lemma run_bind_keeps env id {A B} (p : prog A) (f : A -> prog B) w w1 r1 w' r :
  run env p w = (w1, r1) -> keyed o_id (w_orders w1) -> (forall a, keeps env id (f a)) ->
  run env (bind p f) w = (w', r) ->
  w_orders w' !! id = w_orders w1 !! id /\ keyed o_id (w_orders w') /\
  (forall s, s ∈ w_published w1 -> s ∈ w_published w').
Proof.
  intros E1 Hk Hf E. rewrite run_bind, E1 in E. destruct r1 as [a|].
  - destruct (Hf a w1 w' r Hk E) as [He Hk']. split; [done|]. split; [done|]. by eapply published_grows.
  - by injection E as <- _.
Qed.

Section poll.
Context `{BuildProfile} `{JsonText} `{Hashing} `{Hex} `{Aead} `{X25519} `{Serde} `{Secp256k1} `{BitcoinLib}.
Context `{!AeadLaws _} `{!SerdeLaws _} `{!HashingLaws _} `{!WorkerTotal _ _ _}.

Lemma updated_other key id id' Q m m' : id' <> id -> updated key id' Q m m' -> m' !! id = m !! id.
Proof. intros Hne [->|(o & d & o' & d' & _ & _ & _ & _ & _ & _ & ->)]; [done|]. by rewrite lookup_insert_ne. Qed.

Lemma keeps_updated env key id id' (Q : OrderData -> OrderData -> Prop) {A} (p : prog A) :
  id' <> id ->
  (forall w w' r, keyed o_id (w_orders w) -> run env p w = (w', r) -> updated key id' Q (w_orders w) (w_orders w')) ->
  keeps env id p.
Proof.
  intros Hne Hp w w' r Hk E. specialize (Hp w w' r Hk E). split; [by eapply updated_other|by eapply updated_keyed].
Qed.

Lemma keeps_xmr env key id now c id' d :
  fair env -> id' <> id -> keeps env id (check_xmr_payment (Some key) now c id' d).
Proof.
  intros Hf Hne. destruct (escrow_address d) as [addr|] eqn:Ea.
  2: { unfold check_xmr_payment. rewrite Ea. apply keeps_ret. }
  destruct (parse_xmr_amount_safe (str_of (default "0" (escrow_amount d)))) as [x|] eqn:Ep.
  2: { unfold check_xmr_payment. rewrite Ea, Ep. apply keeps_reads, reads_panic. }
  apply (keeps_updated env key id id' (check_step now d (xmr_paid env addr x))); [done|].
  intros w w' r Hk E. by eapply check_xmr_run.
Qed.

Lemma keeps_btc env key id now c id' d :
  fair env -> id' <> id -> keeps env id (check_btc_payment (Some key) now c id' d).
Proof.
  intros Hf Hne. destruct (escrow_address d) as [addr|] eqn:Ea.
  2: { unfold check_btc_payment. rewrite Ea. apply keeps_ret. }
  destruct (parse_btc_amount_safe (str_of (default "0" (escrow_amount d)))) as [x|] eqn:Ep.
  2: { unfold check_btc_payment. rewrite Ea, Ep. apply keeps_reads, reads_panic. }
  apply (keeps_updated env key id id' (check_step now d (btc_paid env addr x))); [done|].
  intros w w' r Hk E. by eapply check_btc_run.
Qed.

Lemma keeps_loop env id {C} (check : C -> bytes -> OrderData -> prog C) c orders :
  (forall c id' d, id' <> id -> keeps env id (check c id' d)) -> id ∉ map fst orders ->
  keeps env id (check_payments check c orders).
Proof.
  intros Hc. revert c. induction orders as [|[id' d] t IH]; intros c Hn; cbn [check_payments]; [apply keeps_ret|].
  cbn [map fst] in Hn. apply not_elem_of_cons in Hn as [Hne Hn].
  apply keeps_bind; [by apply Hc|]. intros c'. by apply IH.
Qed.

Lemma keeps_settle env cfg key id ids : fair env -> id ∉ ids -> keeps env id (settle_all cfg (Some key) ids).
Proof.
  intros Hf. induction ids as [|id' t IH]; intros Hn; cbn [settle_all]; [apply keeps_ret|].
  apply not_elem_of_cons in Hn as [Hne Hn]. apply keeps_bind; [|intros; by apply IH].
  apply (keeps_updated env key id id' settling); [done|]. intros w w' r Hk E. by eapply retry_settlement_run.
Qed.

Lemma returns_load_order wk id : returns (load_order wk id).
Proof. unfold load_order. returns_tac. Qed.

Lemma returns_mark_funded wk id now : returns (mark_order_funded wk id now).
Proof. unfold mark_order_funded, write_data. apply returns_bind; [apply returns_load_order|]. intros x. returns_tac. Qed.

Lemma returns_mark_cancelled wk id : returns (mark_order_cancelled wk id).
Proof. unfold mark_order_cancelled. apply returns_bind; [apply returns_load_order|]. intros x. returns_tac. Qed.

(** ** Verdicts *)

(** What a poll at [now] means for a pending order: its data at the end, [None]
    if it keeps the row.  [arr] is what the node lists for its address at that
    height of the chain. *)
Inductive verdict (now height : Z) (arr : list Json) (expected : Z) (d : OrderData) : option OrderData -> Prop :=
| v_funded pre tx post :
    arr = pre ++ tx :: post -> Forall (fun x => ~ pays expected x) pre -> pays expected tx ->
    REQUIRED_CONFIRMATIONS_XMR <= depth height tx ->
    verdict now height arr expected d (Some (set_funded_at (Some now) (set_state "funded" d)))
| v_shallow pre tx post :
    arr = pre ++ tx :: post -> Forall (fun x => ~ pays expected x) pre -> pays expected tx ->
    depth height tx < REQUIRED_CONFIRMATIONS_XMR -> verdict now height arr expected d None
| v_expired :
    Forall (fun x => ~ pays expected x) arr -> default (now + 86400) (expires_at d) < now ->
    verdict now height arr expected d (Some (set_state "cancelled" d))
| v_waiting :
    Forall (fun x => ~ pays expected x) arr -> now <= default (now + 86400) (expires_at d) ->
    verdict now height arr expected d None.

#[global] Instance pays_dec expected tx : Decision (pays expected tx).
Proof.
  unfold pays. destruct (as_u64 (jindex tx "amount")) as [amount|].
  - destruct (decide (contains_in (default "" (as_str (jindex tx "type"))) = true /\
                      MIN_PAYMENT_PICONERO <= amount /\ expected <= amount)) as [(Hc & Hm & He)|Hn]; [left|right].
    + split; [done|]. by exists amount.
    + intros (Hc & a & [= <-] & Hm & He). by apply Hn.
  - right. by intros (_ & a & Ha & _).
Defined.

Lemma first_paying expected arr :
  (exists pre tx post, arr = pre ++ tx :: post /\ Forall (fun x => ~ pays expected x) pre /\ pays expected tx) \/
  Forall (fun x => ~ pays expected x) arr.
Proof.
  induction arr as [|x arr IH]; [right; constructor|]. destruct (decide (pays expected x)) as [Hp|Hp].
  - left. exists [], x, arr. split; [done|]. split; [constructor|done].
  - destruct IH as [(pre & tx & post & -> & Hpre & Htx)|Hall]; [left|right; by constructor].
    exists (x :: pre), tx, post. split; [done|]. split; [by constructor|done].
Qed.

Lemma verdict_total now height arr expected d : exists v, verdict now height arr expected d v.
Proof.
  destruct (first_paying expected arr) as [(pre & tx & post & Ha & Hpre & Htx)|Hall].
  - destruct (Z.le_gt_cases REQUIRED_CONFIRMATIONS_XMR (depth height tx)); eexists;
      [by eapply v_funded|by eapply v_shallow].
  - destruct (Z.lt_ge_cases (default (now + 86400) (expires_at d)) now); eexists; [by apply v_expired|by apply v_waiting].
Qed.

(** The verdict on the row [o] is carried out in [w]; funding was announced. *)
Definition carried_out (key : bytes) (o : Order) (v : option OrderData) (w : World) : Prop :=
  match v with
  | None => w_orders w !! o_id o = Some o
  | Some d' => exists o', w_orders w !! o_id o = Some o' /\ open_order key o' = Some d' /\
      o_version o' = o_version o + 1 /\
      (state d' = "funded" -> hex_encode (o_id o) ∈ w_published w)
  end.

Lemma carried_out_kept key o v w w' :
  carried_out key o v w -> w_orders w' !! o_id o = w_orders w !! o_id o ->
  (forall s, s ∈ w_published w -> s ∈ w_published w') -> carried_out key o v w'.
Proof. destruct v as [d'|]; cbn; [|congruence]. intros (o' & Ho & Hd & Hv & Hp) E Hs. exists o'. rewrite E. split_and!; auto. Qed.

(** ** The check of one order *)

(** The Monero node serves one chain throughout and lists [listing]. *)
Definition steady (env : Env) (c : Chain) (listing : string -> list Json) : Prop :=
  forall t, serves env t c /\ forall addr, lists env t addr (listing addr).

Definition amount_parses (d : OrderData) : Prop :=
  escrow_address d <> None -> is_Some (parse_xmr_amount_safe (str_of (default "0" (escrow_amount d)))).

(** The order waits for a Monero payment of [expected] to [addr]. *)
Definition waits (key : bytes) (o : Order) (d : OrderData) (addr : string) (expected : Z) : Prop :=
  open_order key o = Some d /\ state d = "pending" /\ escrow_address d = Some addr /\
  parse_xmr_amount_safe (str_of (default "0" (escrow_amount d))) = Some expected /\ 0 < expected.

Context (env : Env) (key : bytes) (now : Z) (c : Chain) (listing : string -> list Json).
Context (Hf : fair env) (Hq : quiet env) (Hpad : pads) (Hh : in_u64 (ch_height c)) (Hst : steady env c listing)
  (Hnow : in_i64 (now + 86400)).

(** The check of any order returns, with a client that still knows the tip. *)
Lemma check_xmr_returns wk xc id d w :
  synced xc c -> 0 <= xc_nonce xc <= u64_max - 5 -> amount_parses d ->
  exists w' xc', run env (check_xmr_payment wk now xc id d) w = (w', Some xc') /\
    synced xc' c /\ xc_nonce xc <= xc_nonce xc' <= xc_nonce xc + 5.
Proof.
  intros Hsy Hn Ham. unfold check_xmr_payment, amount_parses in *.
  destruct (escrow_address d) as [addr|]; [|exists w, xc; split; [done|split; [done|lia]]].
  destruct (Ham ltac:(done)) as [x Hx]. rewrite Hx. cbn [arith].
  destruct (x =? 0); [exists w, xc; split; [done|split; [done|lia]]|].
  destruct (payment_check_run env addr x REQUIRED_CONFIRMATIONS_XMR xc w c c (listing addr))
    as (w1 & xc1 & Hr & Hsy1 & Hn1 & _); [done..|apply Hsy|done|by split|by intros i _; split; apply Hst|].
  rewrite run_bind, Hr. set (s := status_found _). clearbody s.
  destruct (ps_fork_detected s); [exists w1, xc1; split; [done|split; [done|lia]]|].
  destruct (ps_received s && _).
  { destruct (negb _); [exists w1, xc1; split; [done|split; [done|lia]]|]. rewrite run_bind.
    destruct (returns_run (mark_order_funded wk id now) env w1 (returns_mark_funded wk id now)) as (w2 & a & ->).
    cbn [run]. do 2 eexists. split; [done|]. split; [exact Hsy1|cbn; lia]. }
  destruct (ps_received s); [exists w1, xc1; split; [done|split; [done|lia]]|].
  unfold with_expiry. rewrite i64_op_in by done. cbn [arith].
  destruct (_ <? now); [|exists w1, xc1; split; [done|split; [done|lia]]]. rewrite run_bind.
  destruct (returns_run (mark_order_cancelled wk id) env w1 (returns_mark_cancelled wk id)) as (w2 & a & ->).
  cbn [run]. do 2 eexists. split; [done|]. split; [exact Hsy1|lia].
Qed.

(** The check of a waiting order carries out its verdict. *)
Lemma check_xmr_verdict xc o d addr expected v w w' xc' :
  synced xc c -> 0 <= xc_nonce xc <= u64_max - 5 -> keyed o_id (w_orders w) -> w_orders w !! o_id o = Some o ->
  waits key o d addr expected -> verdict now (ch_height c) (listing addr) expected d v ->
  run env (check_xmr_payment (Some key) now xc (o_id o) d) w = (w', Some xc') ->
  carried_out key o v w'.
Proof.
  intros Hsy Hn Hk Hm (Hd & Hp & Ha & Hx & He) Hv E. unfold check_xmr_payment in E. rewrite Ha, Hx in E. cbn [arith] in E.
  rewrite (proj2 (Z.eqb_neq _ _)) in E by lia.
  destruct (payment_check_run env addr expected REQUIRED_CONFIRMATIONS_XMR xc w c c (listing addr))
    as (w1 & xc1 & Hr & _ & _ & Ho & Hpub); [done..|apply Hsy|done|by split|by intros i _; split; apply Hst|].
  rewrite run_bind, Hr in E. rewrite <-Ho in Hk, Hm. clear Hr Ho Hpub.
  destruct Hv as [pre tx post Hl Hpre Htx Hdeep|pre tx post Hl Hpre Htx Hdeep|Hall Hx'|Hall Hx'].
  - rewrite Hl in E. destruct (match_transfer_first addr expected (ch_height c) pre tx post He Hpre Htx)
      as (t & Ht & Haddr & Hconf). rewrite Ht in E.
    cbn [status_found status_of ps_fork_detected ps_received ps_confirmations ps_address andb] in E.
    rewrite Hconf, (proj2 (Z.leb_le _ _) Hdeep), Haddr in E. unfold address_matches, constant_time_compare in E.
    rewrite Nat.eqb_refl, bool_decide_eq_true_2 in E by done. cbn [negb] in E. rewrite run_bind in E.
    destruct (mark_order_funded_effect env key (o_id o) now o d w1 Hf Hq Hk Hm Hd Hp)
      as (w2 & o' & Hrun & Hrow & Hopen & Hver & Hpu).
    rewrite Hrun in E. cbn [run] in E. simplify_eq. exists o'. rewrite Hrow, lookup_insert_eq. split_and!; try done.
    intros _. rewrite Hpu. apply elem_of_app. right. by left.
  - rewrite Hl in E. destruct (match_transfer_first addr expected (ch_height c) pre tx post He Hpre Htx)
      as (t & Ht & _ & Hconf). rewrite Ht in E.
    cbn [status_found status_of ps_fork_detected ps_received ps_confirmations andb] in E.
    rewrite Hconf, (proj2 (Z.leb_gt _ _) Hdeep) in E. cbn [run] in E. by simplify_eq.
  - rewrite match_transfer_none in E by done. cbn [status_found ps_fork_detected ps_received andb] in E.
    unfold with_expiry in E. rewrite i64_op_in in E by done. cbn [arith] in E.
    rewrite (proj2 (Z.ltb_lt _ _)) in E by done. rewrite run_bind in E.
    destruct (mark_order_cancelled_effect env key (o_id o) o d w1 Hf Hq Hk Hm Hd Hp)
      as (w2 & o' & Hrun & Hrow & Hopen & Hver).
    rewrite Hrun in E. cbn [run] in E. simplify_eq. exists o'. rewrite Hrow, lookup_insert_eq. split_and!; try done.
    intros Hs. destruct d. cbn in Hs. discriminate.
  - rewrite match_transfer_none in E by done. cbn [status_found ps_fork_detected ps_received andb] in E.
    unfold with_expiry in E. rewrite i64_op_in in E by done. cbn [arith] in E.
    rewrite (proj2 (Z.ltb_ge _ _)) in E by done. cbn [run] in E. by simplify_eq.
Qed.

(** ** The loop *)

Lemma loop_verdict o d addr expected v l xc w w' r :
  synced xc c -> 0 <= xc_nonce xc <= u64_max - 5 * Z.of_nat (length l) ->
  keyed o_id (w_orders w) -> w_orders w !! o_id o = Some o ->
  waits key o d addr expected -> verdict now (ch_height c) (listing addr) expected d v ->
  NoDup (map fst l) -> (o_id o, d) ∈ l -> Forall (fun p => amount_parses (snd p)) l ->
  run env (check_xmr_payments (Some key) now xc l) w = (w', r) ->
  carried_out key o v w' /\ keyed o_id (w_orders w').
Proof.
  intros Hsy Hn Hk Hm Hwa Hv. revert xc w Hsy Hn Hk Hm.
  induction l as [|[i0 d0] l IH]; intros xc w Hsy Hn Hk Hm Hnd Hin Ham E; [by apply elem_of_nil in Hin|].
  cbn [map fst length] in *. apply NoDup_cons in Hnd as [Hni Hnd].
  apply Forall_cons in Ham as [Ham0 Ham]. cbn [snd] in Ham0.
  destruct (check_xmr_returns (Some key) xc i0 d0 w Hsy ltac:(lia) Ham0) as (w1 & xc1 & Hr & Hsy1 & Hn1).
  unfold check_xmr_payments in E. cbn [check_payments] in E.
  destruct (decide (i0 = o_id o)) as [->|Hne].
  - apply elem_of_cons in Hin as [[= <-]|Hin]; [|destruct Hni; by apply (list_elem_of_fmap_2 fst) in Hin].
    pose proof (check_xmr_verdict xc o d addr expected v w w1 xc1 Hsy ltac:(lia) Hk Hm Hwa Hv Hr) as Hco.
    assert (keyed o_id (w_orders w1)) as Hk1.
    { destruct Hwa as (_ & _ & Ha & Hx & _). eapply updated_keyed; [exact Hk|]. by eapply check_xmr_run. }
    destruct (run_bind_keeps env (o_id o) _ _ w w1 _ w' r Hr Hk1
                (fun a => keeps_loop env _ _ a l (fun c id x => keeps_xmr env key _ now c id x Hf) Hni) E)
      as (He & Hk' & Hp'). split; [|done]. by eapply carried_out_kept.
  - apply elem_of_cons in Hin as [[=]|Hin]; [by destruct Hne|]. rewrite run_bind, Hr in E.
    destruct (keeps_xmr env key (o_id o) now xc i0 d0 Hf Hne w w1 _ Hk Hr) as [Hrow Hk1].
    apply (IH xc1 w1); try done; [lia|by rewrite Hrow].
Qed.
End poll.

(** ** The job *)

Section job.
Context `{BuildProfile} `{JsonText} `{Hashing} `{Hex} `{Aead} `{X25519} `{Serde} `{Secp256k1} `{BitcoinLib}.
Context `{!AeadLaws _} `{!SerdeLaws _} `{!HashingLaws _} `{!WorkerTotal _ _ _}.

Lemma polled_in key sk b rows id d :
  (id, d) ∈ polled key sk b rows <->
  exists o, o ∈ rows /\ o_id o = id /\ open_polled key sk o = Some d /\ classify d = b.
Proof.
  unfold polled. rewrite list_elem_of_omap. split.
  - intros (o & Ho & E). destruct (open_polled key sk o) as [d'|] eqn:Ed; cbn in E; [|done].
    case_bool_decide; simplify_eq. by exists o.
  - intros (o & Ho & <- & Ed & Hc). exists o. split; [done|]. rewrite Ed. cbn. by rewrite bool_decide_eq_true_2.
Qed.

Lemma polled_ids key sk b rows : NoDup (map o_id rows) -> NoDup (map fst (polled key sk b rows)).
Proof.
  induction rows as [|o rows IH]; cbn [map]; [constructor|]. intros [Hn Hd]%NoDup_cons.
  change (polled key sk b (o :: rows)) with
    (match (data ← open_polled key sk o; if bool_decide (classify data = b) then Some (o_id o, data) else None) with
     | Some x => x :: polled key sk b rows | None => polled key sk b rows end).
  destruct (_ ≫= _) as [[i x]|] eqn:E; [|by apply IH]. cbn [map fst]. apply NoDup_cons. split; [|by apply IH].
  destruct (open_polled key sk o) as [d|]; cbn in E; [|done]. case_bool_decide; simplify_eq.
  intros ([i x'] & Hi & Hx)%list_elem_of_fmap. apply polled_in in Hx as (o' & Ho' & Hid & _). cbn in Hi.
  apply Hn. replace (o_id o) with (o_id o') by congruence. by apply list_elem_of_fmap_2.
Qed.

Lemma polled_length key sk b rows : (length (polled key sk b rows) <= length rows)%nat.
Proof. unfold polled. induction rows as [|o rows IH]; cbn; [lia|]. destruct (_ ≫= _); cbn; lia. Qed.

(** A row is polled for one thing only. *)
Lemma polled_other key sk b b' m o d :
  keyed o_id m -> m !! o_id o = Some o -> open_polled key sk o = Some d -> classify d = b -> b' <> b ->
  o_id o ∉ map fst (polled key sk b' (snapshot m)).
Proof.
  intros Hk Hm Hd Hc Hne ([i x] & Hi & Hx)%list_elem_of_fmap. cbn in Hi. subst i.
  apply polled_in in Hx as (o2 & Ho2 & Hid & Hd2 & Hc2). apply (snapshot_in o_id) in Ho2; [|done].
  rewrite Hid, Hm in Ho2. congruence.
Qed.

(** The poll from the first Bitcoin request on. *)
Lemma keeps_btc_phase env key id now (xc : MoneroViewOnlyClient) bc btc_orders :
  fair env -> id ∉ map fst btc_orders ->
  keeps env id
    (do p := btc_check_for_fork bc in
     let '(bc, f) := p in
     do bc := match f with
              | inr false => check_btc_payments (Some key) now bc btc_orders
              | _ => Ret bc
              end in
     Ret (xc, bc)).
Proof.
  intros Hf Hn. apply keeps_bind; [apply keeps_reads, reads_btc_fork|]. intros [bc' g].
  apply keeps_bind; [|intros; apply keeps_ret].
  destruct g as [|[]]; try apply keeps_ret. apply keeps_loop; [|done]. intros. by apply keeps_btc.
Qed.

Lemma waits_polled key sk o d addr expected m :
  keyed o_id m -> m !! o_id o = Some o -> open_polled key sk o = Some d -> currency d = "XMR" ->
  waits key o d addr expected ->
  classify d = ToXmr /\ (o_id o, d) ∈ polled key sk ToXmr (snapshot m).
Proof.
  intros Hk Hm Hop Hcur (_ & Hp & Ha & _).
  assert (classify d = ToXmr) as Hc.
  { unfold classify. by rewrite Ha, bool_decide_eq_false_2, !bool_decide_eq_true_2. }
  split; [done|]. apply polled_in. exists o. split; [by apply (snapshot_in o_id)|done].
Qed.

Lemma polled_bound key sk b m : (length (polled key sk b (snapshot m)) <= size m)%nat.
Proof.
  pose proof (polled_length key sk b (snapshot m)) as Hp. unfold snapshot in *.
  by rewrite length_map, length_map_to_list in Hp.
Qed.

(** C4. A poll carries out its verdicts.  Let the Monero node serve a chain that grew
    on top of the one the client knows.  Then every order that waits for a Monero
    payment gets what the entries listed for its address mean: funded, and
    announced, if the first that pays is ten blocks deep; left alone if it is
    not deep enough; cancelled if none pays and the deadline is past; left alone
    otherwise.  This holds among any other orders, as long as their amounts
    parse, whatever the Bitcoin node answers, and even if the rest of the poll
    panics. *)
Theorem poll_verdicts env cfg key sk hash_order xc bc c0 c1 listing w :
  let now := floor_timestamp_6h (env_now env (w_time w)) in
  let w' := fst (run env (check_pending_payments cfg (Some key) hash_order (xc, bc)) w) in
  fair env -> quiet env -> (forall ids, hash_order ids ≡ₚ ids) ->
  keyed o_id (w_orders w) -> derive_domain_key key "payment-decrypt" = Some sk ->
  pads -> in_u64 (ch_height c1) -> ch_hash c1 (ch_height c1) <> "" -> synced xc c0 -> extends c0 c1 ->
  steady env c1 listing -> in_i64 (now + 86400) ->
  0 <= xc_nonce xc <= u64_max - 3 - 5 * Z.of_nat (size (w_orders w)) ->
  (forall id o d, w_orders w !! id = Some o -> open_polled key sk o = Some d -> classify d = ToXmr -> amount_parses d) ->
  forall o d addr expected,
    w_orders w !! o_id o = Some o -> open_polled key sk o = Some d -> currency d = "XMR" ->
    waits key o d addr expected ->
    exists v, verdict now (ch_height c1) (listing addr) expected d v /\ carried_out key o v w'.
Proof.
  intros now w' Hf Hq Hho Hk Hsk Hpad Hh Htip Hsy Hext Hst Hnow Hn Ham o d addr expected Hm Hop Hcur Hwa.
  destruct (verdict_total now (ch_height c1) (listing addr) expected d) as [v Hv]. exists v. split; [done|].
  subst w'. destruct (run env (check_pending_payments _ _ _ _) w) as [w' r] eqn:E. cbn [fst].
  destruct (waits_polled key sk o d addr expected _ Hk Hm Hop Hcur Hwa) as [Hc Hl].
  unfold check_pending_payments in E. cbn [get_worker_key ok_or] in E.
  rewrite run_vis in E. unfold handle in E. cbn [get_worker_key ok_or] in E. fold now in E.
  rewrite run_vis in E. unfold handle in E. rewrite guarded_quiet in E by done. rewrite Hsk in E.
  set (w2 := w_tick (w_tick w)) in E.
  change (map snd (map_to_list (w_orders (w_tick w)))) with (snapshot (w_orders w)) in E.
  set (l := polled key sk ToXmr (snapshot (w_orders w))) in *.
  assert (Nat.eqb (length l) 0 = false) as Hl0 by (by destruct l; [apply elem_of_nil in Hl|]).
  rewrite Hl0 in E. cbn [andb] in E. pose proof (polled_bound key sk ToXmr (w_orders w)) as Hlen. fold l in Hlen.
  destruct (grown_chain_run env xc w2 c0 c1 Hpad ltac:(lia) Hh Htip Hsy Hext)
    as (w3 & xc3 & _ & Hr3 & Hsy3 & Hn3 & _ & _ & Ho3 & _); [intros i _; apply Hst|].
  match type of E with run env (bind ?X _) ?v = _ => destruct (run env X v) as [w5 r5] eqn:E5 end.
  pose proof E5 as E5'. rewrite run_bind, Hr3 in E5'.
  destruct (run env (check_xmr_payments (Some key) now xc3 l) w3) as [w4 r4] eqn:E4.
  destruct (loop_verdict env key now c1 listing Hf Hq Hpad Hh Hst Hnow o d addr expected v l xc3 w3 w4 r4)
    as [Hco Hk4]; rewrite ?Ho3; try done; [lia|by apply polled_ids, (snapshot_ids o_id)| |].
  { apply Forall_forall. intros [i x] Hx. apply polled_in in Hx as (o1 & Ho1 & <- & Hd1 & Hc1).
    eapply Ham; [by apply (snapshot_in o_id)|done..]. }
  destruct (run_bind_keeps env (o_id o) _ _ w3 w4 r4 w5 r5 E4 Hk4
              (fun a => keeps_btc_phase env key _ now a bc _ Hf (polled_other key sk _ ToBtc _ o d Hk Hm Hop Hc ltac:(done))) E5')
    as (He5 & Hk5 & Hp5).
  assert (o_id o ∉ hash_order (map fst (polled key sk ToSettle (snapshot (w_orders w))))) as Hse
    by (rewrite Hho; by eapply polled_other).
  destruct (run_bind_keeps env (o_id o) _ _ w2 w5 r5 w' r E5 Hk5
              (fun cs => keeps_bind env _ _ _ (keeps_settle env cfg key _ _ Hf Hse)
                           (fun _ => keeps_ret env _ _)) E)
    as (He & _ & Hp).
  by eapply carried_out_kept; [eapply carried_out_kept|..].
Qed.
End job.

(** ** Witness: the node lists a payment for the only order *)

Definition listed_payment : Json :=
  JObj [("type", JStr "in"); ("amount", JNum 2000000000000); ("txid", JStr "t1"); ("height", JNum 90)].

Lemma paid_verdict now d v :
  verdict now 105 [listed_payment] 1000000000000 d v -> v = Some (set_funded_at (Some now) (set_state "funded" d)).
Proof.
  assert (pays 1000000000000 listed_payment) as Hp.
  { split; [vm_compute; reflexivity|]. eexists. split; [vm_compute; reflexivity|by vm_compute]. }
  intros [pre tx post E _ _ Hd|pre tx post E _ _ Hd|Hn _|Hn _]; [done| |by destruct (proj1 (Forall_singleton _ _) Hn)..].
  destruct pre as [|x pre]; [injection E as <- _; by vm_compute in Hd|].
  injection E as _ E. by destruct pre.
Qed.

#[local] Existing Instance release.

Lemma poll_verdicts_witness :
  let w' := fst (run paid_env (check_pending_payments poll_config (Some poll_key) id (synced_client, btc_new)) poll_world) in
  exists o', w_orders w' !! o_id poll_order = Some o' /\
    open_order poll_key o' = Some (set_funded_at (Some 1746986400) (set_state "funded" poll_data)) /\
    hex_encode (o_id poll_order) ∈ w_published w'.
Proof.
  intros w'. destruct (derive_domain_key poll_key "payment-decrypt") as [sk|] eqn:Esk; [|vm_compute in Esk; discriminate Esk].
  assert (open_polled poll_key sk poll_order = Some poll_data) as Eop.
  { vm_compute in Esk. injection Esk as <-. vm_compute. reflexivity. }
  destruct (poll_verdicts paid_env poll_config poll_key sk id synced_client btc_new (chain_of 100 "a") (chain_of 105 "a")
              (fun _ => [listed_payment]) poll_world paid_env_fair) with (o := poll_order) (d := poll_data)
              (addr := "addr") (expected := 1000000000000) as (v & Hv & Hc).
  - clear. intros t. reflexivity.
  - intros ids. reflexivity.
  - apply poll_world_keyed.
  - exact Esk.
  - apply release_pads.
  - clear. by vm_compute.
  - clear. by vm_compute.
  - clear. split_and!; by vm_compute.
  - clear. split; by vm_compute.
  - clear. intros t. split; [apply (node_env_serves (fun _ => chain_of 105 "a"))|]. intros addr. eexists. split; [reflexivity|]. by right.
  - clear. by vm_compute.
  - clear. by vm_compute.
  - intros i o d Ho Hd _ _. cbn in Ho. apply lookup_singleton_Some in Ho as [_ <-]. rewrite Eop in Hd.
    apply (inj Some) in Hd. rewrite <-Hd. eexists. vm_compute. reflexivity.
  - vm_compute. reflexivity.
  - exact Eop.
  - reflexivity.
  - split; [vm_compute; reflexivity|]. split; [reflexivity|]. split; [reflexivity|]. split; [vm_compute; reflexivity|reflexivity].
  - assert (floor_timestamp_6h (env_now paid_env (w_time poll_world)) = 1746986400) as En by reflexivity.
    rewrite En in Hv. apply paid_verdict in Hv as ->.
    destruct Hc as (o' & Ho & Hd & _ & Hp). exists o'. split; [exact Ho|]. split; [exact Hd|]. apply Hp. reflexivity.
Defined.
