(* ===== verification/NotificationScanner.v ===== *)
(** The notification scanner, src/background/notification_scanner.rs: wallet
    transactions with an OP_RETURN output that names an order and a buyer key
    give the order its escrow address.

    The client is new in every run, so its state starts empty; the hash of the
    last scanned block is the state the job keeps between runs. *)
From stdpp Require Import relations.
From S2P Require Import Prelude Interfaces Instances TimeBuckets Models Effects Serde Auth Blobs Worker Amounts Texts Rpc XmrClient BtcClient Escrow NodeReads.

Definition NOTIFICATION_MAGIC : bytes := as_bytes "bobN".

Definition starts_with (p b : bytes) : bool := bool_decide (take (length p) b = p).

(** [asm.strip_prefix("OP_RETURN ")?.trim()] *)
Definition op_return_data (asm : string) : option string :=
  option_map (fun s => of_str (trim s))
    (strip_prefix (str_of "OP_RETURN ") (str_of asm)).

Section scanner.
Context `{BuildProfile} `{JsonText} `{Hashing} `{Hex} `{Aead} `{Serde} `{Secp256k1} `{BitcoinLib}.

Fixpoint extract_notification (vouts : list DecodedVout) : option (bytes * bytes) :=
  match vouts with
  | [] => None
  | vout :: rest =>
      script_type ← sp_type (vo_script_pub_key vout);
      if negb (bool_decide (script_type = "nulldata")) then extract_notification rest else
      asm ← sp_asm (vo_script_pub_key vout);
      hex_data ← op_return_data asm;
      bytes ← opt_result (hex_decode hex_data);
      if negb (starts_with NOTIFICATION_MAGIC bytes) then extract_notification rest else
      let payload := drop (length NOTIFICATION_MAGIC) bytes in
      if Nat.ltb (length payload) 65 then extract_notification rest
      else Some (take 32 payload, take 33 (drop 32 payload))
  end.

(** The end of the loop body: the row is rewritten and the transaction recorded.
    The number of rows the update affected is not looked at. *)
Definition record_notification (key tx_hash order_id buyer_pubkey : bytes) (order : Order) (data : OrderData)
    : prog (string + unit) :=
  try json := order_to_vec data in
  let! nonce := ERandom 12 in
  try new_blob := ok_or (encrypt_order_blob nonce json key order_id) "Encryption failed" in
  let! x := EOrderUpdate [SetEncryptedBlob new_blob;
                          SetExpiryBucket (option_map floor_timestamp_6h (expires_at data))]
              order_id (o_version order) in
  try _ := x in
  let! ts := ENow in
  let! x := ETrackerInsert (mk_tracker tx_hash order_id buyer_pubkey (floor_timestamp_6h ts)) in
  Ret x.

(** The order a notification names, once it is found. *)
Definition notify_order (network : Network) (worker_key : option bytes) (tx_hash order_id buyer_pubkey : bytes)
    (order : Order) (rpc : BitcoinClient) : prog (BitcoinClient * (string + unit)) :=
  let skip := Ret (rpc, inr tt) in
  match worker_key with
  | None => skip
  | Some key =>
      match open_order key order with
      | None => skip
      | Some data =>
          if bool_decide (is_Some (escrow_address data)) then skip else
          match parse_secp_pubkey (hex_encode buyer_pubkey) with
          | inl _ => skip
          | inr _ =>
              let buyer_pk_hex := hex_encode buyer_pubkey in
              do p := create_stealth_address_for_order buyer_pk_hex key order_id network rpc in
              match p with
              | (rpc, inr (inr stealth_addr)) =>
                  let data := set_buyer_pubkey (Some buyer_pk_hex)
                                (set_escrow_address (Some stealth_addr) data) in
                  do r := record_notification key tx_hash order_id buyer_pubkey order data in
                  Ret (rpc, r)
              | (rpc, _) => Ret (rpc, inr tt)
              end
          end
      end
  end.

(** The body of the loop over the wallet's transactions. *)
Definition scan_tx (network : Network) (worker_key : option bytes) (tx : ListSinceBlockEntry)
    (rpc : BitcoinClient) : prog (BitcoinClient * (string + unit)) :=
  if se_confirmations tx <? 1 then Ret (rpc, inr tt) else
  match hex_decode (se_txid tx) with
  | inl e => Ret (rpc, inl e)
  | inr tx_hash =>
      let! already := ETrackerSelect tx_hash in
      match already with
      | inl e => Ret (rpc, inl e)
      | inr (Some _) => Ret (rpc, inr tt)
      | inr None =>
          do p := get_raw_transaction (se_txid tx) rpc in
          match p with
          | (rpc, inl _) => Ret (rpc, inr tt)
          | (rpc, inr raw_hex) =>
              do p := decode_raw_transaction raw_hex rpc in
              match p with
              | (rpc, inl _) => Ret (rpc, inr tt)
              | (rpc, inr decoded) =>
                  match extract_notification (dt_vout decoded) with
                  | None => Ret (rpc, inr tt)
                  | Some (order_id, buyer_pubkey) =>
                      if negb (Nat.eqb (length order_id) 32) then Ret (rpc, inr tt) else
                      let! r := EOrderSelect order_id in
                      match r with
                      | inl e => Ret (rpc, inl e)
                      | inr None => Ret (rpc, inr tt)
                      | inr (Some order) => notify_order network worker_key tx_hash order_id buyer_pubkey order rpc
                      end
                  end
              end
          end
      end
  end.

Fixpoint scan_txs (network : Network) (worker_key : option bytes) (txs : list ListSinceBlockEntry)
    (rpc : BitcoinClient) : prog (string + unit) :=
  match txs with
  | [] => Ret (inr tt)
  | tx :: rest =>
      do p := scan_tx network worker_key tx rpc in
      match p with
      | (_, inl e) => Ret (inl e)
      | (rpc, inr _) => scan_txs network worker_key rest rpc
      end
  end.

Definition scan_notifications (cfg : EscrowConfig) (worker_key : option bytes) (last_block : option string)
    : prog (option string * (string + unit)) :=
  match btc_network (ec_network cfg) with
  | inl e => Ret (last_block, inl ("Config error: " +:+ e))
  | inr network =>
      match last_block with
      | None =>
          do p := get_block_height btc_new in
          match p with
          | (_, inl e) => Ret (None, inl e)
          | (rpc, inr height) =>
              do p := get_block_hash height rpc in
              match p with
              | (_, inl e) => Ret (None, inl e)
              | (_, inr hash) => Ret (Some hash, inr tt)
              end
          end
      | Some block_hash =>
          do p := list_since_block block_hash btc_new in
          match p with
          | (_, inl _) => Ret (last_block, inr tt)
          | (rpc, inr (txs, new_last_block)) =>
              do r := scan_txs network worker_key txs rpc in
              match r with
              | inl e => Ret (last_block, inl e)
              | inr _ => Ret (Some new_last_block, inr tt)
              end
          end
      end
  end.

(** ** What a scan may do to an order *)

(** One update: an order with a 32-byte identifier and no escrow address gets the
    buyer key of a notification and the address the settlement can spend from
    with that key. *)
Definition notified (network : Network) (key order_id : bytes) (d d' : OrderData) : Prop :=
  exists pk addr sk, escrow_address d = None /\
    d' = set_buyer_pubkey (Some pk) (set_escrow_address (Some addr) d) /\
    settlement_key (Some key) order_id d' = inr sk /\
    addr = stealth_p2wpkh_address (stealth_public_key sk) network.

Definition scan_step (network : Network) (key : bytes) (o o' : Order) : Prop :=
  o_id o' = o_id o /\ length (o_id o) = 32%nat /\ o_version o' = o_version o + 1 /\
  exists d d', open_order key o = Some d /\ open_order key o' = Some d' /\
    notified network key (o_id o) d d'.

Context `{!AeadLaws _} `{!SerdeLaws _}.

Lemma record_run env key tx_hash pk o d w w' r :
  fair env -> w_orders w !! o_id o = Some o ->
  run env (record_notification key tx_hash (o_id o) pk o d) w = (w', r) ->
  w_orders w' = w_orders w \/
  exists o', o_id o' = o_id o /\ o_version o' = o_version o + 1 /\ open_order key o' = Some d /\
    w_orders w' = <[o_id o := o']> (w_orders w).
Proof.
  intros Hf Hw E. unfold record_notification in E.
  eapply (store_run env key d o (fun blob => [SetEncryptedBlob blob; SetExpiryBucket _])) in E;
    [exact E | done | done | done | by right |]. intros x. reads_only_tac.
Qed.
Lemma notify_evolves env network key tx_hash id pk o rpc w w' r :
  fair env -> keyed o_id (w_orders w) -> length id = 32%nat -> w_orders w !! id = Some o ->
  run env (notify_order network (Some key) tx_hash id pk o rpc) w = (w', r) ->
  evolves (scan_step network key) (w_orders w) (w_orders w') /\ keyed o_id (w_orders w').
Proof.
  intros Hf Hk H32 Hw E. pose proof (Hk _ _ Hw) as Hid. subst id. unfold notify_order in E.
  assert (Hsame : w_orders w' = w_orders w ->
    evolves (scan_step network key) (w_orders w) (w_orders w') /\ keyed o_id (w_orders w')).
  { intros ->. split; [apply evolves_refl | done]. }
  destruct (open_order key o) as [d|] eqn:Ed; [|cbn in E; simplify_eq; by apply Hsame].
  case_bool_decide as He; [cbn in E; simplify_eq; by apply Hsame|].
  destruct (parse_secp_pubkey _) as [e|pkv]; [cbn in E; simplify_eq; by apply Hsame|].
  rewrite run_bind in E.
  destruct (run env (create_stealth_address_for_order _ _ _ _ _) w) as [w1 p] eqn:Ec.
  pose proof (reads_run _ (reads_create_address _ _ _ _ _) env w w1 p Ec) as [Ho _].
  destruct p as [[rpc1 [e|[e|addr]]]|]; try (cbn in E; simplify_eq; by apply Hsame).
  rewrite run_bind in E.
  destruct (run env (record_notification _ _ _ _ _ _) w1) as [w2 r2] eqn:Er.
  assert (w' = w2) as -> by (destruct r2; cbn in E; by simplify_eq).
  apply record_run in Er; [| done | by rewrite Ho]. rewrite Ho in Er.
  destruct Er as [Er | (o' & Hid & Hv & Ho' & Er)]; [by apply Hsame|]. rewrite Er.
  destruct (stealth_address_key env key (o_id o) _ network rpc w w1 rpc1 addr
              (set_buyer_pubkey (Some (hex_encode pk)) (set_escrow_address (Some addr) d)) Ec)
    as (bpk & osk & sk & _ & _ & _ & Hsk & Haddr); [by destruct d|]. split.
  - apply (evolves_insert _ _ _ o); [done|]. split_and!; [done..|].
    exists d, (set_buyer_pubkey (Some (hex_encode pk)) (set_escrow_address (Some addr) d)).
    split_and!; [done..|]. exists (hex_encode pk), addr, sk. split_and!; [|done..].
    by destruct (escrow_address d); [destruct He|].
  - intros i x. destruct (decide (i = o_id o)) as [->|Hne].
    + rewrite lookup_insert_eq. by intros [= <-].
    + rewrite lookup_insert_ne by done. apply Hk.
Qed.

Lemma scan_tx_evolves env network key tx rpc :
  fair env -> evolving env (scan_step network key) (scan_tx network (Some key) tx rpc).
Proof.
  intros Hf. unfold scan_tx. destruct (_ <? 1); [apply evolving_ret|].
  destruct (hex_decode (se_txid tx)) as [e|tx_hash]; [apply evolving_ret|].
  apply evolving_vis; [done|]. intros [e|[t|]]; [apply evolving_ret..|].
  apply evolving_bind; [apply evolving_reads, reads_btc_call|]. intros [rpc1 [e|raw]]; [apply evolving_ret|].
  apply evolving_bind; [apply evolving_reads, reads_btc_call|]. intros [rpc2 [e|dec]]; [apply evolving_ret|].
  destruct (extract_notification _) as [[id pk]|]; [|apply evolving_ret].
  destruct (Nat.eqb_spec (length id) 32) as [H32|]; cbn [negb]; [|apply evolving_ret].
  intros w w' r Hk E. cbn [run] in E. unfold handle, guarded in E.
  destruct (env_db_fault env _); [cbn in E; simplify_eq; split; [apply evolves_refl | done]|].
  destruct (w_orders w !! id) as [o|] eqn:Hw; [|cbn in E; simplify_eq; split; [apply evolves_refl | done]].
  by eapply (notify_evolves env network key tx_hash id pk o rpc2 (w_tick w)).
Qed.

Lemma scan_txs_evolves env network key txs : forall rpc,
  fair env -> evolving env (scan_step network key) (scan_txs network (Some key) txs rpc).
Proof.
  induction txs as [|tx rest IH]; intros rpc Hf; cbn [scan_txs]; [apply evolving_ret|].
  apply evolving_bind; [by apply scan_tx_evolves|]. intros [rpc1 [e|u]]; [apply evolving_ret | by apply IH].
Qed.

Lemma scan_evolves env cfg network key last :
  fair env -> btc_network (ec_network cfg) = inr network ->
  evolving env (scan_step network key) (scan_notifications cfg (Some key) last).
Proof.
  intros Hf Hn. unfold scan_notifications. rewrite Hn. destruct last as [h|].
  - apply evolving_bind; [apply evolving_reads, reads_btc_call|].
    intros [rpc [e|[txs new]]]; [apply evolving_ret|].
    apply evolving_bind; [by apply scan_txs_evolves|]. intros [e|u]; apply evolving_ret.
  - apply evolving_bind; [apply evolving_reads, reads_btc_call|].
    intros [rpc [e|height]]; [apply evolving_ret|].
    apply evolving_bind; [apply evolving_reads, reads_btc_call|].
    intros [rpc' [e|hash]]; apply evolving_ret.
Qed.

(** A scan, whatever the node and the database answer and even if it panics,
    neither adds nor removes an order and takes each through a sequence of
    single-version updates, each of which gives an order with a 32-byte
    identifier and no escrow address the address that its settlement key
    controls; an order that has an address keeps it and all its data. *)
Theorem scan_transitions env cfg network key last w w' r :
  fair env -> keyed o_id (w_orders w) -> btc_network (ec_network cfg) = inr network ->
  run env (scan_notifications cfg (Some key) last) w = (w', r) ->
  forall id, match w_orders w !! id, w_orders w' !! id with
    | Some o, Some o' =>
        rtc (scan_step network key) o o' /\
        (forall d addr, open_order key o = Some d -> escrow_address d = Some addr -> o' = o)
    | None, None => True
    | _, _ => False
    end.
Proof.
  intros Hf Hk Hn E id. destruct (scan_evolves env cfg network key last Hf Hn w w' r Hk E) as [He _].
  specialize (He id). destruct (w_orders w !! id) as [o|], (w_orders w' !! id) as [o'|]; try done.
  split; [done|]. intros d addr Hd Ha. destruct He as [|o1 o2 o3 Hs _]; [done|].
  destruct Hs as (_ & _ & _ & d1 & d2 & Hd1 & _ & pk & addr' & sk & Hnone & _). congruence.
Qed.

(** [create_order] makes identifiers of 16 bytes: no order it created is ever
    given an address, whatever notifications the chain carries. *)
Theorem scan_ignores_created_orders env cfg network key last w w' r :
  fair env -> keyed o_id (w_orders w) -> btc_network (ec_network cfg) = inr network ->
  (forall id o, w_orders w !! id = Some o -> length id = 16%nat) ->
  run env (scan_notifications cfg (Some key) last) w = (w', r) ->
  w_orders w' = w_orders w.
Proof.
  intros Hf Hk Hn H16 E. destruct (scan_evolves env cfg network key last Hf Hn w w' r Hk E) as [He _].
  apply map_eq. intros id. specialize (He id).
  destruct (w_orders w !! id) as [o|] eqn:Hw, (w_orders w' !! id) as [o'|]; try done.
  destruct He as [|o1 o2 o3 Hs _]; [done|]. destruct Hs as (_ & H32 & _).
  rewrite (Hk _ _ Hw), (H16 _ _ Hw) in H32. done.
Qed.
End scanner.

(** ** The notification format *)

Lemma strip_prefix_app p s : strip_prefix p (p ++ s) = Some s.
Proof. induction p as [|a p IH]; cbn; [done|]. by rewrite Z.eqb_refl. Qed.

Section format.
Context `{Hex} `{!HexLaws _} `{!HexText _}.

Lemma op_return_hex b : op_return_data ("OP_RETURN " +:+ hex_encode b) = Some (hex_encode b).
Proof.
  unfold op_return_data, str_of at 2. rewrite as_bytes_app, map_app.
  change (map byte_val (as_bytes "OP_RETURN ")) with (str_of "OP_RETURN ").
  rewrite strip_prefix_app. cbn [option_map]. change (map byte_val (as_bytes (hex_encode b)))
    with (str_of (hex_encode b)). rewrite trim_graphic by apply hex_graphic. by rewrite of_str_of.
Qed.

(** An output that carries no data, of any other type. *)
Definition other_output (v : DecodedVout) : Prop :=
  exists t, sp_type (vo_script_pub_key v) = Some t /\ t <> "nulldata".

(** [[bobN][order_id][pubkey]] and anything after it, in the form the node prints
    an OP_RETURN script. *)
Definition notification_output (value : SpecFloat.spec_float) (n : Z) (hex : string)
    (order_id pubkey rest : bytes) : DecodedVout :=
  mk_vout value n (mk_script
    (Some ("OP_RETURN " +:+ hex_encode (NOTIFICATION_MAGIC ++ order_id ++ pubkey ++ rest)))
    hex (Some "nulldata")).

(** C29. The first data output with the magic prefix is found behind any payment
    outputs, and its order identifier and key are read back exactly. *)
Theorem notification_roundtrip before after value n hex order_id pubkey rest :
  Forall other_output before -> length order_id = 32%nat -> length pubkey = 33%nat ->
  extract_notification (before ++ notification_output value n hex order_id pubkey rest :: after)
  = Some (order_id, pubkey).
Proof.
  intros Hb Hid Hpk. induction Hb as [|v before (t & Ht & Hne) _ IH].
  - cbn [app extract_notification notification_output vo_script_pub_key sp_type sp_asm mbind option_bind].
    rewrite bool_decide_eq_true_2 by done. cbn [negb]. rewrite op_return_hex. cbn [mbind option_bind].
    rewrite hex_roundtrip. cbn [opt_result mbind option_bind]. unfold starts_with.
    rewrite take_app_length, bool_decide_eq_true_2 by done. cbn [negb].
    rewrite drop_app_length, !length_app, Hid, Hpk. cbn [Nat.add Nat.ltb Nat.leb].
    rewrite (take_app_length' order_id) by done. rewrite (drop_app_length' order_id) by done.
    by rewrite (take_app_length' pubkey).
  - cbn [app extract_notification]. rewrite Ht. cbn [mbind option_bind].
    by rewrite bool_decide_eq_false_2.
Qed.
End format.

(** ** A notification that meets a concurrent writer *)

(** When the row changed after it was read, the update affects nothing, the run
    goes on as if it had succeeded, and the transaction is recorded as processed:
    the order is never given an address. *)
Theorem stale_notification_lost `{Hashing} `{Aead} `{Serde} `{!AeadLaws _} `{!SerdeLaws _}
    `{!HashingLaws _} `{!WorkerTotal _ _ _} env key tx_hash pk o cur d w :
  fair env -> quiet env ->
  w_orders w !! o_id o = Some cur -> o_version cur <> o_version o -> w_tracker w !! tx_hash = None ->
  exists w' t, run env (record_notification key tx_hash (o_id o) pk o d) w = (w', Some (inr tt)) /\
    w_orders w' = w_orders w /\ w_tracker w' !! tx_hash = Some t /\ nt_order_id t = o_id o.
Proof.
  intros Hf Hq Hw Hv Ht. unfold record_notification. destruct (wt_serde d) as [json Ej]. rewrite Ej.
  step. specialize (Hf (w_time w) 12%nat). unfold encrypt_order_blob, derive_order_key, derive_blob_key.
  destruct (hmac_total key (as_bytes "oblivious-order-v1" ++ o_id o)) as [k Ek].
  destruct (wt_aead k _ json (hmac_length _ _ _ Ek) Hf) as [c Ec].
  unfold seal. rewrite Ek, Ec. cbn [ok_or]. step.
  rewrite sql_update_miss by (intros x Hx; congruence). step. step. cbn [nt_tx_hash]. rewrite Ht.
  cbn [run]. eexists _, (mk_tracker tx_hash (o_id o) pk _). split; [done|]. split; [done|]. split; [|done].
  cbn [w_tracker w_tick w_set_tracker]. apply lookup_insert_eq.
Qed.

(** ** Witnesses *)

Definition pay_output : DecodedVout := mk_vout (f64_of_Z 1) 0 (mk_script None "0014" (Some "witness_v0_keyhash")).

Definition note_key : bytes := sha256 (as_bytes "worker").
Definition note_config : EscrowConfig := mk_escrow_config "mainnet" (Some "fee") 4.
Definition note_id : bytes := sha256 (as_bytes "order").
Definition note_pk : bytes := byte_of_Z 2 :: sha256 (as_bytes "buyer").

Lemma notification_roundtrip_witness :
  extract_notification
    [pay_output; notification_output (f64_of_Z 0) 1 "6a45" note_id note_pk []] = Some (note_id, note_pk).
Proof.
  apply (notification_roundtrip [pay_output] [] (f64_of_Z 0) 1 "6a45" note_id note_pk []).
  - constructor; [|constructor]. exists "witness_v0_keyhash". split; [reflexivity|discriminate].
  - vm_compute. reflexivity.
  - vm_compute. reflexivity.
Defined.

(** A curve whose keys may also be written with one more byte in front. *)
#[local] Instance secp33 : Secp256k1 := {|
  sk_from_slice b := if Nat.eqb (length b) 32 then Some b else None;
  pk_from_slice b :=
    if Nat.eqb (length b) 33 then Some (drop 1 b) else if Nat.eqb (length b) 32 then Some b else None;
  pk_from_secret_key := x_public;
  shared_secret pk sk := x_dh sk pk;
  sign_ecdsa h sk := h ++ sk |}.

(** A node (answering the way the client expects) whose wallet saw the
    notification [id, pk] in one transaction. *)
Definition notifying_env (id pk : bytes) : Env :=
  mk_env (fun n => 1747000000 + Z.of_nat n) (fun t n => repeat (byte_of_Z (Z.of_nat t)) n)
    (fun t => le_bytes 16 (Z.of_nat t)) (fun _ => None) (fun _ => None)
    (fun _ _ m _ => inr (JObj [("result", JObj [("result",
       if bool_decide (m = "listsinceblock") then
         JObj [("transactions", JArr [JObj [("txid", JStr "aa01"); ("amount", JNum 0); ("confirmations", JNum 3)]]);
               ("lastblock", JStr "00ff")]
       else if bool_decide (m = "gettransaction") then JObj [("hex", JStr "0200")]
       else if bool_decide (m = "decoderawtransaction") then
         JObj [("txid", JStr "aa01"); ("hash", JStr "aa01"); ("version", JNum 2); ("size", JNum 200);
               ("vout", JArr [JObj [("value", JNum 0); ("n", JNum 0); ("script_pub_key",
                  JObj [("asm", JStr ("OP_RETURN " +:+ hex_encode (NOTIFICATION_MAGIC ++ id ++ pk)));
                        ("hex", JStr ""); ("type", JStr "nulldata")])]])]
       else JNull)])])).

Lemma notifying_env_fair id pk : fair (notifying_env id pk).
Proof. intros t n. apply repeat_length. Qed.

Definition note_data : OrderData := set_escrow_address None (sample_order "pending").
Definition note_order (id : bytes) : Order :=
  mk_order id (default [] (encrypt_order_blob (replicate 12 Byte.x00)
                             (match order_to_vec note_data with inr j => j | inl _ => [] end) note_key id))
    0 None 1 0 None None None.

Lemma world_keyed o : keyed o_id (w_orders (world_with_order o)).
Proof. intros i o' Hl. cbn in Hl. by apply lookup_singleton_Some in Hl as [<- <-]. Qed.

Definition note_scan (id : bytes) : World * option (option string * (string + unit)) :=
  run (notifying_env note_id note_pk)
    (@scan_notifications release json_text_inst hashing_inst hex_inst aead_inst serde_inst secp33 bitcoin_inst
       note_config (Some note_key) (Some "00aa")) (world_with_order (note_order id)).

Lemma scan_transitions_witness :
  exists o', w_orders (note_scan note_id).1 !! note_id = Some o' /\ o_version o' = 2 /\
    rtc (@scan_step hashing_inst hex_inst aead_inst serde_inst secp33 bitcoin_inst Bitcoin note_key)
      (note_order note_id) o'.
Proof.
  destruct (note_scan note_id) as [w' r] eqn:E.
  pose proof (@scan_transitions release json_text_inst hashing_inst hex_inst aead_inst serde_inst secp33 bitcoin_inst
                _ _ (notifying_env note_id note_pk) note_config Bitcoin note_key (Some "00aa")
                (world_with_order (note_order note_id)) w' r
                (notifying_env_fair _ _) (world_keyed _) eq_refl E note_id) as Hp.
  assert (w_orders (world_with_order (note_order note_id)) !! note_id = Some (note_order note_id)) as El
    by (vm_compute; reflexivity).
  rewrite El in Hp.
  assert (o_version <$> w_orders w' !! note_id = Some 2) as Ev.
  { apply (f_equal fst) in E. cbn [fst] in E. rewrite <-E. vm_compute. reflexivity. }
  cbn [fst]. destruct (w_orders w' !! note_id) as [o'|]; [|done].
  exists o'. split; [reflexivity|]. split; [by injection Ev|exact (proj1 Hp)].
Defined.

Lemma scan_ignores_created_orders_witness :
  w_orders (note_scan (le_bytes 16 9)).1 = w_orders (world_with_order (note_order (le_bytes 16 9))).
Proof.
  destruct (note_scan (le_bytes 16 9)) as [w' r] eqn:E.
  apply (@scan_ignores_created_orders release json_text_inst hashing_inst hex_inst aead_inst serde_inst secp33
           bitcoin_inst _ _ (notifying_env note_id note_pk) note_config Bitcoin note_key (Some "00aa")
           (world_with_order (note_order (le_bytes 16 9))) w' r (notifying_env_fair _ _) (world_keyed _) eq_refl);
    [|exact E].
  intros id o Hl. cbn in Hl. apply lookup_singleton_Some in Hl as [<- _]. vm_compute. reflexivity.
Defined.

Lemma stale_notification_lost_witness :
  exists w' t,
    run sample_env (record_notification note_key [byte_of_Z 170] note_id note_pk (note_order note_id) note_data)
      (world_with_order (bump_version (note_order note_id))) = (w', Some (inr tt)) /\
    w_tracker w' !! [byte_of_Z 170] = Some t.
Proof.
  destruct (stale_notification_lost sample_env note_key [byte_of_Z 170] note_pk (note_order note_id)
              (bump_version (note_order note_id)) note_data
              (world_with_order (bump_version (note_order note_id)))) as (w' & t & Hr & _ & Ht & _).
  - apply sample_env_fair.
  - apply sample_env_quiet.
  - vm_compute. reflexivity.
  - discriminate.
  - vm_compute. reflexivity.
  - exists w', t. split; [exact Hr|exact Ht].
Defined.

(** Bitcoin Core names the member [scriptPubKey]; the struct has no rename, so the
    outputs of a real node are not read. *)
Example core_vout_not_read value n script :
  exists e, de_vout (JObj [("value", JNum value); ("n", JNum n); ("scriptPubKey", script)]) = inl e.
Proof.
  unfold de_vout, de_field. cbn [de_struct].
  change (jget (JObj [("value", JNum value); ("n", JNum n); ("scriptPubKey", script)]) "value") with (Some (JNum value)).
  change (jget (JObj [("value", JNum value); ("n", JNum n); ("scriptPubKey", script)]) "n") with (Some (JNum n)).
  cbn [de_f64 ok_or]. destruct (de_u32 (JNum n)); cbn [ok_or]; [|by eexists].
  eexists. unfold de_member.
  change (jget (JObj [("value", JNum value); ("n", JNum n); ("scriptPubKey", script)]) "script_pub_key") with (@None Json).
  reflexivity.
Qed.
