(* ===== verification/DummyWorker.v ===== *)
(** Dummy traffic, src/background/dummy_worker.rs: now and then an order with
    random contents is inserted among the real ones.

    The random choices are draws from the operating system's generator: [Rng]
    gives the answer to the [n]-th draw, a generating function threads the number
    of draws and panics with [None].  The pauses are not modelled. *)
From Stdlib Require Import Floats.SpecFloat.
From S2P Require Import Prelude Interfaces Instances TimeBuckets Models Effects Serde Auth Blobs Worker Amounts BtcClient.

(** [rand]: [gen_range(lo..hi)], [gen::<u8>], [gen::<f64>], [gen_bool(pct/100)],
    and [Uuid::new_v4]. *)
Class Rng := {
  gen_range : nat -> Z -> Z -> Z;
  gen_byte : nat -> byte;
  gen_f64 : nat -> spec_float;
  gen_bool : nat -> Z -> bool;
  new_uuid : nat -> bytes }.

Class RngLaws (R : Rng) := gen_range_in : forall n lo hi, lo < hi -> lo <= gen_range n lo hi < hi.

(** ** Generating functions *)

Definition gen (A : Type) : Type := nat -> option (A * nat).
#[global] Instance gen_ret : MRet gen := fun A a n => Some (a, n).
#[global] Instance gen_bind : MBind gen := fun A B f m n =>
  match m n with None => None | Some (a, n') => f a n' end.

Definition pick {A} (f : nat -> A) : gen A := fun n => Some (f n, S n).
Definition lift {A} (o : option A) : gen A := fun n => option_map (fun a => (a, n)) o.
Definition when {A} (b : bool) (m : gen A) : gen (option A) :=
  if b then a ← m; mret (Some a) else mret None.

Fixpoint repeated {A} (k : nat) (m : gen A) : gen (list A) :=
  match k with
  | O => mret []
  | S k' => a ← m; l ← repeated k' m; mret (a :: l)
  end.

(** A decimal literal, the quotient rounded to the nearest [f64]. *)
Definition lit (a b : Z) : spec_float := f64_div (f64_of_Z a) (f64_of_Z b).
Definition pct (a : Z) : spec_float := lit a 100.
Definition f64_ge (x y : spec_float) : bool := SFleb y x.
Definition f64_lt (x y : spec_float) : bool := SFltb x y.
(** [(lo..hi).contains(&x)] *)
Definition f64_in (lo hi x : spec_float) : bool := SFleb lo x && SFltb x hi.

Section dummy.
Context `{BuildProfile} `{Hex} `{Hashing} `{Aead} `{Serde} `{UuidText} `{Rng}.

Definition range (lo hi : Z) : gen Z := pick (fun n => gen_range n lo hi).
Definition random_bytes (k : nat) : gen bytes := repeated k (pick gen_byte).

Definition random_hex (k : nat) : gen string := buf ← random_bytes k; mret (hex_encode buf).
Definition random_hash : gen bytes := random_bytes 32.
Definition random_ed25519_pubkey : gen string := random_hex 32.

Definition text_of_str (s : str) : string := of_utf8 (map byte_of_Z s).

Definition random_amount (currency : string) : gen string :=
  if bool_decide (currency = "BTC") then
    whole ← range 1 51; frac ← range 0 100000000;
    mret (text_of_str (print_amount 8 whole frac))
  else
    whole ← range 1 101; frac ← range 0 1000000000000;
    mret (text_of_str (print_amount 12 whole frac)).

Definition address_alphabet : bytes := as_bytes "qrstuvwxyz234567acdefghjkmnpq".

Definition random_char : gen byte :=
  idx ← range 0 32; lift (address_alphabet !! Z.to_nat idx).

Definition random_escrow_address (currency : string) : gen string :=
  if bool_decide (currency = "BTC") then
    chars ← repeated 31 random_char; mret ("bc1q" +:+ of_utf8 chars)
  else
    hex ← random_hex 47; mret ("4" +:+ hex).

(** ** States and timestamps *)

Record Stamps := mk_stamps {
  st_state : string; st_funded : option Z; st_shipped : option Z; st_confirmed : option Z;
  st_disputed : option Z; st_released : option Z; st_refunded : option Z; st_cancelled : option Z }.

(** [fn step] *)
Definition step_time (t : Z) : gen Z := d ← range 7200 172800; lift (i64_op (t + d)).

(** [if do_it { let t = step(rng, cur); cur = t; Some(t) } else { None }] *)
Definition stamp (do_it : bool) (cur : Z) : gen (option Z * Z) :=
  if do_it then t ← step_time cur; mret (Some t, t) else mret (None, cur).

Definition generate_state_with_timestamps (created_at : Z) : gen Stamps :=
  roll ← pick gen_f64;
  '(funded, cur) ← stamp (f64_ge roll (pct 15)) created_at;
  '(shipped, cur) ← stamp (f64_ge roll (pct 35)) cur;
  '(confirmed, cur) ← stamp (f64_in (pct 50) (pct 60) roll || f64_ge roll (pct 85)) cur;
  '(disputed, cur) ← stamp (f64_in (pct 60) (pct 70) roll || f64_in (pct 70) (pct 95) roll) cur;
  '(released, cur) ← stamp (f64_in (pct 70) (pct 85) roll) cur;
  '(refunded, cur) ← stamp (f64_in (pct 85) (pct 95) roll) cur;
  let st :=
    if f64_lt roll (pct 15) then "pending" else if f64_lt roll (pct 35) then "funded"
    else if f64_lt roll (pct 50) then "shipped" else if f64_lt roll (pct 60) then "confirmed"
    else if f64_lt roll (pct 70) then "disputed" else if f64_lt roll (pct 85) then "released"
    else if f64_lt roll (pct 95) then "refunded" else "cancelled" in
  let cancelled := if f64_ge roll (pct 95) then Some cur else None in
  mret (mk_stamps st funded shipped confirmed disputed released refunded cancelled).

(** ** Chat and dispute *)

Definition generate_chat_message (buyer_hash seller_hash : bytes) (created_at span count i : Z)
    : gen ChatMessageData :=
  offset ← (if count =? 1 then mret (Z.quot span 2)
            else p ← lift (i64_op (span * i)); mret (Z.quot p (count - 1)));
  t ← lift (i64_op (created_at + offset));
  id ← pick new_uuid;
  len ← range 48 512;
  body ← random_bytes (Z.to_nat len);
  expires ← lift (i64_op (t + 7776000));
  mret (mk_chat id (if i mod 2 =? 0 then buyer_hash else seller_hash) body t expires).

Fixpoint chat_loop (message : Z -> gen ChatMessageData) (i : Z) (left : nat) : gen (list ChatMessageData) :=
  match left with
  | O => mret []
  | S left' => msg ← message i; rest ← chat_loop message (i + 1) left'; mret (msg :: rest)
  end.

Definition generate_chat_messages (buyer_hash seller_hash : bytes) (created_at last_at : Z)
    : gen (list ChatMessageData) :=
  count ← range 1 9;
  span ← lift (i64_op (last_at - created_at));
  chat_loop (generate_chat_message buyer_hash seller_hash created_at span count) 0 (Z.to_nat count).

Definition generate_evidence (buyer_hash : bytes) (disputed_at : option Z) : gen DisputeEvidenceEntry :=
  id ← pick new_uuid;
  own ← pick (fun n => gen_bool n 50);
  by_ ← (if own : bool then mret (hex_encode buyer_hash) else h ← random_hash; mret (hex_encode h));
  len ← range 64 1024;
  content ← random_bytes (Z.to_nat len);
  text ← pick (fun n => gen_bool n 70);
  d ← range (-3600) 3600;
  at_ ← lift (i64_op (default 0 disputed_at + d));
  mret (mk_evidence (uuid_to_string id) by_ content (if text : bool then "text" else "image") at_).

Definition dispute_reasons : list string :=
  ["item not received"; "wrong item"; "quality issue"; "counterfeit"; "other"].

Definition generate_dispute (buyer_hash : bytes) (disputed_at : option Z) (resolved : bool)
    (resolved_at : option Z) : gen (DisputeData * string) :=
  did ← pick new_uuid;
  let did := uuid_to_string did in
  count ← range 1 4;
  evidence ← repeated (Z.to_nat count) (generate_evidence buyer_hash disputed_at);
  r ← range 0 5;
  reason ← lift (dispute_reasons !! Z.to_nat r);
  let '(resolution, resolved_by, res_at) :=
    if resolved then (Some "seller", Some "admin", resolved_at) else (None, None, None) in
  mret (mk_dispute did "buyer" reason resolution resolved_by res_at (default 0 disputed_at) evidence, did).

(** ** The order *)

Definition or_else {A} (a b : option A) : option A := match a with Some _ => a | None => b end.

(** What [run_dummy_worker] draws after the clock was read. *)
Definition generate_order (now : Z) : gen (bytes * OrderData) :=
  order_id ← pick new_uuid;
  listing_id ← pick new_uuid;
  xmr ← pick (fun n => gen_bool n 70);
  let currency := if xmr : bool then "XMR" else "BTC" in
  age_hours ← range 12 288;
  born ← lift (i64_op (now - age_hours * 3600));
  let created_at := floor_timestamp_6h born in
  s ← generate_state_with_timestamps created_at;
  buyer_hash ← random_hash;
  seller_hash ← random_hash;
  let last_ts := default created_at
    (or_else (st_released s) (or_else (st_refunded s) (or_else (st_disputed s)
      (or_else (st_confirmed s) (or_else (st_shipped s) (st_funded s)))))) in
  chat_messages ← generate_chat_messages buyer_hash seller_hash created_at last_ts;
  let is_resolved := bool_decide (st_state s = "released") || bool_decide (st_state s = "refunded") in
  let res_at := or_else (st_released s) (st_refunded s) in
  disputed ← (if bool_decide (is_Some (st_disputed s)) then mret true
              else if is_resolved then pick (fun n => gen_bool n 30) else mret false);
  dd ← when disputed (generate_dispute buyer_hash (or_else (st_disputed s) (Some last_ts)) is_resolved res_at);
  let has_btc := bool_decide (currency = "BTC") in
  fee_percent ← when has_btc (range 1 6);
  owner_pubkey ← when has_btc (random_hex 33);
  fee_address ← when has_btc (random_escrow_address "BTC");
  addr ← random_escrow_address currency;
  amount ← random_amount currency;
  buyer_pubkey ← random_ed25519_pubkey;
  seller_pubkey ← random_ed25519_pubkey;
  lock ← range 86400 1209600;
  life ← range 86400 1814400;
  expires ← lift (i64_op (created_at + life));
  txid ← when (bool_decide (is_Some (st_released s))) (random_hex 32);
  mret (order_id,
    mk_order_data listing_id buyer_hash seller_hash (Some buyer_pubkey) (Some seller_pubkey) (st_state s)
      currency (Some addr) (Some amount) lock created_at (st_funded s) (st_shipped s) (st_confirmed s)
      (st_released s) (st_refunded s) (Some expires) (st_disputed s) (snd <$> dd) owner_pubkey fee_percent
      fee_address (fst <$> dd) chat_messages txid).

Definition run_dummy_worker (worker_key : option bytes) : prog (string + unit) :=
  match pick gen_f64 0%nat with
  | None => Panic
  | Some (prob, n) =>
      if f64_lt (pct 30) prob then Ret (inr tt) else
      let! ts := ENow in
      let now := floor_timestamp_6h ts in
      match generate_order now n with
      | None => Panic
      | Some ((order_id, data), _) =>
          try json := order_to_vec data in
          match worker_key with
          | None => Ret (inr tt)
          | Some key =>
              let! nonce := ERandom 12 in
              match encrypt_order_blob nonce json key order_id with
              | None => Ret (inr tt)
              | Some encrypted =>
                  let! r := EOrderInsert order_id encrypted now (expires_at data) in
                  Ret r
              end
          end
      end
  end.
(** ** Inversion *)

Lemma gen_bind_inv {A B} (m : gen A) (f : A -> gen B) n r :
  (m ≫= f) n = Some r -> exists a n', m n = Some (a, n') /\ f a n' = Some r.
Proof. unfold mbind, gen_bind. destruct (m n) as [[a n']|]; [eauto | done]. Qed.

Lemma gen_bind_none {A B} (m : gen A) (f : A -> gen B) n :
  (m ≫= f) n = None <-> m n = None \/ exists a n', m n = Some (a, n') /\ f a n' = None.
Proof. unfold mbind, gen_bind. destruct (m n) as [[a n']|]; naive_solver. Qed.

Lemma lift_inv {A} (o : option A) n a n' : lift o n = Some (a, n') -> o = Some a /\ n' = n.
Proof. unfold lift. destruct o; cbn; naive_solver. Qed.

Lemma range_inv lo hi n d n' :
  range lo hi n = Some (d, n') -> d = gen_range n lo hi /\ n' = S n.
Proof. by intros [= <- <-]. Qed.

(** ** Escrow addresses *)

Lemma random_char_none n : random_char n = None <-> 29 <= gen_range n 0 32.
Proof.
  unfold random_char. rewrite gen_bind_none. unfold range, pick, lift.
  assert (Hlen : length address_alphabet = 29%nat) by reflexivity. split.
  - intros [? | (a & n' & [= <- <-] & Hl)]; [done|].
    destruct (address_alphabet !! _) eqn:E; [done|]. apply lookup_ge_None in E. lia.
  - intros Hd. right. exists (gen_range n 0 32), (S n). split; [done|].
    by rewrite (proj2 (lookup_ge_None _ _)) by lia.
Qed.

Lemma random_char_some n b n' : random_char n = Some (b, n') -> n' = S n.
Proof.
  unfold random_char. intros (idx & n1 & Hr & Hl)%gen_bind_inv.
  apply range_inv in Hr as [_ ->]. by apply lift_inv in Hl as [_ ->].
Qed.

Lemma random_chars_none k : forall n,
  repeated k random_char n = None <-> exists i, (i < k)%nat /\ 29 <= gen_range (n + i) 0 32.
Proof.
  induction k as [|k IH]; intros n; cbn [repeated].
  - split; [done | intros (i & ? & _); lia].
  - rewrite gen_bind_none, random_char_none. split.
    + intros [Hd | (b & n1 & Hb & Hrest)].
      * exists 0%nat. rewrite Nat.add_0_r. split; [lia | done].
      * apply random_char_some in Hb as ->. apply gen_bind_none in Hrest as [Hrest | (l & n2 & _ & ?)]; [|done].
        apply IH in Hrest as (i & Hi & Hd). exists (S i). rewrite Nat.add_succ_r. split; [lia | done].
    + intros ([|i] & Hi & Hd); [left; by rewrite Nat.add_0_r in Hd|].
      destruct (random_char n) as [[b n1]|] eqn:Hb; [|left; by apply random_char_none].
      right. exists b, n1. split; [done|]. apply random_char_some in Hb as ->.
      apply gen_bind_none. left. apply IH. exists i. rewrite Nat.add_succ_r in Hd. split; [lia | done].
Qed.

(** A random Bitcoin address takes 31 letters of an alphabet of 29 by indices
    below 32: it panics exactly when one of the 31 draws is 29 or more, and with
    it the job that wanted to insert a Bitcoin order. *)
Theorem dummy_btc_address_panics n :
  random_escrow_address "BTC" n = None <->
  exists i, (i < 31)%nat /\ 29 <= gen_range (n + i) 0 32.
Proof.
  unfold random_escrow_address. rewrite bool_decide_eq_true_2 by done.
  rewrite gen_bind_none, random_chars_none. split; [|by left].
  intros [Hd | (l & n' & _ & ?)]; [exact Hd | done].
Qed.

(** ** Amounts *)

Lemma str_of_text_digits s : Forall graphic s -> str_of (text_of_str s) = s.
Proof.
  intros Hs. unfold text_of_str, str_of, of_utf8, as_bytes.
  rewrite String.list_byte_of_string_of_list_byte, map_map.
  rewrite (map_ext_in _ id), map_id; [done|]. intros z Hz%list_elem_of_In.
  rewrite Forall_forall in Hs. specialize (Hs z Hz). unfold graphic in Hs.
  rewrite byte_val_of_Z, Z.mod_small by lia. done.
Qed.

Context `{!RngLaws _}.

(** The payment poller reads a dummy amount back as what was drawn: from one to
    fifty bitcoin and from one to a hundred monero, and a fraction. *)
Theorem dummy_amount_parsed currency n amount n' :
  random_amount currency n = Some (amount, n') ->
  exists whole frac, 0 <= frac /\
    if decide (currency = "BTC") then
      1 <= whole <= 50 /\ frac < 10 ^ 8 /\
      parse_btc_amount_safe (str_of amount) = Some (whole * 10 ^ 8 + frac)
    else
      1 <= whole <= 100 /\ frac < 10 ^ 12 /\
      parse_xmr_amount_safe (str_of amount) = Some (whole * 10 ^ 12 + frac).
Proof.
  unfold random_amount. intros E. destruct (decide (currency = "BTC")) as [->|Hne].
  - rewrite bool_decide_eq_true_2 in E by done.
    apply gen_bind_inv in E as (whole & n1 & Hw%range_inv & E).
    apply gen_bind_inv in E as (frac & n2 & Hf%range_inv & E). injection E as <- _.
    destruct Hw as [Hw _], Hf as [Hf _].
    pose proof (gen_range_in n 1 51 ltac:(lia)) as Hr1.
    pose proof (gen_range_in n1 0 100000000 ltac:(lia)) as Hr2.
    exists whole, frac. split_and!; [lia..|].
    destruct (print_amount_facts 8 whole frac) as (Hg & _); [zlia | zlia | done | lia |].
    rewrite str_of_text_digits by done. rewrite btc_print_exact by zlia.
    cbv zeta. unfold MIN_PAYMENT_SATS. destruct (_ <? _) eqn:E; [apply Z.ltb_lt in E; lia | done].
  - rewrite bool_decide_eq_false_2 in E by done.
    apply gen_bind_inv in E as (whole & n1 & Hw%range_inv & E).
    apply gen_bind_inv in E as (frac & n2 & Hf%range_inv & E). injection E as <- _.
    destruct Hw as [Hw _], Hf as [Hf _].
    pose proof (gen_range_in n 1 101 ltac:(lia)) as Hr1.
    pose proof (gen_range_in n1 0 1000000000000 ltac:(lia)) as Hr2.
    exists whole, frac. split_and!; [lia..|].
    destruct (print_amount_facts 12 whole frac) as (Hg & _); [zlia | zlia | done | lia |].
    rewrite str_of_text_digits by done. by apply xmr_print_exact; zlia.
Qed.
(** ** Timestamps *)

(** Each time is two to forty-eight hours after the one before it. *)
Inductive paced : Z -> list Z -> Prop :=
| paced_nil t : paced t []
| paced_cons t d l : 7200 <= d < 172800 -> paced (t + d) l -> paced t (t + d :: l).

Lemma stamp_inv b cur n o cur' n' :
  0 <= cur < 2 ^ 62 -> stamp b cur n = Some ((o, cur'), n') ->
  (o = None /\ cur' = cur) \/ exists d, 7200 <= d < 172800 /\ o = Some (cur + d) /\ cur' = cur + d.
Proof.
  intros Hc E. unfold stamp in E. destruct b; [|injection E as <- <- _; by left].
  apply gen_bind_inv in E as (t & n1 & Ht & E). injection E as <- <- _. right.
  unfold step_time in Ht. apply gen_bind_inv in Ht as (d & n2 & [-> _]%range_inv & Ht).
  pose proof (gen_range_in n 7200 172800 ltac:(lia)) as Hd.
  apply lift_inv in Ht as [Ht _]. rewrite i64_op_in in Ht by zlia. injection Ht as <-. by eexists.
Qed.

(** The times of a generated order, in the order of its life. *)
Definition stamps (s : Stamps) : list Z :=
  omap id [st_funded s; st_shipped s; st_confirmed s; st_disputed s; st_released s; st_refunded s].

(** Whatever the roll, the timestamps of a dummy order follow one another in the
    order of an order's life, starting from its creation. *)
Theorem dummy_stamps_paced created n s n' :
  0 <= created < 2 ^ 61 ->
  generate_state_with_timestamps created n = Some (s, n') -> paced created (stamps s).
Proof.
  intros Hc E. unfold generate_state_with_timestamps in E.
  apply gen_bind_inv in E as (roll & n0 & _ & E).
  do 6 (let o := fresh "o" in let c := fresh "c" in let n := fresh "n" in let Hs := fresh "Hs" in
        apply gen_bind_inv in E as ([o c] & n & Hs & E)).
  injection E as <- _. unfold stamps. cbn [st_funded st_shipped st_confirmed st_disputed st_released st_refunded].
  repeat match goal with Hs : stamp _ ?cur _ = Some ((_, _), _) |- _ =>
    apply stamp_inv in Hs as [[-> ->] | (? & ? & -> & ->)]; [| | lia] end.
  all: cbn [omap list_omap id]; repeat (constructor; [done|]); constructor.
Qed.

(** ** The inserted row *)

Lemma generate_order_inv now n id d n' :
  0 <= now < 2 ^ 61 -> 6220800 <= now ->
  generate_order now n = Some ((id, d), n') ->
  created_at d mod 21600 = 0 /\
  exists life, 86400 <= life < 1814400 /\ expires_at d = Some (created_at d + life).
Proof.
  intros Hn Hn2 E. unfold generate_order in E.
  repeat match type of E with (pick _ ≫= _) _ = _ =>
    apply gen_bind_inv in E as (? & ? & _ & E) end.
  apply gen_bind_inv in E as (age & n1 & [-> _]%range_inv & E).
  match type of E with context [gen_range ?k 12 288] => pose proof (gen_range_in k 12 288 ltac:(lia)) as Hage; set (a := gen_range k 12 288) in * end.
  apply gen_bind_inv in E as (born & n2 & Hb & E). apply lift_inv in Hb as [Hb ->].
  rewrite i64_op_in in Hb by zlia. injection Hb as <-.
  set (born := now - a * 3600) in *. assert (0 <= born < 2 ^ 61) as Hborn by lia.
  pose proof (floor_6h_bounds born ltac:(lia)) as Hfloor. pose proof (floor_6h_nonneg born ltac:(lia)) as Hpos.
  assert (floor_timestamp_6h born mod 21600 = 0) as Hmod
    by (unfold floor_timestamp_6h; apply Z.mod_mul; lia).
  set (created := floor_timestamp_6h born) in *. clearbody created.
  do 14 (apply gen_bind_inv in E as (? & ? & _ & E)).
  apply gen_bind_inv in E as (life & n3 & [Hl _]%range_inv & E).
  apply gen_bind_inv in E as (ex & n4 & Hx & E). apply lift_inv in Hx as [Hx ->].
  apply gen_bind_inv in E as (tx & n5 & _ & E). injection E as <- <- _.
  cbn [created_at expires_at]. split; [done|].
  match type of Hl with _ = gen_range ?k _ _ => pose proof (gen_range_in k 86400 1814400 ltac:(lia)) as Hlr end.
  rewrite <- Hl in Hlr. rewrite i64_op_in in Hx by zlia. injection Hx as <-. exists life. done.
Qed.
Context `{!AeadLaws _} `{!SerdeLaws _}.

(** A run leaves the orders alone or adds one row, which the worker key opens.
    Its bucket of the day is a multiple of six hours like every other row's, but
    its expiry is the order's creation bucket plus an unrounded life: the
    plaintext column is a multiple of six hours only if the draw was. *)
Theorem dummy_insert env key w w' r :
  fair env -> 6220800 <= env_now env (w_time w) < 2 ^ 61 ->
  run env (run_dummy_worker (Some key)) w = (w', r) ->
  w_orders w' = w_orders w \/
  exists id o d life, w_orders w !! id = None /\ w_orders w' = <[id := o]> (w_orders w) /\
    o_id o = id /\ open_order key o = Some d /\ o_day_bucket o mod 21600 = 0 /\
    86400 <= life < 1814400 /\ o_expiry_bucket o = Some (created_at d + life) /\
    (created_at d + life) mod 21600 = life mod 21600.
Proof.
  intros Hf Hnow E. unfold run_dummy_worker in E. cbn [pick] in E.
  destruct (f64_lt _ _); [cbn in E; simplify_eq; by left|].
  step_in E. pose proof (floor_6h_bounds (env_now env (w_time w)) ltac:(lia)) as Hfl.
  set (now := floor_timestamp_6h (env_now env (w_time w))) in *.
  assert (6220800 <= now) as Hlow.
  { change 6220800 with (floor_timestamp_6h 6220800). apply floor_6h_mono. lia. }
  assert (now mod 21600 = 0) as Hmod by (unfold now, floor_timestamp_6h; apply Z.mod_mul; lia).
  clearbody now. destruct (generate_order now 1%nat) as [[[id d] n]|] eqn:Eg; [|cbn in E; simplify_eq; by left].
  apply generate_order_inv in Eg as (Hc & life & Hl & He); [|lia..].
  destruct (order_to_vec d) as [e|json] eqn:Ej; [cbn in E; simplify_eq; by left|].
  step_in E. specialize (Hf (w_time (w_tick w)) 12%nat).
  destruct (encrypt_order_blob _ json key id) as [blob|] eqn:Eb; [|cbn in E; simplify_eq; by left].
  step_in E. destruct (env_db_fault env _); [cbn in E; simplify_eq; by left|].
  unfold sql_insert_order in E. destruct (w_orders w !! id) as [x|] eqn:Hw; [cbn in E; simplify_eq; by left|].
  right. exists id, (mk_order id blob now (expires_at d) 1 0 None None None), d, life.
  assert (w_orders w' = <[id := mk_order id blob now (expires_at d) 1 0 None None None]> (w_orders w)) as Ho.
  { cbn in E. by injection E as <- _. }
  split_and!; [done | exact Ho | done | | done | lia.. | done |].
  - unfold open_order. cbn [o_encrypted_order_blob o_id]. rewrite (order_blob_roundtrip _ _ _ _ _ Hf Eb).
    cbn. by rewrite (order_serde_roundtrip _ _ Ej).
  - rewrite Z.add_mod, Hc, Z.add_0_l, Z.mod_mod by lia. done.
Qed.
Context `{!HashingLaws _} `{!WorkerTotal _ _ _}.

(** Without faults, a run that decides to insert does. *)
Lemma dummy_inserts env key w x n :
  fair env -> quiet env -> f64_lt (pct 30) (gen_f64 0) = false ->
  generate_order (floor_timestamp_6h (env_now env (w_time w))) 1%nat = Some (x, n) ->
  w_orders w !! x.1 = None ->
  w_orders (fst (run env (run_dummy_worker (Some key)) w)) <> w_orders w.
Proof.
  intros Hf Hq Hp Hg Hw. unfold run_dummy_worker. cbn [pick]. rewrite Hp. step. rewrite Hg.
  destruct x as [id d]. cbn [fst] in Hw. destruct (wt_serde d) as [json Ej]. rewrite Ej.
  step. specialize (Hf (S (w_time w)) 12%nat). unfold encrypt_order_blob, derive_order_key, derive_blob_key.
  destruct (hmac_total key (as_bytes "oblivious-order-v1" ++ id)) as [k Ek].
  destruct (wt_aead k _ json (hmac_length _ _ _ Ek) Hf) as [c Ec].
  unfold seal. rewrite Ek, Ec. step. unfold sql_insert_order. rewrite Hw.
  cbn. intros Heq. by rewrite <- Heq, lookup_insert_eq in Hw.
Qed.
End dummy.

(** ** Witnesses *)

Definition spread_rng : Rng := {|
  gen_range n lo hi := lo + (Z.of_nat n * 7919) mod (hi - lo);
  gen_byte n := byte_of_Z (Z.of_nat n);
  gen_f64 n := pct (Z.of_nat n * 25);
  gen_bool _ _ := true;
  new_uuid n := le_bytes 16 (Z.of_nat n) |}.

#[local] Instance spread_rng_laws : RngLaws spread_rng.
Proof. intros n lo hi H. cbn. pose proof (Z.mod_pos_bound (Z.of_nat n * 7919) (hi - lo)). lia. Qed.

Lemma dummy_amount_parsed_witness :
  exists amount n', @random_amount spread_rng "BTC" 4%nat = Some (amount, n') /\
  exists whole frac, 0 <= frac /\
    (1 <= whole <= 50 /\ frac < 10 ^ 8 /\
     parse_btc_amount_safe (str_of amount) = Some (whole * 10 ^ 8 + frac)).
Proof.
  destruct (@random_amount spread_rng "BTC" 4%nat) as [[amount n']|] eqn:E; [|discriminate E].
  exists amount, n'. split; [reflexivity|].
  exact (@dummy_amount_parsed release spread_rng spread_rng_laws "BTC" 4%nat amount n' E).
Defined.

Lemma dummy_stamps_paced_witness :
  exists s n', @generate_state_with_timestamps release spread_rng 1700006400 3%nat = Some (s, n') /\
    paced 1700006400 (stamps s) /\ st_state s = "released" /\ length (stamps s) = 4%nat.
Proof.
  destruct (@generate_state_with_timestamps release spread_rng 1700006400 3%nat) as [[s n']|] eqn:E.
  - exists s, n'. split; [reflexivity|]. split.
    + apply (@dummy_stamps_paced release spread_rng spread_rng_laws 1700006400 3%nat s n'); [zlia | exact E].
    + vm_compute in E. injection E as <- _. split; reflexivity.
  - vm_compute in E. discriminate E.
Defined.

(** Every draw the lowest: a short chat, no dispute. *)
Definition low_rng : Rng := {|
  gen_range _ lo _ := lo;
  gen_byte _ := Byte.x61;
  gen_f64 _ := pct 20;
  gen_bool _ _ := true;
  new_uuid n := le_bytes 16 (Z.of_nat n) |}.

#[local] Instance low_rng_laws : RngLaws low_rng.
Proof. intros n lo hi H. cbn. lia. Qed.

Definition dummy_key : bytes := sha256 (as_bytes "worker").

Lemma dummy_insert_witness :
  exists id o d life,
    w_orders (fst (run sample_env (@run_dummy_worker release hex_inst hashing_inst aead_inst serde_inst uuid_inst
                     low_rng (Some dummy_key)) empty_world)) = <[id := o]> ∅ /\
    open_order dummy_key o = Some d /\ o_expiry_bucket o = Some (created_at d + life).
Proof.
  destruct (run sample_env (@run_dummy_worker release hex_inst hashing_inst aead_inst serde_inst uuid_inst
                     low_rng (Some dummy_key)) empty_world) as [w' r] eqn:E.
  destruct (@dummy_insert release hex_inst hashing_inst aead_inst serde_inst uuid_inst low_rng low_rng_laws
              _ _ sample_env dummy_key empty_world w' r sample_env_fair) as [Hs | H].
  - cbn. lia.
  - exact E.
  - exfalso.
    destruct (@generate_order release hex_inst uuid_inst low_rng
                (floor_timestamp_6h (env_now sample_env 0)) 1%nat) as [[x n]|] eqn:Eg;
      [|vm_compute in Eg; discriminate Eg].
    apply (@dummy_inserts release hex_inst hashing_inst aead_inst serde_inst uuid_inst low_rng _ _
             sample_env dummy_key empty_world x n sample_env_fair sample_env_quiet);
      [vm_compute; reflexivity | exact Eg | reflexivity |].
    rewrite E. exact Hs.
  - destruct H as (id & o & d & life & _ & Ho & _ & Hd & _ & _ & He & _).
    exists id, o, d, life. split; [exact Ho|]. split; [exact Hd|exact He].
Defined.
