(* ===== verification/CoinSwap.v ===== *)
(** Coin swaps, src/services/payments/coinswap.rs: a chain of self-transfers from
    an output of the service to a final address, each hop to a fresh key. *)
From Stdlib Require Import Floats.SpecFloat.
From S2P Require Import Prelude Interfaces Instances Models Effects Rpc XmrClient BtcClient Escrow.

Definition DUST_SATS : Z := 546.
Definition DEFAULT_FEE_SATS : Z := 2000.

Record CoinSwapConfig := mk_swap_config {
  hop_count : nat; sc_network : Network; fee_sats_per_hop : Z }.

Definition default_swap_config : CoinSwapConfig := mk_swap_config 3 Regtest DEFAULT_FEE_SATS.

(** The output a hop spends and the keys it is signed with: the mutable variables
    of the loop. *)
Record Coin := mk_coin {
  cn_txid : string; cn_vout : Z; cn_amount : Z; cn_address : string; cn_sk : bytes; cn_pk : bytes }.

Section coinswap.
Context `{BuildProfile} `{JsonText} `{Hashing} `{Secp256k1} `{BitcoinLib}.

(** [Address::from_str(s)?.require_network(network)] *)
Definition swap_address (what s : string) (network : Network) : string + bytes :=
  match addr_from_str s with
  | None => inl "invalid address"
  | Some a => ok_or (addr_script a network) (what +:+ " address wrong network")
  end.

(** [None] is the panic of [psbt.inputs[0]]. *)
Definition build_self_transfer_psbt (prev_txid : string) (prev_vout amount_sats : Z)
    (prev_address next_address : string) (fee_sats : Z) (network : Network) : option (string + Psbt) :=
  match txid_from_str prev_txid with None => Some (inl "Invalid prev_txid") | Some txid =>
  match swap_address "Next" next_address network with inl e => Some (inl e) | inr next_script =>
  match swap_address "Prev" prev_address network with inl e => Some (inl e) | inr prev_script =>
  let output_value := u64_sat_sub amount_sats fee_sats in
  if output_value <? DUST_SATS then Some (inl "Output below dust threshold") else
  match psbt_from_unsigned_tx (mk_tx [mk_txin txid prev_vout] [mk_txout output_value next_script]) with
  | None => Some (inl "PSBT create")
  | Some psbt =>
      match psbt_inputs psbt with
      | [] => None
      | i :: rest =>
          Some (inr (mk_psbt (psbt_tx psbt)
            (mk_psbt_input (Some (mk_txout amount_sats prev_script)) (pi_partial_sigs i)
               (pi_witness_script i) (pi_final_script_witness i) :: rest)))
      end
  end end end end.

Definition hop_key (master_seed chain_seed : bytes) (i : Z) : string + bytes :=
  derive_escrow_key master_seed (as_bytes "coinswap:" ++ chain_seed ++ le_bytes 8 i).

(** [next_sk] and [next_address] of a hop. *)
Definition next_target (master_seed chain_seed : bytes) (final_address : string) (cfg : CoinSwapConfig)
    (hop : nat) (is_last : bool) : string + option bytes * string :=
  match hop_key master_seed chain_seed (Z.of_nat hop) with
  | inl e => inl e
  | inr sk =>
      if is_last then
        match swap_address "Final" final_address (sc_network cfg) with
        | inl e => inl e
        | inr _ => inr (None, final_address)
        end
      else inr (Some sk, stealth_p2wpkh_address (stealth_public_key sk) (sc_network cfg))
  end.

(** The transaction of a hop, ready to be sent. *)
Definition hop_transaction (cfg : CoinSwapConfig) (c : Coin) (next_address : string) : option (string + string) :=
  match build_self_transfer_psbt (cn_txid c) (cn_vout c) (cn_amount c) (cn_address c) next_address
          (fee_sats_per_hop cfg) (sc_network cfg) with
  | None => None
  | Some (inl e) => Some (inl e)
  | Some (inr psbt) =>
      match sign_stealth_input psbt 0 (cn_sk c) (cn_pk c) (cn_amount c) with
      | inl e => Some (inl e)
      | inr psbt => Some (finalize_stealth_psbt psbt)
      end
  end.

(** The variables after a hop. *)
Definition next_coin (cfg : CoinSwapConfig) (c : Coin) (txid : string) (next_sk : option bytes)
    (next_address : string) : Coin :=
  let amount := u64_sat_sub (cn_amount c) (fee_sats_per_hop cfg) in
  match next_sk with
  | Some sk => mk_coin txid 0 amount next_address sk (pk_from_secret_key sk)
  | None => mk_coin txid 0 amount (cn_address c) (cn_sk c) (cn_pk c)
  end.

(** Hops [hop], [hop + 1], ...; [left] of them remain. *)
Fixpoint run_hops (master_seed chain_seed : bytes) (final_address : string) (cfg : CoinSwapConfig)
    (left hop : nat) (c : Coin) : btc (list string) :=
  match left with
  | O => mret []
  | S left' =>
      '(next_sk, next_address) ← cresult
         (next_target master_seed chain_seed final_address cfg hop (Nat.eqb hop (hop_count cfg - 1)));
      tx_hex ← match hop_transaction cfg c next_address with None => cpanic | Some r => cresult r end;
      new_txid ← broadcast_psbt tx_hex;
      txids ← run_hops master_seed chain_seed final_address cfg left' (S hop)
                (next_coin cfg c new_txid next_sk next_address);
      mret (new_txid :: txids)
  end.

Definition run_coinswap_chain (master_seed chain_seed : bytes) (utxo_txid : string)
    (utxo_vout utxo_amount_sats : Z) (utxo_address : string) (sk pk : bytes) (final_address : string)
    (cfg : CoinSwapConfig) : btc (list string) :=
  run_hops master_seed chain_seed final_address cfg (hop_count cfg) 0
    (mk_coin utxo_txid utxo_vout utxo_amount_sats utxo_address sk pk).

(** ** What a chain is *)

(** One hop as it should be: a transaction that spends exactly the coin, pays all
    but the fee to the next address, is no dust, and is signed by the owner. *)
Record hop_spends (cfg : CoinSwapConfig) (c : Coin) (next_address : string) : Prop := {
  hs_fee : 0 <= fee_sats_per_hop cfg -> fee_sats_per_hop cfg + DUST_SATS <= cn_amount c;
  hs_tx : exists psbt txid prev_script next_script tx_hex,
    txid_from_str (cn_txid c) = Some txid /\
    swap_address "Prev" (cn_address c) (sc_network cfg) = inr prev_script /\
    swap_address "Next" next_address (sc_network cfg) = inr next_script /\
    psbt_tx psbt = mk_tx [mk_txin txid (cn_vout c)]
                     [mk_txout (cn_amount c - fee_sats_per_hop cfg) next_script] /\
    cn_pk c = pk_from_secret_key (cn_sk c) /\
    (exists h sig, p2wpkh_signature_hash (psbt_tx psbt) 0 prev_script (cn_amount c) = Some h /\
       sig = sig_to_vec (sign_ecdsa h (cn_sk c)) /\
       psbt_inputs psbt = [mk_psbt_input (Some (mk_txout (cn_amount c) prev_script))
                             [(cn_pk c, sig)] None (Some [sig; cn_pk c])]) /\
    extract_tx_hex psbt = Some tx_hex }.

(** A chain from hop [hop] of [n]: every hop but the last pays the address of its
    own fresh key, which signs the next hop; the last pays the final address. *)
Inductive swap_chain (master_seed chain_seed : bytes) (final_address : string) (cfg : CoinSwapConfig)
    : nat -> Coin -> list string -> Prop :=
| swap_last hop c txid :
    S hop = hop_count cfg -> hop_spends cfg c final_address ->
    swap_chain master_seed chain_seed final_address cfg hop c [txid]
| swap_hop hop c sk txid txids :
    (S hop < hop_count cfg)%nat -> hop_key master_seed chain_seed (Z.of_nat hop) = inr sk ->
    let next := stealth_p2wpkh_address (pk_from_secret_key sk) (sc_network cfg) in
    hop_spends cfg c next ->
    swap_chain master_seed chain_seed final_address cfg (S hop)
      (mk_coin txid 0 (cn_amount c - fee_sats_per_hop cfg) next sk (pk_from_secret_key sk)) txids ->
    swap_chain master_seed chain_seed final_address cfg hop c (txid :: txids).

Context `{!BitcoinLibLaws _}.

Lemma build_transfer_inv prev_txid vout amount prev next fee network psbt :
  0 <= fee -> 0 <= amount <= u64_max ->
  build_self_transfer_psbt prev_txid vout amount prev next fee network = Some (inr psbt) ->
  exists txid prev_script next_script,
    txid_from_str prev_txid = Some txid /\ swap_address "Prev" prev network = inr prev_script /\
    swap_address "Next" next network = inr next_script /\ fee + DUST_SATS <= amount /\
    psbt = mk_psbt (mk_tx [mk_txin txid vout] [mk_txout (amount - fee) next_script])
             [mk_psbt_input (Some (mk_txout amount prev_script)) [] None None].
Proof.
  intros Hf Ha. unfold build_self_transfer_psbt. destruct (txid_from_str prev_txid) as [txid|]; [|done].
  destruct (swap_address "Next" next network) as [|next_script]; [done|].
  destruct (swap_address "Prev" prev network) as [|prev_script]; [done|].
  destruct (Z.ltb_spec (u64_sat_sub amount fee) DUST_SATS) as [|Hd]; [done|].
  rewrite psbt_from_tx. cbn. intros [= <-].
  assert (u64_sat_sub amount fee = amount - fee /\ fee + DUST_SATS <= amount) as [-> Hle].
  { unfold u64_sat_sub, u64_sat, DUST_SATS in *. zlia. }
  by exists txid, prev_script, next_script.
Qed.

Lemma hop_transaction_spends cfg c next tx_hex :
  0 <= fee_sats_per_hop cfg -> 0 <= cn_amount c <= u64_max ->
  hop_transaction cfg c next = Some (inr tx_hex) -> hop_spends cfg c next.
Proof.
  intros Hf Ha. unfold hop_transaction.
  destruct (build_self_transfer_psbt _ _ _ _ _ _ _) as [[e|psbt]|] eqn:Eb; [done| |done].
  apply build_transfer_inv in Eb as (txid & ps & ns & Ht & Hp & Hn & Hle & ->); [|done..].
  destruct (sign_stealth_input _ 0 _ _ _) as [e|psbt'] eqn:Es; [done|]. intros Hfin.
  apply sign_stealth_input_spec in Es as (input & utxo & h & Hi & Hpk & Hu & _ & Hh & ->).
  cbn in Hi. injection Hi as <-. cbn in Hu. injection Hu as <-.
  unfold finalize_stealth_psbt in Hfin. cbn in Hfin.
  destruct (extract_tx_hex _) as [x|] eqn:Ex; cbn [ok_or] in Hfin; [|done].
  split; [done|]. match type of Ex with extract_tx_hex ?p = _ => exists p, txid, ps, ns, x end.
  repeat (split; [first [exact Ht | exact Hp | exact Hn | reflexivity | exact Hpk]|]). split; [|exact Ex].
  exists h. eexists. split; [exact Hh|]. split; [reflexivity|]. reflexivity.
Qed.

Lemma next_target_last ms cs final cfg hop r :
  next_target ms cs final cfg hop true = inr r -> r = (None, final).
Proof.
  unfold next_target. destruct (hop_key _ _ _); [done|]. destruct (swap_address _ _ _); [done|]. by intros [= <-].
Qed.

Lemma next_target_inner ms cs final cfg hop r :
  next_target ms cs final cfg hop false = inr r ->
  exists sk, hop_key ms cs (Z.of_nat hop) = inr sk /\
    r = (Some sk, stealth_p2wpkh_address (stealth_public_key sk) (sc_network cfg)).
Proof. unfold next_target. destruct (hop_key _ _ _) as [|sk]; [done|]. intros [= <-]. by exists sk. Qed.

Lemma run_hops_chain env ms cs final cfg left : forall hop c rpc w w' rpc' txids,
  (left + hop)%nat = hop_count cfg -> (0 < left)%nat ->
  0 <= fee_sats_per_hop cfg -> 0 <= cn_amount c <= u64_max ->
  run env (run_hops ms cs final cfg left hop c rpc) w = (w', Some (rpc', inr txids)) ->
  length txids = left /\ swap_chain ms cs final cfg hop c txids.
Proof.
  induction left as [|left IH]; intros hop c rpc w w' rpc' txids Hn Hpos Hf Ha E; [lia|].
  cbn [run_hops] in E. rewrite run_cbind in E. cbn [cresult run] in E.
  destruct (next_target ms cs final cfg hop _) as [e|[next_sk next]] eqn:Et; [done|].
  rewrite run_cbind in E. destruct (hop_transaction cfg c next) as [[e|tx]|] eqn:Eh; cbn [cresult cpanic run] in E;
    [done| |done].
  apply hop_transaction_spends in Eh; [|done..].
  rewrite run_cbind in E. destruct (run env (broadcast_psbt tx rpc) w) as [w1 [[rpc1 [e|txid]]|]]; [done| |done].
  rewrite run_cbind in E. destruct (run env (run_hops _ _ _ _ _ _ _ rpc1) w1) as [w2 [[rpc2 [e|rest]]|]] eqn:Er;
    [done| |done].
  cbn in E. injection E as <- <- <-.
  destruct (Nat.eqb_spec hop (hop_count cfg - 1)) as [Hlast|Hmore].
  - apply next_target_last in Et as [= -> ->]. assert (left = 0%nat) as -> by lia.
    cbn in Er. injection Er as _ _ <-. split; [done|]. apply swap_last; [lia | done].
  - apply next_target_inner in Et as (sk & Hk & [= -> ->]).
    assert (u64_sat_sub (cn_amount c) (fee_sats_per_hop cfg) = cn_amount c - fee_sats_per_hop cfg) as Hsub.
    { pose proof (hs_fee _ _ _ Eh Hf). unfold u64_sat_sub, u64_sat, DUST_SATS in *. zlia. }
    cbn [next_coin] in Er. unfold next_coin in Er. rewrite Hsub in Er.
    apply IH in Er as [Hl Hc]; [| lia | lia | done | pose proof (hs_fee _ _ _ Eh Hf); cbn; unfold DUST_SATS in *; zlia].
    split; [cbn; lia|]. by apply swap_hop with sk; [lia | | |].
Qed.

(** C28. A swap that returns made one transaction per hop, and they form a chain: each
    spends exactly the output before it and pays all but the fee on, signed with
    the key the spent address belongs to; the last pays the final address. *)
Theorem coinswap_chain env ms cs txid vout amount address sk pk final cfg rpc w w' rpc' txids :
  0 <= fee_sats_per_hop cfg -> 0 <= amount <= u64_max -> (0 < hop_count cfg)%nat ->
  run env (run_coinswap_chain ms cs txid vout amount address sk pk final cfg rpc) w
    = (w', Some (rpc', inr txids)) ->
  length txids = hop_count cfg /\
  swap_chain ms cs final cfg 0 (mk_coin txid vout amount address sk pk) txids.
Proof. intros Hf Ha Hn E. eapply run_hops_chain; [lia | done | done | done | exact E]. Qed.

Lemma chain_pays ms cs final cfg hop c txids :
  0 <= fee_sats_per_hop cfg -> swap_chain ms cs final cfg hop c txids ->
  fee_sats_per_hop cfg * Z.of_nat (hop_count cfg - hop) + DUST_SATS <= cn_amount c.
Proof.
  intros Hf. induction 1 as [hop c txid Hl Hs | hop c sk txid txids Hl Hk next Hs _ IH].
  - pose proof (hs_fee _ _ _ Hs Hf). replace (hop_count cfg - hop)%nat with 1%nat by lia. lia.
  - cbn [cn_amount] in IH. replace (hop_count cfg - hop)%nat with (S (hop_count cfg - S hop)) by lia. lia.
Qed.

(** A swap of less than the fees of all hops and a spendable rest does not return
    a list of transactions. *)
Theorem coinswap_needs_fees env ms cs txid vout amount address sk pk final cfg rpc w :
  0 <= fee_sats_per_hop cfg -> 0 <= amount <= u64_max -> (0 < hop_count cfg)%nat ->
  amount < fee_sats_per_hop cfg * Z.of_nat (hop_count cfg) + DUST_SATS ->
  forall w' rpc' txids,
    run env (run_coinswap_chain ms cs txid vout amount address sk pk final cfg rpc) w
      <> (w', Some (rpc', inr txids)).
Proof.
  intros Hf Ha Hn Hlow w' rpc' txids E.
  apply run_hops_chain in E as [_ Hc]; [|lia|done..].
  apply chain_pays in Hc; [|done]. cbn [cn_amount] in Hc. rewrite Nat.sub_0_r in Hc. lia.
Qed.
End coinswap.

(** ** Witnesses *)

Definition swap_env : Env :=
  mk_env (fun n => 1747000000 + Z.of_nat n) (fun t n => repeat (byte_of_Z (Z.of_nat t)) n)
    (fun t => le_bytes 16 (Z.of_nat t)) (fun _ => None) (fun _ => None)
    (fun t _ _ _ => inr (JObj [("result", JStr (hex_enc (le_bytes 2 (Z.of_nat t))))])).

Definition swap_seed : bytes := sha256 (as_bytes "seed").
Definition swap_sk : bytes := sha256 (as_bytes "coin").

Definition sample_swap (amount : Z) :=
  run swap_env
    (@run_coinswap_chain release json_text_inst hashing_inst secp_inst bitcoin_inst swap_seed (as_bytes "chain")
       "0a" 1 amount "coin" swap_sk (x_public swap_sk) "final" default_swap_config btc_new) empty_world.

Lemma coinswap_chain_witness :
  exists rpc' txids, (sample_swap 100000).2 = Some (rpc', inr txids) /\
    length txids = 3%nat /\
    @swap_chain hashing_inst secp_inst bitcoin_inst swap_seed (as_bytes "chain") "final"
      default_swap_config 0 (mk_coin "0a" 1 100000 "coin" swap_sk (x_public swap_sk)) txids.
Proof.
  destruct (sample_swap 100000) as [w' [[rpc' [e|txids]]|]] eqn:E.
  - exfalso. apply (f_equal (fun p => option_map snd (snd p))) in E. vm_compute in E. discriminate.
  - exists rpc', txids. split; [reflexivity|].
    apply (@coinswap_chain release json_text_inst hashing_inst secp_inst bitcoin_inst bitcoin_inst_laws swap_env
             swap_seed (as_bytes "chain") "0a" 1 100000 "coin" swap_sk (x_public swap_sk) "final"
             default_swap_config btc_new empty_world w' rpc' txids);
      [vm_compute; discriminate | zlia | cbn; lia | exact E].
  - exfalso. apply (f_equal (fun p => option_map snd (snd p))) in E. vm_compute in E. discriminate.
Defined.

Lemma coinswap_needs_fees_witness : forall w' rpc' txids, sample_swap 6545 <> (w', Some (rpc', inr txids)).
Proof.
  apply (@coinswap_needs_fees release json_text_inst hashing_inst secp_inst bitcoin_inst bitcoin_inst_laws swap_env
             swap_seed (as_bytes "chain") "0a" 1 6545 "coin" swap_sk (x_public swap_sk) "final"
             default_swap_config btc_new empty_world);
    [vm_compute; discriminate | zlia | cbn; lia | vm_compute; reflexivity].
Defined.
