(* ===== verification/Interleave.v ===== *)
(** Rely-guarantee reasoning for the programs that share the orders table.

    A program is [legal] for a relation [P] on rows when every update it can
    perform replaces a row it has read, at the version it read, by one that [P]
    allows.  Whether another writer came between is decided by the version in
    the WHERE clause, so any number of legal programs, interleaved effect by
    effect, takes every row through steps of [P] only. *)
From stdpp Require Import relations.
From S2P Require Import Prelude Models Effects Worker.

(** ** Legal programs *)

(** The rows a response shows, with the keys they were found under. *)
Definition learn {R} (e : ev R) : R -> list (bytes * Order) :=
  match e in ev R return R -> list (bytes * Order) with
  | EOrderSelect id => fun r => match r with inr (Some o) => [(id, o)] | _ => [] end
  | EOrderAll => fun r => match r with inr l => map (fun o => (o_id o, o)) l | _ => [] end
  | _ => fun _ => []
  end.

(** The responses that can occur: rows lie under their key, and the generator
    returns as many bytes as it is asked for. *)
Definition possible {R} (e : ev R) : R -> Prop :=
  match e in ev R return R -> Prop with
  | EOrderSelect id => fun r => match r with inr (Some o) => o_id o = id | _ => True end
  | ERandom n => fun r => length r = n
  | _ => fun _ => True
  end.

Section legal.
Variable P : Order -> Order -> Prop.

Definition allowed {R} (seen : list (bytes * Order)) (e : ev R) : Prop :=
  match e with
  | EOrderUpdate sets id v => exists o, (id, o) ∈ seen /\ o_version o = v /\ P o (row_after sets o)
  | _ => True
  end.

Fixpoint legal {A} (seen : list (bytes * Order)) (p : prog A) : Prop :=
  match p with
  | Ret _ | Panic => True
  | Vis e k => allowed seen e /\ forall r, possible e r -> legal (learn e r ++ seen) (k r)
  end.

Lemma allowed_mono {R} seen seen' (e : ev R) : seen ⊆ seen' -> allowed seen e -> allowed seen' e.
Proof. intros Hs. destruct e; try done. intros (o & Ho & Hv & HP). exists o. split; [by apply Hs|done]. Qed.

Lemma legal_mono {A} (p : prog A) : forall seen seen', seen ⊆ seen' -> legal seen p -> legal seen' p.
Proof.
  induction p as [a| |R e k IH]; intros seen seen' Hs; [done..|]. intros [He Hk].
  split; [by eapply allowed_mono|]. intros r Hr. eapply IH; [|by apply Hk]. set_solver.
Qed.

Lemma legal_bind {A B} (p : prog A) (f : A -> prog B) : forall seen,
  legal seen p -> (forall a seen', seen ⊆ seen' -> legal seen' (f a)) -> legal seen (bind p f).
Proof.
  induction p as [a| |R e k IH]; intros seen Hp Hf; [by apply Hf|done|]. destruct Hp as [He Hk].
  split; [done|]. intros r Hr. apply IH; [by apply Hk|]. intros a seen' Hs. apply Hf. set_solver.
Qed.

Lemma legal_vis {A R} seen (e : ev R) (k : R -> prog A) :
  writes_table e = false -> (forall r seen', seen ⊆ seen' -> legal seen' (k r)) -> legal seen (Vis e k).
Proof.
  intros He Hk. split; [by destruct e|]. intros r _. apply Hk. set_solver.
Qed.

(** Programs without writes are legal, for any relation. *)
Lemma legal_reads {A} (p : prog A) : forall seen, reads_only p -> legal seen p.
Proof.
  induction p as [a| |R e k IH]; intros seen; [done..|]. intros [He Hk].
  apply legal_vis; [done|]. intros r seen' _. by apply IH.
Qed.

Lemma legal_ret {A} seen (a : A) : legal seen (Ret a).
Proof. done. Qed.
End legal.

Lemma legal_weaken (P Q : Order -> Order -> Prop) {A} (p : prog A) :
  (forall o o', P o o' -> Q o o') -> forall seen, legal P seen p -> legal Q seen p.
Proof.
  intros HPQ. induction p as [a| |R e k IH]; intros seen; [done..|]. intros [He Hk]. split.
  - destruct e; try done. destruct He as (o & Ho & Hv & HP). exists o. eauto.
  - intros r Hr. by apply IH, Hk.
Qed.

(** What a program can return, whatever the responses. *)
Fixpoint yields {A} (Q : A -> Prop) (p : prog A) : Prop :=
  match p with
  | Ret a => Q a
  | Panic => True
  | Vis e k => forall r, yields Q (k r)
  end.

Lemma yields_bind {A B} (Q : B -> Prop) (p : prog A) (f : A -> prog B) :
  (forall a, yields Q (f a)) -> yields Q (bind p f).
Proof. intros Hf. induction p as [a| |R e k IH]; cbn; [apply Hf|done|]. intros r. apply IH. Qed.

(** The continuation may use what the first part can return. *)
Lemma legal_bind_yields P {A B} (Q : A -> Prop) (p : prog A) (f : A -> prog B) : forall seen,
  legal P seen p -> yields Q p -> (forall a seen', Q a -> seen ⊆ seen' -> legal P seen' (f a)) ->
  legal P seen (bind p f).
Proof.
  induction p as [a| |R e k IH]; intros seen Hp Hy Hf; [by apply Hf|done|]. destruct Hp as [He Hk].
  split; [done|]. intros r Hr. apply IH; [by apply Hk|apply Hy|]. intros a seen' Ha Hs. apply Hf; [done|set_solver].
Qed.

(** ** The interleaving *)

(** Every row goes through steps of [P]; rows may be added. *)
Definition grows (P : Order -> Order -> Prop) (m m' : gmap bytes Order) : Prop :=
  forall id o, m !! id = Some o -> exists o', m' !! id = Some o' /\ rtc P o o'.

Lemma grows_refl P m : grows P m m.
Proof. intros id o Ho. by exists o. Qed.

Lemma grows_trans P m1 m2 m3 : grows P m1 m2 -> grows P m2 m3 -> grows P m1 m3.
Proof.
  intros H1 H2 id o Ho. destruct (H1 id o Ho) as (o2 & H12 & R12).
  destruct (H2 id o2 H12) as (o3 & H23 & R23). exists o3. split; [done|by etrans].
Qed.

(** A row that was seen is still there: the same, or at a later version. *)
Definition current (m : gmap bytes Order) (seen : list (bytes * Order)) : Prop :=
  forall id o, (id, o) ∈ seen -> exists cur, m !! id = Some cur /\
    (cur = o \/ o_version o < o_version cur).

Lemma row_after_version sets o : o_version (row_after sets o) = o_version o + 1.
Proof.
  unfold row_after. assert (forall o, o_version (bump_version o) = o_version o + 1) as -> by (by intros []).
  revert o. induction sets as [|s t IH]; intros o; [done|]. cbn. rewrite IH. by destruct o, s.
Qed.

Lemma current_insert m id o o' seen :
  m !! id = Some o -> o_version o < o_version o' -> current m seen -> current (<[id := o']> m) seen.
Proof.
  intros Hm Hv Hc i x Hx. destruct (Hc i x Hx) as (cur & Hcur & Hor).
  destruct (decide (i = id)) as [->|Hne].
  - rewrite Hm in Hcur. simplify_eq. exists o'. rewrite lookup_insert_eq. split; [done|].
    right. destruct Hor as [->|?]; lia.
  - exists cur. by rewrite lookup_insert_ne.
Qed.

(** One effect of a legal program on the table. *)
Lemma handle_legal P env {R} (e : ev R) w w' r seen :
  fair env -> keyed o_id (w_orders w) -> current (w_orders w) seen -> allowed P seen e ->
  handle env e w = (w', r) ->
  possible e r /\ current (w_orders w') (learn e r) /\ keyed o_id (w_orders w') /\
  grows P (w_orders w) (w_orders w') /\ (forall s, current (w_orders w) s -> current (w_orders w') s).
Proof.
  intros Hf Hk Hc Ha Hh.
  assert (forall m, w_orders w' = m -> m = w_orders w -> possible e r -> current (w_orders w) (learn e r) ->
    possible e r /\ current (w_orders w') (learn e r) /\ keyed o_id (w_orders w') /\
    grows P (w_orders w) (w_orders w') /\ (forall s, current (w_orders w) s -> current (w_orders w') s)) as Hsame.
  { intros m Hm -> Hp Hl. rewrite Hm. split_and!; try done. apply grows_refl. }
  assert (forall (l : list (bytes * Order)), l = [] -> current (w_orders w) l) as Hnil
    by (intros l -> i x Hx; by apply elem_of_nil in Hx).
  destruct (writes_table e) eqn:Hw.
  - destruct e; try discriminate Hw; unfold handle, guarded in Hh; cbn [learn possible allowed] in *.
    + destruct (env_db_fault _ _); [simplify_eq/=; by eapply Hsame; eauto|].
      unfold sql_insert_order in Hh. destruct (w_orders w !! id) as [x|] eqn:Hx; simplify_eq/=; [by eapply Hsame; eauto|].
      split_and!; [done|by intros i y Hy; apply elem_of_nil in Hy| | |].
      * intros i y. destruct (decide (i = id)) as [->|Hne]; [rewrite lookup_insert_eq; by intros [= <-]|].
        rewrite lookup_insert_ne by done. apply Hk.
      * intros i y Hy. exists y. rewrite lookup_insert_ne; [done|]. intros ->. congruence.
      * intros s Hs i y Hy. destruct (Hs i y Hy) as (cur & Hcur & Hor). exists cur.
        rewrite lookup_insert_ne; [done|]. intros ->. congruence.
    + destruct (env_db_fault _ _); [simplify_eq/=; by eapply Hsame; eauto|].
      destruct Ha as (o & Ho & Hv & HP). unfold sql_update_order in Hh.
      destruct (w_orders w !! id) as [cur|] eqn:Hcur; [|simplify_eq/=; by eapply Hsame; eauto].
      destruct (decide (o_version cur = v)) as [Hv'|]; [|simplify_eq/=; by eapply Hsame; eauto].
      destruct (Hc _ _ Ho) as (cur' & Hcur' & Hor). rewrite Hcur in Hcur'. simplify_eq/=.
      destruct Hor as [->|?]; [|lia]. change (bump_version _) with (row_after sets o).
      pose proof (row_after_version sets o) as Hver.
      split_and!; [done|by intros i y Hy; apply elem_of_nil in Hy| | |].
      * intros i y. destruct (decide (i = id)) as [->|Hne].
        -- rewrite lookup_insert_eq. intros [= <-]. rewrite row_after_id. by apply Hk.
        -- rewrite lookup_insert_ne by done. apply Hk.
      * intros i y Hy. destruct (decide (i = id)) as [->|Hne].
        -- exists (row_after sets o). rewrite lookup_insert_eq. split; [done|]. rewrite Hcur in Hy. simplify_eq.
           by apply rtc_once.
        -- exists y. by rewrite lookup_insert_ne.
      * intros s Hs. eapply current_insert; [done| |done]. lia.
    + destruct (env_db_fault _ _); [simplify_eq/=; by eapply Hsame; eauto|].
      destruct (w_listings w !! _); simplify_eq/=; by eapply Hsame; eauto.
    + destruct (env_db_fault _ _); [simplify_eq/=; by eapply Hsame; eauto|].
      destruct (sql_update_listing _ _ _ _); simplify_eq/=; by eapply Hsame; eauto.
  - destruct (handle_reads env e w w' r Hw Hh) as [Ho _]. eapply Hsame; [exact Ho|done| |].
    + destruct e; try done; unfold handle, guarded in Hh; cbn [possible].
      * injection Hh as _ <-. apply Hf.
      * destruct (env_db_fault _ _); simplify_eq/=; [done|]. destruct (w_orders w !! id) eqn:Hx; [|done]. by apply Hk.
    + destruct e; try (by apply Hnil); unfold handle, guarded in Hh; cbn [learn].
      * destruct (env_db_fault _ _); simplify_eq/=; [by apply Hnil|].
        destruct (w_orders w !! id) as [o|] eqn:Hx; [|by apply Hnil].
        intros i y Hy. apply list_elem_of_singleton in Hy as [= -> ->]. exists o. by split; [|left].
      * destruct (env_db_fault _ _); simplify_eq/=; [by apply Hnil|].
        intros i y Hy. apply list_elem_of_fmap in Hy as (o & [= -> ->] & Hin).
        exists o. split; [|by left]. by apply (snapshot_in o_id).
Qed.

(** Each thread has its own history. *)
Definition pool_ok (P : Order -> Order -> Prop) {A} (ps : list (prog A)) (w : World) : Prop :=
  forall (i : nat) p, ps !! i = Some p -> exists seen, current (w_orders w) seen /\ legal P seen p.

Lemma pool_step_legal P env {A} (ps ps' : list (prog A)) w w' l :
  fair env -> keyed o_id (w_orders w) -> pool_ok P ps w -> pool_step env ps w l ps' w' ->
  keyed o_id (w_orders w') /\ pool_ok P ps' w' /\ grows P (w_orders w) (w_orders w').
Proof.
  intros Hf Hk Hok Hs. inversion Hs as [qs i R e k v v' r Hi Hh]; simplify_eq.
  destruct (Hok i _ Hi) as (seen & Hc & Ha & Hl).
  destruct (handle_legal P env e w w' r seen Hf Hk Hc Ha Hh) as (Hp & Hlearn & Hk' & Hg & Hkeep).
  split; [done|]. split; [|done]. intros j p Hj. destruct (decide (j = i)) as [->|Hne].
  - rewrite list_lookup_insert_eq in Hj by (by eapply lookup_lt_Some). simplify_eq.
    exists (learn e r ++ seen). split; [|by apply Hl]. intros id o Ho.
    apply elem_of_app in Ho as [Ho|Ho]; [by apply Hlearn|]. by apply (Hkeep seen Hc).
  - rewrite list_lookup_insert_ne in Hj by done. destruct (Hok j p Hj) as (seen' & Hc' & Hl').
    exists seen'. split; [by apply Hkeep|done].
Qed.

Lemma pool_steps_legal P env {A} (ps ps' : list (prog A)) w w' ls :
  fair env -> keyed o_id (w_orders w) -> pool_ok P ps w -> pool_steps env ps w ls ps' w' ->
  keyed o_id (w_orders w') /\ grows P (w_orders w) (w_orders w').
Proof.
  intros Hf Hk Hok Hs. induction Hs as [ps w|ps w l ps1 w1 ls ps2 w2 H1 _ IH].
  - split; [done|apply grows_refl].
  - destruct (pool_step_legal P env ps ps1 w w1 l Hf Hk Hok H1) as (Hk1 & Hok1 & Hg1).
    destruct (IH Hk1 Hok1) as [Hk2 Hg2]. split; [done|]. by eapply grows_trans.
Qed.

Lemma pool_ok_start P {A} (ps : list (prog A)) w : Forall (legal P []) ps -> pool_ok P ps w.
Proof.
  intros Hl i p Hi. exists []. split; [intros id o Ho; by apply elem_of_nil in Ho|].
  rewrite Forall_lookup in Hl. by eapply Hl.
Qed.
