(* ===== verification/Jobs.v ===== *)
(** The worker process as a whole: [run_workers] of src/worker/mod.rs, its five
    loops, and what their jobs do to the orders when they interleave, effect by
    effect, with each other.

    A tick is what ends the [select!] of a loop: the shutdown flag became true,
    or the timer (or a flag set to false) let the job run; the jittered
    durations decide only how often. *)
From stdpp Require Import relations.
From S2P Require Import Prelude Interfaces Instances TimeBuckets Models Effects Serde Auth RateLimit Blobs Worker Amounts Texts Rpc XmrClient BtcClient Escrow AppConfig NodeReads TimeLock ListingExpiry Poller NotificationScanner DummyWorker Interleave KeyStorage Tor Startup.

(** ** What the jobs may do to the data of an order *)

Section changes.
Context `{Hex}.

Inductive job_change : OrderData -> OrderData -> Prop :=
| jc_funded now d : state d = "pending" -> job_change d (set_funded_at (Some now) (set_state "funded" d))
| jc_cancelled d : state d = "pending" -> job_change d (set_state "cancelled" d)
| jc_settled txid d : state d = "released" -> settlement_txid d = None ->
    job_change d (set_settlement_txid (Some txid) d)
| jc_swept now f u d : next_data now d = Some f -> job_change d (f u)
| jc_notified pk addr d : escrow_address d = None ->
    job_change d (set_buyer_pubkey (Some pk) (set_escrow_address (Some addr) d)).

(** A change of state is one the state machine allows. *)
Lemma job_change_lifecycle d d' :
  job_change d d' -> state d' = state d \/ can_transition_to d (state d') = true.
Proof.
  intros [now x Hs|x Hs|txid x Hs _|now f u x Hn|pk addr x _].
  - right. rewrite (can_transition_eq _ "pending" _ Hs). by destruct x.
  - right. rewrite (can_transition_eq _ "pending" _ Hs). by destruct x.
  - left. by destruct x.
  - right. by eapply next_data_lifecycle.
  - left. by destruct x.
Qed.

End changes.

(** ** The loops *)

Inductive tick := Stop | Go.

Fixpoint job_loop {C} (job : C -> prog C) (c : C) (ticks : list tick) : prog unit :=
  match ticks with
  | [] | Stop :: _ => Ret tt
  | Go :: rest => do c := job c in job_loop job c rest
  end.

Section jobs.
Context `{BuildProfile} `{JsonText} `{Hashing} `{Hex} `{Aead} `{X25519} `{Serde} `{Secp256k1} `{BitcoinLib}
  `{UuidText} `{Reqwest} `{Rng}.

(** The columns only the API process writes. *)
Definition api_columns (o : Order) :=
  (o_day_bucket o, o_has_dispute o, o_client_encrypted_blob o, o_dispute_client_blob o,
   o_chat_encrypted_blob o).

(** One update of one row. *)
Definition job_step (key : bytes) (o o' : Order) : Prop :=
  o_id o' = o_id o /\ o_version o' = o_version o + 1 /\ api_columns o' = api_columns o /\
  exists d d', open_order key o = Some d /\ open_order key o' = Some d' /\ job_change d d'.

(** The part of the configuration the settlement reads. *)
Definition escrow_part (c : Config) : Escrow.EscrowConfig :=
  mk_escrow_config (network (bitcoin c)) (fee_address_btc (escrow c)) (fee_percent (escrow c)).

(** The bodies of the five loops: [let _ = job(&s).await]. *)
Definition poll_job (cfg : Escrow.EscrowConfig) (wk : option bytes) (hash_order : list bytes -> list bytes)
    (clients : MoneroViewOnlyClient * BitcoinClient) : prog (MoneroViewOnlyClient * BitcoinClient) :=
  do r := check_pending_payments cfg wk hash_order clients in Ret (fst r).
Definition time_lock_job (wk : option bytes) (u : unit) : prog unit :=
  do _ := check_time_locks wk in Ret tt.
Definition expiry_job (wk : option bytes) (u : unit) : prog unit :=
  do _ := check_listing_expiry wk in Ret tt.
Definition scan_job (cfg : Escrow.EscrowConfig) (wk : option bytes) (last : option string) : prog (option string) :=
  do r := scan_notifications cfg wk last in Ret (fst r).
Definition dummy_job (wk : option bytes) (u : unit) : prog unit :=
  do _ := run_dummy_worker wk in Ret tt.

(** [run_workers]: nothing for a state without a worker key, five tasks otherwise. *)
Definition run_workers (m : Machine) (st : AppState) (hash_order : list bytes -> list bytes)
    (clients : MoneroViewOnlyClient * BitcoinClient) (t1 t2 t3 t4 t5 : list tick) : list (prog unit) :=
  match assert_worker_state m st with
  | inl _ => []
  | inr _ =>
      let cfg := escrow_part (as_config st) in
      let wk := as_worker_key st in
      [job_loop (poll_job cfg wk hash_order) clients t1;
       job_loop (time_lock_job wk) tt t2;
       job_loop (expiry_job wk) tt t3;
       job_loop (scan_job cfg wk) None t4;
       job_loop (dummy_job wk) tt t5]
  end.

(** ** Every job is legal *)

Context `{!AeadLaws _} `{!SerdeLaws _}.

Lemma legal_store key id o d d' sets seen :
  (id, o) ∈ seen -> o_id o = id -> open_order key o = Some d -> job_change d d' ->
  (forall blob, sets blob = [SetEncryptedBlob blob] \/
     sets blob = [SetEncryptedBlob blob; SetExpiryBucket (option_map floor_timestamp_6h (expires_at d'))]) ->
  forall k : string + nat -> prog (string + unit), (forall x, reads_only (k x)) ->
  legal (job_step key) seen
    (try json := order_to_vec d' in
     let! nonce := ERandom 12 in
     try blob := ok_or (encrypt_order_blob nonce json key id) "Encryption failed" in
     let! x := EOrderUpdate (sets blob) id (o_version o) in k x).
Proof.
  intros Hs Hid Hd Hc Hsets k Hk. destruct (order_to_vec d') as [e|json] eqn:Ej; [done|].
  split; [done|]. intros nonce Hn. cbn [possible learn app] in *.
  destruct (encrypt_order_blob nonce json key id) as [blob|] eqn:Eb; cbn [ok_or]; [|done].
  split; [|intros r _; by apply legal_reads]. exists o. split; [done|]. split; [done|].
  split; [apply row_after_id|]. split; [apply row_after_version|].
  split; [by destruct (Hsets blob) as [-> | ->]; destruct o|]. exists d, d'. split; [done|]. split; [|done].
  subst id. destruct (Hsets blob) as [-> | ->]; unfold open_order; rewrite row_after_id; destruct o; cbn in Eb |- *;
    rewrite (order_blob_roundtrip _ _ _ _ _ Hn Eb); cbn; by rewrite (order_serde_roundtrip _ _ Ej).
Qed.

(** The three updates of the poller start from a row they select. *)
Lemma legal_load {A} P key id (f : bytes * Order * OrderData -> prog (string + A)) seen :
  (forall o d seen', (id, o) ∈ seen' -> o_id o = id -> open_order key o = Some d ->
     legal P seen' (f (key, o, d))) ->
  legal P seen (do l := load_order (Some key) id in try x := l in f x).
Proof.
  intros Hf. unfold load_order. cbn [ok_or bind]. split; [done|]. intros [e|[o|]] Hr; cbn [ok_or]; [done| |done].
  cbn [possible] in Hr. destruct (decrypt_order_blob _ key _) as [raw|] eqn:Ed; cbn [ok_or bind]; [|done].
  destruct (order_from_slice raw) as [e|d] eqn:Es; cbn [map_err bind]; [done|].
  apply Hf; [cbn [learn]; set_solver|done|]. unfold open_order. rewrite Ed. cbn. by rewrite Es.
Qed.

Lemma legal_funded key id now seen : legal (job_step key) seen (mark_order_funded (Some key) id now).
Proof.
  apply (legal_load _ key id (fun x => let '(key, order, data) := x in _)). intros o d seen' Hs Hid Hd.
  destruct (bool_decide_reflect (state d = "pending")) as [Hp|]; cbn [negb]; [|done].
  apply legal_vis; [done|]. intros _ seen2 Hs2. unfold write_data.
  apply (legal_store key id o d _ (fun blob => [SetEncryptedBlob blob; SetExpiryBucket _]));
    [by apply Hs2|done|done|by apply jc_funded|by right|apply affected_reads].
Qed.

Lemma legal_cancelled key id seen : legal (job_step key) seen (mark_order_cancelled (Some key) id).
Proof.
  apply (legal_load _ key id (fun x => let '(key, order, data) := x in _)). intros o d seen' Hs Hid Hd.
  destruct (bool_decide_reflect (state d = "pending")) as [Hp|]; cbn [negb]; [|done].
  apply (legal_store key id o d _ (fun blob => [SetEncryptedBlob blob]));
    [done|done|done|by apply jc_cancelled|by left|apply affected_reads].
Qed.

(** What a settlement can return. *)
Lemma yields_settle cfg wk id d :
  yields (fun r => match r with
                   | inr d' => d' = d \/ exists txid, d' = set_settlement_txid (Some txid) d
                   | inl _ => True
                   end) (settle_stealth_order cfg wk id d).
Proof.
  unfold settle_stealth_order, internal.
  repeat first [ progress cbn [map_err ok_or yields]
               | apply yields_bind; intros []
               | match goal with |- yields _ (match ?x with _ => _ end) => destruct x end
               | exact I | (left; reflexivity) | (right; eexists; reflexivity) ].
Qed.

Lemma legal_settlement key cfg id seen : legal (job_step key) seen (retry_btc_settlement cfg (Some key) id).
Proof.
  apply (legal_load _ key id (fun x => let '(key, order, data) := x in _)). intros o d seen' Hs Hid Hd.
  destruct (bool_decide_reflect (state d = "released")) as [Hp|]; cbn [negb orb]; [|done].
  destruct (bool_decide_reflect (is_Some (settlement_txid d))) as [|Hn]; [done|]. apply eq_None_not_Some in Hn.
  eapply legal_bind_yields; [apply legal_reads, reads_settle|apply yields_settle|].
  intros [e|d'] seen2 Hy Hs2; [done|]. destruct (bool_decide_reflect (is_Some (settlement_txid d'))) as [Ht|]; [|done].
  apply (legal_store key id o d d' (fun blob => [SetEncryptedBlob blob; SetExpiryBucket _]));
    [by apply Hs2|done|done| |by right|intros; reads_only_tac].
  destruct Hy as [->|[txid ->]]; [rewrite Hn in Ht; by destruct Ht|by apply jc_settled].
Qed.

Lemma legal_expiry key id now data {C} (c : C) seen :
  legal (job_step key) seen (with_expiry data now (fun expiry =>
    if expiry <? now then do _ := mark_order_cancelled (Some key) id in Ret c else Ret c)).
Proof.
  unfold with_expiry, arith. destruct (i64_op _); [|done]. destruct (_ <? now); [|done].
  apply legal_bind; [apply legal_cancelled|done].
Qed.

Lemma legal_check_xmr key now xc id data seen : legal (job_step key) seen (check_xmr_payment (Some key) now xc id data).
Proof.
  unfold check_xmr_payment, arith. destruct (escrow_address data); [|done].
  destruct (parse_xmr_amount_safe _); [|done]. destruct (_ =? 0); [done|].
  apply legal_bind; [apply legal_reads, reads_xmr_check|]. intros [c [e|st]] seen' _; [done|].
  destruct (ps_fork_detected st); [done|]. destruct (_ && _).
  - destruct (negb _); [done|]. apply legal_bind; [apply legal_funded|done].
  - destruct (ps_received st); [done|]. apply legal_expiry.
Qed.

Lemma legal_check_btc key now bc id data seen : legal (job_step key) seen (check_btc_payment (Some key) now bc id data).
Proof.
  unfold check_btc_payment, arith. destruct (escrow_address data); [|done].
  destruct (parse_btc_amount_safe _); [|done]. destruct (_ =? 0); [done|].
  apply legal_bind; [apply legal_reads, reads_btc_check|]. intros [c [e|st]] seen' _; [done|].
  destruct (bs_fork_detected st); [done|]. destruct (_ && _).
  - destruct (negb _); [done|]. apply legal_bind; [apply legal_funded|done].
  - destruct (bs_received st); [done|]. apply legal_expiry.
Qed.

Lemma legal_checks P {C} (check : C -> bytes -> OrderData -> prog C) orders :
  (forall c id d seen, legal P seen (check c id d)) -> forall c seen, legal P seen (check_payments check c orders).
Proof.
  intros Hc. induction orders as [|[id d] t IH]; intros c seen; cbn [check_payments]; [done|].
  apply legal_bind; [done|]. intros. apply IH.
Qed.

Lemma legal_settle_all key cfg ids : forall seen, legal (job_step key) seen (settle_all cfg (Some key) ids).
Proof.
  induction ids as [|id t IH]; intros seen; cbn [settle_all]; [done|].
  apply legal_bind; [apply legal_settlement|]. intros. apply IH.
Qed.

Lemma legal_poll key cfg hash_order clients seen :
  legal (job_step key) seen (check_pending_payments cfg (Some key) hash_order clients).
Proof.
  destruct clients as [xc bc]. unfold check_pending_payments. cbn [get_worker_key ok_or].
  apply legal_vis; [done|]. intros ts s1 _. apply legal_vis; [done|]. intros [e|orders] s2 _; [done|].
  destruct (derive_domain_key key "payment-decrypt") as [sk|]; [|done].
  apply legal_bind; [|intros cs s3 _; apply legal_bind; [apply legal_settle_all|done]].
  destruct (_ && _); [done|].
  apply legal_bind; [apply legal_reads, reads_xmr_fork|]. intros [xc' f] s3 _.
  apply legal_bind.
  { destruct f as [|[]]; try done. apply legal_checks. intros. apply legal_check_xmr. }
  intros xc2 s4 _. apply legal_bind; [apply legal_reads, reads_btc_fork|]. intros [bc' g] s5 _.
  apply legal_bind; [|done]. destruct g as [|[]]; try done. apply legal_checks. intros. apply legal_check_btc.
Qed.

(** The sweeps write rows of their snapshot. *)
Lemma legal_for_each P {E R} (body : R -> prog (E + unit)) rows : forall seen,
  (forall o seen', o ∈ rows -> seen ⊆ seen' -> legal P seen' (body o)) -> legal P seen (for_each body rows).
Proof.
  induction rows as [|o t IH]; intros seen Hb; cbn [for_each]; [done|].
  apply legal_bind; [apply Hb; set_solver|]. intros [e|u] seen' Hs; [done|].
  apply IH. intros x s Hx Hsub. apply Hb; set_solver.
Qed.

Lemma legal_sweep key now o seen :
  (o_id o, o) ∈ seen -> legal (job_step key) seen (sweep_row key now o).
Proof.
  intros Hs. unfold sweep_row. destruct (open_order key o) as [d|] eqn:Ed; [|done].
  pose proof (sweep_order_cases (Some key) (o_id o) d now (o_version o)) as Hc.
  destruct (next_data now d) as [f|] eqn:En; [|by rewrite Hc].
  assert (forall u seen', seen ⊆ seen' -> legal (job_step key) seen' (write_order (Some key) (o_id o) (f u) (o_version o)))
    as Hw.
  { intros u seen' Hsub. unfold write_order, write_data. cbn [get_worker_key ok_or].
    apply (legal_store key (o_id o) o d _ (fun blob => [SetEncryptedBlob blob; SetExpiryBucket _]));
      [by apply Hsub|done|done|exact (jc_swept now f u d En)|by right|apply affected_reads]. }
  destruct Hc as [[-> _] | ->]; [by apply Hw|]. apply legal_vis; [done|]. intros u seen' Hsub. by apply Hw.
Qed.

Lemma legal_time_locks key seen : legal (job_step key) seen (check_time_locks (Some key)).
Proof.
  unfold check_time_locks. cbn [get_worker_key ok_or]. apply legal_vis; [done|]. intros ts s1 _.
  split; [done|]. intros [e|orders] _; [done|]. apply legal_for_each. intros o s Ho Hs.
  apply legal_sweep. apply Hs. cbn [learn]. apply elem_of_app. left.
  apply (list_elem_of_fmap_2 (fun o => (o_id o, o))). exact Ho.
Qed.

Lemma legal_listing_expiry P wk seen : legal P seen (check_listing_expiry wk).
Proof.
  unfold check_listing_expiry. destruct wk as [key|]; [|done]. apply legal_vis; [done|]. intros ts s1 _.
  apply legal_vis; [done|]. intros [e|rows] s2 _; [done|]. apply legal_for_each. intros l s _ _.
  unfold expire_listing. destruct (open_listing key l) as [d|]; [|done]. destruct (negb _); [done|].
  destruct (listing_to_vec _); [done|]. apply legal_vis; [done|]. intros nonce s3 _.
  destruct (encrypt_listing_blob _ _ _ _); [|done]. split; [done|]. intros [e|n] _; done.
Qed.

Lemma legal_scan_tx key network tx rpc seen : legal (job_step key) seen (scan_tx network (Some key) tx rpc).
Proof.
  unfold scan_tx. destruct (_ <? 1); [done|]. destruct (hex_decode (se_txid tx)) as [e|h]; [done|].
  apply legal_vis; [done|]. intros [e|[t|]] s1 _; [done..|].
  apply legal_bind; [apply legal_reads, reads_btc_call|]. intros [rpc1 [e|raw]] s2 _; [done|].
  apply legal_bind; [apply legal_reads, reads_btc_call|]. intros [rpc2 [e|dec]] s3 _; [done|].
  destruct (extract_notification _) as [[id pk]|]; [|done]. destruct (negb _); [done|].
  split; [done|]. intros [e|[o|]] Hr; [done| |done]. cbn [possible] in Hr. unfold notify_order.
  destruct (open_order key o) as [d|] eqn:Ed; [|done]. case_bool_decide as Ha; [done|].
  destruct (parse_secp_pubkey _); [done|].
  apply legal_bind; [apply legal_reads, reads_create_address|]. intros [rpc3 [e|[e|addr]]] s4 Hs; [done..|].
  apply legal_bind; [|done]. unfold record_notification.
  apply (legal_store key id o d _ (fun blob => [SetEncryptedBlob blob; SetExpiryBucket _]));
    [apply Hs; cbn [learn]; set_solver|done|done|apply jc_notified|by right|intros; reads_only_tac].
  by destruct (escrow_address d); [destruct Ha|].
Qed.

Lemma legal_scan key cfg last seen : legal (job_step key) seen (scan_notifications cfg (Some key) last).
Proof.
  unfold scan_notifications. destruct (btc_network _) as [e|network]; [done|]. destruct last as [h|].
  - apply legal_bind; [apply legal_reads, reads_btc_call|]. intros [rpc [e|[txs new]]] s1 _; [done|].
    apply legal_bind; [|intros [] s2 _; done]. revert rpc s1.
    induction txs as [|tx rest IH]; intros rpc s1; cbn [scan_txs]; [done|].
    apply legal_bind; [apply legal_scan_tx|]. intros [rpc1 [e|u]] s2 _; [done|]. apply IH.
  - apply legal_bind; [apply legal_reads, reads_btc_call|]. intros [rpc [e|height]] s1 _; [done|].
    apply legal_bind; [apply legal_reads, reads_btc_call|]. intros [rpc' [e|hash]] s2 _; done.
Qed.

Lemma legal_dummy P wk seen : legal P seen (run_dummy_worker wk).
Proof.
  unfold run_dummy_worker. destruct (pick _ _) as [[prob n]|]; [|done]. destruct (f64_lt _ _); [done|].
  apply legal_vis; [done|]. intros ts s1 _. destruct (generate_order _ _) as [[[id d] n']|]; [|done].
  destruct (order_to_vec d); [done|]. destruct wk as [key|]; [|done]. apply legal_vis; [done|]. intros nonce s2 _.
  destruct (encrypt_order_blob _ _ _ _); [|done]. by split.
Qed.

Lemma legal_loop P {C} (job : C -> prog C) ticks :
  (forall c seen, legal P seen (job c)) -> forall c seen, legal P seen (job_loop job c ticks).
Proof.
  intros Hj. induction ticks as [|[] t IH]; intros c seen; cbn [job_loop]; [done..|].
  apply legal_bind; [done|]. intros. apply IH.
Qed.

Lemma legal_workers m st key hash_order clients t1 t2 t3 t4 t5 :
  as_worker_key st = Some key ->
  Forall (legal (job_step key) []) (run_workers m st hash_order clients t1 t2 t3 t4 t5).
Proof.
  intros Hk. unfold run_workers, assert_worker_state. rewrite Hk.
  repeat (apply Forall_cons; split; [apply legal_loop; intros c seen; apply legal_bind; [|done]|]); [..|done].
  - apply legal_poll.
  - apply legal_time_locks.
  - apply legal_listing_expiry.
  - apply legal_scan.
  - apply legal_dummy.
Qed.

(** C11. The whole worker process: however its five loops interleave, database call by
    database call, whatever faults, clocks and nodes answer, and whichever jobs
    panic, no order disappears and each is taken through single-version updates
    that fund or cancel a pending order, settle a released one, open or refund
    an overdue dispute, or record a notification; every change of state on the
    way is one the state machine allows. *)
Theorem workers_interleave env m st key hash_order clients t1 t2 t3 t4 t5 w ls ps w' :
  fair env -> keyed o_id (w_orders w) -> as_worker_key st = Some key ->
  pool_steps env (run_workers m st hash_order clients t1 t2 t3 t4 t5) w ls ps w' ->
  keyed o_id (w_orders w') /\
  forall id o, w_orders w !! id = Some o -> exists o', w_orders w' !! id = Some o' /\
    rtc (job_step key) o o' /\
    forall d d', open_order key o = Some d -> open_order key o' = Some d' ->
      rtc (fun a b => state b = state a \/ can_transition_to a (state b) = true) d d'.
Proof.
  intros Hf Hk Hkey Hs.
  destruct (pool_steps_legal (job_step key) env _ ps w w' ls Hf Hk
              (pool_ok_start _ _ w (legal_workers m st key hash_order clients t1 t2 t3 t4 t5 Hkey)) Hs) as [Hk' Hg].
  split; [done|]. intros id o Ho. destruct (Hg id o Ho) as (o' & Ho' & Hr). exists o'. split; [done|]. split; [done|].
  clear Ho Ho'. induction Hr as [o|o o1 o' (_ & _ & _ & d0 & d1 & Hd0 & Hd1 & Hc) _ IH]; intros d d' Hd Hd'.
  - rewrite Hd in Hd'. by simplify_eq.
  - rewrite Hd in Hd0. simplify_eq. eapply rtc_l; [by apply job_change_lifecycle|]. by apply IH.
Qed.
End jobs.

(** ** Witness *)

Definition idle_state : AppState :=
  mk_app_state _ config_default (new_limiter 1000 60) (kek_from_bytes sample_kek) (Some worker_key) None
    (mk_pool [] "" false) WorkerProcess.

Definition sample_workers : list (prog unit) :=
  run_workers (H := release) (H0 := json_text_inst) (H10 := low_rng) sample_machine idle_state id (synced_client, btc_new)
    [] [Go; Stop; Go] [Go] [] [].

Lemma time_lock_loop : sample_workers !! 1%nat = Some (job_loop (time_lock_job (Some worker_key)) tt [Go; Stop; Go]).
Proof. reflexivity. Qed.

(** The time-lock loop runs once and stops: the overdue order is disputed. *)
Lemma workers_interleave_witness :
  exists ls ps w' o', pool_steps sample_env sample_workers lock_world ls ps w' /\
    w_orders w' !! o_id lock_row = Some o' /\ o_version o' = 2 /\ rtc (job_step worker_key) lock_row o'.
Proof.
  destruct (run sample_env (job_loop (time_lock_job (Some worker_key)) tt [Go; Stop; Go]) lock_world)
    as [w' [u|]] eqn:E; [|apply (f_equal snd) in E; vm_compute in E; discriminate E].
  destruct (run_steps sample_env sample_workers 1 _ _ _ _ time_lock_loop E) as [ls Hs].
  destruct (workers_interleave (H := release) (H0 := json_text_inst) (H10 := low_rng) sample_env sample_machine idle_state worker_key id
              (synced_client, btc_new) [] [Go; Stop; Go] [Go] [] [] lock_world ls _ w'
              sample_env_fair (world_with_order_keyed lock_row) eq_refl Hs) as [_ Hw].
  assert (w_orders lock_world !! o_id lock_row = Some lock_row) as El by (vm_compute; reflexivity).
  destruct (Hw _ _ El) as (o' & Ho & Hr & _). exists ls, (<[1%nat := Ret u]> sample_workers), w', o'. split; [exact Hs|]. split; [exact Ho|].
  split; [|exact Hr].
  assert (o_version <$> w_orders w' !! o_id lock_row = Some 2) as E2.
  { apply (f_equal fst) in E. cbn [fst] in E. rewrite <-E. vm_compute. reflexivity. }
  rewrite Ho in E2. by injection E2.
Defined.
