(* ===== verification/Subscribe.v ===== *)
(** Payment notifications: the WebSocket of
    src/services/payments/subscribe.rs, the channel the poller publishes on, and
    the two processes that each hold a channel of their own.

    A socket is driven by the events its [select!] sees, in the order in which
    they become ready. *)
From S2P Require Import Prelude Interfaces Instances Models Effects Serde Auth Blobs Worker Orders BlindSig Admin Disputes Chat Writers Listings Rpc XmrClient BtcClient Escrow KeyStorage AppConfig Tor Startup TimeLock Poller.

(** ** The socket *)

Inductive SocketEvent :=
| Message (funded_id : string)   (** [rx.recv()] is [Ok] *)
| Lagged (n : Z)                 (** [RecvError::Lagged] *)
| Closed                         (** [RecvError::Closed] *)
| ClientSpoke.                   (** [socket.recv()] *)

(** [{"order_id": .., "type": "funded"}] *)
Definition funded_payload (order_id : string) : Json :=
  JObj [("order_id", JStr order_id); ("type", JStr "funded")].

Section subscribe.
Context `{Hex}.

(** [None] when the upgrade is refused. *)
Definition ws_handler (order_id : string) : string + string :=
  match hex_decode order_id with
  | inl _ => inl "invalid order_id"
  | inr _ => inr order_id
  end.

(** The messages handed to [socket.send]; the loop ends after the first, whether
    or not it could be sent. *)
Fixpoint handle_socket (order_id : string) (events : list SocketEvent) : list Json :=
  match events with
  | [] => []
  | Message funded_id :: rest =>
      if bool_decide (funded_id = order_id) then [funded_payload order_id]
      else handle_socket order_id rest
  | Lagged _ :: rest => handle_socket order_id rest
  | Closed :: _ | ClientSpoke :: _ => []
  end.

(** An event that leaves the socket waiting. *)
Definition ignored (order_id : string) (e : SocketEvent) : Prop :=
  match e with Message funded_id => funded_id <> order_id | Lagged _ => True | _ => False end.

Lemma handle_socket_ignored order_id before events :
  Forall (ignored order_id) before -> handle_socket order_id (before ++ events) = handle_socket order_id events.
Proof.
  induction 1 as [|e before He _ IH]; [done|]. destruct e; cbn in *; try done.
  by rewrite bool_decide_eq_false_2.
Qed.

(** A socket sends at most one message, exactly when the identifier it was opened
    with is published, letter for letter, before the channel closes or the
    client sends anything. *)
Lemma socket_notifies order_id events :
  handle_socket order_id events = [funded_payload order_id] <->
  exists before rest, events = before ++ Message order_id :: rest /\ Forall (ignored order_id) before.
Proof.
  split.
  - induction events as [|e events IH]; cbn; [done|]. destruct e as [id| | |]; try done.
    + case_bool_decide as Hid; intros E.
      * subst id. by exists [], events.
      * destruct (IH E) as (b & r & -> & Hb). exists (Message id :: b), r. split; [done|by constructor].
    + intros E. destruct (IH E) as (b & r & -> & Hb). exists (Lagged n :: b), r. split; [done|by constructor].
  - intros (b & r & -> & Hb). rewrite handle_socket_ignored by done. cbn. by rewrite bool_decide_eq_true_2.
Qed.

Lemma socket_silent order_id events :
  (forall id, Message id ∈ events -> id <> order_id) -> handle_socket order_id events = [].
Proof.
  induction events as [|e events IH]; intros Hm; [done|]. destruct e as [id| | |]; cbn; try done.
  - rewrite bool_decide_eq_false_2 by (apply Hm; set_solver). apply IH. set_solver.
  - apply IH. set_solver.
Qed.
End subscribe.

(** ** Programs that publish nothing *)

Definition publishes {R} (e : ev R) : bool := match e with EPublish _ => true | _ => false end.

Fixpoint silent {A} (p : prog A) : Prop :=
  match p with
  | Ret _ | Panic => True
  | Vis e k => publishes e = false /\ forall r, silent (k r)
  end.

Lemma silent_bind {A B} (p : prog A) (f : A -> prog B) :
  silent p -> (forall a, silent (f a)) -> silent (bind p f).
Proof.
  intros Hp Hf. induction p as [a| |R e k IH]; [apply Hf|done|]. destruct Hp as [He Hk].
  split; [done|]. intros r. by apply IH.
Qed.

Lemma handle_silent env {R} (e : ev R) w w' r :
  publishes e = false -> handle env e w = (w', r) -> w_published w' = w_published w.
Proof.
  intros He Hh. destruct e; try discriminate He; unfold handle, guarded in Hh;
    repeat case_match; by simplify_eq/=.
Qed.

Ltac silent_tac :=
  repeat first
    [ exact I
    | apply silent_bind; [|intros ?]
    | match goal with
      | |- silent (Vis _ _) => split; [reflexivity|intros ?]
      | |- silent (match ?x with _ => _ end) => destruct x
      | |- silent (bind (match ?x with _ => _ end) _) => destruct x
      | |- silent (arith ?x _) => unfold arith
      end ].

(** ** The requests of the API process *)

Inductive ApiRequest :=
| ACreateOrder (req : CreateOrderRequest)
| AGetOrder (id : string)
| AWrite (r : WriteRequest)
| AGetDispute (id : string)
| AGetChat (id : string)
| ACreateListing (req : CreateListingRequest)
| AListListings (q : SearchQuery)
| AGetListing (id : string)
| AUpdateListing (id : string) (req : UpdateListingRequest)
| ARotateKek (req : RotateKekRequest)
| AChallenge (pubkey : string)
| AVerify (req : VerifyRequest).

Section api.
Context `{BuildProfile} `{Hex} `{Base64} `{Hashing} `{BigInts} `{Pkcs1} `{UuidText} `{Cbor} `{Ed25519}.
Variables (admin_keypair : option AdminKeypair) (data_dir server_secret : string) (default_lock_days : Z).

Definition api_program (r : ApiRequest) : prog unit :=
  match r with
  | ACreateOrder req => do _ := create_order default_lock_days req in Ret tt
  | AGetOrder id => do _ := get_order id in Ret tt
  | AWrite r => do _ := serve admin_keypair r in Ret tt
  | AGetDispute id => do _ := get_dispute id in Ret tt
  | AGetChat id => do _ := get_chat id in Ret tt
  | ACreateListing req => do _ := create_listing req in Ret tt
  | AListListings q => do _ := list_listings q in Ret tt
  | AGetListing id => do _ := get_listing id in Ret tt
  | AUpdateListing id req => do _ := update_listing id req in Ret tt
  | ARotateKek req => do _ := rotate_kek admin_keypair data_dir req in Ret tt
  | AChallenge pubkey => do _ := challenge pubkey in Ret tt
  | AVerify req => do _ := verify server_secret req in Ret tt
  end.

Lemma api_silent r : silent (api_program r).
Proof.
  destruct r; cbn [api_program]; apply silent_bind; try done.
  - unfold create_order. silent_tac.
  - unfold get_order. silent_tac.
  - destruct r; cbn [serve]; apply silent_bind; try done.
    + unfold update_order. silent_tac.
    + unfold open_dispute, bump_order. silent_tac.
    + unfold update_dispute, bump_order. silent_tac.
    + unfold resolve_dispute, bump_order. silent_tac.
    + unfold update_chat. silent_tac.
  - unfold get_dispute. silent_tac.
  - unfold get_chat. silent_tac.
  - unfold create_listing. silent_tac.
  - unfold list_listings. silent_tac.
  - unfold get_listing. silent_tac.
  - unfold update_listing. silent_tac.
  - unfold rotate_kek. silent_tac.
  - unfold challenge, cleanup_challenges. silent_tac.
  - unfold verify, cleanup_challenges. silent_tac.
Qed.
End api.

(** ** Two processes over one database *)

#[global] Instance process_eq_dec : EqDecision process.
Proof. solve_decision. Defined.

(** The shared world, and what was sent on the channel of each process. *)
Record System := mk_system { sys_world : World; sys_channel : process -> list string }.

Definition w_set_published (l : list string) (w : World) : World :=
  mk_world (w_orders w) (w_listings w) (w_tracker w) (w_nonces w) (w_challenges w) l (w_files w) (w_time w).

(** The world as a thread of [p] sees it. *)
Definition in_process (p : process) (s : System) : World := w_set_published (sys_channel s p) (sys_world s).

Definition after_step (p : process) (w : World) (s : System) : System :=
  mk_system w (fun q => if decide (q = p) then w_published w else sys_channel s q).

(** One effect of one thread, in its process. *)
Inductive sys_step (env : Env) :
    list (process * prog unit) -> System -> list (process * prog unit) -> System -> Prop :=
| sys_step_intro ps i p R (e : ev R) k s w r :
    ps !! i = Some (p, Vis e k) -> handle env e (in_process p s) = (w, r) ->
    sys_step env ps s (<[i := (p, k r)]> ps) (after_step p w s).

Inductive sys_steps (env : Env) :
    list (process * prog unit) -> System -> list (process * prog unit) -> System -> Prop :=
| sys_refl ps s : sys_steps env ps s ps s
| sys_trans ps s ps1 s1 ps2 s2 :
    sys_step env ps s ps1 s1 -> sys_steps env ps1 s1 ps2 s2 -> sys_steps env ps s ps2 s2.

(** Every thread of the process [p] publishes nothing. *)
Definition quiet_process (p : process) (ps : list (process * prog unit)) : Prop :=
  forall (i : nat) q, ps !! i = Some (p, q) -> silent q.

Lemma sys_step_quiet env p ps s ps' s' :
  sys_step env ps s ps' s' -> quiet_process p ps ->
  quiet_process p ps' /\ sys_channel s' p = sys_channel s p.
Proof.
  intros [qs i q R e k t w r Hi Hh] Hq. split.
  - intros j x Hj. destruct (decide (j = i)) as [->|Hne].
    + rewrite list_lookup_insert_eq in Hj by (by eapply lookup_lt_Some). simplify_eq.
      destruct (Hq i _ Hi) as [_ Hk]. apply Hk.
    + rewrite list_lookup_insert_ne in Hj by done. by apply (Hq j).
  - cbn. case_decide as Hpq; [|done]. subst q. destruct (Hq i _ Hi) as [He _].
    by rewrite (handle_silent _ _ _ _ _ He Hh).
Qed.

Lemma sys_steps_quiet env p ps s ps' s' :
  sys_steps env ps s ps' s' -> quiet_process p ps -> sys_channel s' p = sys_channel s p.
Proof.
  induction 1 as [|ps s ps1 s1 ps2 s2 H1 _ IH]; intros Hq; [done|].
  destruct (sys_step_quiet env p ps s ps1 s1 H1 Hq) as [Hq1 <-]. by apply IH.
Qed.

(** A thread that runs alone. *)
Lemma sys_run env p q : forall (i : nat) ps s w a,
  ps !! i = Some (p, q) -> run env q (in_process p s) = (w, Some a) ->
  exists ps' s', sys_steps env ps s ps' s' /\ sys_channel s' p = w_published w /\ w_orders (sys_world s') = w_orders w.
Proof.
  induction q as [x| |R e k IH]; intros i ps s w a Hi E; [|done|].
  - cbn in E. simplify_eq. exists ps, s. split; [constructor|done].
  - cbn [run] in E. destruct (handle env e (in_process p s)) as [w1 r] eqn:Eh.
    set (s1 := after_step p w1 s). assert (in_process p s1 = w1) as Hw1.
    { unfold in_process, s1, after_step. cbn. rewrite decide_True by done. by destruct w1. }
    assert (i < length ps)%nat as Hlt by (by eapply lookup_lt_Some).
    destruct (IH r i (<[i := (p, k r)]> ps) s1 w a) as (ps' & s' & Hs & Hc & Ho);
      [by apply list_lookup_insert_eq|by rewrite Hw1|].
    exists ps', s'. split; [|done]. eapply sys_trans; [|exact Hs].
    by apply (sys_step_intro env ps i p R e k s w1 r).
Qed.

Section notifications.
Context `{BuildProfile} `{Hex} `{Base64} `{Hashing} `{BigInts} `{Pkcs1} `{UuidText} `{Cbor} `{Ed25519}.
Variables (admin_keypair : option AdminKeypair) (data_dir server_secret : string) (default_lock_days : Z).

(** C38. Payment notifications never arrive: the sockets listen on the channel of the
    API process, on which none of its requests sends, while the jobs send on the
    channel of the worker process.  Whatever API requests and worker programs
    run, in any interleaving, a subscriber sees none of the orders funded. *)
Theorem ws_never_notified env ps s ps' s' order_id events :
  (forall (i : nat) q, ps !! i = Some (ApiProcess, q) ->
     exists r, q = api_program admin_keypair data_dir server_secret default_lock_days r) ->
  sys_channel s ApiProcess = [] -> sys_steps env ps s ps' s' ->
  (forall id, Message id ∈ events -> id ∈ sys_channel s' ApiProcess) ->
  handle_socket order_id events = [].
Proof.
  intros Hapi Hc Hs Hm. apply socket_silent. intros id Hid. apply Hm in Hid.
  rewrite (sys_steps_quiet env ApiProcess ps s ps' s' Hs), Hc in Hid; [by apply elem_of_nil in Hid|].
  intros i q Hi. destruct (Hapi i q Hi) as [r ->]. apply api_silent.
Qed.
End notifications.

(** ** Witness *)

Definition funding_job : prog unit :=
  do _ := mark_order_funded (H2 := hex_inst) (Some poll_key) (o_id poll_order) 5 in Ret tt.

Definition two_processes : list (process * prog unit) :=
  [(ApiProcess, api_program (H := release) None "data" "secret" 7 (AGetOrder (hex_encode (o_id poll_order))));
   (WorkerProcess, funding_job)].

Definition both_idle : System := mk_system poll_world (fun _ => []).

Lemma api_thread (a b : prog unit) (i : nat) q :
  [(ApiProcess, a); (WorkerProcess, b)] !! i = Some (ApiProcess, q) -> q = a.
Proof. destruct i as [|[|i]]; cbn; [by intros [= <-]|done|done]. Qed.

(** The worker funds the order and says so on its own channel; the socket that
    waits for this order gets nothing. *)
Lemma ws_never_notified_witness :
  exists ps' s', sys_steps sample_env two_processes both_idle ps' s' /\
    sys_channel s' WorkerProcess = [hex_encode (o_id poll_order)] /\
    forall events, (forall id, Message id ∈ events -> id ∈ sys_channel s' ApiProcess) ->
      handle_socket (hex_encode (o_id poll_order)) events = [].
Proof.
  destruct (run sample_env funding_job (in_process WorkerProcess both_idle)) as [w [u|]] eqn:E;
    [|apply (f_equal snd) in E; vm_compute in E; discriminate E].
  destruct (sys_run sample_env WorkerProcess funding_job 1 two_processes both_idle w u eq_refl E)
    as (ps' & s' & Hs & Hc & _).
  exists ps', s'. split; [exact Hs|]. split.
  - rewrite Hc. apply (f_equal fst) in E. cbn [fst] in E. rewrite <-E. vm_compute. reflexivity.
  - intros events Hm.
    apply (ws_never_notified (H := release) None "data" "secret" 7 sample_env two_processes both_idle ps' s'
             (hex_encode (o_id poll_order)) events); [|reflexivity|exact Hs|exact Hm].
    intros i q Hq. exists (AGetOrder (hex_encode (o_id poll_order))). exact (api_thread _ _ i q Hq).
Defined.
