(* ===== verification/System.v ===== *)
(** Both processes over one database: the five loops of the worker and any API
    requests, interleaved effect by effect.

    An order is a row two kinds of writers share.  The jobs write its data
    ([job_step]), the API its client columns and, on a signed request, its data
    ([api_step]); the version in the WHERE clause makes every committed update
    one step of either kind, from the row it was computed from. *)
From stdpp Require Import relations.
From S2P Require Import Prelude Interfaces Instances Models Effects Serde Auth Blobs Worker Transition Orders BlindSig Admin Disputes Chat Writers Listings Rpc XmrClient BtcClient Escrow KeyStorage AppConfig Tor Startup TimeLock Poller DummyWorker Interleave Jobs Subscribe.

(** ** What the requests may do to a row *)

Section steps.
Context `{Hex} `{Hashing} `{BigInts} `{Pkcs1} `{Cbor} `{Ed25519}.

Inductive api_step (admin : option AdminKeypair) (o : Order) : Order -> Prop :=
| as_signed pk blob nonce hour sig p :
    verify_transition pk (payload_new (o_id o) (o_version o) (sha256 blob) nonce hour) sig = inr p ->
    0 < Z.of_nat (length blob) <= MAX_ORDER_BLOB_BYTES ->
    api_step admin o (row_after [SetEncryptedBlob blob] o)
| as_opened blob :
    Z.of_nat (length blob) <= MAX_DISPUTE_BLOB_BYTES ->
    api_step admin o (row_after [SetDisputeBlob blob; SetHasDispute 1] o)
| as_disputed blob :
    Z.of_nat (length blob) <= MAX_DISPUTE_BLOB_BYTES ->
    api_step admin o (row_after [SetDisputeBlob blob] o)
| as_resolved kp id nonce expiry sig outcome :
    admin = Some kp -> hex_decode id = inr (o_id o) ->
    verify_token (compose_token_message "dispute:resolve" id nonce (u64_wrap expiry)) sig (ak_public kp) = true ->
    api_step admin o (row_after [SetDisputeBlob outcome; SetHasDispute 0] o)
| as_chat blob :
    Z.of_nat (length blob) <= MAX_CHAT_BLOB_BYTES ->
    api_step admin o (row_after [SetChatBlob blob] o).

(** Every request keeps the identity of the row, and only a signed one touches
    what the worker reads. *)
Lemma api_step_frame admin o o' :
  api_step admin o o' ->
  o_id o' = o_id o /\ o_version o' = o_version o + 1 /\ o_day_bucket o' = o_day_bucket o /\
  o_expiry_bucket o' = o_expiry_bucket o /\ o_client_encrypted_blob o' = o_client_encrypted_blob o.
Proof. intros []; (split; [apply row_after_id|]; split; [apply row_after_version|]; by destruct o). Qed.

(** The flag falls only by a token of the administrator. *)
Lemma api_step_flag admin o o' :
  api_step admin o o' -> o_has_dispute o <> 0 -> admin = None -> o_has_dispute o' <> 0.
Proof. intros [] Hf Ha; destruct o; cbn in *; congruence. Qed.
End steps.

(** ** Every request is legal *)

(** Descends through a program; updates are left. *)
Ltac legal_tac :=
  repeat first
    [ exact I
    | apply legal_bind; [|intros ? ? _]
    | match goal with
      | |- legal _ _ (Vis _ _) => split; [exact I|intros ? _]
      | |- legal _ _ (match ?x with _ => _ end) => destruct x
      | |- legal _ _ (bind (match ?x with _ => _ end) _) => destruct x
      | |- legal _ _ (arith ?x _) => unfold arith
      end ].

Section api.
Context `{BuildProfile} `{Hex} `{Base64} `{Hashing} `{BigInts} `{Pkcs1} `{UuidText} `{Cbor} `{Ed25519}.
Variables (admin : option AdminKeypair) (data_dir server_secret : string) (default_lock_days : Z).

Lemma legal_select {A} P id (k : string + option Order -> prog A) seen :
  legal P seen (k (inr None)) -> (forall e, legal P seen (k (inl e))) ->
  (forall o seen', (id, o) ∈ seen' -> o_id o = id -> legal P seen' (k (inr (Some o)))) ->
  legal P seen (Vis (EOrderSelect id) k).
Proof.
  intros Hn He Ho. split; [done|]. intros [e|[o|]] Hr; cbn [learn possible app] in *; [done| |done].
  apply Ho; [set_solver|done].
Qed.

Lemma legal_update {A} (P : Order -> Order -> Prop) sets id v (k : string + nat -> prog A) seen o :
  (id, o) ∈ seen -> o_version o = v -> P o (row_after sets o) -> (forall r, reads_only (k r)) ->
  legal P seen (Vis (EOrderUpdate sets id v) k).
Proof. intros Hs Hv HP Hk. split; [by exists o|]. intros r _. apply legal_reads, Hk. Qed.

Lemma legal_bump P sets missing id seen :
  (forall o, o_id o = id -> P o (row_after sets o)) -> legal P seen (bump_order sets missing id).
Proof.
  intros HP. unfold bump_order. apply legal_select; [done..|]. intros o s Hs Hid. cbn [map_err ok_or].
  apply (legal_update P _ _ _ _ _ o); [done|done|by apply HP|]. intros r. unfold arith. reads_only_tac.
Qed.

Lemma legal_update_order pk id req seen : legal (api_step admin) seen (update_order pk id req).
Proof.
  unfold update_order. destruct (hex_decode id) as [e|idb]; cbn [map_err]; [done|].
  destruct (decode_order_blob _) as [e|blob] eqn:Hb; [done|].
  apply legal_vis; [done|]. intros fresh s1 _. destruct (negb fresh); [done|].
  apply legal_select; [done..|]. intros o s2 Hs Hid. cbn [map_err ok_or].
  destruct (hex_decode (uo_nonce req)) as [e|nonce]; cbn [map_err]; [done|].
  destruct (hex_decode (uo_transition_signature req)) as [e|sig]; cbn [map_err]; [done|].
  destruct (negb _); [done|]. destruct (verify_transition _ _ _) as [e|p] eqn:Hv; cbn [map_err]; [done|].
  apply (legal_update _ _ _ _ _ _ o); [done|done| |intros r; unfold arith; reads_only_tac].
  apply decode_order_blob_ok in Hb as [_ Hb]. rewrite <-Hid in Hv. by eapply as_signed.
Qed.

Lemma legal_serve r seen : legal (api_step admin) seen (serve admin r).
Proof.
  destruct r as [pk id req|req|id req|id req|id req]; cbn [serve]; (apply legal_bind; [|done]).
  - apply legal_update_order.
  - unfold open_dispute. destruct (hex_decode _) as [e|idb]; cbn [map_err]; [done|].
    destruct (decode_dispute_blob _ _ _) as [e|blob] eqn:Hb; [done|]. apply decode_dispute_blob_ok in Hb as [_ Hb].
    apply legal_vis; [done|]. intros fresh s1 _. destruct (negb fresh); [done|].
    apply legal_vis; [done|]. intros u s2 _. apply legal_bind; [|by intros []].
    apply legal_bump. intros o _. by apply as_opened.
  - unfold update_dispute. destruct (hex_decode _) as [e|idb]; cbn [map_err]; [done|].
    destruct (decode_dispute_blob _ _ _) as [e|blob] eqn:Hb; [done|]. apply decode_dispute_blob_ok in Hb as [_ Hb].
    apply legal_vis; [done|]. intros fresh s1 _. destruct (negb fresh); [done|].
    apply legal_bind; [|by intros []]. apply legal_bump. intros o _. by apply as_disputed.
  - unfold resolve_dispute. destruct admin as [kp|] eqn:Ha; cbn [ok_or]; [|done].
    destruct (check_token _ _ _ _) as [e|[nonce expiry]] eqn:Ht; [done|].
    apply check_token_ok in Ht as (sig & nb & _ & _ & _ & _ & _ & _ & Hv).
    apply legal_vis; [done|]. intros secs s1 _. destruct (token_fresh _ _) as [[]|]; [|done..].
    apply legal_vis; [done|]. intros fresh s2 _. destruct (negb fresh); [done|].
    destruct (hex_decode id) as [e|idb] eqn:Hid; cbn [map_err]; [done|].
    destruct (decode_dispute_blob _ _ _) as [e|blob]; [done|].
    apply legal_bind; [|by intros []]. apply legal_bump. intros o Ho. subst idb. by eapply as_resolved; [reflexivity|done|].
  - unfold update_chat. destruct (hex_decode _) as [e|idb]; cbn [map_err]; [done|].
    destruct (b64_decode _) as [e|blob]; [done|].
    destruct (Z.ltb_spec MAX_CHAT_BLOB_BYTES (Z.of_nat (length blob))); [done|].
    apply legal_select; [done..|]. intros o s2 Hs Hid. cbn [map_err ok_or].
    apply legal_vis; [done|]. intros fresh s3 Hs3. destruct (negb fresh); [done|].
    apply (legal_update _ _ _ _ _ _ o); [by apply Hs3|done|by apply as_chat|].
    intros r. unfold arith. reads_only_tac.
Qed.
End api.

(** ** The interleaving of two processes *)

Lemma in_process_orders p s : w_orders (in_process p s) = w_orders (sys_world s).
Proof. done. Qed.

Definition sys_ok (P : Order -> Order -> Prop) (ps : list (process * prog unit)) (s : System) : Prop :=
  forall (i : nat) q p, ps !! i = Some (q, p) ->
    exists seen, current (w_orders (sys_world s)) seen /\ legal P seen p.

Lemma sys_step_legal P env ps s ps' s' :
  fair env -> keyed o_id (w_orders (sys_world s)) -> sys_ok P ps s -> sys_step env ps s ps' s' ->
  keyed o_id (w_orders (sys_world s')) /\ sys_ok P ps' s' /\
  grows P (w_orders (sys_world s)) (w_orders (sys_world s')).
Proof.
  intros Hf Hk Hok Hs. revert Hk Hok. destruct Hs as [qs i q R e k t w r Hi Hh]. intros Hk Hok.
  destruct (Hok i _ _ Hi) as (seen & Hc & Ha & Hl).
  destruct (handle_legal P env e (in_process q t) w r seen Hf Hk Hc Ha Hh) as (Hp & Hlearn & Hk' & Hg & Hkeep).
  split; [done|]. split; [|done]. intros j q' p Hj. destruct (decide (j = i)) as [->|Hne].
  - rewrite list_lookup_insert_eq in Hj by (by eapply lookup_lt_Some). simplify_eq.
    exists (learn e r ++ seen). split; [|by apply Hl]. intros id o Ho.
    apply elem_of_app in Ho as [Ho|Ho]; [by apply Hlearn|]. by apply (Hkeep seen Hc).
  - rewrite list_lookup_insert_ne in Hj by done. destruct (Hok j _ _ Hj) as (seen' & Hc' & Hl').
    exists seen'. split; [by apply Hkeep|done].
Qed.

Lemma sys_steps_legal P env ps s ps' s' :
  fair env -> keyed o_id (w_orders (sys_world s)) -> sys_ok P ps s -> sys_steps env ps s ps' s' ->
  keyed o_id (w_orders (sys_world s')) /\ grows P (w_orders (sys_world s)) (w_orders (sys_world s')).
Proof.
  intros Hf Hk Hok Hs. induction Hs as [ps s|ps s ps1 s1 ps2 s2 H1 _ IH].
  - split; [done|apply grows_refl].
  - destruct (sys_step_legal P env ps s ps1 s1 Hf Hk Hok H1) as (Hk1 & Hok1 & Hg1).
    destruct (IH Hk1 Hok1) as [Hk2 Hg2]. split; [done|]. by eapply grows_trans.
Qed.

Section both.
Context `{BuildProfile} `{JsonText} `{Hashing} `{Hex} `{Aead} `{X25519} `{Serde} `{Secp256k1} `{BitcoinLib}
  `{UuidText} `{Reqwest} `{Rng} `{Base64} `{BigInts} `{Pkcs1} `{Cbor} `{Ed25519}.
Context `{!AeadLaws _} `{!SerdeLaws _}.
Variables (admin : option AdminKeypair) (data_dir server_secret : string) (default_lock_days : Z).

Lemma legal_api r seen :
  legal (api_step admin) seen (api_program admin data_dir server_secret default_lock_days r).
Proof.
  destruct r; cbn [api_program]; (apply legal_bind; [|done]); try apply legal_serve.
  - unfold create_order. legal_tac.
  - unfold get_order. legal_tac.
  - unfold get_dispute. legal_tac.
  - unfold get_chat. legal_tac.
  - unfold create_listing. legal_tac.
  - unfold list_listings. legal_tac.
  - unfold get_listing. legal_tac.
  - unfold update_listing. legal_tac.
  - unfold rotate_kek. legal_tac.
  - unfold challenge, cleanup_challenges. legal_tac.
  - unfold verify, cleanup_challenges. legal_tac.
Qed.

(** One committed update, by a job or by a request. *)
Definition system_step (key : bytes) (o o' : Order) : Prop := job_step key o o' \/ api_step admin o o'.

(** The threads of the worker process and of the API process. *)
Definition system (m : Machine) (st : AppState) (hash_order : list bytes -> list bytes)
    (clients : MoneroViewOnlyClient * BitcoinClient) (t1 t2 t3 t4 t5 : list tick) (reqs : list ApiRequest)
    : list (process * prog unit) :=
  ((fun p => (WorkerProcess, p)) <$> run_workers m st hash_order clients t1 t2 t3 t4 t5) ++
  ((fun r => (ApiProcess, api_program admin data_dir server_secret default_lock_days r)) <$> reqs).

Lemma system_ok m st key hash_order clients t1 t2 t3 t4 t5 reqs s :
  as_worker_key st = Some key ->
  sys_ok (system_step key) (system m st hash_order clients t1 t2 t3 t4 t5 reqs) s.
Proof.
  intros Hk i q p Hi. exists []. split; [intros id o Ho; by apply elem_of_nil in Ho|].
  apply list_elem_of_lookup_2, elem_of_app in Hi as [Hi|Hi]; apply list_elem_of_fmap in Hi as (x & Hx & Hin).
  - injection Hx as -> ->. pose proof (legal_workers m st key hash_order clients t1 t2 t3 t4 t5 Hk) as Hl.
    rewrite Forall_forall in Hl. eapply legal_weaken; [|by apply Hl]. by left.
  - injection Hx as -> ->. eapply legal_weaken; [|apply legal_api]. by right.
Qed.

Lemma system_step_frame key o o' :
  system_step key o o' ->
  o_id o' = o_id o /\ o_version o' = o_version o + 1 /\ o_day_bucket o' = o_day_bucket o /\
  o_client_encrypted_blob o' = o_client_encrypted_blob o /\
  (admin = None -> o_has_dispute o <> 0 -> o_has_dispute o' <> 0).
Proof.
  intros [(Hi & Hv & Hc & _)|Ha].
  - injection Hc as Hd Hf Hb _ _. split_and!; try done. by rewrite Hf.
  - destruct (api_step_frame _ _ _ Ha) as (Hi & Hv & Hd & _ & Hb). split_and!; try done.
    intros Hn Hf. by eapply api_step_flag.
Qed.

(** C2. The life of an order in the running system.  Whatever requests are served
    while the five jobs run, however their database calls interleave and
    whatever fails, an order never disappears; its row is the result of a chain
    of updates, each computed from the row just before it and raising the
    version by one: a legal change by a job, a signed replacement of the data,
    a dispute, a message, or a resolution with an administrator's token.  Its
    identity, its day and its client blob stay, and without an administrator
    key its dispute flag never falls (the dispute recorded inside the encrypted
    data is another matter: a job may resolve an overdue one). *)
Theorem system_history env m st key hash_order clients t1 t2 t3 t4 t5 reqs s ps' s' id o :
  fair env -> keyed o_id (w_orders (sys_world s)) -> as_worker_key st = Some key ->
  sys_steps env (system m st hash_order clients t1 t2 t3 t4 t5 reqs) s ps' s' ->
  w_orders (sys_world s) !! id = Some o ->
  exists o' n, w_orders (sys_world s') !! id = Some o' /\
    nsteps (system_step key) n o o' /\ o_version o' = o_version o + Z.of_nat n /\
    o_id o' = o_id o /\ o_day_bucket o' = o_day_bucket o /\
    o_client_encrypted_blob o' = o_client_encrypted_blob o /\
    (admin = None -> o_has_dispute o <> 0 -> o_has_dispute o' <> 0).
Proof.
  intros Hf Hk Hkey Hs Ho.
  destruct (sys_steps_legal (system_step key) env _ s ps' s' Hf Hk
              (system_ok m st key hash_order clients t1 t2 t3 t4 t5 reqs s Hkey) Hs) as [_ Hg].
  destruct (Hg id o Ho) as (o' & Ho' & [n Hn]%rtc_nsteps). exists o', n. split; [done|]. split; [done|].
  clear -Hn. induction Hn as [x|n x y z Hxy _ (Hv & Hi & Hd & Hc & Hfl)].
  - split_and!; [lia|done..].
  - destruct (system_step_frame key x y Hxy) as (Hi' & Hv' & Hd' & Hc' & Hfl').
    split_and!; [lia|congruence..|auto].
Qed.
End both.

(** ** Witness *)

(** A buyer opens a dispute while the worker's loops are idle. *)
Definition lock_dispute : OpenDisputeRequest :=
  mk_open_dispute (hex_encode (o_id lock_row)) (b64_encode (as_bytes "broken")) "" "01".

Definition dispute_program : prog unit :=
  api_program (H := release) None "data" "secret" 7 (AWrite (WOpenDispute lock_dispute)).

Definition sample_system : list (process * prog unit) :=
  system (H := release) (H0 := json_text_inst) (H10 := low_rng) None "data" "secret" 7 sample_machine idle_state id
    (synced_client, btc_new) [] [] [] [] [] [AWrite (WOpenDispute lock_dispute)].

Definition lock_system : System := mk_system lock_world (fun _ => []).

Lemma dispute_thread : sample_system !! 5%nat = Some (ApiProcess, dispute_program).
Proof. reflexivity. Qed.

Lemma system_history_witness :
  exists ps' s' o', sys_steps sample_env sample_system lock_system ps' s' /\
    w_orders (sys_world s') !! o_id lock_row = Some o' /\ o_has_dispute o' = 1 /\
    nsteps (system_step None worker_key) 1 lock_row o'.
Proof.
  destruct (run sample_env dispute_program (in_process ApiProcess lock_system)) as [w [u|]] eqn:E;
    [|apply (f_equal snd) in E; vm_compute in E; discriminate E].
  destruct (sys_run sample_env ApiProcess dispute_program 5 sample_system lock_system w u dispute_thread E)
    as (ps' & s' & Hs & _ & Hw).
  assert (w_orders lock_world !! o_id lock_row = Some lock_row) as El by (vm_compute; reflexivity).
  destruct (system_history (H := release) (H0 := json_text_inst) (H10 := low_rng) None "data" "secret" 7 sample_env
              sample_machine idle_state worker_key id (synced_client, btc_new) [] [] [] [] []
              [AWrite (WOpenDispute lock_dispute)] lock_system ps' s' (o_id lock_row) lock_row
              sample_env_fair (world_with_order_keyed lock_row) eq_refl Hs El) as (o' & n & Ho & Hn & Hv & _).
  exists ps', s', o'. split; [exact Hs|]. split; [exact Ho|].
  assert ((fun x => (o_version x, o_has_dispute x)) <$> w_orders (sys_world s') !! o_id lock_row = Some (2, 1)) as E2.
  { rewrite Hw. apply (f_equal fst) in E. cbn [fst] in E. rewrite <-E. vm_compute. reflexivity. }
  rewrite Ho in E2. injection E2 as Hv2 Hf. split; [exact Hf|].
  rewrite Hv2 in Hv. change (o_version lock_row) with 1 in Hv. assert (n = 1%nat) as -> by lia. exact Hn.
Defined.
